(* ===== verification/_CoqProject ===== *)
-Q . S2P
Prelude.v
CLib.v
Frame.v
Kv.v
State.v
Uv.v
Tables.v
Session.v
Transfer.v
Upload.v
Download.v
Proc.v
Args.v
ProcLife.v
Heartbeat.v
Lua.v
Protocol.v
Diag.v
Handlers.v
Stream.v
Server.v
System.v
Balance.v
Portfwd.v
Relays.v
RelayList.v
Lifecycle.v
Startup.v
Shell.v
