(* ===== verification/Prelude.v ===== *)
(** * Verification of reactos-luagent

    The repository is a remote agent for ReactOS.  A client opens a TCP
    connection and exchanges frames with it: greetings and heartbeats, file
    uploads and downloads, processes to run, and requests that a Lua script
    answers, among them relays of TCP ports.  The agent is single-threaded:
    libuv's event loop calls one callback at a time.  A second program,
    [hello.c], is a command line over a serial port.

    ** Parts of the program, and the files that model them

    The C sources are under [src/src/]; a name below is the C name unless it
    says otherwise, and the Rocq definitions keep the C names.

    - [CLib.v]: the C library functions the sources call, and
      [util_snprintf] ([util.c]).
    - [Frame.v]: the frame header ([frame.h], [frame.c]).
    - [Kv.v]: the parsers of [key=value] payloads ([transfer.c], [proc.c]).
    - [State.v]: the structures ([session.h], [transfer.h], [proc.h],
      [diag.h]).
    - [Uv.v]: libuv, the clock and the allocator, which are not part of the
      repository: the class [Uv] of the calls the program makes, over any
      type [W] of worlds; the documented laws of the file-system calls
      ([FsLaws]); what an environment without failures is ([Healthy]); and
      [Sim], a concrete world that has all of these.
    - [Session.v]: sending, closing, reference counts, timers ([session.c]),
      the counters ([diag.c]).  [Heartbeat.v]: the timer callback.
    - [Transfer.v]: uploads and downloads ([transfer.c]).  [Upload.v] and
      [Download.v] specify them against the contents of the files.
    - [Proc.v]: processes ([proc.c]).  [Args.v] is about the argument
      vector, [ProcLife.v] about the order of exit, output and kill.
    - [Lua.v]: dispatch to the script ([lua_engine.c]) and the bindings it
      calls ([bindings.c]), with the interface [Ports] through which they use
      the relays; [Tables.v]: the tables of the debug bindings ([diag.c]);
      [Protocol.v]: the switch over frame types ([protocol.c]);
      [Handlers.v]: what every handler keeps.
    - [Diag.v]: the log, its levels, rotation and frame dump ([diag.c]).
    - [Stream.v]: the reference for cutting a stream into frames.
      [Server.v]: the receive callback and accepting ([server.c]).
    - [System.v]: the callbacks of a session in any order.  [Balance.v]: the
      reference count of a session against its handles, through every
      callback, along with any invariant of the world the calls keep.
    - [Portfwd.v]: port relays on a heap of objects ([portfwd.c]).
      [Relays.v]: their events and the invariant of the heap;
      [RelayList.v]: the linked list, and the theorems.
    - [Lifecycle.v]: sessions and relays composed: the state [PS] of the
      relays is the world of a session, which implements [Ports]; the close
      callbacks and [maybe_free_session] ([session.c], [proc.c]).
    - [Startup.v]: [main] ([main.c]), [server_run] ([server.c]),
      [lua_engine_init] and [lua_engine_close], [bindings_register].
    - [Shell.v]: the serial shell ([hello.c]), over a class [Win32] of the
      system calls it makes.

    ** How the code is represented

    A C function that changes state is a computation of the state monad
    [M (St W) A] of this file; [St] holds the session of the callback, the
    globals, what was handed to the network ([wire]) and is not yet
    acknowledged ([inflight]), the broken rules of libuv ([hazards]) and the
    world.  The relays have a state [PS] of their own, with the heap, and a
    monad whose outcome [None] is a use of freed memory or a broken rule of
    libuv.  A call of libuv is a function of the world, so nothing is assumed
    of it beyond what a theorem states.  Every allocation may fail.  Integers
    are [Z] with the reduction to the width of the C type written out
    ([u8], [u32], [u64], [i64], [size_t]; [size_t] has 64 bits, the width of
    [unsigned long] is a parameter where it matters).  A C string is the list
    of the bytes before its NUL.

    Loops with no structural argument take fuel: [kv_value_loop] one more
    than the length of the payload, [get_loop] one more than the size of the
    file, [frame_loop] one more than the buffered bytes, [count_args] two more
    than the length of the payload, the loops over the list of relays one more
    than the number of relays, [readline_loop] and [repl_iter] one more than
    the reads to come.  Each is shown to be enough, for every input and
    every behaviour of the environment that keeps to [FsLaws] ([Transfer.download_terminates],
    [Server.read_cb_total], [Args.build_args_total], [RelayList.relays_safe],
    [Shell.readline_edits], [Shell.shell_tidy]).  A script need not return;
    the receive callback returns if the scripts do ([LuaReturns]).

    ** What the theorems show

    - Wire format ([Frame.v], [Stream.v]): the header codec and the stream
      parser are inverse to the encoders and canonical.
    - Receiving ([Server.v]): [read_cb] with its buffer and offsets refines
      the reference parser and returns when the scripts do; frames of at most
      12289 bytes are dispatched however the stream is cut into reads, longer
      ones may be lost by the way it is cut, and one that does not fit the
      buffer always closes the session; accepting sets up a fresh session.
    - Sending ([Session.v], [System.v]): a frame is sent whole or not at all,
      the count of pending bytes is exact and bounded in every reachable
      state, and all output of a session parses as frames.
    - Transfers: a whole upload stores exactly the bytes sent; a bad or
      stalled one leaves no temporary file and the target as it was; a
      download sends exactly the file, ends under every behaviour of the file
      system, and fails when the file exceeds the write queue.
    - Processes: exit and ends of output in any order finalise once; spawning
      on free handles is safe, and where it is not; arguments, kills,
      deadlines and the exit report.
    - Relays: with close callbacks in any order, every event is handled
      without touching freed memory except the two that [goes_wrong] names,
      which both go wrong: the last close callback of a connection whose relay
      was freed before it, and a connection for which only the first of two
      [uv_tcp_init] succeeds.  The order in which they are queued by
      [relay_destroy], reversed, is such a run.  A relay forwards exactly what it reads; the
      list, the owners and the pending counts are right in every reachable
      state; nothing leaks; opening and closing.
    - End of life ([Balance.v], [Lifecycle.v]): the reference count equals
      the handles that will call back in every state without a broken rule;
      the last close callback, and only that, frees the session; pending
      callbacks in any order do free it; what is left then is clean; where a
      failed spawn breaks this, and that a running process is never killed.
    - Start and log: whatever events the loop delivers, [server_run] takes
      down what it set up; the log stays bounded and keeps the newest three
      full files where [rename] replaces, and grows without bound where it
      does not.
    - Serial shell: line editing against a terminal, CR LF output however the
      pipe cuts it, no handle leaked, every misuse of a handle traced to one of
      three causes, the end of the loop, and an error message without its
      NUL.
    - Dispatch and timer: unsupported frames are refused, greetings answered,
      idle sessions closed, quiet ones pinged.
    - Payload parsing ([Kv.v]): first record wins; numbers, their bounds and
      the agreement of the two copies of the parser.

    ** Not modelled

    The calls of the log from the handlers: [Diag.v] models the log by itself,
    and nothing a handler reads depends on it.  The Lua interpreter and the
    scripts: the theorems hold for every script that calls the bindings.  The
    body of libuv's loop: the callbacks are delivered in every order its
    documentation allows, with the one law that [uv_accept] succeeds when
    called for the first time in the callback of a new connection
    ([NetLaws]).  A log file that cannot be written to once it is open; that
    [fopen] succeeds depends on the path alone.  The test client and the Python tools, which are not
    part of the agent.  In the serial shell, the writes of the thread that
    drains a command's pipe are placed before its wait ends; a thread that is
    still running after that is reported as a hazard.  Possible extensions:
    several sessions at once (each now runs against a world that contains the
    relays of all), and the scripts under [lua/] as instances of [script].

    ** This file

    The state monad and its notation, record update, the rules for [keeps]
    (a relation between the states before and after) and [wp] (weakest
    precondition), bytes, machine integers and list lemmas. *)

From Stdlib Require Import ZArith Lia Bool.
From Stdlib Require Import Strings.Byte Strings.String.
From stdpp Require Import base list numbers countable.

#[global] Open Scope Z_scope.

(** ** Bytes

    A C [unsigned char] or [char] array is a list of bytes; the NUL that
    terminates a C string is not part of the list. *)

Notation bytes := (list Byte.byte).

Definition b2z (b : Byte.byte) : Z := Z.of_N (Byte.to_N b).

(** The conversion [(unsigned char) z]: reduction modulo 256. *)
Definition z2b (z : Z) : Byte.byte :=
  match Byte.of_N (Z.to_N (z mod 256)) with
  | Some b => b
  | None => Byte.x00
  end.

(** A string literal of the source, as bytes. *)
Definition lit (s : string) : bytes := list_byte_of_string s.
Arguments lit s%_string.

#[global] Instance byte_eq_dec : EqDecision Byte.byte := Byte.byte_eq_dec.

Definition zlen {A} (l : list A) : Z := Z.of_nat (length l).
Arguments zlen : simpl never.

(** ** Machine integers

    Unsigned integers are values of [Z] and every operation that can wrap
    in C is followed by the reduction written here. *)

Definition u8 (z : Z) : Z := z mod 2 ^ 8.
Definition u16 (z : Z) : Z := z mod 2 ^ 16.
Definition u32 (z : Z) : Z := z mod 2 ^ 32.
Definition u64 (z : Z) : Z := z mod 2 ^ 64.
(** [size_t] on the supported targets (x86-64 Linux and Windows). *)
Definition size_t (z : Z) : Z := z mod 2 ^ 64.
Arguments u8 : simpl never.
Arguments u16 : simpl never.
Arguments u32 : simpl never.
Arguments u64 : simpl never.
Arguments size_t : simpl never.
(** Conversion to [int64_t]. *)
Definition i64 (z : Z) : Z := (z + 2 ^ 63) mod 2 ^ 64 - 2 ^ 63.

(** ** The state monad of the handlers *)

Definition M (S A : Type) : Type := S -> A * S.

#[global] Instance M_ret S : MRet (M S) := fun A a s => (a, s).
#[global] Instance M_bind S : MBind (M S) :=
  fun A B f m s => match m s with (a, s') => f a s' end.

Definition gets {S A} (f : S -> A) : M S A := fun s => (f s, s).
Definition modify {S} (f : S -> S) : M S unit := fun s => (tt, f s).

(** ** Record update

    [r <| f := v |>] and [r <| f ::= g |>] update one field.  A record opts
    in with an instance of [Eta], its constructor applied to its own
    projections; the setter of a projection is computed from it. *)

Class Eta (R : Type) := eta_expand : R -> R.
Class Update {R F : Type} (proj : R -> F) := upd : (F -> F) -> R -> R.
Arguments upd {R F} proj {_} _ _.

Ltac derive_update :=
  match goal with
  | |- @Update ?R ?F ?proj =>
      let e := constr:(fun r : R => eta_expand (R := R) r) in
      let e := eval cbv beta delta [eta_expand] in e in
      let inst := constr:(ltac:(typeclasses eauto) : Eta R) in
      let body := eval hnf in inst in
      exact (fun (f : F -> F) (r : R) =>
        ltac:(let b := eval cbv beta in (body r) in
              let p := eval pattern (proj r) in b in
              match p with
              | ?c ?x => let t := eval cbv beta in (c (f x)) in exact t
              end))
  end.

#[global] Hint Extern 1 (@Update _ _ _) => derive_update : typeclass_instances.

Declare Scope upd_scope.
Notation "r <| f ::= g |>" := (upd f g r)
  (at level 12, left associativity, f at next level, format "r  <|  f  ::=  g  |>") : upd_scope.
Notation "r <| f := v |>" := (upd f (fun _ => v) r)
  (at level 12, left associativity, f at next level, format "r  <|  f  :=  v  |>") : upd_scope.
#[global] Open Scope upd_scope.


(** ** Effects of a computation

    [keeps R m]: running [m] relates the state before to the state after by
    [R].  With a preorder, composition is automatic; an invariant [I] is
    kept when the computation keeps [inv_rel I]. *)

Definition keeps {S A} (R : relation S) (m : M S A) : Prop :=
  forall s, R s (m s).2.

Definition inv_rel {S} (I : S -> Prop) : relation S := fun s s' => I s -> I s'.

Create HintDb keeps.

#[global] Instance inv_rel_preorder {S} (I : S -> Prop) : PreOrder (inv_rel I).
Proof. split; unfold inv_rel; repeat intro; auto. Qed.

Lemma bind_run {S A B} (m : M S A) (f : A -> M S B) (s : S) :
  (m ≫= f) s = f (m s).1 (m s).2.
Proof. unfold mbind, M_bind. by destruct (m s). Qed.

Lemma bind_inv {S A B} (m : M S A) (f : A -> M S B) (s s2 : S) (b : B) :
  (m ≫= f) s = (b, s2) -> exists a s1, m s = (a, s1) /\ f a s1 = (b, s2).
Proof. unfold mbind, M_bind. destruct (m s) as [a s1]. eauto. Qed.

Section keeps_rules.
Context {S : Type} (R : relation S) `{!PreOrder R}.

Lemma keeps_ret {A} (a : A) : keeps R (mret a : M S A).
Proof. intro s. cbn. reflexivity. Qed.

Lemma keeps_gets {A} (f : S -> A) : keeps R (gets f).
Proof. intro s. cbn. reflexivity. Qed.

Lemma keeps_bind {A B} (m : M S A) (f : A -> M S B) :
  keeps R m -> (forall a, keeps R (f a)) -> keeps R (m ≫= f).
Proof.
  intros Hm Hf s. rewrite bind_run. transitivity ((m s).2); [apply Hm | apply Hf].
Qed.

Lemma keeps_if {A} (b : bool) (m1 m2 : M S A) :
  keeps R m1 -> keeps R m2 -> keeps R (if b then m1 else m2).
Proof. by destruct b. Qed.

Lemma keeps_option {A B} (o : option B) (m1 : B -> M S A) (m2 : M S A) :
  (forall x, keeps R (m1 x)) -> keeps R m2 ->
  keeps R (match o with Some x => m1 x | None => m2 end).
Proof. by destruct o. Qed.

Lemma keeps_modify (f : S -> S) : (forall s, R s (f s)) -> keeps R (modify f).
Proof. intros H s. apply H. Qed.

Lemma keeps_run {A} (m : M S A) s a s' : keeps R m -> m s = (a, s') -> R s s'.
Proof. intros H E. specialize (H s). by rewrite E in H. Qed.
End keeps_rules.


(** ** Weakest preconditions

  [wp m Q s]: the result and final state of [m] started in [s] satisfy
  [Q].  The rules below execute a computation symbolically. *)

Definition wp {S A} (m : M S A) (Q : A -> S -> Prop) (s : S) : Prop := Q (m s).1 (m s).2.

Section wp_rules.
Context {S : Type}.
Implicit Types s : S.

Lemma wp_ret {A} (a : A) Q s : Q a s -> wp (mret a : M S A) Q s.
Proof. done. Qed.

Lemma wp_bind {A B} (m : M S A) (f : A -> M S B) Q s :
  wp m (fun a => wp (f a) Q) s -> wp (m ≫= f) Q s.
Proof. unfold wp. by rewrite bind_run. Qed.

Lemma wp_gets {A} (f : S -> A) Q s : Q (f s) s -> wp (gets f) Q s.
Proof. done. Qed.

Lemma wp_modify (f : S -> S) (Q : unit -> S -> Prop) s : Q tt (f s) -> wp (modify f) Q s.
Proof. done. Qed.

Lemma wp_mono {A} (m : M S A) (P Q : A -> S -> Prop) s :
  wp m P s -> (forall a s', P a s' -> Q a s') -> wp m Q s.
Proof. unfold wp. auto. Qed.

Lemma wp_keeps {A} R (m : M S A) (Q : A -> S -> Prop) s :
  keeps R m -> (forall a s', R s s' -> Q a s') -> wp m Q s.
Proof. unfold wp, keeps. auto. Qed.

Lemma wp_run {A} (m : M S A) (Q : A -> S -> Prop) s a s' :
  wp m Q s -> m s = (a, s') -> Q a s'.
Proof. unfold wp. intros H E. by rewrite E in H. Qed.

Lemma keeps_wp {A} (R : relation S) (m : M S A) :
  (forall s, wp m (fun _ s' => R s s') s) -> keeps R m.
Proof. done. Qed.

Lemma wp_and {A} (m : M S A) (P Q : A -> S -> Prop) s :
  wp m P s -> wp m Q s -> wp m (fun a s' => P a s' /\ Q a s') s.
Proof. done. Qed.
End wp_rules.

(** ** Byte and integer lemmas *)

Lemma b2z_range b : 0 <= b2z b < 256.
Proof.
  unfold b2z. pose proof (Byte.to_N_bounded b). split; [apply N2Z.is_nonneg | lia].
Qed.

Lemma b2z_inj b c : b2z b = b2z c -> b = c.
Proof.
  unfold b2z. intros H%N2Z.inj.
  pose proof (Byte.of_to_N b) as Hb. pose proof (Byte.of_to_N c) as Hc.
  rewrite H in Hb. congruence.
Qed.

Lemma b2z_z2b z : b2z (z2b z) = z mod 256.
Proof.
  unfold b2z, z2b. pose proof (Z.mod_pos_bound z 256 eq_refl).
  destruct (Byte.of_N _) as [b|] eqn:E.
  - apply Byte.to_of_N in E. rewrite E. lia.
  - apply Byte.of_N_None_iff in E. lia.
Qed.

Lemma z2b_b2z b : z2b (b2z b) = b.
Proof.
  apply b2z_inj. rewrite b2z_z2b. apply Z.mod_small, b2z_range.
Qed.

Lemma byte_eqb_eq b c : Byte.eqb b c = true <-> b = c.
Proof. split; [apply Byte.byte_dec_bl | apply Byte.byte_dec_lb]. Qed.

Lemma byte_eqb_neq b c : Byte.eqb b c = false <-> b <> c.
Proof. rewrite <- byte_eqb_eq. by destruct (Byte.eqb b c). Qed.

Lemma u64_small z : 0 <= z < 2 ^ 64 -> u64 z = z.
Proof. apply Z.mod_small. Qed.
Lemma u32_small z : 0 <= z < 2 ^ 32 -> u32 z = z.
Proof. apply Z.mod_small. Qed.
Lemma u8_small z : 0 <= z < 2 ^ 8 -> u8 z = z.
Proof. apply Z.mod_small. Qed.
Lemma size_t_small z : 0 <= z < 2 ^ 64 -> size_t z = z.
Proof. apply Z.mod_small. Qed.
Lemma u64_range z : 0 <= u64 z < 2 ^ 64.
Proof. apply Z.mod_pos_bound. lia. Qed.
Lemma size_t_range z : 0 <= size_t z < 2 ^ 64.
Proof. apply Z.mod_pos_bound. lia. Qed.
Lemma u32_range z : 0 <= u32 z < 2 ^ 32.
Proof. apply Z.mod_pos_bound. lia. Qed.

(** ** Lists measured in [Z] *)

Lemma zlen_nonneg {A} (l : list A) : 0 <= zlen l.
Proof. unfold zlen. lia. Qed.
Lemma zlen_nil {A} : zlen (@nil A) = 0.
Proof. done. Qed.
Lemma zlen_cons {A} (x : A) l : zlen (x :: l) = 1 + zlen l.
Proof. unfold zlen. cbn [length]. lia. Qed.
Lemma zlen_app {A} (l k : list A) : zlen (l ++ k) = zlen l + zlen k.
Proof. unfold zlen. rewrite length_app. lia. Qed.
Lemma zlen_take {A} n (l : list A) : zlen (take n l) = Z.min (Z.of_nat n) (zlen l).
Proof. unfold zlen. rewrite length_take. lia. Qed.
Lemma zlen_drop {A} n (l : list A) : zlen (drop n l) = Z.max 0 (zlen l - Z.of_nat n).
Proof. unfold zlen. rewrite length_drop. lia. Qed.
Lemma to_nat_zlen {A} (l : list A) : Z.to_nat (zlen l) = length l.
Proof. unfold zlen. lia. Qed.

Lemma take_length_take {A} n (l : list A) : take (length (take n l)) l = take n l.
Proof.
  rewrite length_take. destruct (Nat.le_ge_cases n (length l)).
  - by rewrite Nat.min_l.
  - by rewrite Nat.min_r, firstn_all, take_ge.
Qed.

#[export] Hint Rewrite @zlen_nil @zlen_cons @zlen_app @zlen_take @zlen_drop @to_nat_zlen : zlen.

(** Turn the boolean tests of the code into propositions and split on them. *)
Ltac bool_cases :=
  repeat match goal with
  | H : context [if ?b then _ else _] |- _ =>
      lazymatch b with true => fail | false => fail | _ => destruct b eqn:? end
  | |- context [if ?b then _ else _] =>
      lazymatch b with true => fail | false => fail | _ => destruct b eqn:? end
  end.

Ltac b2p :=
  repeat match goal with
  | H : (_ || _) = true |- _ => apply orb_true_iff in H
  | H : (_ || _) = false |- _ => apply orb_false_iff in H as [? ?]
  | H : (_ && _) = true |- _ => apply andb_true_iff in H as [? ?]
  | H : (_ && _) = false |- _ => apply andb_false_iff in H
  | H : negb _ = true |- _ => apply negb_true_iff in H
  | H : negb _ = false |- _ => apply negb_false_iff in H
  | H : (_ =? _) = true |- _ => apply Z.eqb_eq in H
  | H : (_ =? _) = false |- _ => apply Z.eqb_neq in H
  | H : (_ <? _) = true |- _ => apply Z.ltb_lt in H
  | H : (_ <? _) = false |- _ => apply Z.ltb_ge in H
  | H : (_ <=? _) = true |- _ => apply Z.leb_le in H
  | H : (_ <=? _) = false |- _ => apply Z.leb_gt in H
  | H : (_ >? _) = true |- _ => rewrite Z.gtb_ltb in H
  | H : (_ >? _) = false |- _ => rewrite Z.gtb_ltb in H
  | H : (_ >=? _) = true |- _ => rewrite Z.geb_leb in H
  | H : (_ >=? _) = false |- _ => rewrite Z.geb_leb in H
  end.
