(* ===== verification/CLib.v ===== *)
(** * The C library functions the program calls

    Executable versions of the string and number functions of the C standard
    library that the sources use ([strlen], [strchr], [strcspn], [strtoull],
    the conversions of [snprintf]), with the lemmas the components share, and
    [util_snprintf] of [src/util.c] on top of them.  A C string is the list
    of the bytes before its NUL. *)

From Stdlib Require Import ZArith Lia Bool.
From Stdlib Require Import Strings.Byte Strings.String.
From stdpp Require Import base list numbers.
From S2P Require Import Prelude.

(** ** Characters and strings *)

Definition NUL : Byte.byte := Byte.x00.
Definition LF : Byte.byte := Byte.x0a.
Definition CR : Byte.byte := Byte.x0d.

(** The longest prefix whose bytes satisfy [p]. *)
Fixpoint take_while (p : Byte.byte -> bool) (s : bytes) : bytes :=
  match s with
  | [] => []
  | c :: s' => if p c then c :: take_while p s' else []
  end.

(** What a [char *] into a NUL-terminated copy of [b] denotes. *)
Definition cstr (b : bytes) : bytes := take_while (fun c => negb (Byte.eqb c NUL)) b.

(** [strchr(s, c)], as the offset of the match. *)
Fixpoint strchr (s : bytes) (c : Byte.byte) : option nat :=
  match s with
  | [] => None
  | d :: s' => if Byte.eqb d c then Some O else S <$> strchr s' c
  end.

(** [strcspn(s, reject)]. *)
Definition strcspn (s reject : bytes) : nat :=
  length (take_while (fun c => negb (existsb (Byte.eqb c) reject)) s).

Definition bytes_eqb (a b : bytes) : bool := bool_decide (a = b).

(** [memcmp(a, b, n) == 0] for [n] bytes that both objects have. *)
Definition mem_eq (a b : bytes) (n : nat) : bool := bytes_eqb (take n a) (take n b).

(** ** [strtoull] and [strtoul], base 10 *)

Definition isspace (c : Byte.byte) : bool :=
  let z := b2z c in (z =? 32) || ((9 <=? z) && (z <=? 13)).

Definition isdigit (c : Byte.byte) : bool :=
  let z := b2z c in (48 <=? z) && (z <=? 57).

Fixpoint skip_space (s : bytes) : bytes :=
  match s with
  | c :: s' => if isspace c then skip_space s' else s
  | [] => []
  end.

(** The value of the digits at the front of [s] and what follows them. *)
Fixpoint scan_digits (acc : Z) (s : bytes) : Z * bytes :=
  match s with
  | c :: s' => if isdigit c then scan_digits (10 * acc + (b2z c - 48)) s' else (acc, s)
  | [] => (acc, [])
  end.

Definition scan_sign (s : bytes) : bool * bytes :=
  match s with
  | c :: s' =>
      if b2z c =? 45 then (true, s') else if b2z c =? 43 then (false, s') else (false, s)
  | [] => (false, [])
  end.

(** The value returned, whether [errno] was set to [ERANGE], and the text
    [*end] points to.  [max] is [ULLONG_MAX] or [ULONG_MAX].  Without digits
    there is no conversion and [*end] is the start of the string. *)
Definition strtou (max : Z) (s : bytes) : Z * bool * bytes :=
  let '(neg, s2) := scan_sign (skip_space s) in
  match s2 with
  | d :: _ =>
      if isdigit d then
        let '(v, rest) := scan_digits 0 s2 in
        if max <? v then (max, true, rest)
        else (if neg then (- v) mod (max + 1) else v, false, rest)
      else (0, false, s)
  | [] => (0, false, s)
  end.

Definition ULLONG_MAX : Z := 2 ^ 64 - 1.

(** ** The conversions of [snprintf] *)

Definition digit (d : Z) : Byte.byte := z2b (48 + d).

Fixpoint dec_loop (fuel : nat) (n : Z) (acc : bytes) : bytes :=
  match fuel with
  | O => acc
  | S fuel' =>
      let acc' := digit (n mod 10) :: acc in
      if n / 10 =? 0 then acc' else dec_loop fuel' (n / 10) acc'
  end.

(** [%u] and [%llu]: twenty digits hold every 64-bit value. *)
Definition dec (n : Z) : bytes := dec_loop 20 n [].

(** [%lld]. *)
Definition sdec (n : Z) : bytes := if n <? 0 then lit "-" ++ dec (- n) else dec n.

(** [util_snprintf(dst, dst_size, fmt, ...)] for a format that produces
    [text]: the return code and the string left in [dst].  [vsnprintf] fails
    only on encoding errors and on results beyond [INT_MAX], neither of which
    the formats of the program can produce. *)
Definition util_snprintf (dst_size : Z) (text : bytes) : Z * bytes :=
  if dst_size =? 0 then (-1, [])
  else if dst_size <=? zlen text then (-1, take (Z.to_nat (dst_size - 1)) text)
  else (0, text).

Arguments dec : simpl never.
Arguments sdec : simpl never.
Arguments util_snprintf : simpl never.

(** ** Lemmas *)

Lemma take_while_app p (a b : bytes) :
  forallb p a = true -> take_while p (a ++ b) = a ++ take_while p b.
Proof.
  induction a as [|c a IH]; [done|]. cbn. intros [Hc Ha]%andb_true_iff.
  rewrite Hc. by rewrite IH.
Qed.

Lemma take_while_all p (a : bytes) : forallb p a = true -> take_while p a = a.
Proof.
  intros H. rewrite <- (app_nil_r a) at 1. rewrite take_while_app by done. apply app_nil_r.
Qed.

Lemma take_while_forallb p (a : bytes) : forallb p (take_while p a) = true.
Proof. induction a as [|c a IH]; cbn; [done|]. destruct (p c) eqn:E; cbn; [by rewrite E|done]. Qed.

Lemma take_while_prefix p (a : bytes) : take (length (take_while p a)) a = take_while p a.
Proof. induction a as [|c a IH]; cbn; [done|]. destruct (p c); cbn; [by rewrite IH|done]. Qed.

Lemma take_while_le p (a : bytes) : (length (take_while p a) <= length a)%nat.
Proof. induction a as [|c a IH]; cbn; [done|]. destruct (p c); cbn; lia. Qed.

Lemma bytes_eqb_eq a b : bytes_eqb a b = true <-> a = b.
Proof. unfold bytes_eqb. by rewrite bool_decide_eq_true. Qed.

Lemma bytes_eqb_refl a : bytes_eqb a a = true.
Proof. by apply bytes_eqb_eq. Qed.

Lemma strchr_None s c : strchr s c = None <-> c ∉ s.
Proof.
  induction s as [|d s IH]; cbn; [split; [intros _; apply not_elem_of_nil|done]|].
  rewrite not_elem_of_cons. destruct (Byte.eqb d c) eqn:E.
  - apply byte_eqb_eq in E. subst. split; [done|tauto].
  - apply byte_eqb_neq in E. destruct (strchr s c); cbn; naive_solver.
Qed.

Lemma strchr_Some s c i :
  strchr s c = Some i -> s = take i s ++ c :: drop (S i) s /\ c ∉ take i s.
Proof.
  revert i. induction s as [|d s IH]; cbn; [done|]. intros i.
  destruct (Byte.eqb d c) eqn:E.
  - apply byte_eqb_eq in E. intros [= <-]. subst. cbn. split; [done|].
    apply not_elem_of_nil.
  - apply byte_eqb_neq in E. destruct (strchr s c) as [j|]; [|done]. intros [= <-].
    destruct (IH j eq_refl) as [Hs Hn]. cbn. split; [by f_equal|].
    apply not_elem_of_cons. split; congruence.
Qed.

(** *** Decimal numbers *)

Lemma isdigit_digit d : 0 <= d < 10 -> isdigit (digit d) = true.
Proof. intros H. unfold isdigit, digit. rewrite b2z_z2b, Z.mod_small by lia. lia. Qed.

Lemma b2z_digit d : 0 <= d < 10 -> b2z (digit d) = 48 + d.
Proof. intros H. unfold digit. rewrite b2z_z2b, Z.mod_small; lia. Qed.

Lemma dec_loop_app fuel n acc : dec_loop fuel n acc = dec_loop fuel n [] ++ acc.
Proof.
  revert n acc. induction fuel as [|f IH]; intros n acc; cbn; [done|].
  destruct (n / 10 =? 0); [done|].
  rewrite IH, (IH _ [_]), <- app_assoc. done.
Qed.

Lemma dec_loop_digits fuel n : 0 <= n -> forallb isdigit (dec_loop fuel n []) = true.
Proof.
  revert n. induction fuel as [|f IH]; intros n Hn; cbn; [done|].
  pose proof (Z.mod_pos_bound n 10 eq_refl).
  destruct (n / 10 =? 0); cbn; [by rewrite isdigit_digit by lia|].
  rewrite dec_loop_app, forallb_app, IH by (apply Z.div_pos; lia).
  cbn. by rewrite isdigit_digit by lia.
Qed.

Lemma scan_digits_app a b acc :
  forallb isdigit a = true -> scan_digits acc (a ++ b) = scan_digits (scan_digits acc a).1 b.
Proof.
  revert acc. induction a as [|c a IH]; intros acc; cbn; [done|].
  intros [Hc Ha]%andb_true_iff. rewrite Hc. by apply IH.
Qed.

Lemma scan_digits_dec_loop fuel n :
  0 <= n < 10 ^ Z.of_nat fuel -> scan_digits 0 (dec_loop fuel n []) = (n, []).
Proof.
  revert n. induction fuel as [|f IH]; intros n Hn.
  - cbn in *. assert (n = 0) by lia. by subst.
  - cbn [dec_loop]. pose proof (Z.mod_pos_bound n 10 eq_refl).
    pose proof (Z.div_mod n 10 ltac:(lia)).
    destruct (n / 10 =? 0) eqn:E; b2p.
    + cbn. rewrite isdigit_digit, b2z_digit by lia. f_equal. lia.
    + rewrite dec_loop_app.
      assert (0 <= n / 10) by (apply Z.div_pos; lia).
      rewrite scan_digits_app by (by apply dec_loop_digits).
      rewrite IH.
      * cbn. rewrite isdigit_digit, b2z_digit by lia. f_equal. lia.
      * split; [done|]. rewrite Nat2Z.inj_succ, Z.pow_succ_r in Hn by lia.
        apply Z.div_lt_upper_bound; lia.
Qed.

Lemma dec_loop_nonempty fuel n acc : dec_loop (S fuel) n acc <> [].
Proof.
  cbn. destruct (n / 10 =? 0); [done|]. rewrite dec_loop_app.
  intros [_ [=]]%app_eq_nil.
Qed.

Lemma dec_digits n : 0 <= n -> forallb isdigit (dec n) = true.
Proof. apply dec_loop_digits. Qed.

Lemma scan_digits_dec n : 0 <= n < 2 ^ 64 -> scan_digits 0 (dec n) = (n, []).
Proof. intros H. apply scan_digits_dec_loop. cbn. lia. Qed.

Lemma dec_inj n m : 0 <= n < 2 ^ 64 -> 0 <= m < 2 ^ 64 -> dec n = dec m -> n = m.
Proof.
  intros Hn Hm E. pose proof (scan_digits_dec n Hn) as H1.
  rewrite E, scan_digits_dec in H1 by done. congruence.
Qed.

Lemma isdigit_not_space c : isdigit c = true -> isspace c = false.
Proof. unfold isdigit, isspace. intros H. b2p. lia. Qed.

(** Parsing a printed number gives the number back, or an overflow. *)
Lemma strtou_dec_gen max n :
  0 <= n < 2 ^ 64 -> strtou max (dec n) = if max <? n then (max, true, []) else (n, false, []).
Proof.
  intros Hn. pose proof (dec_digits n ltac:(lia)) as Hd.
  pose proof (scan_digits_dec n Hn) as Hs.
  unfold strtou. unfold dec in *.
  destruct (dec_loop 20 n []) as [|c s] eqn:E; [by apply dec_loop_nonempty in E|].
  cbn [skip_space forallb] in *. apply andb_true_iff in Hd as [Hc Hd].
  rewrite isdigit_not_space by done. cbn [scan_sign].
  assert (Hr : 48 <= b2z c <= 57) by (unfold isdigit in Hc; lia).
  destruct (b2z c =? 45) eqn:?; b2p; [lia|].
  destruct (b2z c =? 43) eqn:?; b2p; [lia|].
  by rewrite Hc, Hs.
Qed.

Lemma strtou_dec max n : 0 <= n <= max -> max < 2 ^ 64 -> strtou max (dec n) = (n, false, []).
Proof.
  intros Hn Hmax. rewrite strtou_dec_gen by lia. destruct (max <? n) eqn:?; b2p; [lia|done].
Qed.

(** [strtoull] takes a sign and negates modulo the size of the type. *)
Lemma strtou_minus_dec max n :
  0 <= n <= max -> max < 2 ^ 64 -> strtou max (lit "-" ++ dec n) = ((- n) mod (max + 1), false, []).
Proof.
  intros Hn Hmax. pose proof (dec_digits n ltac:(lia)) as Hd.
  pose proof (scan_digits_dec n ltac:(lia)) as Hs. unfold dec in *.
  destruct (dec_loop 20 n []) as [|c s] eqn:E; [by apply dec_loop_nonempty in E|].
  cbn [forallb] in Hd. apply andb_true_iff in Hd as [Hc Hd].
  change (lit "-" ++ c :: s) with (Byte.x2d :: c :: s). unfold strtou.
  change (scan_sign (skip_space (Byte.x2d :: c :: s))) with (true, c :: s). cbv beta iota.
  rewrite Hc, Hs. destruct (max <? n) eqn:?; b2p; [lia|done].
Qed.

Lemma dec_loop_length fuel n acc :
  (length (dec_loop fuel n acc) <= fuel + length acc)%nat.
Proof.
  revert n acc. induction fuel as [|f IH]; intros n acc; cbn [dec_loop]; [done|].
  destruct (n / 10 =? 0); cbn; [lia|]. etransitivity; [apply IH|]. cbn. lia.
Qed.

Lemma dec_length n : zlen (dec n) <= 20.
Proof. unfold zlen. pose proof (dec_loop_length 20 n []). cbn [length] in *. unfold dec. lia. Qed.

Lemma dec_positive n : 1 <= zlen (dec n).
Proof.
  unfold zlen, dec. destruct (dec_loop 20 n []) eqn:E; [by apply dec_loop_nonempty in E|].
  cbn [length]. lia.
Qed.

Lemma util_snprintf_ok size text :
  zlen text < size -> util_snprintf size text = (0, text).
Proof.
  intros H. unfold util_snprintf. pose proof (zlen_nonneg text).
  destruct (size =? 0) eqn:?; b2p; [lia|]. destruct (size <=? zlen text) eqn:?; b2p; [lia|done].
Qed.

Lemma util_snprintf_rc size text : (util_snprintf size text).1 = 0 <-> zlen text < size.
Proof.
  unfold util_snprintf. pose proof (zlen_nonneg text).
  destruct (size =? 0) eqn:?; b2p; [cbn; lia|]. destruct (size <=? zlen text) eqn:?; b2p; cbn; lia.
Qed.

Lemma util_snprintf_inv size text rc s :
  util_snprintf size text = (rc, s) -> (rc = 0 /\ s = text) \/ rc = -1.
Proof. unfold util_snprintf. bool_cases; intros [= <- <-]; auto. Qed.

(** The string left in the buffer, with its NUL, never exceeds the buffer. *)
Lemma util_snprintf_fits size text :
  0 < size -> zlen (util_snprintf size text).2 + 1 <= size.
Proof.
  intros H. unfold util_snprintf. destruct (size =? 0) eqn:?; b2p; [lia|].
  destruct (size <=? zlen text) eqn:?; b2p; cbn; [|lia].
  rewrite zlen_take. lia.
Qed.
