(* ===== verification/Frame.v ===== *)
(** * The frame codec ([src/frame.h], [src/frame.c])

    The 14-byte frame header: magic, type, flags, request id and payload
    length, little-endian.  [NULL] arguments are [None]; an output buffer is
    the bytes of the caller's object and the call returns its new contents. *)

From Stdlib Require Import ZArith Lia Bool.
From Stdlib Require Import Strings.Byte Strings.String.
From stdpp Require Import base list numbers.
From S2P Require Import Prelude CLib.

(** ** Data *)

(** [enum frame_type]. *)
Definition FRAME_HELLO : Z := 1.
Definition FRAME_ACK : Z := 2.
Definition FRAME_ERROR : Z := 3.
Definition FRAME_OP : Z := 10.
Definition FRAME_OP_RESULT : Z := 11.
Definition FRAME_PUT_BEGIN : Z := 20.
Definition FRAME_PUT_CHUNK : Z := 21.
Definition FRAME_PUT_END : Z := 22.
Definition FRAME_GET_BEGIN : Z := 30.
Definition FRAME_GET_CHUNK : Z := 31.
Definition FRAME_GET_END : Z := 32.
Definition FRAME_PROC_SPAWN : Z := 40.
Definition FRAME_STDIN : Z := 41.
Definition FRAME_STDOUT : Z := 42.
Definition FRAME_STDERR : Z := 43.
Definition FRAME_EXIT : Z := 44.
Definition FRAME_KILL : Z := 45.
Definition FRAME_PING : Z := 50.
Definition FRAME_PONG : Z := 51.

(** [struct frame_header]; the name of a field carries the prefix [fh_]. *)
Record frame_header := FrameHeader {
  fh_type : Z;
  fh_flags : Z;
  fh_req_id : Z;
  fh_length : Z
}.

#[global] Instance frame_header_eta : Eta frame_header :=
  fun h => FrameHeader (fh_type h) (fh_flags h) (fh_req_id h) (fh_length h).

Definition LUAGENT_MAX_FRAME_PAYLOAD : Z := 65536.
Definition LUAGENT_MAGIC : bytes := lit "RXSH".
Definition LUAGENT_MAGIC_SIZE : nat := 4.

(** [enum frame_status]. *)
Definition FRAME_STATUS_NEED_MORE : Z := 0.
Definition FRAME_STATUS_OK : Z := 1.
Definition FRAME_STATUS_ERROR : Z := -1.

(** ** Operations *)

(** [src[i]] of an object that has the byte. *)
Definition at_ (src : bytes) (i : nat) : Z := b2z (default NUL (src !! i)).

Definition read_u32le (src : bytes) : Z :=
  Z.lor (Z.lor (Z.lor (at_ src 0) (Z.shiftl (at_ src 1) 8))
               (Z.shiftl (at_ src 2) 16))
        (Z.shiftl (at_ src 3) 24).

(** The four bytes [write_u32le] stores. *)
Definition write_u32le (value : Z) : bytes :=
  [z2b (Z.land value 255);
   z2b (Z.land (Z.shiftr value 8) 255);
   z2b (Z.land (Z.shiftr value 16) 255);
   z2b (Z.land (Z.shiftr value 24) 255)].

Definition frame_header_size : Z := 14.

Definition frame_validate_header (header : option frame_header) : Z :=
  match header with
  | None => -1
  | Some h =>
      if LUAGENT_MAX_FRAME_PAYLOAD <? fh_length h then -1
      else if fh_type h =? 0 then -1
      else 0
  end.

Definition frame_encode_header (dst : option bytes) (dst_size : Z)
    (header : option frame_header) : Z * option bytes :=
  match dst, header with
  | Some d, Some h =>
      if dst_size <? frame_header_size then (-1, dst)
      else if negb (frame_validate_header header =? 0) then (-1, dst)
      else
        (0, Some (take LUAGENT_MAGIC_SIZE LUAGENT_MAGIC
                  ++ [z2b (fh_type h)] ++ [z2b (fh_flags h)]
                  ++ write_u32le (fh_req_id h)
                  ++ write_u32le (fh_length h)
                  ++ drop (Z.to_nat frame_header_size) d))
  | _, _ => (-1, dst)
  end.

(** [header] is the caller's object, whose fields the call overwrites. *)
Definition frame_decode_header (src : option bytes) (src_size : Z)
    (header : option frame_header) : Z * option frame_header :=
  match src, header with
  | Some s, Some h =>
      if src_size <? frame_header_size then (FRAME_STATUS_NEED_MORE, header)
      else if negb (mem_eq s LUAGENT_MAGIC LUAGENT_MAGIC_SIZE) then
        (FRAME_STATUS_ERROR, header)
      else
        let h := h <| fh_type := at_ s 4 |> <| fh_flags := at_ s 5 |>
                   <| fh_req_id := read_u32le (drop 6 s) |>
                   <| fh_length := read_u32le (drop 10 s) |> in
        if negb (frame_validate_header (Some h) =? 0) then (FRAME_STATUS_ERROR, Some h)
        else (FRAME_STATUS_OK, Some h)
  | _, _ => (FRAME_STATUS_NEED_MORE, header)
  end.

(** ** The wire format *)

(** The 14 bytes of a header. *)
Definition header_bytes (h : frame_header) : bytes :=
  LUAGENT_MAGIC ++ [z2b (fh_type h); z2b (fh_flags h)]
  ++ write_u32le (fh_req_id h) ++ write_u32le (fh_length h).

(** A header whose fields are in the range of their C types. *)
Definition header_in_range (h : frame_header) : Prop :=
  0 <= fh_type h < 2 ^ 8 /\ 0 <= fh_flags h < 2 ^ 8 /\
  0 <= fh_req_id h < 2 ^ 32 /\ 0 <= fh_length h < 2 ^ 32.

(** The well-formedness the protocol document asks of a header. *)
Definition header_valid (h : frame_header) : Prop :=
  header_in_range h /\ fh_type h <> 0 /\ fh_length h <= LUAGENT_MAX_FRAME_PAYLOAD.

Arguments frame_encode_header : simpl never.
Arguments frame_decode_header : simpl never.
Arguments frame_validate_header : simpl never.
Arguments header_bytes : simpl never.
Arguments read_u32le : simpl never.
Arguments write_u32le : simpl never.

(** ** Lemmas *)

Lemma lor_shiftl_add a b n : 0 <= n -> 0 <= a < 2 ^ n -> Z.lor a (Z.shiftl b n) = a + b * 2 ^ n.
Proof.
  intros Hn Ha. rewrite <- Z.shiftl_mul_pow2 by done. rewrite <- Z.add_lor_land.
  enough (Z.land a (Z.shiftl b n) = 0) by lia.
  apply Z.bits_inj'. intros i Hi. rewrite Z.land_spec, Z.bits_0, Z.shiftl_spec by done.
  destruct (Z.lt_ge_cases i n).
  - rewrite (Z.testbit_neg_r b) by lia. apply andb_false_r.
  - destruct (Z.eq_dec a 0) as [->|]; [by rewrite Z.bits_0|].
    rewrite (Z.bits_above_log2 a i); [done|lia|].
    apply Z.lt_le_trans with n; [|done]. apply Z.log2_lt_pow2; lia.
Qed.

Lemma at_range src i : 0 <= at_ src i < 256.
Proof. apply b2z_range. Qed.

Lemma read_u32le_sum src :
  read_u32le src = at_ src 0 + at_ src 1 * 2 ^ 8 + at_ src 2 * 2 ^ 16 + at_ src 3 * 2 ^ 24.
Proof.
  unfold read_u32le. pose proof (at_range src 0). pose proof (at_range src 1).
  pose proof (at_range src 2).
  rewrite (lor_shiftl_add (at_ src 0)), (lor_shiftl_add (at_ src 0 + _)), lor_shiftl_add by lia.
  done.
Qed.

Lemma read_u32le_range src : 0 <= read_u32le src < 2 ^ 32.
Proof.
  rewrite read_u32le_sum. pose proof (at_range src 0). pose proof (at_range src 1).
  pose proof (at_range src 2). pose proof (at_range src 3). lia.
Qed.

Lemma land_255 v n : 0 <= n -> Z.land (Z.shiftr v n) 255 = (v / 2 ^ n) mod 256.
Proof.
  intros Hn. rewrite Z.shiftr_div_pow2 by done. change 255 with (Z.ones 8).
  by rewrite Z.land_ones.
Qed.

Lemma at_z2b_land v n i l :
  0 <= n -> l !! i = Some (z2b (Z.land (Z.shiftr v n) 255)) -> at_ l i = (v / 2 ^ n) mod 256.
Proof.
  intros Hn Hl. unfold at_. rewrite Hl. cbn. rewrite b2z_z2b, land_255 by done.
  by rewrite Z.mod_mod.
Qed.

Lemma read_write_u32le v l : 0 <= v < 2 ^ 32 -> read_u32le (write_u32le v ++ l) = v.
Proof.
  intros Hv. rewrite read_u32le_sum.
  assert (E0 : at_ (write_u32le v ++ l) 0 = v mod 256).
  { unfold at_, write_u32le. cbn. rewrite b2z_z2b. change 255 with (Z.ones 8).
    rewrite Z.land_ones by lia. by rewrite Z.mod_mod. }
  rewrite E0, (at_z2b_land v 8 1), (at_z2b_land v 16 2), (at_z2b_land v 24 3) by done.
  change (2 ^ 8) with 256. change (2 ^ 16) with 65536. change (2 ^ 24) with 16777216.
  Z.to_euclidean_division_equations. lia.
Qed.

Lemma length_write_u32le v : length (write_u32le v) = 4%nat.
Proof. done. Qed.

(** A four-byte word is determined by the value read from it. *)
Lemma write_read_u32le s : (4 <= length s)%nat -> write_u32le (read_u32le s) = take 4 s.
Proof.
  intros Hs. destruct s as [|a [|b [|c [|d s]]]]; cbn in Hs; try lia.
  pose proof (read_u32le_sum (a :: b :: c :: d :: s)) as E.
  remember (read_u32le (a :: b :: c :: d :: s)) as v. unfold at_ in E; cbn in E.
  pose proof (b2z_range a). pose proof (b2z_range b). pose proof (b2z_range c).
  pose proof (b2z_range d). clear Heqv.
  assert (Hb : forall n x, 0 <= n -> (v / 2 ^ n) mod 256 = b2z x ->
    z2b (Z.land (Z.shiftr v n) 255) = x).
  { intros n x Hn Hx. apply b2z_inj. by rewrite b2z_z2b, land_255, Z.mod_mod. }
  unfold write_u32le. replace (Z.land v 255) with (Z.land (Z.shiftr v 0) 255) by done.
  cbn [take]. repeat f_equal; apply Hb; try lia;
    rewrite E; Z.to_euclidean_division_equations; lia.
Qed.

Lemma validate_ok h :
  frame_validate_header (Some h) = 0 <->
  fh_length h <= LUAGENT_MAX_FRAME_PAYLOAD /\ fh_type h <> 0.
Proof. unfold frame_validate_header. bool_cases; b2p; lia. Qed.

Lemma validate_rc h : frame_validate_header h = 0 \/ frame_validate_header h = -1.
Proof. unfold frame_validate_header. destruct h; bool_cases; auto. Qed.

Lemma length_header_bytes h : length (header_bytes h) = 14%nat.
Proof. reflexivity. Qed.

Lemma encode_header_bytes d n h :
  frame_encode_header (Some d) n (Some h) =
  if (frame_header_size <=? n) && (frame_validate_header (Some h) =? 0)
  then (0, Some (header_bytes h ++ drop 14 d)) else (-1, Some d).
Proof.
  unfold frame_encode_header, header_bytes. rewrite Z.leb_antisym.
  destruct (n <? frame_header_size), (frame_validate_header (Some h) =? 0); done.
Qed.

(** The fields read back from header bytes. *)
Lemma header_fields h l : header_in_range h ->
  at_ (header_bytes h ++ l) 4 = fh_type h /\ at_ (header_bytes h ++ l) 5 = fh_flags h /\
  read_u32le (drop 6 (header_bytes h ++ l)) = fh_req_id h /\
  read_u32le (drop 10 (header_bytes h ++ l)) = fh_length h.
Proof.
  intros (Ht & Hf & Hr & Hl). unfold header_bytes, at_. cbn [app drop lookup]. cbn.
  rewrite !b2z_z2b, !Z.mod_small by lia. repeat split.
  - change (read_u32le (write_u32le (fh_req_id h) ++ (write_u32le (fh_length h) ++ l)) = fh_req_id h).
    by apply read_write_u32le.
  - change (read_u32le (write_u32le (fh_length h) ++ l) = fh_length h).
    by apply read_write_u32le.
Qed.

Lemma mem_eq_magic h l : mem_eq (header_bytes h ++ l) LUAGENT_MAGIC LUAGENT_MAGIC_SIZE = true.
Proof. done. Qed.

(** Evaluation of the decoder on a buffer with a whole header. *)
Lemma decode_eval s n h0 :
  frame_header_size <= n ->
  frame_decode_header (Some s) n (Some h0) =
  (if mem_eq s LUAGENT_MAGIC LUAGENT_MAGIC_SIZE then
     let h := FrameHeader (at_ s 4) (at_ s 5) (read_u32le (drop 6 s)) (read_u32le (drop 10 s)) in
     (if frame_validate_header (Some h) =? 0 then FRAME_STATUS_OK else FRAME_STATUS_ERROR, Some h)
   else (FRAME_STATUS_ERROR, Some h0)).
Proof.
  intros Hn. unfold frame_decode_header. destruct (n <? frame_header_size) eqn:?; b2p; [lia|].
  destruct (mem_eq _ _ _); cbn -[frame_validate_header read_u32le at_]; [|done].
  by destruct (frame_validate_header _ =? 0).
Qed.

Lemma decode_in_range s n h0 h st :
  frame_header_size <= n -> mem_eq s LUAGENT_MAGIC LUAGENT_MAGIC_SIZE = true ->
  frame_decode_header (Some s) n (Some h0) = (st, Some h) -> header_in_range h.
Proof.
  intros Hn Hm. rewrite decode_eval, Hm by done. intros [= _ <-].
  pose proof (at_range s 4). pose proof (at_range s 5).
  pose proof (read_u32le_range (drop 6 s)). pose proof (read_u32le_range (drop 10 s)).
  unfold header_in_range; cbn [fh_type fh_flags fh_req_id fh_length]. lia.
Qed.

Lemma decode_header_bytes h l n h0 :
  header_valid h -> frame_header_size <= n ->
  frame_decode_header (Some (header_bytes h ++ l)) n (Some h0) = (FRAME_STATUS_OK, Some h).
Proof.
  intros (Hr & Ht & Hl) Hn. rewrite decode_eval, mem_eq_magic by done.
  destruct (header_fields h l Hr) as (-> & -> & -> & ->).
  destruct h as [t f r len]. cbn -[frame_validate_header].
  by rewrite (proj2 (validate_ok _)) by done.
Qed.

(** ** Theorems *)

(** Every header the protocol allows survives encoding and decoding: the
    encoder accepts it and the decoder returns the same four fields with
    status OK, whatever the caller's buffers held before. *)
Theorem frame_header_roundtrip d n m h h0 :
  header_valid h -> frame_header_size <= n -> frame_header_size <= m ->
  exists d', frame_encode_header (Some d) n (Some h) = (0, Some d') /\
    frame_decode_header (Some d') m (Some h0) = (FRAME_STATUS_OK, Some h).
Proof.
  intros Hv Hn Hm. exists (header_bytes h ++ drop 14 d). rewrite encode_header_bytes.
  rewrite (proj2 (Z.leb_le _ _) Hn), (proj2 (validate_ok h)) by (split; apply Hv).
  split; [done|]. by apply decode_header_bytes.
Qed.

Lemma frame_header_roundtrip_witness :
  exists d', frame_encode_header (Some []) 14 (Some (FrameHeader 20 0 4294967295 65536)) = (0, Some d') /\
    frame_decode_header (Some d') 14 (Some (FrameHeader 0 0 0 0))
      = (FRAME_STATUS_OK, Some (FrameHeader 20 0 4294967295 65536)).
Proof.
  apply (frame_header_roundtrip [] 14 14 (FrameHeader 20 0 4294967295 65536)).
  - unfold header_valid, header_in_range, LUAGENT_MAX_FRAME_PAYLOAD. cbn. lia.
  - unfold frame_header_size. lia.
  - unfold frame_header_size. lia.
Defined.

(** C23: The decoder is exact.  It asks for more input exactly when fewer
    than 14 bytes are there; otherwise it accepts exactly the headers with
    the right magic, a non-zero type and a length of at most 65536, and what
    it accepts is canonical: encoding the decoded header gives back the bytes
    that were read. *)
Theorem frame_decode_exact s n h0 :
  (n < frame_header_size ->
     frame_decode_header (Some s) n (Some h0) = (FRAME_STATUS_NEED_MORE, Some h0)) /\
  (frame_header_size <= n -> frame_header_size <= zlen s ->
     (exists h, frame_decode_header (Some s) n (Some h0) = (FRAME_STATUS_OK, Some h) /\
        header_valid h /\ header_bytes h = take 14 s) \/
     (exists h, frame_decode_header (Some s) n (Some h0) = (FRAME_STATUS_ERROR, h) /\
        (take 4 s <> LUAGENT_MAGIC \/ at_ s 4 = 0 \/
         LUAGENT_MAX_FRAME_PAYLOAD < read_u32le (drop 10 s)))).
Proof.
  split.
  - intros Hn. unfold frame_decode_header. destruct (n <? frame_header_size) eqn:?; b2p; [done|lia].
  - intros Hn Hs. pose proof (decode_in_range s n h0) as Hrange.
    rewrite decode_eval in * by done.
    destruct (mem_eq s LUAGENT_MAGIC LUAGENT_MAGIC_SIZE) eqn:Em.
    + cbv zeta in *. set (h := FrameHeader _ _ _ _) in *.
      specialize (Hrange h _ Hn eq_refl eq_refl).
      destruct (validate_rc (Some h)) as [E|E]; rewrite E; cbn [Z.eqb].
      * left. exists h. apply validate_ok in E as [E1 E2].
        split; [done|]. split; [done|].
        apply bytes_eqb_eq in Em. unfold zlen, frame_header_size in Hs.
        do 14 (destruct s as [|? s]; [cbn in Hs; lia|]).
        unfold header_bytes, h. cbn [fh_type fh_flags fh_req_id fh_length drop].
        rewrite !write_read_u32le by (cbn; lia). cbn in Em |- *.
        unfold at_. cbn. rewrite !z2b_b2z. by injection Em as -> -> -> ->.
      * right. eexists. split; [done|]. right. unfold frame_validate_header in E.
        revert E. bool_cases; intros; b2p; cbn in *; auto; lia.
    + right. eexists. split; [done|]. left. intros Ht. unfold mem_eq in Em.
      cbn in Em. rewrite Ht in Em. by rewrite bytes_eqb_refl in Em.
Qed.

Lemma frame_decode_exact_witness :
  (exists h, frame_decode_header (Some (header_bytes (FrameHeader 1 0 7 3))) 14
      (Some (FrameHeader 0 0 0 0)) = (FRAME_STATUS_OK, Some h) /\
      header_valid h /\ header_bytes h = take 14 (header_bytes (FrameHeader 1 0 7 3))) \/
  (exists h, frame_decode_header (Some (header_bytes (FrameHeader 1 0 7 3))) 14
      (Some (FrameHeader 0 0 0 0)) = (FRAME_STATUS_ERROR, h) /\
      (take 4 (header_bytes (FrameHeader 1 0 7 3)) <> LUAGENT_MAGIC \/
       at_ (header_bytes (FrameHeader 1 0 7 3)) 4 = 0 \/
       LUAGENT_MAX_FRAME_PAYLOAD < read_u32le (drop 10 (header_bytes (FrameHeader 1 0 7 3))))).
Proof.
  apply (frame_decode_exact (header_bytes (FrameHeader 1 0 7 3)) 14 (FrameHeader 0 0 0 0)).
  - unfold frame_header_size. lia.
  - vm_compute. discriminate.
Defined.
