(* ===== verification/Kv.v ===== *)
(** * Control payloads ([key=value] lines)

    The parser of control payloads: [kv_value], [kv_copy], [kv_u64],
    [kv_u64_default] and [kv_bool_default] of [src/transfer.c], and
    [kv_u64_default] and [kv_u32] of [src/proc.c], whose [kv_value] and
    [kv_copy] are the same text.  A [char *] into the payload is the rest of
    the payload it points to. *)

From Stdlib Require Import ZArith Lia Bool.
From Stdlib Require Import Strings.Byte Strings.String.
From stdpp Require Import base list numbers option.
From S2P Require Import Prelude CLib.

(** ** Operations *)

(** The loop of [kv_value]; every iteration that continues consumes a line
    and its newline, so the length of the payload is enough fuel. *)
Fixpoint kv_value_loop (fuel : nat) (key line : bytes) : option bytes :=
  match fuel with
  | O => None
  | S fuel' =>
      match line with
      | [] => None
      | _ =>
          let key_len := length key in
          let line_end := strchr line LF in
          let line_len := match line_end with Some i => i | None => length line end in
          if (key_len + 1 <? line_len)%nat && mem_eq line key key_len
             && bool_decide (line !! key_len = Some Byte.x3d)
          then Some (drop (key_len + 1) line)
          else match line_end with
               | None => None
               | Some i => kv_value_loop fuel' key (drop (S i) line)
               end
      end
  end.

Definition kv_value (payload key : bytes) : option bytes :=
  kv_value_loop (S (length payload)) key payload.

(** [kv_copy]: the string copied to [dst], or [None] for the return code -1. *)
Definition kv_copy (dst_size : Z) (payload key : bytes) : option bytes :=
  match kv_value payload key with
  | None => None
  | Some value =>
      let len := strcspn value [CR; LF] in
      if dst_size <? Z.of_nat len + 1 then None else Some (take len value)
  end.

(** [transfer.c]: [kv_u64]; [None] is the return code -1. *)
Definition kv_u64 (payload key : bytes) : option Z :=
  match kv_copy 64 payload key with
  | None => None
  | Some buf =>
      let '(value, erange, rest) := strtou ULLONG_MAX buf in
      if erange || (length rest =? length buf)%nat || negb (bytes_eqb rest [])
      then None else Some (u64 value)
  end.

Definition kv_u64_default (payload key : bytes) (default_value : Z) : Z :=
  match kv_u64 payload key with
  | None => default_value
  | Some out => out
  end.

Definition kv_bool_default (payload key : bytes) (default_value : bool) : bool :=
  match kv_copy 16 payload key with
  | None => default_value
  | Some buf => bytes_eqb buf (lit "1")
  end.

Module ProcKv.
(** [proc.c]: [kv_u64_default], written without [kv_u64]. *)
Definition kv_u64_default (payload key : bytes) (default_value : Z) : Z :=
  match kv_copy 64 payload key with
  | None => default_value
  | Some buf =>
      let '(value, erange, rest) := strtou ULLONG_MAX buf in
      if erange || (length rest =? length buf)%nat || negb (bytes_eqb rest [])
      then default_value else u64 value
  end.

(** [proc.c]: [kv_u32].  [ulong_max] is [ULONG_MAX]: [2^64-1] on Linux,
    [2^32-1] on Windows. *)
Definition kv_u32 (ulong_max : Z) (payload key : bytes) : option Z :=
  match kv_copy 32 payload key with
  | None => None
  | Some buf =>
      let '(value, erange, rest) := strtou ulong_max buf in
      if erange || (length rest =? length buf)%nat || negb (bytes_eqb rest [])
      then None else Some (u32 value)
  end.
End ProcKv.

(** ** What the parser computes *)

(** The lines of a payload. *)
Fixpoint split_lines (s : bytes) : list bytes :=
  match s with
  | [] => [[]]
  | c :: s' =>
      if Byte.eqb c LF then [] :: split_lines s'
      else match split_lines s' with
           | l :: ls => (c :: l) :: ls
           | [] => [[c]]
           end
  end.

(** The non-empty value of a [key=value] line. *)
Definition line_value (key line : bytes) : option bytes :=
  if bytes_eqb (take (length key + 1) line) (key ++ [Byte.x3d]) && (length key + 1 <? length line)%nat
  then Some (drop (length key + 1) line) else None.

(** The value of [key]: that of the first line that has one, cut at a
    carriage return. *)
Definition kv_lookup (payload key : bytes) : option bytes :=
  take_while (fun c => negb (Byte.eqb c CR)) <$> head (omap (line_value key) (split_lines payload)).

(** A payload made of lines. *)
Fixpoint join_lines (ls : list bytes) : bytes :=
  match ls with
  | [] => []
  | [l] => l
  | l :: ls' => l ++ LF :: join_lines ls'
  end.

Definition kv_line (key value : bytes) : bytes := key ++ [Byte.x3d] ++ value.

(** A string without line breaks. *)
Definition one_line (s : bytes) : Prop := LF ∉ s /\ CR ∉ s.

(** ** Lemmas *)

Lemma split_lines_app a b : LF ∉ a -> split_lines (a ++ LF :: b) = a :: split_lines b.
Proof.
  induction a as [|c a IH]; [done|]. rewrite not_elem_of_cons. intros [Hc Ha].
  cbn [app split_lines]. destruct (Byte.eqb c LF) eqn:E; [apply byte_eqb_eq in E; congruence|].
  by rewrite IH.
Qed.

Lemma split_lines_one a : LF ∉ a -> split_lines a = [a].
Proof.
  induction a as [|c a IH]; [done|]. rewrite not_elem_of_cons. intros [Hc Ha].
  cbn [split_lines]. destruct (Byte.eqb c LF) eqn:E; [apply byte_eqb_eq in E; congruence|].
  by rewrite IH.
Qed.

Lemma split_join_lines ls :
  ls <> [] -> Forall (fun l => LF ∉ l) ls -> split_lines (join_lines ls) = ls.
Proof.
  intros Hne. induction 1 as [|l ls Hl Hls IH]; [done|].
  destruct ls as [|l' ls]; [by apply split_lines_one|].
  cbn [join_lines] in *. by rewrite split_lines_app, IH.
Qed.

Lemma take_while_cr_lf (s : bytes) :
  take_while (fun c => negb (existsb (Byte.eqb c) [CR; LF])) s =
  take_while (fun c => negb (Byte.eqb c CR)) (take_while (fun c => negb (Byte.eqb c LF)) s).
Proof.
  induction s as [|c s IH]; cbn -[CR LF]; [done|]. cbn -[CR LF] in IH.
  destruct (Byte.eqb c CR) eqn:E1; destruct (Byte.eqb c LF) eqn:E2;
    cbn -[CR LF]; rewrite ?E1; cbn -[CR LF]; congruence.
Qed.

Lemma take_while_no_lf a t :
  LF ∉ a -> take_while (fun c => negb (Byte.eqb c LF)) (a ++ LF :: t) = a.
Proof.
  intros H. rewrite take_while_app; [cbn; apply app_nil_r|].
  apply forallb_forall. intros x Hx. apply negb_true_iff, byte_eqb_neq. intros ->.
  apply H. by apply list_elem_of_In.
Qed.

Lemma take_while_no (c : Byte.byte) a :
  c ∉ a -> take_while (fun d => negb (Byte.eqb d c)) a = a.
Proof.
  intros H. apply take_while_all, forallb_forall. intros x Hx.
  apply negb_true_iff, byte_eqb_neq. intros ->. apply H. by apply list_elem_of_In.
Qed.

(** The test of the loop decides whether the first line has the key. *)
Lemma kv_test_line key l t :
  (length key + 1 <? length l)%nat && mem_eq (l ++ t) key (length key)
    && bool_decide ((l ++ t) !! length key = Some Byte.x3d) =
  bytes_eqb (take (length key + 1) l) (key ++ [Byte.x3d]) && (length key + 1 <? length l)%nat.
Proof.
  destruct (length key + 1 <? length l)%nat eqn:E; [|by rewrite andb_false_r].
  apply Nat.ltb_lt in E. rewrite andb_true_l, andb_true_r.
  rewrite lookup_app_l by lia. unfold mem_eq. rewrite take_app_le by lia.
  rewrite (firstn_all key).
  destruct (lookup_lt_is_Some_2 l (length key)) as [c Hc]; [lia|].
  rewrite Hc, Nat.add_1_r, (take_S_r _ _ c) by done.
  apply eq_true_iff_eq. rewrite andb_true_iff, bool_decide_eq_true, !bytes_eqb_eq. split.
  - by intros [-> [= ->]].
  - intros [H1 H2]%app_inj_2; [|done]. split; congruence.
Qed.

Lemma kv_value_loop_spec fuel key line :
  (length line < fuel)%nat ->
  take_while (fun c => negb (Byte.eqb c LF)) <$> kv_value_loop fuel key line =
  head (omap (line_value key) (split_lines line)).
Proof.
  revert line. induction fuel as [|fuel IH]; [lia|]. intros line Hf.
  cbn [kv_value_loop]. destruct line as [|c0 line0] eqn:El.
  { cbn. unfold line_value. cbn [length]. destruct (length key + 1 <? 0)%nat eqn:E;
      [apply Nat.ltb_lt in E; lia|]. by rewrite andb_false_r. }
  rewrite <- El in *. clear El c0 line0. cbv zeta.
  destruct (strchr line LF) as [i|] eqn:Ei.
  - apply strchr_Some in Ei as [Hl Hn].
    set (l := take i line) in *. set (t := drop (S i) line) in *.
    assert (Hi : length l = i).
    { unfold l. rewrite length_take. apply (f_equal length) in Hl.
      rewrite length_app in Hl. cbn in Hl. unfold l, t in Hl.
      rewrite length_take, length_drop in Hl. lia. }
    rewrite Hl, split_lines_app by done. rewrite <- Hi, kv_test_line.
    cbn [omap list_omap]. unfold line_value at 1.
    destruct (bytes_eqb _ _ && _) eqn:Et.
    + cbn. apply andb_true_iff in Et as [_ Et]. apply Nat.ltb_lt in Et.
      rewrite drop_app_le by lia. f_equal. apply take_while_no_lf.
      intros Hin. apply Hn. apply list_elem_of_lookup in Hin as [j Hj].
      rewrite lookup_drop in Hj. by eapply list_elem_of_lookup_2.
    + apply IH. unfold t. rewrite length_drop. 
      apply (f_equal length) in Hl. rewrite length_app in Hl. cbn in Hl. lia.
  - apply strchr_None in Ei. rewrite split_lines_one by done.
    pose proof (kv_test_line key line []) as Ht. rewrite app_nil_r in Ht. rewrite Ht.
    cbn [omap list_omap]. unfold line_value at 1. destruct (bytes_eqb _ _ && _); [|done].
    cbn. f_equal. apply take_while_no. intros Hin. apply Ei.
    apply list_elem_of_lookup in Hin as [j Hj]. rewrite lookup_drop in Hj.
    by eapply list_elem_of_lookup_2.
Qed.

Lemma kv_copy_eval size payload key :
  kv_copy size payload key =
  match kv_lookup payload key with
  | Some v => if size <? zlen v + 1 then None else Some v
  | None => None
  end.
Proof.
  unfold kv_copy, kv_value, kv_lookup.
  rewrite <- (kv_value_loop_spec (S (length payload))) by lia.
  destruct (kv_value_loop _ _ _) as [v|]; [|done]. cbn [fmap option_fmap option_map].
  unfold strcspn. rewrite take_while_prefix, take_while_cr_lf. done.
Qed.

Lemma line_value_kv_line key k v :
  Byte.x3d ∉ key -> Byte.x3d ∉ k ->
  line_value key (kv_line k v) = if bool_decide (k = key) && negb (bytes_eqb v []) then Some v else None.
Proof.
  intros Hkey Hk. unfold line_value, kv_line.
  destruct (decide (k = key)) as [->|Hne].
  - rewrite bool_decide_eq_true_2 by done. rewrite app_assoc, take_app_length', drop_app_length'
      by (rewrite length_app; cbn; lia).
    rewrite bytes_eqb_refl, !length_app. cbn [length andb].
    destruct v as [|c v]; cbn [length].
    + rewrite (proj2 (Nat.ltb_ge _ _)) by lia. done.
    + rewrite (proj2 (Nat.ltb_lt _ _)) by lia. done.
  - rewrite bool_decide_eq_false_2 by done. cbn [andb].
    destruct (bytes_eqb _ _) eqn:E; [|done]. exfalso. apply bytes_eqb_eq in E.
    apply Hne. clear Hne. revert key Hkey E. induction k as [|c k IH]; intros [|d key] Hkey E.
    + done.
    + cbn in E. rewrite not_elem_of_cons in Hkey. injection E as E _. by destruct Hkey.
    + cbn in E. rewrite not_elem_of_cons in Hk. injection E as E. by destruct Hk.
    + cbn in E. rewrite not_elem_of_cons in Hk, Hkey. injection E as -> E.
      f_equal. apply IH; tauto.
Qed.

(** The value of the first record with the key and a non-empty value. *)
Definition first_value (key : bytes) (kvs : list (bytes * bytes)) : option bytes :=
  head (omap (fun '(k, v) => if bool_decide (k = key) && negb (bytes_eqb v []) then Some v else None) kvs).

Definition kv_ok (kv : bytes * bytes) : Prop :=
  Byte.x3d ∉ kv.1 /\ one_line kv.1 /\ one_line kv.2.

Definition kv_payload (kvs : list (bytes * bytes)) : bytes :=
  join_lines (map (fun '(k, v) => kv_line k v) kvs).

Lemma kv_lookup_payload kvs key :
  Byte.x3d ∉ key -> Forall kv_ok kvs -> kv_lookup (kv_payload kvs) key = first_value key kvs.
Proof.
  intros Hkey Hok. unfold kv_lookup, kv_payload, first_value.
  destruct kvs as [|kv kvs'] eqn:Ekvs.
  { cbn. unfold line_value. cbn [length]. rewrite (proj2 (Nat.ltb_ge _ _)) by lia.
    by rewrite andb_false_r. }
  rewrite split_join_lines; [|done|].
  - rewrite <- Ekvs in *. clear Ekvs kv kvs'.
    induction Hok as [|[k v] kvs (H1 & H2 & H3) _ IH]; [done|].
    cbn [map omap list_omap]. cbn in H1, H2, H3. rewrite line_value_kv_line by done.
    destruct (bool_decide _ && _); [|exact IH]. cbn. f_equal. apply take_while_no. apply H3.
  - apply Forall_map. eapply Forall_impl; [|exact Hok]. intros [k v] (_ & [H1 _] & [H2 _]).
    cbn in *. unfold kv_line. rewrite !not_elem_of_app. repeat split; try done.
    by rewrite not_elem_of_cons; split; [|apply not_elem_of_nil].
Qed.

Lemma kv_u64_eval payload key :
  kv_u64 payload key =
  match kv_lookup payload key with
  | Some v =>
      if 64 <? zlen v + 1 then None
      else let '(value, erange, rest) := strtou ULLONG_MAX v in
           if erange || (length rest =? length v)%nat || negb (bytes_eqb rest [])
           then None else Some (u64 value)
  | None => None
  end.
Proof.
  unfold kv_u64. rewrite kv_copy_eval. destruct (kv_lookup payload key) as [v|]; [|done].
  by destruct (64 <? zlen v + 1).
Qed.

Lemma kv_u64_dec payload key n :
  0 <= n < 2 ^ 64 -> kv_lookup payload key = Some (dec n) -> kv_u64 payload key = Some n.
Proof.
  intros Hn Hl. rewrite kv_u64_eval, Hl. pose proof (dec_length n). pose proof (dec_positive n) as Hp.
  destruct (64 <? _) eqn:E; b2p; [lia|]. rewrite strtou_dec by (unfold ULLONG_MAX; lia).
  cbn [orb]. destruct (length [] =? length (dec n))%nat eqn:E2.
  - apply Nat.eqb_eq in E2. unfold zlen in Hp. cbn [length] in E2. lia.
  - cbn. by rewrite u64_small.
Qed.

Lemma kv_u64_range payload key n : kv_u64 payload key = Some n -> 0 <= n < 2 ^ 64.
Proof.
  unfold kv_u64. destruct (kv_copy _ _ _); [|done]. destruct (strtou _ _) as [[v e] r].
  destruct (_ || _ || _); [done|]. intros [= <-]. apply u64_range.
Qed.

Lemma kv_lookup_one_line payload key v : kv_lookup payload key = Some v -> one_line v.
Proof.
  unfold kv_lookup. rewrite <- (kv_value_loop_spec (S (length payload))) by lia.
  destruct (kv_value_loop _ _ _) as [w|]; [|done]. intros [= <-].
  rewrite <- take_while_cr_lf.
  pose proof (take_while_forallb (fun c => negb (existsb (Byte.eqb c) [CR; LF])) w) as H.
  rewrite forallb_forall in H.
  split; intros Hin; apply list_elem_of_In, H in Hin; cbn in Hin; discriminate.
Qed.

(** ** Theorems *)

(** C31: What [kv_copy] returns for a payload written as [key=value] lines:
    the value of the first record that has the key and a value that is not
    empty, if it fits in the buffer with its NUL, and failure otherwise.
    Later records with the same key are ignored, and an empty value counts
    as missing. *)
Theorem kv_copy_first dst_size kvs key :
  Byte.x3d ∉ key -> Forall kv_ok kvs ->
  kv_copy dst_size (kv_payload kvs) key =
  match first_value key kvs with
  | Some v => if zlen v <? dst_size then Some v else None
  | None => None
  end.
Proof.
  intros Hk Ho. rewrite kv_copy_eval, kv_lookup_payload by done.
  destruct (first_value key kvs) as [v|]; [|done].
  destruct (zlen v <? dst_size) eqn:E1; destruct (dst_size <? zlen v + 1) eqn:E2; try done; b2p; lia.
Qed.

Lemma kv_copy_first_witness :
  let kvs := [(lit "a", []); (lit "ab", lit "x=y"); (lit "a", lit "1"); (lit "a", lit "2")] in
  kv_copy 16 (kv_payload kvs) (lit "a") = Some (lit "1").
Proof.
  intros kvs. refine (kv_copy_first 16 kvs (lit "a") _ _).
  - rewrite <- strchr_None. reflexivity.
  - repeat apply Forall_cons_2; try apply Forall_nil_2;
      (split; [|split; split]; rewrite <- strchr_None; reflexivity).
Defined.

(** The number parser of [proc.c] is the one of [transfer.c] although it
    is written out again: [kv_u64_default] gives the same result in both
    files for every payload, key and default. *)
Theorem kv_u64_default_agree payload key d :
  ProcKv.kv_u64_default payload key d = kv_u64_default payload key d.
Proof.
  unfold ProcKv.kv_u64_default, kv_u64_default, kv_u64. destruct (kv_copy 64 payload key) as [buf|]; [|done].
  destruct (strtou ULLONG_MAX buf) as [[v e] r]. by destruct (e || _ || _).
Qed.

(** Numbers round trip through a payload, and [kv_u32] keeps only their
    low 32 bits: with a 64-bit [unsigned long] every [n < 2^64] written in
    decimal is accepted and reduced modulo [2^32], so that distinct numbers
    name the same process; with a 32-bit one, numbers from [2^32] on are
    rejected. *)
Theorem kv_u32_of_decimal payload key n :
  kv_lookup payload key = Some (dec n) -> 0 <= n < 2 ^ 64 ->
  kv_u64 payload key = Some n /\
  ProcKv.kv_u32 (2 ^ 64 - 1) payload key = Some (n mod 2 ^ 32) /\
  ProcKv.kv_u32 (2 ^ 32 - 1) payload key = if n <? 2 ^ 32 then Some n else None.
Proof.
  intros Hl Hn. split; [by apply kv_u64_dec|].
  unfold ProcKv.kv_u32. rewrite kv_copy_eval, Hl. pose proof (dec_length n). pose proof (dec_positive n) as Hp.
  destruct (32 <? _) eqn:E; b2p; [lia|].
  assert (Hz : (length (@nil Byte.byte) =? length (dec n))%nat = false).
  { apply Nat.eqb_neq. unfold zlen in Hp. cbn [length]. lia. }
  rewrite strtou_dec, Hz by lia. split; [by unfold u32|]. destruct (n <? 2 ^ 32) eqn:E2; b2p.
  - rewrite strtou_dec, Hz by lia. cbn. by rewrite u32_small by lia.
  - rewrite strtou_dec_gen by lia. destruct (2 ^ 32 - 1 <? n) eqn:E3; b2p; [done|lia].
Qed.

Lemma kv_u32_of_decimal_witness :
  ProcKv.kv_u32 (2 ^ 64 - 1) (kv_payload [(lit "proc_id", dec (2 ^ 32 + 1))]) (lit "proc_id") = Some 1.
Proof.
  refine (proj1 (proj2 (kv_u32_of_decimal (kv_payload [(lit "proc_id", dec (2 ^ 32 + 1))])
    (lit "proc_id") (2 ^ 32 + 1) _ _))).
  - reflexivity.
  - lia.
Defined.

(** A negative number is accepted as an unsigned one: [strtoull] negates
    modulo [2^64] without reporting an error, so [-n] parses as [2^64 - n]. *)
Theorem kv_u64_accepts_negative payload key n :
  kv_lookup payload key = Some (lit "-" ++ dec n) -> 0 < n < 2 ^ 64 ->
  kv_u64 payload key = Some (2 ^ 64 - n).
Proof.
  intros Hl Hn. rewrite kv_u64_eval, Hl, zlen_app. change (zlen (lit "-")) with 1.
  pose proof (dec_length n). destruct (64 <? _) eqn:E; b2p; [lia|].
  rewrite strtou_minus_dec by (unfold ULLONG_MAX; lia). cbn.
  rewrite Z.mod_opp_l_nz, !Z.mod_small by (unfold ULLONG_MAX; lia || (rewrite Z.mod_small; unfold ULLONG_MAX; lia)).
  change (ULLONG_MAX + 1) with (2 ^ 64). cbn [bytes_eqb negb]. by rewrite u64_small by lia.
Qed.

Lemma kv_u64_accepts_negative_witness : kv_u64 (lit "size=-1") (lit "size") = Some (2 ^ 64 - 1).
Proof. refine (kv_u64_accepts_negative (lit "size=-1") (lit "size") 1 _ _); [reflexivity|lia]. Defined.
