(* ===== verification/State.v ===== *)
(** * The data of a session

    The structures of [src/session.h], [src/transfer.h], [src/proc.h] and
    [src/diag.h].  Fields keep their C names with a prefix: [t_] for
    [struct transfer_state], [p_] for [struct proc_state], [s_] for
    [struct session], [d_] for the counters.  [int] flags are [bool]; a
    [char *] that may be [NULL] is an [option]. *)

From Stdlib Require Import ZArith Lia Bool.
From stdpp Require Import base list numbers.
From S2P Require Import Prelude CLib Frame.

Arguments lit : simpl never.

(** ** libuv handles

    A libuv handle embedded in a structure is not initialised, open, or
    closing; a closing handle has a close callback of the program
    ([H_closing true]) or was closed with a [NULL] callback. *)
Inductive handle :=
| H_none
| H_open
| H_closing (cb : bool).

#[global] Instance handle_eq_dec : EqDecision handle.
Proof. solve_decision. Defined.

(** What the program must not do: close a handle that is not open (libuv's
    assertion aborts the process), initialise a handle that is still linked
    into the loop, use a pointer that is null or of another type, and free
    an object with a handle that is still linked into the loop. *)
Inductive hazard :=
| HZ_close_not_open
| HZ_init_in_use
| HZ_bad_pointer
| HZ_free_in_use.

#[global] Instance hazard_eq_dec : EqDecision hazard.
Proof. solve_decision. Defined.

(** ** [struct transfer_state] *)

Inductive transfer_mode :=
| TRANSFER_MODE_NONE
| TRANSFER_MODE_UPLOAD
| TRANSFER_MODE_DOWNLOAD.

#[global] Instance transfer_mode_eq_dec : EqDecision transfer_mode.
Proof. solve_decision. Defined.

Record transfer_state := TransferState {
  t_active : bool;
  t_overwrite : bool;
  t_mode : transfer_mode;
  t_req_id : Z;
  t_file : Z;
  t_total_size : Z;
  t_offset : Z;
  t_last_progress_ms : Z;
  t_chunk_size : Z;
  t_path : option bytes;
  t_tmp_path : option bytes
}.

#[global] Instance transfer_state_eta : Eta transfer_state := fun t =>
  TransferState (t_active t) (t_overwrite t) (t_mode t) (t_req_id t) (t_file t)
    (t_total_size t) (t_offset t) (t_last_progress_ms t) (t_chunk_size t)
    (t_path t) (t_tmp_path t).

(** ** [struct proc_state] *)

Inductive proc_kill_reason :=
| PROC_KILL_NONE
| PROC_KILL_REQUESTED
| PROC_KILL_TIMEOUT
| PROC_KILL_IDLE.

#[global] Instance proc_kill_reason_eq_dec : EqDecision proc_kill_reason.
Proof. solve_decision. Defined.

(** What the [data] field of a pipe points to: nothing, the read context of
    [proc.c] with its frame type, or the session. *)
Inductive pipe_data :=
| PD_null
| PD_ctx (frame_type : Z)
| PD_session.

#[global] Instance pipe_data_eq_dec : EqDecision pipe_data.
Proof. solve_decision. Defined.

(** [options] and [stdio] only carry the arguments of [uv_spawn]: they are
    filled just before the call and never read again. *)
Record proc_state := ProcState {
  p_active : bool;
  p_stdout_closed : bool;
  p_stderr_closed : bool;
  p_proc_id : Z;
  p_started_ms : Z;
  p_last_io_ms : Z;
  p_timeout_ms : Z;
  p_idle_timeout_ms : Z;
  p_kill_reason : proc_kill_reason;
  p_process : handle;
  p_stdout_pipe : handle;
  p_stderr_pipe : handle;
  p_stdout_data : pipe_data;
  p_stderr_data : pipe_data;
  p_file : option bytes;
  p_args : option (list bytes)
}.

#[global] Instance proc_state_eta : Eta proc_state := fun p =>
  ProcState (p_active p) (p_stdout_closed p) (p_stderr_closed p) (p_proc_id p)
    (p_started_ms p) (p_last_io_ms p) (p_timeout_ms p) (p_idle_timeout_ms p)
    (p_kill_reason p) (p_process p) (p_stdout_pipe p) (p_stderr_pipe p)
    (p_stdout_data p) (p_stderr_data p) (p_file p) (p_args p).

(** ** Counters *)

(** The counters a session and the global [g_diag] both keep. *)
Record counters := Counters {
  d_frames_rx : Z;
  d_frames_tx : Z;
  d_bytes_rx : Z;
  d_bytes_tx : Z;
  d_protocol_errors : Z;
  d_lua_op_failures : Z;
  d_transfer_starts : Z;
  d_transfer_completes : Z;
  d_transfer_aborts : Z;
  d_process_spawns : Z;
  d_process_exits : Z;
  d_process_timeouts : Z;
  d_session_disconnects : Z;
  d_heartbeat_events : Z;
  d_relay_opens : Z;
  d_relay_closes : Z
}.

#[global] Instance counters_eta : Eta counters := fun c =>
  Counters (d_frames_rx c) (d_frames_tx c) (d_bytes_rx c) (d_bytes_tx c)
    (d_protocol_errors c) (d_lua_op_failures c) (d_transfer_starts c)
    (d_transfer_completes c) (d_transfer_aborts c) (d_process_spawns c)
    (d_process_exits c) (d_process_timeouts c) (d_session_disconnects c)
    (d_heartbeat_events c) (d_relay_opens c) (d_relay_closes c).

Definition counters_zero : counters :=
  Counters 0 0 0 0 0 0 0 0 0 0 0 0 0 0 0 0.

(** [struct diag_counters]: the shared counters and [parse_failures]. *)
Record diag_counters := DiagCounters {
  d_shared : counters;
  d_parse_failures : Z
}.

#[global] Instance diag_counters_eta : Eta diag_counters :=
  fun d => DiagCounters (d_shared d) (d_parse_failures d).

(** ** [struct session] *)

Definition LUAGENT_READ_CHUNK : Z := 4096.
Definition LUAGENT_MAX_WRITE_QUEUE_BYTES : Z := 262144.
Definition LUAGENT_SESSION_IDLE_MS : Z := 15000.
Definition LUAGENT_HEARTBEAT_IDLE_MS : Z := 5000.
Definition LUAGENT_TRANSFER_IDLE_MS : Z := 20000.

(** [s_rx_buf] is the used part of the receive buffer, so that [rx_used] is
    its length; the bytes of the object beyond [rx_used] are never read.
    [s_ctr] groups the per-session counters. *)
Record session := Session {
  s_tcp : handle;
  s_heartbeat_timer : handle;
  s_upload : transfer_state;
  s_download : transfer_state;
  s_proc : proc_state;
  s_rx_buf : bytes;
  s_rx_cap : Z;
  s_pending_write_bytes : Z;
  s_last_rx_ms : Z;
  s_last_tx_ms : Z;
  s_session_id : Z;
  s_ctr : counters;
  s_next_req_id : Z;
  s_next_proc_id : Z;
  s_close_refs : Z;
  s_timer_started : bool;
  s_closed : bool
}.

#[global] Instance session_eta : Eta session := fun s =>
  Session (s_tcp s) (s_heartbeat_timer s) (s_upload s) (s_download s) (s_proc s)
    (s_rx_buf s) (s_rx_cap s) (s_pending_write_bytes s) (s_last_rx_ms s)
    (s_last_tx_ms s) (s_session_id s) (s_ctr s) (s_next_req_id s)
    (s_next_proc_id s) (s_close_refs s) (s_timer_started s) (s_closed s).

(** [rx_used]. *)
Definition s_rx_used (s : session) : Z := zlen (s_rx_buf s).

(** ** The program state a callback sees *)

(** The session the callback is about, the global counters, the session id
    counter of [session.c], the write
    requests handed to [uv_write] whose callback has not run, everything
    [uv_write] ever accepted for this session (in order), the libuv contract
    violations so far, and the world outside the program. *)
Record St (W : Type) := mkSt {
  sess : session;
  g_counters : diag_counters;
  g_next_session_id : Z;
  inflight : list bytes;
  wire : list bytes;
  hazards : list hazard;
  world : W
}.
Arguments mkSt {W} _ _ _ _ _ _ _.
Arguments sess {W} _.
Arguments g_counters {W} _.
Arguments g_next_session_id {W} _.
Arguments inflight {W} _.
Arguments wire {W} _.
Arguments hazards {W} _.
Arguments world {W} _.

#[global] Instance St_eta W : Eta (St W) := fun st =>
  mkSt (sess st) (g_counters st) (g_next_session_id st) (inflight st) (wire st)
    (hazards st) (world st).
