(* ===== verification/Uv.v ===== *)
(** * The world outside the program: libuv and the allocator

    The sources call libuv and [malloc]; neither is part of the repository.
    [Uv W] is the interface of what they call, over a type [W] of states of
    the outside world: every call returns its C result and the next world.
    [FsLaws] states the documented behaviour of the file-system calls (those
    of [open(2)], [pwrite(2)], [pread(2)], [close(2)], [unlink(2)],
    [rename(2)]) as seen through the contents of the files, and [Healthy]
    what it means that the environment does not fail.  [Sim] is an in-memory
    world that satisfies both, on which the witnesses are evaluated. *)

From Stdlib Require Import ZArith Lia Bool.
From Stdlib Require Import Strings.Byte Strings.String.
From stdpp Require Import base list numbers gmap countable.
From S2P Require Import Prelude CLib Frame State.

(** ** The interface *)

(** The two combinations of [open] flags the program uses:
    [O_CREAT | O_TRUNC | O_WRONLY] with mode 0666, and [O_RDONLY]. *)
Inductive open_flags :=
| O_create_trunc_wronly
| O_rdonly.

Class Uv (W : Type) := {
  (** [uv_hrtime()], nanoseconds. *)
  uv_hrtime : W -> Z * W;
  (** Whether [malloc], [calloc] or [strdup] of this many bytes succeeds. *)
  c_malloc : Z -> W -> bool * W;
  uv_write : bytes -> W -> Z * W;
  uv_tcp_init : W -> Z * W;
  uv_accept : W -> Z * W;
  uv_read_start : W -> Z * W;
  uv_timer_init : W -> Z * W;
  uv_timer_start : Z -> Z -> W -> Z * W;
  uv_fs_open : bytes -> open_flags -> W -> Z * W;
  (** [uv_fs_write(file, buf, offset)]. *)
  uv_fs_write : Z -> bytes -> Z -> W -> Z * W;
  (** [uv_fs_read(file, len, offset)]: result and the bytes stored. *)
  uv_fs_read : Z -> Z -> Z -> W -> (Z * bytes) * W;
  (** [uv_fs_fstat(file)]: result and [st_size]. *)
  uv_fs_fstat : Z -> W -> (Z * Z) * W;
  uv_fs_close : Z -> W -> Z * W;
  uv_fs_unlink : bytes -> W -> Z * W;
  uv_fs_rename : bytes -> bytes -> W -> Z * W;
  (** [uv_fs_scandir(path)]: result and the names that
      [uv_fs_scandir_next] then gives. *)
  uv_fs_scandir : bytes -> W -> (Z * list bytes) * W;
  uv_pipe_init : W -> Z * W;
  (** [uv_spawn] with the file and the argument vector. *)
  uv_spawn : bytes -> list bytes -> W -> Z * W;
  (** [uv_process_kill(&proc->process, SIGKILL)]. *)
  uv_process_kill : W -> Z * W;
  uv_strerror : Z -> bytes
}.

(** ** Calls from the program *)

Section calls.
Context {W : Type} `{!Uv W}.

Definition lift {A} (f : W -> A * W) : M (St W) A :=
  fun st => match f (world st) with (a, w) => (a, st <| world := w |>) end.

(** [util_now_ms] of [src/util.c]. *)
Definition util_now_ms : M (St W) Z :=
  t ← lift uv_hrtime; mret (t / 1000000).

Definition get_sess {A} (f : session -> A) : M (St W) A := gets (fun st => f (sess st)).
Definition mod_sess (f : session -> session) : M (St W) unit :=
  modify (fun st => st <| sess ::= f |>).

Definition report (z : hazard) : M (St W) unit := modify (fun st => st <| hazards ::= cons z |>).

(** [uv_close] on a handle of the session. *)
Definition uv_close (p : session -> handle) `{!Update p} (cb : bool) : M (St W) unit :=
  h ← get_sess p;
  (match h with H_open => mret tt | _ => report HZ_close_not_open end);;
  mod_sess (upd p (fun _ => H_closing cb)).

(** The effect of a successful [uv_*_init] on a handle of the session. *)
Definition uv_opened (p : session -> handle) `{!Update p} : M (St W) unit :=
  h ← get_sess p;
  (match h with H_none => mret tt | _ => report HZ_init_in_use end);;
  mod_sess (upd p (fun _ => H_open)).
End calls.

(** Evaluate the monadic glue of a computation applied to a state. *)
Ltac run_eval :=
  cbv beta delta [mbind M_bind mret M_ret gets modify get_sess mod_sess report lift util_now_ms];
  cbn.

Ltac run_eval_in H :=
  cbv beta delta [mbind M_bind mret M_ret gets modify get_sess mod_sess report lift util_now_ms] in H;
  cbn in H.

(** ** The behaviour of the file-system calls *)

(** [pwrite(2)]: bytes past the end of the file are filled with zeros. *)
Definition pwrite (c : bytes) (off : nat) (d : bytes) : bytes :=
  take off c ++ replicate (off - length c) NUL ++ d ++ drop (off + length d) c.

Section laws.
Context (W : Type) `{!Uv W}.

(** [files w p] is the contents of the file named [p]; [fds w fd] the name
    under which the open descriptor [fd] was opened.  Distinct names are
    distinct files, and nobody else changes the files during a call. *)
Class FsView := {
  files : W -> bytes -> option bytes;
  fds : W -> Z -> option bytes
}.

Definition fs_eq `{!FsView} (w w' : W) : Prop :=
  (forall p, files w' p = files w p) /\ (forall fd, fds w' fd = fds w fd).

Definition files_upd `{!FsView} (w w' : W) (p : bytes) (o : option bytes) : Prop :=
  forall q, files w' q = if decide (q = p) then o else files w q.

Definition fds_upd `{!FsView} (w w' : W) (fd : Z) (o : option bytes) : Prop :=
  forall g, fds w' g = if decide (g = fd) then o else fds w g.

Class FsLaws `{!FsView} := {
  law_hrtime w : fs_eq w (uv_hrtime w).2;
  law_malloc n w : fs_eq w (c_malloc n w).2;
  law_uv_write b w : fs_eq w (uv_write b w).2;
  law_timer_init w : fs_eq w (uv_timer_init w).2;
  law_timer_start a b w : fs_eq w (uv_timer_start a b w).2;
  law_open_write p w fd w' :
    uv_fs_open p O_create_trunc_wronly w = (fd, w') ->
    if 0 <=? fd then fds w fd = None /\ files_upd w w' p (Some []) /\ fds_upd w w' fd (Some p)
    else fs_eq w w';
  law_open_read p w fd w' :
    uv_fs_open p O_rdonly w = (fd, w') ->
    if 0 <=? fd then
      is_Some (files w p) /\ fds w fd = None /\
      (forall q, files w' q = files w q) /\ fds_upd w w' fd (Some p)
    else fs_eq w w';
  law_write fd p c d off w n w' :
    fds w fd = Some p -> files w p = Some c -> 0 <= off ->
    uv_fs_write fd d off w = (n, w') ->
    if 0 <=? n then
      n <= zlen d /\ files_upd w w' p (Some (pwrite c (Z.to_nat off) (take (Z.to_nat n) d))) /\
      (forall g, fds w' g = fds w g)
    else fs_eq w w';
  law_read fd p c len off w n d w' :
    fds w fd = Some p -> files w p = Some c -> 0 <= off -> 0 <= len ->
    uv_fs_read fd len off w = (n, d, w') ->
    fs_eq w w' /\
    (0 <= n -> n = zlen d /\ n <= len /\ d = take (Z.to_nat n) (drop (Z.to_nat off) c));
  law_read_len fd len off w n d w' :
    uv_fs_read fd len off w = (n, d, w') -> 0 <= len -> 0 <= n -> zlen d = n /\ n <= len;
  law_fstat fd p c w rc size w' :
    fds w fd = Some p -> files w p = Some c ->
    uv_fs_fstat fd w = (rc, size, w') ->
    fs_eq w w' /\ (0 <= rc -> size = zlen c);
  law_close fd w :
    (forall p, files (uv_fs_close fd w).2 p = files w p) /\ fds_upd w (uv_fs_close fd w).2 fd None;
  law_unlink p w rc w' :
    uv_fs_unlink p w = (rc, w') ->
    (if 0 <=? rc then files_upd w w' p None else forall q, files w' q = files w q) /\
    (forall g, fds w' g = fds w g);
  law_rename p q w rc w' :
    p <> q -> uv_fs_rename p q w = (rc, w') ->
    (if 0 <=? rc then
       is_Some (files w p) /\
       (forall r, files w' r = if decide (r = p) then None else if decide (r = q) then files w p else files w r)
     else forall r, files w' r = files w r) /\
    (forall g, fds w' g = fds w g)
}.

(** An environment that does not fail: a set of worlds closed under the
    calls in which memory is available and the file calls that can succeed
    do. *)
Class Healthy `{!FsView} := {
  healthy : W -> Prop;
  healthy_hrtime w : healthy w -> healthy (uv_hrtime w).2;
  healthy_malloc n w : healthy w -> (c_malloc n w).1 = true /\ healthy (c_malloc n w).2;
  healthy_uv_write b w : healthy w -> (uv_write b w).1 = 0 /\ healthy (uv_write b w).2;
  healthy_open_write p w : healthy w ->
    0 <= (uv_fs_open p O_create_trunc_wronly w).1 /\ healthy (uv_fs_open p O_create_trunc_wronly w).2;
  healthy_open_read p w : healthy w -> is_Some (files w p) ->
    0 <= (uv_fs_open p O_rdonly w).1 /\ healthy (uv_fs_open p O_rdonly w).2;
  healthy_write fd p c d off w : healthy w -> fds w fd = Some p -> files w p = Some c -> 0 <= off ->
    (uv_fs_write fd d off w).1 = zlen d /\ healthy (uv_fs_write fd d off w).2;
  healthy_read fd p c len off w : healthy w -> fds w fd = Some p -> files w p = Some c ->
    0 <= off <= zlen c -> 0 < len ->
    (uv_fs_read fd len off w).1.1 = Z.min len (zlen c - off) /\ healthy (uv_fs_read fd len off w).2;
  healthy_fstat fd p w : healthy w -> fds w fd = Some p -> is_Some (files w p) ->
    0 <= (uv_fs_fstat fd w).1.1 /\ healthy (uv_fs_fstat fd w).2;
  healthy_close fd w : healthy w -> is_Some (fds w fd) ->
    0 <= (uv_fs_close fd w).1 /\ healthy (uv_fs_close fd w).2;
  healthy_unlink p w : healthy w ->
    (is_Some (files w p) -> 0 <= (uv_fs_unlink p w).1) /\ healthy (uv_fs_unlink p w).2;
  healthy_rename p q w : healthy w -> is_Some (files w p) ->
    0 <= (uv_fs_rename p q w).1 /\ healthy (uv_fs_rename p q w).2
}.
End laws.

Arguments files {W _} _ _.
Arguments fds {W _} _ _.
Arguments fs_eq {W _} _ _.
Arguments files_upd {W _} _ _ _ _.
Arguments fds_upd {W _} _ _ _ _.
Arguments healthy {W _ _ _} _.

#[global] Instance fs_eq_preorder {W} `{!FsView W} : PreOrder (@fs_eq W _).
Proof.
  split; [split; done|]. intros a b c [H1 H2] [H3 H4]. split; intros; by rewrite ?H3, ?H4.
Qed.

Lemma pwrite_append c d : pwrite c (length c) d = c ++ d.
Proof.
  unfold pwrite. rewrite firstn_all, Nat.sub_diag, drop_ge by lia. cbn. by rewrite app_nil_r.
Qed.

(** ** An in-memory world *)

#[global] Instance byte_countable : Countable Byte.byte :=
  inj_countable Byte.to_N Byte.of_N Byte.of_to_N.

Module Sim.
(** Files and open descriptors, the next descriptor, a clock that advances a
    millisecond per reading, and the results of [uv_spawn]. *)
Record sim := MkSim {
  m_files : gmap (list Byte.byte) (list Byte.byte);
  m_fds : gmap Z (list Byte.byte);
  m_next : Z;
  m_clock : Z;
  m_spawn_rc : Z
}.

#[global] Instance sim_eta : Eta sim :=
  fun m => MkSim (m_files m) (m_fds m) (m_next m) (m_clock m) (m_spawn_rc m).

Definition ENOENT : Z := -2.
Definition EBADF : Z := -9.
Definition EMFILE : Z := -24.

Definition open (p : bytes) (fl : open_flags) (m : sim) : Z * sim :=
  let m' := m <| m_fds ::= <[m_next m := p]> |> <| m_next ::= Z.succ |> in
  if decide (is_Some (m_fds m !! m_next m) \/ m_next m < 0) then (EMFILE, m) else
  match fl with
  | O_create_trunc_wronly => (m_next m, m' <| m_files ::= <[p := []]> |>)
  | O_rdonly => if decide (is_Some (m_files m !! p)) then (m_next m, m') else (ENOENT, m)
  end.

Definition contents (fd : Z) (m : sim) : option (bytes * bytes) :=
  p ← m_fds m !! fd; c ← m_files m !! p; Some (p, c).

#[global] Instance sim_uv : Uv sim := {
  uv_hrtime m := (m_clock m, m <| m_clock ::= fun t => u64 (t + 1000000) |>);
  c_malloc _ m := (true, m);
  uv_write _ m := (0, m);
  uv_tcp_init m := (0, m);
  uv_accept m := (0, m);
  uv_read_start m := (0, m);
  uv_timer_init m := (0, m);
  uv_timer_start _ _ m := (0, m);
  uv_fs_open := open;
  uv_fs_write fd d off m :=
    match contents fd m with
    | Some (p, c) => (zlen d, m <| m_files ::= <[p := pwrite c (Z.to_nat off) d]> |>)
    | None => (EBADF, m)
    end;
  uv_fs_read fd len off m :=
    match contents fd m with
    | Some (_, c) => let d := take (Z.to_nat len) (drop (Z.to_nat off) c) in (zlen d, d, m)
    | None => (EBADF, [], m)
    end;
  uv_fs_fstat fd m :=
    match contents fd m with Some (_, c) => (0, zlen c, m) | None => (EBADF, 0, m) end;
  uv_fs_close fd m :=
    (if decide (is_Some (m_fds m !! fd)) then 0 else EBADF, m <| m_fds ::= delete fd |>);
  uv_fs_unlink p m :=
    if decide (is_Some (m_files m !! p)) then (0, m <| m_files ::= delete p |>) else (ENOENT, m);
  uv_fs_rename p q m :=
    match m_files m !! p with
    | Some c => (0, m <| m_files ::= fun f => <[q := c]> (delete p f) |>)
    | None => (ENOENT, m)
    end;
  uv_fs_scandir _ m := (Z.of_nat (size (m_files m)), (map_to_list (m_files m)).*1, m);
  uv_pipe_init m := (0, m);
  uv_spawn _ _ m := (m_spawn_rc m, m);
  uv_process_kill m := (0, m);
  uv_strerror _ := lit "error"
}.

#[global] Instance sim_view : FsView sim := {
  files m p := m_files m !! p;
  fds m fd := m_fds m !! fd
}.

Definition empty : sim := MkSim ∅ ∅ 3 1000000000 0.

Lemma contents_eq fd p c m :
  m_fds m !! fd = Some p -> m_files m !! p = Some c -> contents fd m = Some (p, c).
Proof. intros H1 H2. unfold contents. rewrite H1. cbn. by rewrite H2. Qed.

#[global] Instance sim_laws : FsLaws sim.
Proof.
  split; try (intros; split; done).
  - intros p w fd w'. cbn. unfold open. case_decide as Hd.
    { intros [= <- <-]. done. }
    intros [= <- <-]. destruct (0 <=? m_next w) eqn:E; b2p; [|tauto].
    split; [by apply eq_None_not_Some; tauto|]. split; intros q; cbn.
    + rewrite lookup_insert. by repeat case_decide; subst.
    + rewrite lookup_insert. by repeat case_decide; subst.
  - intros p w fd w'. cbn. unfold open. case_decide as Hd.
    { intros [= <- <-]. done. }
    case_decide as Hs; intros [= <- <-]; [|done].
    destruct (0 <=? m_next w) eqn:E; b2p; [|tauto].
    split; [done|]. split; [by apply eq_None_not_Some; tauto|]. split; [done|].
    intros q. cbn. rewrite lookup_insert. by repeat case_decide; subst.
  - intros fd p c d off w n w' H1 H2 Hoff. cbn in *. rewrite (contents_eq fd p c) by done.
    intros [= <- <-]. pose proof (zlen_nonneg d).
    destruct (0 <=? zlen d) eqn:E; b2p; [|lia]. split; [lia|]. split; [|done].
    intros q. cbn. rewrite lookup_insert, to_nat_zlen, firstn_all. by repeat case_decide; subst.
  - intros fd p c len off w n d w' H1 H2 Ho Hl. cbn in *. rewrite (contents_eq fd p c) by done.
    intros [= <- <- <-]. split; [done|]. intros _. split; [done|].
    rewrite to_nat_zlen, take_length_take. split; [|done]. rewrite zlen_take. lia.
  - intros fd len off w n d w'. cbn. destruct (contents fd w) as [[p c]|]; intros [= <- <- <-]; [|done].
    intros Hl _. split; [done|]. rewrite zlen_take. lia.
  - intros fd p c w rc size w' H1 H2. cbn in *. rewrite (contents_eq fd p c) by done.
    intros [= <- <- <-]. done.
  - intros fd w. cbn. split; [done|]. intros g. cbn. rewrite lookup_delete.
    by repeat case_decide; subst.
  - intros p w rc w'. cbn. case_decide as Hd; intros [= <- <-]; cbn; [|done].
    split; [|done]. intros q. cbn. rewrite lookup_delete. by repeat case_decide; subst.
  - intros p q w rc w' Hne. cbn. destruct (m_files w !! p) as [c|] eqn:E; intros [= <- <-]; cbn; [|done].
    split; [|done]. split; [done|]. intros r. cbn. rewrite lookup_insert, lookup_delete.
    by repeat case_decide; subst.
Qed.

Definition fds_below (m : sim) : Prop :=
  0 <= m_next m /\ forall fd, m_next m <= fd -> m_fds m !! fd = None.

#[global] Instance sim_healthy : Healthy sim.
Proof.
  refine {| healthy := fds_below |}; unfold fds_below.
  - done.
  - done.
  - done.
  - intros p w [H0 H]. cbn. unfold open. case_decide as Hd.
    { destruct Hd as [[x Hx]|]; [rewrite H in Hx by lia; done|lia]. }
    cbn. split; [done|]. split; [lia|]. intros fd Hfd. rewrite lookup_insert_ne by lia. apply H. lia.
  - intros p w [H0 H] Hs. cbn. unfold open. case_decide as Hd.
    { destruct Hd as [[x Hx]|]; [rewrite H in Hx by lia; done|lia]. }
    case_decide; [|done]. cbn. split; [done|]. split; [lia|].
    intros fd Hfd. rewrite lookup_insert_ne by lia. apply H. lia.
  - intros fd p c d off w Hw H1 H2 _. cbn in *. by rewrite (contents_eq fd p c).
  - intros fd p c len off w Hw H1 H2 Ho Hl. cbn in *. rewrite (contents_eq fd p c) by done.
    cbn. split; [|done]. rewrite zlen_take, zlen_drop. lia.
  - intros fd p w Hw H1 [c H2]. cbn in *. by rewrite (contents_eq fd p c).
  - intros fd w [H0 H] Hs. cbn in *. case_decide; [|done]. split; [lia|]. split; [done|].
    intros g Hg. rewrite lookup_delete. case_decide; [done|]. by apply H.
  - intros p w Hw. cbn. case_decide; done.
  - intros p q w Hw [c Hc]. cbn in *. by rewrite Hc.
Defined.
End Sim.
