(* ===== verification/Tables.v ===== *)
(** * The tables of the debug bindings ([src/diag.c])

    A Lua table with string keys is a finite map; [lua_settable] replaces the
    value of a key.  Integers are converted to [lua_Integer], 64 bits signed. *)

From Stdlib Require Import ZArith Lia Bool.
From Stdlib Require Import Strings.Byte Strings.String.
From stdpp Require Import base list numbers option gmap countable.
From S2P Require Import Prelude CLib Frame State Uv.

(** ** Tables *)

Inductive field :=
| F_int (z : Z)
| F_str (b : bytes).

#[global] Instance field_eq_dec : EqDecision field.
Proof. solve_decision. Defined.

Notation table := (gmap bytes field).

Definition table_set_u64 (key : string) (value : Z) (t : table) : table := <[lit key := F_int (i64 value)]> t.
Definition table_set_str (key : string) (value : option bytes) (t : table) : table :=
  <[lit key := F_str (default [] value)]> t.

(** A row of the table [portfwd_push_list] makes. *)
Record relay_row := RelayRow {
  row_relay_id : Z;
  row_listen_host : option bytes;
  row_listen_port : Z;
  row_target_host : option bytes;
  row_target_port : Z;
  row_connected : bool
}.

(** ** What the debug bindings show *)

Definition diag_push_sessions (session : option session) : table :=
  let t := table_set_u64 "count" (if session then 1 else 0) ∅ in
  match session with
  | None => t
  | Some s =>
      let t := table_set_u64 "session.1.id" (s_session_id s) t in
      let t := table_set_u64 "session.1.last_rx_ms" (s_last_rx_ms s) t in
      let t := table_set_u64 "session.1.last_tx_ms" (s_last_tx_ms s) t in
      let t := table_set_u64 "session.1.pending_writes" (s_pending_write_bytes s) t in
      let t := table_set_u64 "session.1.frames_rx" (d_frames_rx (s_ctr s)) t in
      let t := table_set_u64 "session.1.frames_tx" (d_frames_tx (s_ctr s)) t in
      table_set_u64 "session.1.closed" (if s_closed s then 1 else 0) t
  end.

Definition diag_push_transfers (session : option session) : table :=
  let count := 0 in
  let t := ∅ in
  let '(count, t) :=
    match session with
    | Some s =>
        if t_active (s_upload s) then
          let count := count + 1 in
          let t := table_set_u64 "xfer.1.req_id" (t_req_id (s_upload s)) t in
          let t := table_set_str "xfer.1.kind" (Some (lit "upload")) t in
          let t := table_set_str "xfer.1.path" (t_path (s_upload s)) t in
          let t := table_set_u64 "xfer.1.offset" (t_offset (s_upload s)) t in
          let t := table_set_u64 "xfer.1.total" (t_total_size (s_upload s)) t in
          let t := table_set_u64 "xfer.1.last_progress_ms" (t_last_progress_ms (s_upload s)) t in
          (count, t)
        else (count, t)
    | None => (count, t)
    end in
  let '(count, t) :=
    match session with
    | Some s =>
        if t_active (s_download s) then
          let count := count + 1 in
          let key (a b : string) := if count =? 1 then a else b in
          let t := table_set_u64 (key "xfer.1.req_id" "xfer.2.req_id")%string (t_req_id (s_download s)) t in
          let t := table_set_str (key "xfer.1.kind" "xfer.2.kind")%string (Some (lit "download")) t in
          let t := table_set_str (key "xfer.1.path" "xfer.2.path")%string (t_path (s_download s)) t in
          let t := table_set_u64 (key "xfer.1.offset" "xfer.2.offset")%string (t_offset (s_download s)) t in
          let t := table_set_u64 (key "xfer.1.total" "xfer.2.total")%string (t_total_size (s_download s)) t in
          let t := table_set_u64 (key "xfer.1.last_progress_ms" "xfer.2.last_progress_ms")%string
                     (t_last_progress_ms (s_download s)) t in
          (count, t)
        else (count, t)
    | None => (count, t)
    end in
  table_set_u64 "count" count t.

Definition diag_push_procs (session : option session) : table :=
  let active := match session with Some s => p_active (s_proc s) | None => false end in
  let t := table_set_u64 "count" (if active then 1 else 0) ∅ in
  match session with
  | Some s =>
      if negb (p_active (s_proc s)) then t
      else
        let t := table_set_u64 "proc.1.id" (p_proc_id (s_proc s)) t in
        let t := table_set_str "proc.1.path" (p_file (s_proc s)) t in
        let t := table_set_u64 "proc.1.started_ms" (p_started_ms (s_proc s)) t in
        let t := table_set_u64 "proc.1.last_io_ms" (p_last_io_ms (s_proc s)) t in
        let t := table_set_u64 "proc.1.timeout_ms" (p_timeout_ms (s_proc s)) t in
        table_set_u64 "proc.1.idle_timeout_ms" (p_idle_timeout_ms (s_proc s)) t
  | None => t
  end.

Definition diag_push_stats (g : diag_counters) (session : option session) : table :=
  let c := d_shared g in
  let t := table_set_u64 "global.frames_rx" (d_frames_rx c) ∅ in
  let t := table_set_u64 "global.frames_tx" (d_frames_tx c) t in
  let t := table_set_u64 "global.bytes_rx" (d_bytes_rx c) t in
  let t := table_set_u64 "global.bytes_tx" (d_bytes_tx c) t in
  let t := table_set_u64 "global.parse_failures" (d_parse_failures g) t in
  let t := table_set_u64 "global.protocol_errors" (d_protocol_errors c) t in
  let t := table_set_u64 "global.lua_op_failures" (d_lua_op_failures c) t in
  let t := table_set_u64 "global.transfer_starts" (d_transfer_starts c) t in
  let t := table_set_u64 "global.transfer_completes" (d_transfer_completes c) t in
  let t := table_set_u64 "global.transfer_aborts" (d_transfer_aborts c) t in
  let t := table_set_u64 "global.process_spawns" (d_process_spawns c) t in
  let t := table_set_u64 "global.process_exits" (d_process_exits c) t in
  let t := table_set_u64 "global.process_timeouts" (d_process_timeouts c) t in
  let t := table_set_u64 "global.session_disconnects" (d_session_disconnects c) t in
  let t := table_set_u64 "global.heartbeat_events" (d_heartbeat_events c) t in
  let t := table_set_u64 "global.relay_opens" (d_relay_opens c) t in
  let t := table_set_u64 "global.relay_closes" (d_relay_closes c) t in
  match session with
  | None => t
  | Some s =>
      let c := s_ctr s in
      let t := table_set_u64 "session.id" (s_session_id s) t in
      let t := table_set_u64 "session.frames_rx" (d_frames_rx c) t in
      let t := table_set_u64 "session.frames_tx" (d_frames_tx c) t in
      let t := table_set_u64 "session.bytes_rx" (d_bytes_rx c) t in
      let t := table_set_u64 "session.bytes_tx" (d_bytes_tx c) t in
      let t := table_set_u64 "session.protocol_errors" (d_protocol_errors c) t in
      let t := table_set_u64 "session.lua_op_failures" (d_lua_op_failures c) t in
      let t := table_set_u64 "session.transfer_starts" (d_transfer_starts c) t in
      let t := table_set_u64 "session.transfer_completes" (d_transfer_completes c) t in
      let t := table_set_u64 "session.transfer_aborts" (d_transfer_aborts c) t in
      let t := table_set_u64 "session.process_spawns" (d_process_spawns c) t in
      let t := table_set_u64 "session.process_exits" (d_process_exits c) t in
      let t := table_set_u64 "session.process_timeouts" (d_process_timeouts c) t in
      let t := table_set_u64 "session.session_disconnects" (d_session_disconnects c) t in
      let t := table_set_u64 "session.heartbeat_events" (d_heartbeat_events c) t in
      let t := table_set_u64 "session.relay_opens" (d_relay_opens c) t in
      table_set_u64 "session.relay_closes" (d_relay_closes c) t
  end.

(** ** Theorems *)

(** The transfers that are running, in the order the table lists them. *)
Definition active_transfers (s : session) : list (bytes * transfer_state) :=
  (if t_active (s_upload s) then [(lit "upload", s_upload s)] else [])
  ++ (if t_active (s_download s) then [(lit "download", s_download s)] else []).

Definition xfer_key (i : nat) (name : string) : bytes :=
  lit "xfer." ++ dec (Z.of_nat i) ++ lit "." ++ lit name.

(** The row of a transfer in a table. *)
Definition xfer_row (t : table) (i : nat) (kind : bytes) (tr : transfer_state) : Prop :=
  t !! xfer_key i "req_id" = Some (F_int (i64 (t_req_id tr))) /\
  t !! xfer_key i "kind" = Some (F_str kind) /\
  t !! xfer_key i "path" = Some (F_str (default [] (t_path tr))) /\
  t !! xfer_key i "offset" = Some (F_int (i64 (t_offset tr))) /\
  t !! xfer_key i "total" = Some (F_int (i64 (t_total_size tr))) /\
  t !! xfer_key i "last_progress_ms" = Some (F_int (i64 (t_last_progress_ms tr))).

(** Look a key up in a table that was filled with [table_set]. *)
Ltac table_lookup :=
  unfold table_set_u64, table_set_str;
  repeat first [rewrite lookup_insert_eq; reflexivity
               |rewrite lookup_insert_ne by (vm_compute; discriminate)].

Lemma table_set_size (key : bytes) (v : field) (t : table) : t !! key = None -> size (<[key := v]> t) = S (size t).
Proof. apply map_size_insert_None. Qed.

Ltac table_size :=
  unfold table_set_u64, table_set_str;
  repeat (rewrite table_set_size; [f_equal|repeat first [apply lookup_empty|rewrite lookup_insert_ne by (vm_compute; discriminate)]]);
  try apply map_size_empty.

(** The keys as the source spells them. *)
Lemma xfer_row_lit (t : table) i kind tr :
  let key name := lit (String.append (if Nat.eqb i 0 then "xfer.1." else "xfer.2.") name) in
  (i < 2)%nat ->
  t !! key "req_id"%string = Some (F_int (i64 (t_req_id tr))) -> t !! key "kind"%string = Some (F_str kind) ->
  t !! key "path"%string = Some (F_str (default [] (t_path tr))) ->
  t !! key "offset"%string = Some (F_int (i64 (t_offset tr))) ->
  t !! key "total"%string = Some (F_int (i64 (t_total_size tr))) ->
  t !! key "last_progress_ms"%string = Some (F_int (i64 (t_last_progress_ms tr))) ->
  xfer_row t (S i) kind tr.
Proof.
  intros key Hi. assert (E : forall name, key name = xfer_key (S i) name).
  { intros name. unfold key, xfer_key. destruct i as [|[|i]]; [done|done|lia]. }
  rewrite !E. by repeat split.
Qed.

(** The table of transfers shows exactly the transfers that are running:
    their number under [count] and, numbered from 1, the fields of each, and
    nothing else. *)
Theorem transfers_table (s : session) :
  let t := diag_push_transfers (Some s) in
  t !! lit "count" = Some (F_int (zlen (active_transfers s))) /\
  (forall i kind tr, active_transfers s !! i = Some (kind, tr) -> xfer_row t (S i) kind tr) /\
  size t = (1 + 6 * length (active_transfers s))%nat.
Proof.
  cbv zeta. unfold diag_push_transfers, active_transfers.
  destruct (t_active (s_upload s)), (t_active (s_download s)); cbn [Z.add Z.eqb Pos.add Pos.eqb app length];
    (split; [table_lookup|split; [|table_size]]).
  - intros [|[|i]] kind tr [=]; subst; (apply xfer_row_lit; [lia|cbn; table_lookup..]).
  - intros [|i] kind tr [=]; subst; (apply xfer_row_lit; [lia|cbn; table_lookup..]).
  - intros [|i] kind tr [=]; subst; (apply xfer_row_lit; [lia|cbn; table_lookup..]).
  - by intros [|i] kind tr.
Qed.

(** The counters and their names. *)
Definition counter_fields : list (string * (counters -> Z)) :=
  [("frames_rx", d_frames_rx); ("frames_tx", d_frames_tx); ("bytes_rx", d_bytes_rx); ("bytes_tx", d_bytes_tx);
   ("protocol_errors", d_protocol_errors); ("lua_op_failures", d_lua_op_failures);
   ("transfer_starts", d_transfer_starts); ("transfer_completes", d_transfer_completes);
   ("transfer_aborts", d_transfer_aborts); ("process_spawns", d_process_spawns);
   ("process_exits", d_process_exits); ("process_timeouts", d_process_timeouts);
   ("session_disconnects", d_session_disconnects); ("heartbeat_events", d_heartbeat_events);
   ("relay_opens", d_relay_opens); ("relay_closes", d_relay_closes)]%string.

(** The statistics show every counter, of the agent and of the session, under
    its own name. *)
Lemma stats_table g (s : session) :
  let t := diag_push_stats g (Some s) in
  Forall (fun '(name, proj) =>
    t !! lit (String.append "global." name) = Some (F_int (i64 (proj (d_shared g)))) /\
    t !! lit (String.append "session." name) = Some (F_int (i64 (proj (s_ctr s))))) counter_fields.
Proof.
  cbv zeta. unfold counter_fields, diag_push_stats.
  repeat (apply Forall_cons_2; [split; cbn [String.append]; table_lookup|]). apply Forall_nil_2.
Qed.
