(* ===== verification/Session.v ===== *)
(** * Sessions and the write queue ([src/session.c], counters of [src/diag.c])

    Sending frames with a bounded queue, closing, reference counting, timers.
    [heartbeat_cb], which calls the transfer and process components, is in
    [Heartbeat.v].  A [struct session *] argument is the session of the
    state; no caller passes [NULL].  Calls that only write log output
    ([diag_log], [diag_wire_tx], [diag_wire_rx]), and [uv_timer_stop] on a
    timer that is closed next, are not part of the model. *)

From Stdlib Require Import ZArith Lia Bool.
From Stdlib Require Import Strings.Byte Strings.String.
From stdpp Require Import base list numbers.
From S2P Require Import Prelude CLib Frame State Uv.

Section session.
Context {W : Type} `{!Uv W}.
Notation M := (M (St W)).

(** ** Counters *)

(** [DIAG_COUNTER_FN]: one counter, globally and for the session. *)
Definition diag_count (f : counters -> counters) : M unit :=
  modify (fun st =>
    st <| g_counters ::= upd d_shared f |> <| sess ::= upd s_ctr f |>).

Definition incr64 (z : Z) : Z := u64 (z + 1).

Definition diag_count_protocol_error : M unit := diag_count (upd d_protocol_errors incr64).
Definition diag_count_lua_error : M unit := diag_count (upd d_lua_op_failures incr64).
Definition diag_count_transfer_start : M unit := diag_count (upd d_transfer_starts incr64).
Definition diag_count_transfer_complete : M unit := diag_count (upd d_transfer_completes incr64).
Definition diag_count_transfer_abort : M unit := diag_count (upd d_transfer_aborts incr64).
Definition diag_count_process_spawn : M unit := diag_count (upd d_process_spawns incr64).
Definition diag_count_process_exit : M unit := diag_count (upd d_process_exits incr64).
Definition diag_count_process_timeout : M unit := diag_count (upd d_process_timeouts incr64).
Definition diag_count_session_disconnect : M unit := diag_count (upd d_session_disconnects incr64).
Definition diag_count_heartbeat : M unit := diag_count (upd d_heartbeat_events incr64).

Definition diag_count_parse_failure : M unit :=
  modify (fun st => st <| g_counters ::= upd d_parse_failures incr64 |>).

Definition diag_count_frame_rx (frame_len : Z) : M unit :=
  diag_count (fun c => c <| d_frames_rx ::= incr64 |>
                         <| d_bytes_rx ::= fun z => u64 (z + frame_len) |>).

Definition diag_count_frame_tx (frame_len : Z) : M unit :=
  diag_count (fun c => c <| d_frames_tx ::= incr64 |>
                         <| d_bytes_tx ::= fun z => u64 (z + frame_len) |>).

(** ** References, closing *)

Definition session_add_ref : M unit := mod_sess (upd s_close_refs Z.succ).

Definition session_close : M unit :=
  closed ← get_sess s_closed;
  if closed : bool then mret tt
  else
    mod_sess (upd s_closed (fun _ => true));;
    diag_count_session_disconnect;;
    timer_started ← get_sess s_timer_started;
    (if timer_started : bool then
       uv_close s_heartbeat_timer true;;
       mod_sess (upd s_timer_started (fun _ => false))
     else mret tt);;
    session_add_ref;;
    uv_close s_tcp true.

(** ** Sending *)

(** The header [session_send_frame] fills in; the arguments are converted to
    the types of the parameters. *)
Definition send_header (type req_id payload_len : Z) : frame_header :=
  FrameHeader (u8 type) 0 (u32 req_id) (u32 payload_len).

Definition session_send_frame (type req_id : Z) (payload : bytes) : M Z :=
  closed ← get_sess s_closed;
  if closed : bool then mret (-1)
  else
    let payload_len := zlen payload in
    let header_size := frame_header_size in
    pending ← get_sess s_pending_write_bytes;
    if LUAGENT_MAX_WRITE_QUEUE_BYTES <? size_t (pending + header_size + payload_len) then
      session_close;; mret (-1)
    else
      let header := send_header type req_id payload_len in
      ok ← lift (c_malloc 1);
      if negb ok then mret (-1)
      else
        ok ← lift (c_malloc (header_size + payload_len));
        if negb ok then mret (-1)
        else
          let base := replicate (Z.to_nat (header_size + payload_len)) NUL in
          match frame_encode_header (Some base) header_size (Some header) with
          | (0, Some base) =>
              let buf := take (Z.to_nat header_size) base ++ payload in
              diag_count_frame_tx (zlen buf);;
              now ← util_now_ms;
              mod_sess (upd s_last_tx_ms (fun _ => now));;
              mod_sess (upd s_pending_write_bytes (fun p => size_t (p + zlen buf)));;
              rc ← lift (uv_write buf);
              if negb (rc =? 0) then
                mod_sess (upd s_pending_write_bytes (fun p => size_t (p - zlen buf)));;
                mret (-1)
              else
                modify (fun st => st <| inflight ::= fun q => q ++ [buf] |>
                                     <| wire ::= fun l => l ++ [buf] |>);;
                mret 0
          | _ => mret (-1)
          end.

Definition session_send_text (type req_id : Z) (payload : option bytes) : M Z :=
  session_send_frame type req_id (default [] payload).

Definition session_send_error (req_id : Z) (code message : option bytes) : M Z :=
  match util_snprintf 512 (lit "code=" ++ default (lit "internal") code ++ [LF]
                           ++ lit "message=" ++ default [] message) with
  | (0, payload) => session_send_text FRAME_ERROR req_id (Some payload)
  | _ => mret (-1)
  end.

(** An error reply with literal texts. *)
Definition send_error (req_id : Z) (code message : string) : M Z :=
  session_send_error req_id (Some (lit code)) (Some (lit message)).

(** The completion callback of the write request at position [i] of the
    queue. *)
Definition on_write_done (i : nat) : M unit :=
  queue ← gets inflight;
  match queue !! i with
  | None => mret tt
  | Some buf =>
      pending ← get_sess s_pending_write_bytes;
      (if zlen buf <=? pending then
         mod_sess (upd s_pending_write_bytes (fun p => size_t (p - zlen buf)))
       else mret tt);;
      modify (fun st => st <| inflight ::= delete i |>)
  end.

(** ** Set-up *)

Definition transfer_init : transfer_state :=
  TransferState false false TRANSFER_MODE_NONE 0 (-1) 0 0 0 LUAGENT_READ_CHUNK None None.

Definition proc_init : proc_state :=
  ProcState false false false 0 0 0 0 0 PROC_KILL_NONE H_none H_none H_none
    PD_null PD_null None None.

Definition session_init : M unit :=
  id ← gets g_next_session_id;
  modify (fun st => st <| g_next_session_id ::= incr64 |>);;
  now ← util_now_ms;
  modify (fun st => st <| sess :=
    Session H_none H_none transfer_init transfer_init proc_init [] 0 0 now now id
      counters_zero 1 1 0 false false |>).

Definition session_start_timers : M Z :=
  rc ← lift uv_timer_init;
  if negb (rc =? 0) then mret rc
  else
    uv_opened s_heartbeat_timer;;
    session_add_ref;;
    mod_sess (upd s_timer_started (fun _ => true));;
    rc ← lift (uv_timer_start 1000 1000);
    (if negb (rc =? 0) then uv_close s_heartbeat_timer true else mret tt);;
    mret rc.

Definition session_reset_buffer : M unit := mod_sess (upd s_rx_buf (fun _ => [])).

(** ** What the operations keep *)

(** The frame [session_send_frame] puts on the wire. *)
Definition frame_of (type req_id : Z) (payload : bytes) : bytes :=
  header_bytes (send_header type req_id (zlen payload)) ++ payload.

(** One well-formed frame of the protocol. *)
Definition is_frame (b : bytes) : Prop :=
  exists h payload, header_valid h /\ fh_length h = zlen payload /\ b = header_bytes h ++ payload.

Definition queue_bytes (q : list bytes) : Z := foldr (fun b n => zlen b + n) 0 q.

(** The write queue: the byte count is that of the requests in flight and is
    within the limit. *)
Definition queue_ok (st : St W) : Prop :=
  s_pending_write_bytes (sess st) = queue_bytes (inflight st) /\
  queue_bytes (inflight st) <= LUAGENT_MAX_WRITE_QUEUE_BYTES.

Definition wire_ok (st : St W) : Prop := Forall is_frame (wire st).

(** Sending and closing leave the components of the session alone. *)
Record same_parts (st st' : St W) : Prop := SameParts {
  sp_upload : s_upload (sess st') = s_upload (sess st);
  sp_download : s_download (sess st') = s_download (sess st);
  sp_proc : s_proc (sess st') = s_proc (sess st);
  sp_rx_buf : s_rx_buf (sess st') = s_rx_buf (sess st);
  sp_rx_cap : s_rx_cap (sess st') = s_rx_cap (sess st);
  sp_last_rx : s_last_rx_ms (sess st') = s_last_rx_ms (sess st);
  sp_id : s_session_id (sess st') = s_session_id (sess st);
  sp_req : s_next_req_id (sess st') = s_next_req_id (sess st);
  sp_procid : s_next_proc_id (sess st') = s_next_proc_id (sess st)
}.

#[global] Instance same_parts_preorder : PreOrder same_parts.
Proof.
  split; [by split|]. intros a b c [] []. split; congruence.
Qed.

(** The life-cycle fields: only [session_close] changes them. *)
Record same_life (st st' : St W) : Prop := SameLife {
  sl_tcp : s_tcp (sess st') = s_tcp (sess st);
  sl_timer : s_heartbeat_timer (sess st') = s_heartbeat_timer (sess st);
  sl_refs : s_close_refs (sess st') = s_close_refs (sess st);
  sl_started : s_timer_started (sess st') = s_timer_started (sess st);
  sl_closed : s_closed (sess st') = s_closed (sess st);
  sl_hazards : hazards st' = hazards st
}.

#[global] Instance same_life_preorder : PreOrder same_life.
Proof.
  split; [by split|]. intros a b c [] []. split; congruence.
Qed.

(** Nothing is queued, dequeued or sent. *)
Record same_queue (st st' : St W) : Prop := SameQueue {
  sq_pending : s_pending_write_bytes (sess st') = s_pending_write_bytes (sess st);
  sq_inflight : inflight st' = inflight st;
  sq_wire : wire st' = wire st
}.

#[global] Instance same_queue_preorder : PreOrder same_queue.
Proof.
  split; [by split|]. intros a b c [] []. split; congruence.
Qed.

(** The wire only grows. *)
Definition wire_grows (st st' : St W) : Prop := exists l, wire st' = wire st ++ l.

#[global] Instance wire_grows_preorder : PreOrder wire_grows.
Proof.
  split.
  - intros st. exists []. by rewrite app_nil_r.
  - intros a b c [l Hl] [k Hk]. exists (l ++ k). by rewrite Hk, Hl, app_assoc.
Qed.

Definition stays_closed (st st' : St W) : Prop :=
  s_closed (sess st) = true -> s_closed (sess st') = true.

#[global] Instance stays_closed_preorder : PreOrder stays_closed.
Proof. split; unfold stays_closed; repeat intro; auto. Qed.
End session.

(** Run the structural rules of [keeps], then the known facts; a remaining
    [modify] is discharged by computing. *)
Ltac keeps_step :=
  lazymatch goal with
  | |- keeps _ (mret _) => refine (keeps_ret _ _)
  | |- keeps _ (gets _) => refine (keeps_gets _ _)
  | |- keeps _ (get_sess _) => refine (keeps_gets _ _)
  | |- keeps _ (_ ≫= _) => refine (keeps_bind _ _ _ _ _); [| intros ?]
  | |- keeps _ (if ?b then _ else _) =>
      lazymatch type of b with bool => refine (keeps_if _ _ _ _ _ _) | _ => case_match end
  | |- keeps _ (modify _) => refine (keeps_modify _ _ _); intros ?; cbn; by split
  | |- keeps _ (match _ with _ => _ end) => case_match
  | |- keeps _ _ => solve [eauto with keeps nocore]
  end.
Ltac solve_keeps := repeat keeps_step.

Section session_keeps.
Context {W : Type} `{!Uv W}.

Lemma keeps_lift {A} (R : relation (St W)) `{!PreOrder R} (f : W -> A * W) :
  (forall st w, R st (st <| world := w |>)) -> keeps R (lift f).
Proof. intros H st. unfold lift. destruct (f (world st)) as [a w]. cbn. apply H. Qed.

Lemma util_now_ms_keeps (R : relation (St W)) `{!PreOrder R} :
  (forall st w, R st (st <| world := w |>)) -> keeps R util_now_ms.
Proof. intros H. unfold util_now_ms. refine (keeps_bind _ _ _ _ _); [by apply keeps_lift|].
  intros. refine (keeps_ret _ _). Qed.
End session_keeps.

#[export] Hint Extern 3 (keeps _ (lift _)) => refine (keeps_lift _ _ _); intros; by split : keeps.
#[export] Hint Extern 3 (keeps _ util_now_ms) => refine (util_now_ms_keeps _ _); intros; by split : keeps.

(** One step of symbolic execution: the glue of the monad.  Calls with a
    specification are stepped by applying it. *)
Lemma wp_lift {W A} (f : W -> A * W) (Q : A -> St W -> Prop) st :
  (forall a w, f (world st) = (a, w) -> Q a (st <| world := w |>)) -> wp (lift f) Q st.
Proof. unfold wp, lift. destruct (f (world st)) as [a w] eqn:E. cbn. auto. Qed.

Lemma wp_now {W} `{!Uv W} (Q : Z -> St W -> Prop) st :
  (forall t w, uv_hrtime (world st) = (t, w) -> Q (t / 1000000) (st <| world := w |>)) ->
  wp util_now_ms Q st.
Proof.
  intros H. unfold util_now_ms. apply wp_bind, wp_lift. intros t w E. apply wp_ret. auto.
Qed.

Ltac wp_step :=
  lazymatch goal with
  | |- wp (_ ≫= _) _ _ => apply wp_bind
  | |- wp (mret _) _ _ => apply wp_ret
  | |- wp (gets _) _ _ => apply wp_gets
  | |- wp (get_sess _) _ _ => apply wp_gets
  | |- wp (modify _) _ _ => apply wp_modify
  | |- wp (mod_sess _) _ _ => apply wp_modify
  | |- wp (diag_count _) _ _ => apply wp_modify
  | |- wp (lift _) _ _ => let H := fresh "Hcall" in apply wp_lift; intros ? ? H; cbn in H
  | |- wp util_now_ms _ _ => let H := fresh "Hcall" in apply wp_now; intros ? ? H; cbn in H
  | |- wp (if ?b then _ else _) _ _ => destruct b eqn:?
  end.

(** Compute the state of the goal: to a record of its fields, where [upd]
    may be unfolded and the initial state is a record of variables. *)
Ltac norm_state :=
  lazymatch goal with
  | |- wp ?m ?Q ?s => let s' := eval cbn in s in change (wp m Q s')
  | _ => idtac
  end.

Lemma keeps_bind_lift {W A B} (R : relation (St W)) `{!PreOrder R} (f : W -> A * W) (g : A -> M (St W) B) :
  (forall st w, R st (st <| world := w |>)) ->
  (forall w a w', f w = (a, w') -> keeps R (g a)) -> keeps R (lift f ≫= g).
Proof.
  intros Hw Hg st. rewrite bind_run. unfold lift. destruct (f (world st)) as [a w] eqn:E. cbn.
  transitivity (st <| world := w |>); [apply Hw|]. by eapply Hg.
Qed.

Section session_lemmas.
Context {W : Type} `{!Uv W}.

Lemma session_close_parts : keeps same_parts (session_close (W := W)).
Proof.
  unfold session_close, diag_count_session_disconnect, diag_count, uv_close, session_add_ref,
    mod_sess, report. solve_keeps.
Qed.

Lemma session_close_queue : keeps same_queue (session_close (W := W)).
Proof.
  unfold session_close, diag_count_session_disconnect, diag_count, uv_close, session_add_ref,
    mod_sess, report. solve_keeps.
Qed.

(** All the ways a close can go. *)
Lemma session_close_eval (st : St W) :
  (session_close st).2 =
  if s_closed (sess st) then st else
  let c := upd d_session_disconnects incr64 in
  let s := sess st in
  let started := s_timer_started s in
  mkSt (s <| s_closed := true |> <| s_ctr ::= c |> <| s_timer_started := false |>
          <| s_heartbeat_timer ::= fun h => if started then H_closing true else h |>
          <| s_close_refs ::= Z.succ |> <| s_tcp := H_closing true |>)
    (g_counters st <| d_shared ::= c |>) (g_next_session_id st) (inflight st) (wire st)
    ((match s_tcp s with H_open => [] | _ => [HZ_close_not_open] end) ++
     (if started then match s_heartbeat_timer s with H_open => [] | _ => [HZ_close_not_open] end
      else []) ++ hazards st)
    (world st).
Proof.
  destruct st as [s g n q l z w].
  unfold session_close, diag_count_session_disconnect, diag_count, uv_close, session_add_ref.
  run_eval. destruct (s_closed s) eqn:E; [done|].
  destruct s as [tcp tm up dn pr rb rc pw lr lt sid ct nr np cr ts cl]; cbn in *.
  destruct ts, tm, tcp; reflexivity.
Qed.

Lemma session_close_world (st : St W) : world (session_close st).2 = world st.
Proof. rewrite session_close_eval. by destruct (s_closed (sess st)). Qed.

Lemma session_close_closed (st : St W) : s_closed (sess (session_close st).2) = true.
Proof. rewrite session_close_eval. by destruct (s_closed (sess st)) eqn:?. Qed.

(** The outcomes of [session_send_frame]. *)
Inductive send_outcome (st : St W) (type req_id : Z) (payload : bytes) : Z -> St W -> Prop :=
| SO_closed :
    s_closed (sess st) = true -> send_outcome st type req_id payload (-1) st
| SO_full :
    s_closed (sess st) = false ->
    LUAGENT_MAX_WRITE_QUEUE_BYTES < s_pending_write_bytes (sess st) + 14 + zlen payload ->
    send_outcome st type req_id payload (-1) (session_close st).2
| SO_fail st' :
    s_closed (sess st) = false ->
    s_pending_write_bytes (sess st) + 14 + zlen payload <= LUAGENT_MAX_WRITE_QUEUE_BYTES ->
    same_life st st' -> same_queue st st' ->
    send_outcome st type req_id payload (-1) st'
| SO_sent st' :
    s_closed (sess st) = false ->
    s_pending_write_bytes (sess st) + 14 + zlen payload <= LUAGENT_MAX_WRITE_QUEUE_BYTES ->
    zlen payload <= LUAGENT_MAX_FRAME_PAYLOAD -> u8 type <> 0 ->
    same_life st st' ->
    s_pending_write_bytes (sess st') = s_pending_write_bytes (sess st) + zlen (frame_of type req_id payload) ->
    inflight st' = inflight st ++ [frame_of type req_id payload] ->
    wire st' = wire st ++ [frame_of type req_id payload] ->
    send_outcome st type req_id payload 0 st'.

Lemma zlen_frame_of type req_id payload : zlen (frame_of type req_id payload) = 14 + zlen payload.
Proof. unfold frame_of. rewrite zlen_app. unfold zlen. by rewrite length_header_bytes. Qed.

Lemma session_send_frame_outcome st type req_id payload rc st' :
  0 <= s_pending_write_bytes (sess st) <= LUAGENT_MAX_WRITE_QUEUE_BYTES ->
  zlen payload < 2 ^ 63 ->
  session_send_frame type req_id payload st = (rc, st') ->
  send_outcome st type req_id payload rc st'.
Proof.
  intros Hp Hl. pose proof (zlen_nonneg payload) as Hn. unfold LUAGENT_MAX_WRITE_QUEUE_BYTES in Hp.
  unfold session_send_frame, diag_count_frame_tx, diag_count. run_eval.
  destruct (s_closed (sess st)) eqn:Ec; [intros [= <- <-]; by constructor|].
  rewrite size_t_small by (unfold frame_header_size; lia). unfold frame_header_size at 1.
  destruct (_ <? _) eqn:Eq; b2p.
  { destruct (session_close st) as [[] st1] eqn:E. intros [= <- <-].
    replace st1 with (session_close st).2 by (by rewrite E). by constructor. }
  destruct (c_malloc 1 (world st)) as [ok w1] eqn:E1. cbn.
  destruct ok; cbn; [|intros [= <- <-]; constructor; [done|lia|by split..]].
  destruct (c_malloc _ w1) as [ok w2] eqn:E2. cbn.
  destruct ok; cbn; [|intros [= <- <-]; constructor; [done|lia|by split..]].
  rewrite encode_header_bytes, andb_true_l.
  destruct (frame_validate_header _ =? 0) eqn:Ev; cbn [fst snd];
    [|intros [= <- <-]; constructor; [done|lia|by split..]].
  apply Z.eqb_eq, validate_ok in Ev as [Ev1 Ev2]. cbn [send_header fh_length fh_type] in Ev1, Ev2.
  rewrite u32_small in Ev1 by (unfold LUAGENT_MAX_WRITE_QUEUE_BYTES in *; lia).
  change (Z.to_nat frame_header_size) with (length (header_bytes (send_header type req_id (zlen payload)))).
  rewrite take_app_length. fold (frame_of type req_id payload).
  pose proof (zlen_frame_of type req_id payload) as Hf.
  cbn. destruct (uv_hrtime w2) as [t w3]. cbn. destruct (uv_write (frame_of type req_id payload) w3) as [rc' w4]. cbn.
  unfold LUAGENT_MAX_WRITE_QUEUE_BYTES in *.
  destruct (rc' =? 0); cbn; intros [= <- <-].
  - apply SO_sent; try done. cbn. apply size_t_small. lia.
  - apply SO_fail; [done|unfold LUAGENT_MAX_WRITE_QUEUE_BYTES; lia|by split|].
    split; [|done..]. cbn. rewrite (size_t_small (_ + _)) by lia.
    rewrite Z.add_simpl_r. apply size_t_small. lia.
Qed.

Lemma session_send_frame_parts type req_id payload :
  keeps same_parts (session_send_frame (W := W) type req_id payload).
Proof.
  unfold session_send_frame, diag_count_frame_tx, diag_count, mod_sess.
  pose proof session_close_parts. solve_keeps.
Qed.

(** *** The network side of every operation *)

(** What any operation may do to the queue and the wire. *)
Definition net_rel (st st' : St W) : Prop :=
  queue_ok st ->
  queue_ok st' /\ (wire_ok st -> wire_ok st') /\ wire_grows st st' /\ stays_closed st st'.

#[global] Instance net_rel_preorder : PreOrder net_rel.
Proof.
  split.
  - intros st Hq. do 2 (split; [done|]). by split.
  - intros a b c Hab Hbc Hq. destruct (Hab Hq) as (Hb & Hw & Hg & Hc).
    destruct (Hbc Hb) as (Hb' & Hw' & Hg' & Hc'). split; [done|]. split; [tauto|].
    split; [by transitivity b|unfold stays_closed in *; tauto].
Qed.

(** A step that leaves the queue alone and does not reopen the session. *)
Lemma net_rel_same st st' : same_queue st st' -> stays_closed st st' -> net_rel st st'.
Proof.
  intros [Hp Hi Hw] Hc [Hq1 Hq2]. repeat split; try done.
  - by rewrite Hp, Hi.
  - by rewrite Hi.
  - unfold wire_ok. by rewrite Hw.
  - exists []. by rewrite Hw, app_nil_r.
Qed.

Lemma queue_bytes_cons x q : queue_bytes (x :: q) = zlen x + queue_bytes q.
Proof. done. Qed.

Lemma queue_bytes_app a b : queue_bytes (a ++ b) = queue_bytes a + queue_bytes b.
Proof. induction a as [|x a IH]; [done|]. cbn [app]. rewrite !queue_bytes_cons. lia. Qed.

Lemma queue_bytes_nonneg q : 0 <= queue_bytes q.
Proof. induction q as [|x q IH]; [done|]. rewrite queue_bytes_cons. pose proof (zlen_nonneg x). lia. Qed.

Lemma queue_bytes_delete q i b :
  q !! i = Some b -> queue_bytes q = zlen b + queue_bytes (delete i q).
Proof.
  revert i. induction q as [|x q IH]; intros [|i] H; try done.
  - by injection H as ->.
  - change (delete (S i) (x :: q)) with (x :: delete i q). rewrite !queue_bytes_cons.
    apply IH in H. lia.
Qed.

Lemma frame_of_valid type req_id payload :
  zlen payload <= LUAGENT_MAX_FRAME_PAYLOAD -> u8 type <> 0 ->
  is_frame (frame_of type req_id payload).
Proof.
  intros Hl Ht. exists (send_header type req_id (zlen payload)), payload.
  pose proof (zlen_nonneg payload). unfold LUAGENT_MAX_FRAME_PAYLOAD in *.
  assert (E : u32 (zlen payload) = zlen payload) by (apply u32_small; lia).
  split; [|done]. unfold header_valid, header_in_range, LUAGENT_MAX_FRAME_PAYLOAD. cbn.
  rewrite E. pose proof (u32_range req_id). pose proof (Z.mod_pos_bound type (2 ^ 8) eq_refl).
  unfold u8 in *. lia.
Qed.

Lemma session_close_net : keeps net_rel (session_close (W := W)).
Proof.
  intros st. apply net_rel_same; [apply session_close_queue|].
  intros _. apply session_close_closed.
Qed.

Lemma send_outcome_net st type req_id payload rc st' :
  send_outcome st type req_id payload rc st' -> net_rel st st'.
Proof.
  intros [Hc|Hc _|st2 Hc _ Hl Hs|st2 Hc Hq Hz Ht Hl Hp Hi Hw].
  - reflexivity.
  - apply session_close_net.
  - apply net_rel_same; [done|]. unfold stays_closed. by rewrite (sl_closed _ _ Hl).
  - intros [Hq1 Hq2]. pose proof (zlen_frame_of type req_id payload) as Hf. repeat split.
    + rewrite Hp, Hi, Hq1, queue_bytes_app. cbn. lia.
    + rewrite Hi, queue_bytes_app. cbn. lia.
    + unfold wire_ok. rewrite Hw. intros. apply Forall_app. split; [done|].
      constructor; [by apply frame_of_valid|done].
    + by eexists.
    + unfold stays_closed. by rewrite (sl_closed _ _ Hl).
Qed.

Lemma session_send_frame_net type req_id payload :
  zlen payload < 2 ^ 63 -> keeps net_rel (session_send_frame (W := W) type req_id payload).
Proof.
  intros Hl st Hq. destruct (session_send_frame type req_id payload st) as [rc st'] eqn:E.
  eapply send_outcome_net; [|done]. eapply session_send_frame_outcome; [|done..].
  destruct Hq as [-> Hq]. split; [apply queue_bytes_nonneg|done].
Qed.

Lemma session_send_text_net type req_id payload :
  zlen (default [] payload) < 2 ^ 63 -> keeps net_rel (session_send_text (W := W) type req_id payload).
Proof. apply session_send_frame_net. Qed.

Lemma session_send_error_net req_id code message :
  keeps net_rel (session_send_error (W := W) req_id code message).
Proof.
  unfold session_send_error. destruct (util_snprintf 512 _) as [rc p] eqn:E.
  pose proof (util_snprintf_fits 512 (lit "code=" ++ default (lit "internal") code ++ [LF]
    ++ lit "message=" ++ default [] message) eq_refl) as Hf.
  rewrite E in Hf. cbn in Hf.
  destruct rc; [apply session_send_text_net; cbn; lia|apply keeps_ret; apply _..].
Qed.

Lemma send_error_net req_id code message : keeps net_rel (send_error (W := W) req_id code message).
Proof. apply session_send_error_net. Qed.

Lemma send_error_parts req_id code message :
  keeps same_parts (session_send_error (W := W) req_id code message).
Proof.
  unfold session_send_error, session_send_text. pose proof session_send_frame_parts.
  solve_keeps.
Qed.
End session_lemmas.

(** The network side of a computation made of calls, updates and sends. *)
Lemma net_modify {W} `{!Uv W} (f : St W -> St W) :
  (forall st, same_queue st (f st)) -> (forall st, stays_closed st (f st)) -> keeps net_rel (modify f).
Proof. intros H1 H2 st. by apply net_rel_same. Qed.

Ltac net_step :=
  lazymatch goal with
  | |- keeps _ (mret _) => refine (keeps_ret _ _)
  | |- keeps _ (gets _) => refine (keeps_gets _ _)
  | |- keeps _ (get_sess _) => refine (keeps_gets _ _)
  | |- keeps _ (lift _ ≫= _) =>
      refine (keeps_bind_lift _ _ _ _ _);
      [intros; apply net_rel_same; [by split|by intros ?]|intros ? ? ? ?]
  | |- keeps _ (_ ≫= _) => refine (keeps_bind _ _ _ _ _); [| intros ?]
  | |- keeps _ (if ?b then _ else _) => destruct b eqn:?
  | |- keeps _ (modify _) => apply net_modify; [by split|by intros ? ?]
  | |- keeps _ (mod_sess _) => apply net_modify; [by split|by intros ? ?]
  | |- keeps _ (diag_count _) => apply net_modify; [by split|by intros ? ?]
  | |- keeps _ (lift _) =>
      refine (keeps_lift _ _ _); intros; apply net_rel_same; [by split|by intros ?]
  | |- keeps _ util_now_ms =>
      refine (util_now_ms_keeps _ _); intros; apply net_rel_same; [by split|by intros ?]
  | |- keeps _ (send_error _ _ _) => apply session_send_error_net
  | |- keeps _ (session_send_error _ _ _) => apply session_send_error_net
  | |- keeps _ session_close => apply session_close_net
  | |- keeps _ (match _ with _ => _ end) => case_match
  end.

(** ** File system and healthy worlds *)

Section session_fs.
Context {W : Type} `{!Uv W, !FsView W, !FsLaws W}.

Definition fs_kept (st st' : St W) : Prop := fs_eq (world st) (world st').

#[global] Instance fs_kept_preorder : PreOrder fs_kept.
Proof.
  split; [intros st; unfold fs_kept; reflexivity|].
  intros a b c; unfold fs_kept. apply (transitivity (R := fs_eq)).
Qed.

Lemma keeps_lift_fs {A} (f : W -> A * W) :
  (forall w, fs_eq w (f w).2) -> keeps fs_kept (lift f).
Proof.
  intros H st. specialize (H (world st)). unfold lift, fs_kept.
  by destruct (f (world st)) as [a w].
Qed.

Lemma session_close_fs : keeps fs_kept (session_close (W := W)).
Proof. intros st. unfold fs_kept. by rewrite session_close_world. Qed.

Lemma util_now_ms_fs : keeps fs_kept (util_now_ms (W := W)).
Proof.
  unfold util_now_ms. refine (keeps_bind _ _ _ _ _); [apply keeps_lift_fs; intros; refine (law_hrtime _ _)|].
  intros. refine (keeps_ret _ _).
Qed.

Lemma malloc_fs n : keeps fs_kept (lift (c_malloc (W := W) n)).
Proof. apply keeps_lift_fs. intros. refine (law_malloc _ _ _). Qed.

Lemma uv_write_fs b : keeps fs_kept (lift (uv_write (W := W) b)).
Proof. apply keeps_lift_fs. intros. refine (law_uv_write _ _ _). Qed.

Lemma session_send_frame_fs type req_id payload :
  keeps fs_kept (session_send_frame (W := W) type req_id payload).
Proof.
  unfold session_send_frame, diag_count_frame_tx, diag_count, mod_sess.
  pose proof session_close_fs. pose proof util_now_ms_fs. pose proof malloc_fs.
  pose proof uv_write_fs. solve_keeps.
Qed.

Lemma session_send_error_fs req_id code message :
  keeps fs_kept (session_send_error (W := W) req_id code message).
Proof.
  unfold session_send_error, session_send_text. pose proof session_send_frame_fs. solve_keeps.
Qed.

Context `{!Healthy W}.

(** A healthy world stays healthy. *)
Definition healthy_kept (st st' : St W) : Prop := healthy (world st) -> healthy (world st').

#[global] Instance healthy_kept_preorder : PreOrder healthy_kept.
Proof. split; unfold healthy_kept; repeat intro; auto. Qed.

Lemma keeps_lift_healthy {A} (f : W -> A * W) :
  (forall w, healthy w -> healthy (f w).2) -> keeps healthy_kept (lift f).
Proof.
  intros H st. specialize (H (world st)). unfold lift, healthy_kept.
  by destruct (f (world st)) as [a w].
Qed.

Lemma session_send_frame_stays_healthy type req_id payload :
  keeps healthy_kept (session_send_frame (W := W) type req_id payload).
Proof.
  assert (keeps healthy_kept (session_close (W := W))).
  { intros st. unfold healthy_kept. by rewrite session_close_world. }
  assert (forall n, keeps healthy_kept (lift (c_malloc (W := W) n))).
  { intros n. apply keeps_lift_healthy. intros w Hw. by apply (healthy_malloc _ n). }
  assert (forall b, keeps healthy_kept (lift (uv_write (W := W) b))).
  { intros b. apply keeps_lift_healthy. intros w Hw. by apply (healthy_uv_write _ b). }
  assert (keeps healthy_kept (util_now_ms (W := W))).
  { unfold util_now_ms. refine (keeps_bind _ _ _ _ _); [|intros; refine (keeps_ret _ _)].
    apply keeps_lift_healthy. intros w Hw. by apply (healthy_hrtime _ w). }
  unfold session_send_frame, diag_count_frame_tx, diag_count, mod_sess.
  repeat lazymatch goal with
  | |- keeps _ (modify _) => intros st; unfold healthy_kept; done
  | _ => keeps_step
  end.
Qed.

Lemma session_send_error_stays_healthy req_id code message :
  keeps healthy_kept (session_send_error (W := W) req_id code message).
Proof.
  unfold session_send_error, session_send_text. pose proof session_send_frame_stays_healthy. solve_keeps.
Qed.

(** [st'] is [st] after sending the frames [l]. *)
Record sent (l : list bytes) (st st' : St W) : Prop := Sent {
  st_parts : same_parts st st';
  st_life : same_life st st';
  st_pending : s_pending_write_bytes (sess st') = s_pending_write_bytes (sess st) + queue_bytes l;
  st_inflight : inflight st' = inflight st ++ l;
  st_wire : wire st' = wire st ++ l;
  st_fs : fs_kept st st';
  st_healthy : healthy (world st) -> healthy (world st')
}.

(** With an open session, room in the queue and a healthy world, a frame is
    sent. *)
Lemma session_send_frame_healthy st type req_id payload :
  healthy (world st) -> s_closed (sess st) = false ->
  0 <= s_pending_write_bytes (sess st) ->
  s_pending_write_bytes (sess st) + 14 + zlen payload <= LUAGENT_MAX_WRITE_QUEUE_BYTES ->
  zlen payload <= LUAGENT_MAX_FRAME_PAYLOAD -> u8 type <> 0 ->
  exists st', session_send_frame type req_id payload st = (0, st') /\
    sent [frame_of type req_id payload] st st'.
Proof.
  intros Hw Hc Hp Hq Hl Ht.
  destruct (session_send_frame type req_id payload st) as [rc st'] eqn:E.
  pose proof (keeps_run _ _ _ _ _ (session_send_frame_parts type req_id payload) E) as Hparts.
  pose proof (keeps_run _ _ _ _ _ (session_send_frame_fs type req_id payload) E) as Hfs.
  pose proof (session_send_frame_outcome st type req_id payload rc st') as Ho.
  unfold LUAGENT_MAX_WRITE_QUEUE_BYTES, LUAGENT_MAX_FRAME_PAYLOAD in *.
  pose proof (zlen_nonneg payload).
  assert (Hrc : rc = 0 /\ healthy (world st')).
  { revert E. unfold session_send_frame, diag_count_frame_tx, diag_count. run_eval.
    rewrite Hc. unfold frame_header_size at 1. rewrite size_t_small by lia.
    unfold LUAGENT_MAX_WRITE_QUEUE_BYTES. destruct (262144 <? _) eqn:?; b2p; [lia|].
    pose proof (healthy_malloc _ 1 _ Hw) as [H1 H1']. destruct (c_malloc 1 _) as [ok w1]. cbn in *.
    subst ok. cbn. pose proof (healthy_malloc _ (frame_header_size + zlen payload) _ H1') as [H2 H2'].
    destruct (c_malloc _ w1) as [ok w2]. cbn in *. subst ok. cbn.
    rewrite encode_header_bytes, (proj2 (validate_ok _)); cycle 1.
    { split; cbn; [|done]. rewrite u32_small; unfold LUAGENT_MAX_FRAME_PAYLOAD; lia. }
    cbn. pose proof (healthy_hrtime _ _ H2') as H3. destruct (uv_hrtime w2) as [t w3]. cbn in *.
    match goal with |- context [uv_write ?b w3] => pose proof (healthy_uv_write _ b _ H3) as [H4 H4'] end.
    destruct (uv_write _ w3) as [rc' w4]. cbn in *. subst rc'. cbn. by intros [= <- <-]. }
  destruct Hrc as [-> Hw']. exists st'. split; [done|].
  specialize (Ho ltac:(lia) ltac:(lia) E). inversion Ho; subst.
  by split.
Qed.
End session_fs.

(** ** A concrete state

    A session just after it was accepted, in the in-memory world [m]. *)
Definition accepted_session : session :=
  Session H_open H_open transfer_init transfer_init proc_init [] (4 * LUAGENT_READ_CHUNK)
    0 1000 1000 1 counters_zero 1 1 1 true false.

Definition accepted (m : Sim.sim) : St Sim.sim :=
  mkSt accepted_session (DiagCounters counters_zero 0) 2 [] [] [] m.

(** ** Theorems *)

(** C8: Sending is all or nothing and the queue is bounded.  With a
    well-formed queue, [session_send_frame] either returns 0 and has handed
    exactly one well-formed frame to the network, of an open session and
    within the limit of 256 KiB, or returns -1 and nothing was sent; a frame
    beyond the limit closes the session.  The byte count of the queue stays
    exact in every case. *)
Theorem send_frame_all_or_nothing `{!Uv W} type req_id payload (st : St W) :
  queue_ok st -> zlen payload < 2 ^ 63 ->
  let '(rc, st') := session_send_frame type req_id payload st in
  queue_ok st' /\
  ((rc = 0 /\ s_closed (sess st) = false /\ s_closed (sess st') = false /\
    is_frame (frame_of type req_id payload) /\
    wire st' = wire st ++ [frame_of type req_id payload]) \/
   (rc = -1 /\ wire st' = wire st /\
    (LUAGENT_MAX_WRITE_QUEUE_BYTES < s_pending_write_bytes (sess st) + 14 + zlen payload ->
     s_closed (sess st') = true))).
Proof.
  intros Hq Hl. pose proof (session_send_frame_net type req_id payload Hl st Hq) as (Hq' & _).
  destruct (session_send_frame type req_id payload st) as [rc st'] eqn:E. split; [exact Hq'|].
  apply session_send_frame_outcome in E; [|destruct Hq as [-> Hq]; split; [apply queue_bytes_nonneg|done]|done].
  destruct E as [Hc|Hc Hf|st2 Hc Hr Hlife Hsq|st2 Hc Hr Hz Ht Hlife Hp Hi Hw].
  - right. by split.
  - right. split; [done|]. split; [by destruct (session_close_queue st)|]. intros _. apply session_close_closed.
  - right. split; [done|]. split; [by destruct Hsq|lia].
  - left. split; [done|]. split; [done|]. split; [by rewrite (sl_closed _ _ Hlife)|].
    split; [by apply frame_of_valid|done].
Qed.

Lemma send_frame_all_or_nothing_witness :
  queue_ok (session_send_frame FRAME_ACK 3 (lit "hi") (accepted Sim.empty)).2.
Proof.
  pose proof (send_frame_all_or_nothing FRAME_ACK 3 (lit "hi") (accepted Sim.empty)) as H.
  destruct (session_send_frame FRAME_ACK 3 (lit "hi") (accepted Sim.empty)) as [rc st'].
  refine (proj1 (H _ _)).
  - split; [reflexivity|vm_compute; discriminate].
  - vm_compute. reflexivity.
Defined.
