(* ===== verification/Transfer.v ===== *)
(** * File transfers ([src/transfer.c])

    Uploads into a temporary file that is renamed when complete, and
    downloads in chunks.  A transfer of the session is named by its
    projection ([s_upload] or [s_download]). *)

From Stdlib Require Import ZArith Lia Bool.
From Stdlib Require Import Strings.Byte Strings.String.
From stdpp Require Import base list numbers.
From S2P Require Import Prelude CLib Frame Kv State Uv Session.

Section transfer.
Context {W : Type} `{!Uv W}.
Notation M := (M (St W)).

(** ** Operations *)

Definition mod_transfer (p : session -> transfer_state) `{!Update p}
    (f : transfer_state -> transfer_state) : M unit :=
  mod_sess (upd p f).

Definition transfer_reset (t : transfer_state) : transfer_state :=
  t <| t_active := false |> <| t_overwrite := false |> <| t_mode := TRANSFER_MODE_NONE |>
    <| t_req_id := 0 |> <| t_total_size := 0 |> <| t_offset := 0 |>
    <| t_last_progress_ms := 0 |> <| t_file := -1 |> <| t_chunk_size := LUAGENT_READ_CHUNK |>
    <| t_path := None |> <| t_tmp_path := None |>.

Definition transfer_abort (p : session -> transfer_state) `{!Update p} : M unit :=
  t ← get_sess p;
  (if 0 <=? t_file t then _ ← lift (uv_fs_close (t_file t)); mret tt else mret tt);;
  (match t_tmp_path t with
   | Some tmp => _ ← lift (uv_fs_unlink tmp); mret tt
   | None => mret tt
   end);;
  mod_transfer p transfer_reset.

Definition transfer_check_timeout (p : session -> transfer_state) `{!Update p} (now_ms : Z) : M unit :=
  t ← get_sess p;
  if negb (t_active t) || (t_last_progress_ms t =? 0) then mret tt
  else if LUAGENT_TRANSFER_IDLE_MS <=? u64 (now_ms - t_last_progress_ms t) then
    diag_count_transfer_abort;;
    _ ← send_error (t_req_id t) "timeout" "transfer stalled";
    transfer_abort p
  else mret tt.

(** [uv_fs_rename]'s result for the upload of the session. *)
Definition transfer_finalize_rename : M Z :=
  t ← get_sess s_upload;
  (if t_overwrite t then _ ← lift (uv_fs_unlink (default [] (t_path t))); mret tt else mret tt);;
  lift (uv_fs_rename (default [] (t_tmp_path t)) (default [] (t_path t))).

(** The reply to a started transfer. *)
Definition begin_reply (req_id : Z) (path : bytes) (size : Z) : bytes :=
  lit "status=ok" ++ [LF] ++ lit "transfer_id=" ++ dec (u32 req_id) ++ [LF]
  ++ lit "path=" ++ path ++ [LF] ++ lit "size=" ++ dec size.

Definition end_reply (path : bytes) (n : Z) : bytes :=
  lit "status=ok" ++ [LF] ++ lit "path=" ++ path ++ [LF] ++ lit "bytes=" ++ dec n.

Definition transfer_handle_put_begin (req_id : Z) (payload : bytes) : M Z :=
  t ← get_sess s_upload;
  if t_active t then
    _ ← send_error req_id "io_error" "transfer already active"; mret (-1)
  else
  match kv_copy 512 payload (lit "path"), kv_u64 payload (lit "size") with
  | Some path, Some size =>
      match util_snprintf 576 (path ++ lit ".part") with
      | (0, tmp_path) =>
          ok1 ← lift (c_malloc (zlen path + 1));
          mod_transfer s_upload (upd t_path (fun _ => if ok1 : bool then Some path else None));;
          ok2 ← lift (c_malloc (zlen tmp_path + 1));
          mod_transfer s_upload (upd t_tmp_path (fun _ => if ok2 : bool then Some tmp_path else None));;
          if negb ok1 || negb ok2 then
            transfer_abort s_upload;;
            _ ← send_error req_id "internal" "out of memory"; mret (-1)
          else
            mod_transfer s_upload (fun t =>
              t <| t_overwrite := kv_bool_default payload (lit "overwrite") false |>
                <| t_mode := TRANSFER_MODE_UPLOAD |> <| t_req_id := req_id |>
                <| t_total_size := size |> <| t_offset := 0 |>);;
            now ← util_now_ms;
            mod_transfer s_upload (fun t =>
              t <| t_last_progress_ms := now |>
                <| t_chunk_size := size_t (kv_u64_default payload (lit "chunk_size") LUAGENT_READ_CHUNK) |>);;
            diag_count_transfer_start;;
            rc ← lift (uv_fs_open tmp_path O_create_trunc_wronly);
            if rc <? 0 then
              transfer_abort s_upload;;
              _ ← session_send_error req_id (Some (lit "io_error")) (Some (uv_strerror rc)); mret (-1)
            else
              mod_transfer s_upload (fun t => t <| t_file := rc |> <| t_active := true |>);;
              match util_snprintf 256 (begin_reply req_id path size) with
              | (0, reply) => session_send_text FRAME_ACK req_id (Some reply)
              | _ =>
                  _ ← send_error req_id "internal" "reply overflow";
                  transfer_abort s_upload;; mret (-1)
              end
      | _ => _ ← send_error req_id "bad_payload" "path too long"; mret (-1)
      end
  | _, _ => _ ← send_error req_id "bad_payload" "missing path or size"; mret (-1)
  end.

(** The payload of a frame has at most 65536 bytes, so the conversion of its
    length to [unsigned int] for [uv_buf_init] does not change it. *)
Definition transfer_handle_put_chunk (req_id : Z) (payload : bytes) : M Z :=
  t ← get_sess s_upload;
  if negb (t_active t) || negb (t_req_id t =? req_id) then
    _ ← send_error req_id "bad_payload" "no active transfer"; mret (-1)
  else if negb (bool_decide (t_mode t = TRANSFER_MODE_UPLOAD)) then
    _ ← send_error req_id "bad_payload" "wrong transfer mode"; mret (-1)
  else if t_total_size t <? u64 (t_offset t + zlen payload) then
    _ ← send_error req_id "bad_payload" "chunk exceeds declared size";
    diag_count_transfer_abort;;
    transfer_abort s_upload;; mret (-1)
  else
    rc ← lift (uv_fs_write (t_file t) payload (i64 (t_offset t)));
    if (rc <? 0) || negb (rc =? zlen payload) then
      _ ← send_error req_id "io_error" "write failed";
      diag_count_transfer_abort;;
      transfer_abort s_upload;; mret (-1)
    else
      mod_transfer s_upload (upd t_offset (fun o => u64 (o + zlen payload)));;
      now ← util_now_ms;
      mod_transfer s_upload (upd t_last_progress_ms (fun _ => now));;
      mret 0.

Definition transfer_handle_put_end (req_id : Z) : M Z :=
  t ← get_sess s_upload;
  if negb (t_active t) || negb (t_req_id t =? req_id) then
    _ ← send_error req_id "bad_payload" "no active transfer"; mret (-1)
  else if negb (bool_decide (t_mode t = TRANSFER_MODE_UPLOAD)) then
    _ ← send_error req_id "bad_payload" "wrong transfer mode"; mret (-1)
  else if negb (t_offset t =? t_total_size t) then
    _ ← send_error req_id "bad_payload" "size mismatch";
    transfer_abort s_upload;; mret (-1)
  else
    rc ← lift (uv_fs_close (t_file t));
    mod_transfer s_upload (upd t_file (fun _ => -1));;
    if rc <? 0 then
      _ ← session_send_error req_id (Some (lit "io_error")) (Some (uv_strerror rc));
      transfer_abort s_upload;; mret (-1)
    else
      rc ← transfer_finalize_rename;
      if rc <? 0 then
        _ ← session_send_error req_id (Some (lit "io_error")) (Some (uv_strerror rc));
        transfer_abort s_upload;; mret (-1)
      else
        match util_snprintf 256 (end_reply (default [] (t_path t)) (t_offset t)) with
        | (0, reply) =>
            _ ← session_send_text FRAME_ACK req_id (Some reply);
            diag_count_transfer_complete;;
            mod_transfer s_upload transfer_reset;;
            mret 0
        | _ =>
            _ ← send_error req_id "internal" "reply overflow";
            transfer_abort s_upload;; mret (-1)
        end.

(** The chunk size of a download: out-of-range requests get the default. *)
Definition get_chunk_size (payload : bytes) : Z :=
  let c := size_t (kv_u64_default payload (lit "chunk_size") LUAGENT_READ_CHUNK) in
  if (c =? 0) || (LUAGENT_MAX_FRAME_PAYLOAD <? c) then LUAGENT_READ_CHUNK else c.

(** The loop of [transfer_handle_get_begin]: [Some 0] when it ends, [Some
    (-1)] when the function returns from inside it, [None] out of fuel. *)
Fixpoint get_loop (fuel : nat) (req_id : Z) : M (option Z) :=
  match fuel with
  | O => mret None
  | S fuel' =>
      t ← get_sess s_download;
      if negb (t_offset t <? t_total_size t) then mret (Some 0)
      else
        let to_read :=
          if u64 (t_total_size t - t_offset t) <? t_chunk_size t
          then size_t (t_total_size t - t_offset t) else t_chunk_size t in
        r ← lift (uv_fs_read (t_file t) (u32 to_read) (i64 (t_offset t)));
        let '(rc, chunk) := r : Z * bytes in
        if rc <=? 0 then
          diag_count_transfer_abort;;
          transfer_abort s_download;;
          _ ← send_error req_id "io_error" "read failed"; mret (Some (-1))
        else
          sent ← session_send_frame FRAME_GET_CHUNK req_id chunk;
          if negb (sent =? 0) then
            diag_count_transfer_abort;;
            transfer_abort s_download;; mret (Some (-1))
          else
            mod_transfer s_download (upd t_offset (fun o => u64 (o + rc)));;
            now ← util_now_ms;
            mod_transfer s_download (upd t_last_progress_ms (fun _ => now));;
            get_loop fuel' req_id
  end.

Definition transfer_handle_get_begin (req_id : Z) (payload : bytes) : M (option Z) :=
  t ← get_sess s_download;
  if t_active t then
    _ ← send_error req_id "io_error" "download already active"; mret (Some (-1))
  else
  match kv_copy 512 payload (lit "path") with
  | None => _ ← send_error req_id "bad_payload" "missing path"; mret (Some (-1))
  | Some path =>
      ok ← lift (c_malloc (zlen path + 1));
      mod_transfer s_download (upd t_path (fun _ => if ok : bool then Some path else None));;
      if negb ok then
        _ ← send_error req_id "internal" "out of memory"; mret (Some (-1))
      else
        mod_transfer s_download (upd t_chunk_size (fun _ => get_chunk_size payload));;
        rc ← lift (uv_fs_open path O_rdonly);
        if rc <? 0 then
          transfer_abort s_download;;
          _ ← session_send_error req_id (Some (lit "not_found")) (Some (uv_strerror rc));
          mret (Some (-1))
        else
          mod_transfer s_download (upd t_file (fun _ => rc));;
          r ← lift (uv_fs_fstat rc);
          let '(src, st_size) := r : Z * Z in
          if src <? 0 then
            transfer_abort s_download;;
            _ ← session_send_error req_id (Some (lit "io_error")) (Some (uv_strerror src));
            mret (Some (-1))
          else
            mod_transfer s_download (fun t =>
              t <| t_active := true |> <| t_mode := TRANSFER_MODE_DOWNLOAD |>
                <| t_req_id := req_id |> <| t_total_size := u64 st_size |> <| t_offset := 0 |>);;
            now ← util_now_ms;
            mod_transfer s_download (upd t_last_progress_ms (fun _ => now));;
            diag_count_transfer_start;;
            match util_snprintf 256 (begin_reply req_id path (u64 st_size)) with
            | (0, reply) =>
                sent ← session_send_text FRAME_ACK req_id (Some reply);
                if negb (sent =? 0) then transfer_abort s_download;; mret (Some (-1))
                else
                  ok ← lift (c_malloc (get_chunk_size payload));
                  if negb ok then
                    transfer_abort s_download;;
                    _ ← send_error req_id "internal" "out of memory"; mret (Some (-1))
                  else
                    r ← get_loop (S (Z.to_nat (u64 st_size))) req_id;
                    match r with
                    | Some 0 =>
                        t ← get_sess s_download;
                        _ ← lift (uv_fs_close (t_file t));
                        mod_transfer s_download (upd t_file (fun _ => -1));;
                        _ ← session_send_text FRAME_GET_END req_id (Some (lit "status=ok"));
                        diag_count_transfer_complete;;
                        mod_transfer s_download transfer_reset;;
                        mret (Some 0)
                    | _ => mret r
                    end
            | _ =>
                transfer_abort s_download;;
                _ ← send_error req_id "internal" "reply overflow"; mret (Some (-1))
            end
  end.
End transfer.

(** ** The idle transfer *)

Lemma transfer_reset_init t : transfer_reset t = transfer_init.
Proof. by destruct t. Qed.

(** An upload in progress. *)
Record upload_active (t : transfer_state) : Prop := UploadActive {
  ua_active : t_active t = true;
  ua_mode : t_mode t = TRANSFER_MODE_UPLOAD;
  ua_file : 0 <= t_file t;
  ua_path : exists p, t_path t = Some p /\ t_tmp_path t = Some (p ++ lit ".part") /\
    zlen (begin_reply (t_req_id t) p (t_total_size t)) < 256;
  ua_total : 0 <= t_offset t <= t_total_size t;
  ua_size : t_total_size t < 2 ^ 64
}.

(** Between callbacks an upload is idle or in progress, and no download is
    ever left in progress. *)
Definition transfers_ok {W} (st : St W) : Prop :=
  (s_upload (sess st) = transfer_init \/ upload_active (s_upload (sess st))) /\
  s_download (sess st) = transfer_init.

(** What sending does to the transfers. *)
Definition transfers_same {W} (st st' : St W) : Prop :=
  s_upload (sess st') = s_upload (sess st) /\ s_download (sess st') = s_download (sess st).

#[global] Instance transfers_same_preorder {W} : PreOrder (@transfers_same W).
Proof. split; [by split|]. intros a b c [] []. split; congruence. Qed.

Section transfer_wf.
Context {W : Type} `{!Uv W}.

Lemma session_send_frame_transfers type req_id payload :
  keeps transfers_same (session_send_frame (W := W) type req_id payload).
Proof. intros st. by destruct (session_send_frame_parts type req_id payload st). Qed.

Lemma session_send_error_transfers req_id code message :
  keeps transfers_same (session_send_error (W := W) req_id code message).
Proof. intros st. by destruct (send_error_parts req_id code message st). Qed.

(** The world after an abort: the file closed, the temporary file removed. *)
Definition abort_world (t : transfer_state) (w : W) : W :=
  let w1 := if 0 <=? t_file t then (uv_fs_close (t_file t) w).2 else w in
  match t_tmp_path t with Some p => (uv_fs_unlink p w1).2 | None => w1 end.

Lemma wp_abort_upload Q (st : St W) :
  Q tt (st <| world := abort_world (s_upload (sess st)) (world st) |>
           <| sess ::= upd s_upload (fun _ => transfer_init) |>) ->
  wp (transfer_abort s_upload) Q st.
Proof.
  intros H. unfold wp, transfer_abort, mod_transfer. revert H. unfold abort_world. run_eval.
  destruct (0 <=? _); cbn; [destruct (uv_fs_close _ _); cbn|];
    (destruct (t_tmp_path _); cbn; [destruct (uv_fs_unlink _ _); cbn|]); done.
Qed.

Lemma wp_abort_download Q (st : St W) :
  Q tt (st <| world := abort_world (s_download (sess st)) (world st) |>
           <| sess ::= upd s_download (fun _ => transfer_init) |>) ->
  wp (transfer_abort s_download) Q st.
Proof.
  intros H. unfold wp, transfer_abort, mod_transfer. revert H. unfold abort_world. run_eval.
  destruct (0 <=? _); cbn; [destruct (uv_fs_close _ _); cbn|];
    (destruct (t_tmp_path _); cbn; [destruct (uv_fs_unlink _ _); cbn|]); done.
Qed.

Lemma wp_send_error_parts req_id code message Q (st : St W) :
  (forall a st', same_parts st st' -> Q a st') -> wp (session_send_error req_id code message) Q st.
Proof. apply wp_keeps, send_error_parts. Qed.

Lemma wp_send_frame_parts type req_id payload Q (st : St W) :
  (forall a st', same_parts st st' -> Q a st') -> wp (session_send_frame type req_id payload) Q st.
Proof. apply wp_keeps, session_send_frame_parts. Qed.
End transfer_wf.

(** Symbolic execution of the transfer code for facts about the transfers. *)
Ltac parts_step :=
  lazymatch goal with
  | |- wp (mod_transfer _ _) _ _ => apply wp_modify
  | |- wp diag_count_transfer_start _ _ => apply wp_modify
  | |- wp diag_count_transfer_complete _ _ => apply wp_modify
  | |- wp diag_count_transfer_abort _ _ => apply wp_modify
  | |- wp (transfer_abort s_upload) _ _ => apply wp_abort_upload
  | |- wp (transfer_abort s_download) _ _ => apply wp_abort_download
  | |- wp (session_send_error _ _ _) _ _ => apply wp_send_error_parts; intros ? ? []; cbn in *
  | |- wp (send_error _ _ _) _ _ => apply wp_send_error_parts; intros ? ? []; cbn in *
  | |- wp (session_send_text _ _ _) _ _ => apply wp_send_frame_parts; intros ? ? []; cbn in *
  | |- wp (session_send_frame _ _ _) _ _ => apply wp_send_frame_parts; intros ? ? []; cbn in *
  | _ => wp_step
  end; cbn beta iota in *.

Section transfer_invariant.
Context {W : Type} `{!Uv W}.
Implicit Types st : St W.

Lemma util_snprintf_cases size text :
  {util_snprintf size text = (0, text) /\ zlen text < size} +
  {exists s, util_snprintf size text = (-1, s)}.
Proof.
  unfold util_snprintf. destruct (size =? 0) eqn:E0; [right; by eexists|].
  destruct (size <=? zlen text) eqn:E; b2p; [right; by eexists|left]. split; [done|lia].
Qed.

Ltac idle_done := solve [split; [left|]; cbn in *; rewrite ?transfer_reset_init; congruence].

Lemma put_begin_ok st req_id payload :
  transfers_ok st ->
  wp (transfer_handle_put_begin req_id payload) (fun _ => transfers_ok) st.
Proof.
  intros [Hu Hd]. unfold transfer_handle_put_begin. do 2 parts_step. parts_step.
  { repeat parts_step. split; congruence. }
  destruct Hu as [Hu|Hu]; [|by rewrite (ua_active _ Hu) in *].
  destruct (kv_copy 512 payload (lit "path")) as [path|] eqn:Ep; [|repeat parts_step; idle_done].
  destruct (kv_u64 payload (lit "size")) as [size|] eqn:Es; [|repeat parts_step; idle_done].
  destruct (util_snprintf_cases 576 (path ++ lit ".part")) as [[E _]|[x E]]; rewrite E;
    [|repeat parts_step; idle_done].
  repeat parts_step; try idle_done.
  b2p. subst.
  destruct (util_snprintf_cases 256 (begin_reply req_id path size)) as [[E2 Hl]|[x E2]]; rewrite E2;
    [|repeat parts_step; idle_done].
  parts_step. split; [right|cbn in *; rewrite ?transfer_reset_init; congruence]. rewrite sp_upload. apply kv_u64_range in Es.
  split; cbn; try done; [|lia..]. by exists path.
Qed.

Lemma put_chunk_ok st req_id payload :
  transfers_ok st ->
  wp (transfer_handle_put_chunk req_id payload) (fun _ => transfers_ok) st.
Proof.
  intros [Hu Hd]. unfold transfer_handle_put_chunk.
  repeat parts_step; try idle_done; try (split; congruence).
  destruct Hu as [Hu|Hu]; [rewrite Hu in *; done|]. destruct Hu as [H1 H2 H3 H4 H5 H6]. b2p.
  split; [right|done]. cbn. split; cbn; try done. split; [apply u64_range|done].
Qed.

Lemma put_end_ok st req_id :
  transfers_ok st -> wp (transfer_handle_put_end req_id) (fun _ => transfers_ok) st.
Proof.
  intros [Hu Hd]. unfold transfer_handle_put_end, transfer_finalize_rename.
  repeat parts_step; try idle_done; try (split; congruence);
    destruct (util_snprintf_cases 256 (end_reply (default [] (t_path (s_upload (sess st))))
       (t_offset (s_upload (sess st))))) as [[E2 Hl]|[x E2]]; cbn; rewrite E2;
    repeat parts_step; idle_done.
Qed.

Lemma check_timeout_upload_ok st now :
  transfers_ok st -> wp (transfer_check_timeout s_upload now) (fun _ => transfers_ok) st.
Proof.
  intros [Hu Hd]. unfold transfer_check_timeout.
  repeat parts_step; try (split; congruence); idle_done.
Qed.

(** The timeout of an idle transfer does nothing. *)
Lemma check_timeout_idle p `{!Update p} st now :
  p (sess st) = transfer_init -> transfer_check_timeout p now st = (tt, st).
Proof. intros H. unfold transfer_check_timeout. run_eval. by rewrite H. Qed.

Lemma get_chunk_size_range payload : 1 <= get_chunk_size payload <= LUAGENT_MAX_FRAME_PAYLOAD.
Proof.
  unfold get_chunk_size, LUAGENT_MAX_FRAME_PAYLOAD, LUAGENT_READ_CHUNK.
  match goal with |- context [size_t ?x] => pose proof (size_t_range x) end.
  destruct (_ || _) eqn:E; b2p; lia.
Qed.

Context `{!FsView W, !FsLaws W}.

(** A download in progress. *)
Record download_active (t : transfer_state) : Prop := DownloadActive {
  da_offset : 0 <= t_offset t <= t_total_size t;
  da_total : t_total_size t < 2 ^ 64;
  da_chunk : 1 <= t_chunk_size t <= LUAGENT_MAX_FRAME_PAYLOAD
}.

(** The bytes asked for by one iteration of the loop. *)
Definition to_read (t : transfer_state) : Z :=
  if u64 (t_total_size t - t_offset t) <? t_chunk_size t
  then size_t (t_total_size t - t_offset t) else t_chunk_size t.

Lemma to_read_spec t :
  download_active t -> t_offset t < t_total_size t ->
  u32 (to_read t) = Z.min (t_chunk_size t) (t_total_size t - t_offset t) /\
  1 <= u32 (to_read t) <= LUAGENT_MAX_FRAME_PAYLOAD.
Proof.
  intros [Ho Ht Hc] Hlt. unfold to_read, LUAGENT_MAX_FRAME_PAYLOAD in *.
  rewrite u64_small, size_t_small by lia. destruct (_ <? _) eqn:E; b2p;
    rewrite u32_small by lia; lia.
Qed.

(** The download loop ends, leaving the upload alone; it returns from inside
    only with the download reset. *)
Lemma get_loop_ok fuel req_id st :
  download_active (s_download (sess st)) ->
  t_total_size (s_download (sess st)) - t_offset (s_download (sess st)) < Z.of_nat fuel ->
  wp (get_loop fuel req_id) (fun r st' =>
    s_upload (sess st') = s_upload (sess st) /\
    (r = Some 0 \/ (r = Some (-1) /\ s_download (sess st') = transfer_init))) st.
Proof.
  revert st. induction fuel as [|fuel IH]; intros st Hd Hf.
  { destruct Hd. lia. }
  cbn [get_loop]. do 2 parts_step. fold (to_read (s_download (sess st))). do 1 parts_step.
  { parts_step. auto. }
  b2p. destruct (to_read_spec _ Hd ltac:(lia)) as [Hr1 Hr2].
  do 2 parts_step. destruct a as [rc chunk].
  parts_step; [repeat parts_step; split; [congruence|right; split; congruence]|]. b2p.
  destruct (law_read_len _ _ _ _ _ _ _ _ Hcall) as [Hlen Hle]; [lia..|].
  repeat parts_step; [cbn in *; split; [congruence|right; split; congruence]|].
  destruct Hd as [Ho Ht Hc].
  eapply wp_mono; [apply IH; cbn in *; rewrite sp_download; cbn|cbn; intros r st2; by rewrite sp_upload].
  - split; cbn; [rewrite u64_small by lia; lia|done..].
  - rewrite u64_small by lia. lia.
Qed.

(** Close a goal about a state whose download is idle again. *)
Ltac download_done :=
  split; [split; cbn in *; rewrite ?transfer_reset_init; congruence|auto].

Lemma get_begin_ok st req_id payload :
  transfers_ok st ->
  wp (transfer_handle_get_begin req_id payload)
     (fun r st' => transfers_ok st' /\ (r = Some 0 \/ r = Some (-1))) st.
Proof.
  intros [Hu Hd]. unfold transfer_handle_get_begin. do 2 parts_step. rewrite Hd. cbn [t_active transfer_init].
  destruct (kv_copy 512 payload (lit "path")) as [path|] eqn:Ep; [|repeat parts_step; download_done].
  repeat parts_step; try download_done.
  { b2p. subst. rewrite Hd in sp_download. split; [split; [congruence|done]|auto]. }
  destruct a1 as [src st_size]. remember (S (Z.to_nat (u64 st_size))) as fuel eqn:Ef.
  repeat parts_step; try download_done. b2p. subst a.
  destruct (util_snprintf_cases 256 (begin_reply req_id path (u64 st_size))) as [[E2 Hl]|[x E2]];
    rewrite E2; [|repeat parts_step; download_done].
  repeat parts_step; try download_done.
  eapply wp_mono; [apply get_loop_ok|].
  - cbn in *. rewrite sp_download. pose proof (u64_range st_size).
    split; cbn; [lia..|apply get_chunk_size_range].
  - cbn in *. rewrite sp_download, Ef. cbn. pose proof (u64_range st_size). lia.
  - cbn. intros r st2 [Hu2 [->|[-> Hd2]]]; repeat parts_step; [|split; [split; congruence|auto]].
    download_done.
Qed.
End transfer_invariant.

(** ** The network side *)

Lemma snprintf_short size text rc s : 0 < size < 2 ^ 63 -> util_snprintf size text = (rc, s) -> zlen s < 2 ^ 63.
Proof.
  intros H E. pose proof (util_snprintf_fits size text ltac:(lia)) as Hf. rewrite E in Hf. cbn in Hf. lia.
Qed.

Section transfer_net.
Context {W : Type} `{!Uv W}.

Ltac transfer_net_step :=
  lazymatch goal with
  | |- keeps _ (mod_transfer _ _) => apply net_modify; [by split|by intros ? ?]
  | |- keeps _ diag_count_transfer_start => apply net_modify; [by split|by intros ? ?]
  | |- keeps _ diag_count_transfer_complete => apply net_modify; [by split|by intros ? ?]
  | |- keeps _ diag_count_transfer_abort => apply net_modify; [by split|by intros ? ?]
  | |- keeps _ (session_send_text _ _ (Some _)) =>
      apply session_send_text_net; cbn [default from_option id]; eapply (snprintf_short 256); [lia|eassumption]
  | _ => net_step
  end.

Lemma abort_upload_net : keeps net_rel (transfer_abort (W := W) s_upload).
Proof. unfold transfer_abort. repeat transfer_net_step. Qed.

Lemma abort_download_net : keeps net_rel (transfer_abort (W := W) s_download).
Proof. unfold transfer_abort. repeat transfer_net_step. Qed.

Ltac transfer_net :=
  repeat first [apply abort_upload_net | apply abort_download_net | transfer_net_step].

Lemma check_timeout_upload_net now : keeps net_rel (transfer_check_timeout (W := W) s_upload now).
Proof. unfold transfer_check_timeout. transfer_net. Qed.

Lemma put_begin_net req_id payload : keeps net_rel (transfer_handle_put_begin (W := W) req_id payload).
Proof. unfold transfer_handle_put_begin. transfer_net. Qed.

Lemma put_chunk_net req_id payload : keeps net_rel (transfer_handle_put_chunk (W := W) req_id payload).
Proof. unfold transfer_handle_put_chunk. transfer_net. Qed.

Lemma put_end_net req_id : keeps net_rel (transfer_handle_put_end (W := W) req_id).
Proof. unfold transfer_handle_put_end, transfer_finalize_rename. transfer_net. Qed.

Context `{!FsView W, !FsLaws W}.

Lemma get_loop_net fuel req_id : keeps net_rel (get_loop (W := W) fuel req_id).
Proof.
  induction fuel as [|fuel IH]; cbn [get_loop]; [transfer_net|].
  repeat first [exact IH | progress transfer_net].
  all: apply session_send_frame_net; b2p;
    match goal with H : uv_fs_read _ (u32 ?n) _ _ = _ |- _ =>
      pose proof (u32_range n);
      destruct (law_read_len _ _ _ _ _ _ _ _ H) as [-> ?]; lia
    end.
Qed.

Lemma get_begin_net req_id payload : keeps net_rel (transfer_handle_get_begin (W := W) req_id payload).
Proof.
  unfold transfer_handle_get_begin. pose proof get_loop_net.
  repeat first [apply get_loop_net | progress transfer_net].
  apply session_send_text_net. vm_compute. reflexivity.
Qed.
End transfer_net.

(** ** Theorems *)

(** C22: A download request is always answered in finitely many steps.  From
    well-formed transfers, for every payload and every behaviour of the file
    system that keeps to its documented laws (short reads, failures, files
    that shrink while they are read), [transfer_handle_get_begin] returns 0
    or -1, and the download is idle again and the upload untouched or still
    well-formed. *)
Theorem download_terminates `{!Uv W, !FsView W, !FsLaws W} req_id payload (st : St W) :
  transfers_ok st ->
  let '(r, st') := transfer_handle_get_begin req_id payload st in
  (r = Some 0 \/ r = Some (-1)) /\ transfers_ok st'.
Proof.
  intros Ht. pose proof (get_begin_ok st req_id payload Ht) as H. unfold wp in H.
  destruct (transfer_handle_get_begin req_id payload st) as [r st']. by destruct H.
Qed.

Lemma download_terminates_witness :
  (transfer_handle_get_begin 1 (lit "path=/none") (accepted Sim.empty)).1 = Some (-1) /\
  transfers_ok (transfer_handle_get_begin 1 (lit "path=/none") (accepted Sim.empty)).2.
Proof.
  split; [vm_compute; reflexivity|].
  pose proof (download_terminates 1 (lit "path=/none") (accepted Sim.empty)) as H.
  destruct (transfer_handle_get_begin 1 (lit "path=/none") (accepted Sim.empty)) as [r st'].
  refine (proj2 (H _)). split; [left; reflexivity|reflexivity].
Defined.
