(* ===== verification/Upload.v ===== *)
(** * Uploads end to end

    The specification of [transfer.c]'s upload protocol against the contents
    of the file system: what an upload in progress means, that each handler
    implements its step, and that a whole upload stores exactly the bytes
    that were sent. *)

From Stdlib Require Import ZArith Lia Bool.
From Stdlib Require Import Strings.Byte Strings.String.
From stdpp Require Import base list numbers option gmap.
From S2P Require Import Prelude CLib Frame Kv State Uv Session Transfer.

Definition tmp_of (path : bytes) : bytes := path ++ lit ".part".

Lemma tmp_of_ne path : tmp_of path <> path.
Proof.
  unfold tmp_of. intros H%(f_equal length). rewrite length_app in H.
  change (length (lit ".part")) with 5%nat in H. lia.
Qed.

(** ** Specification *)

Section spec.
Context {W : Type} `{!Uv W, !FsView W}.

(** An upload of [size] bytes to [path] is in progress under the request id
    [req_id], and the temporary file holds [data]. *)
Record uploading (st : St W) (req_id : Z) (path : bytes) (size : Z) (data : bytes) : Prop := Uploading {
  up_active : t_active (s_upload (sess st)) = true;
  up_mode : t_mode (s_upload (sess st)) = TRANSFER_MODE_UPLOAD;
  up_req : t_req_id (s_upload (sess st)) = req_id;
  up_total : t_total_size (s_upload (sess st)) = size;
  up_offset : t_offset (s_upload (sess st)) = zlen data;
  up_path : t_path (s_upload (sess st)) = Some path;
  up_tmp : t_tmp_path (s_upload (sess st)) = Some (tmp_of path);
  up_file : 0 <= t_file (s_upload (sess st));
  up_fd : fds (world st) (t_file (s_upload (sess st))) = Some (tmp_of path);
  up_disk : files (world st) (tmp_of path) = Some data;
  up_fit : zlen data <= size;
  up_size : size < 2 ^ 63;
  up_reply : zlen (begin_reply req_id path size) < 256
}.

(** Only the file [p] may have changed. *)
Definition only_file (p : bytes) (w w' : W) : Prop :=
  forall q, q <> p -> files w' q = files w q.

(** The frames [l] were sent and the session stays as open as it was. *)
Record calm (l : list bytes) (st st' : St W) : Prop := Calm {
  calm_closed : s_closed (sess st') = s_closed (sess st);
  calm_pending : s_pending_write_bytes (sess st') = s_pending_write_bytes (sess st) + queue_bytes l;
  calm_wire : wire st' = wire st ++ l
}.

(** What a client does to upload [cs]: it waits for success before going on. *)
Fixpoint put_chunks (req_id : Z) (cs : list bytes) : M (St W) Z :=
  match cs with
  | [] => mret 0
  | c :: cs' =>
      rc ← transfer_handle_put_chunk req_id c;
      if rc =? 0 then put_chunks req_id cs' else mret rc
  end.

Definition upload (req_id : Z) (payload : bytes) (cs : list bytes) : M (St W) Z :=
  rc ← transfer_handle_put_begin req_id payload;
  if negb (rc =? 0) then mret rc
  else
    rc ← put_chunks req_id cs;
    if negb (rc =? 0) then mret rc else transfer_handle_put_end req_id.
End spec.

(** The payload the clients send with [PUT_BEGIN]. *)
Definition put_begin_payload (path : bytes) (size : Z) (overwrite : bytes) : bytes :=
  kv_payload [(lit "path", path); (lit "size", dec size); (lit "overwrite", overwrite)].

(** ** Lemmas *)

Section healthy_calls.
Context {W : Type} `{!Uv W, !FsView W, !FsLaws W, !Healthy W}.
Implicit Types st : St W.

Lemma wp_malloc_healthy n (Q : bool -> St W -> Prop) st :
  healthy (world st) ->
  (forall w, healthy w -> fs_eq (world st) w -> Q true (st <| world := w |>)) ->
  wp (lift (c_malloc n)) Q st.
Proof.
  intros Hw HQ. apply wp_lift. intros a w E.
  destruct (healthy_malloc _ n _ Hw) as [H1 H2]. pose proof (law_malloc _ n (world st)) as H3.
  rewrite E in *. cbn in *. subst. auto.
Qed.

Lemma wp_now_healthy (Q : Z -> St W -> Prop) st :
  healthy (world st) ->
  (forall t w, healthy w -> fs_eq (world st) w -> Q t (st <| world := w |>)) ->
  wp util_now_ms Q st.
Proof.
  intros Hw HQ. apply wp_now. intros t w E.
  pose proof (healthy_hrtime _ _ Hw) as H1. pose proof (law_hrtime _ (world st)) as H2.
  rewrite E in *. auto.
Qed.

(** Sending a short text with room in the queue. *)
Lemma wp_send_text_healthy type req_id text (Q : Z -> St W -> Prop) st :
  healthy (world st) -> s_closed (sess st) = false ->
  0 <= s_pending_write_bytes (sess st) ->
  s_pending_write_bytes (sess st) + 14 + zlen text <= LUAGENT_MAX_WRITE_QUEUE_BYTES ->
  zlen text <= LUAGENT_MAX_FRAME_PAYLOAD -> u8 type <> 0 ->
  (forall st', sent [frame_of type req_id text] st st' -> Q 0 st') ->
  wp (session_send_text type req_id (Some text)) Q st.
Proof.
  intros Hw Hc Hp Hr Hl Ht HQ. unfold session_send_text, wp. cbn.
  destruct (session_send_frame_healthy st type req_id text) as (st' & -> & Hs); auto.
Qed.

Lemma sent_calm l st st' : sent l st st' -> calm l st st'.
Proof. intros []. split; try done. by apply sl_closed. Qed.
End healthy_calls.

Lemma begin_reply_length req_id path size :
  zlen (begin_reply req_id path size) = 34 + zlen (dec (u32 req_id)) + zlen path + zlen (dec size).
Proof. unfold begin_reply. autorewrite with zlen. change (zlen (lit "status=ok")) with 9.
  change (zlen (lit "transfer_id=")) with 12. change (zlen (lit "path=")) with 5.
  change (zlen (lit "size=")) with 5. lia. Qed.

Lemma end_reply_length path n : zlen (end_reply path n) = 22 + zlen path + zlen (dec n).
Proof. unfold end_reply. autorewrite with zlen. change (zlen (lit "status=ok")) with 9.
  change (zlen (lit "path=")) with 5. change (zlen (lit "bytes=")) with 6. lia. Qed.

(** The final reply of an upload is shorter than its first one. *)
Lemma end_reply_shorter req_id path size :
  zlen (end_reply path size) < zlen (begin_reply req_id path size).
Proof. rewrite begin_reply_length, end_reply_length. pose proof (dec_positive (u32 req_id)). lia. Qed.

Section upload_steps.
Context {W : Type} `{!Uv W, !FsView W, !FsLaws W, !Healthy W}.
Implicit Types st : St W.

Lemma fs_eq_files w w' p : fs_eq w w' -> files w' p = files (W := W) w p.
Proof. by intros [H _]. Qed.

Lemma fs_eq_fds w w' fd : fs_eq w w' -> fds w' fd = fds (W := W) w fd.
Proof. by intros [_ H]. Qed.

Lemma put_begin_healthy st req_id payload path size :
  healthy (world st) -> s_upload (sess st) = transfer_init -> s_closed (sess st) = false ->
  0 <= s_pending_write_bytes (sess st) ->
  s_pending_write_bytes (sess st) + 14 + 256 <= LUAGENT_MAX_WRITE_QUEUE_BYTES ->
  kv_copy 512 payload (lit "path") = Some path -> kv_u64 payload (lit "size") = Some size ->
  size < 2 ^ 63 -> zlen (begin_reply req_id path size) < 256 ->
  wp (transfer_handle_put_begin req_id payload) (fun rc st' =>
    rc = 0 /\ uploading st' req_id path size [] /\ healthy (world st') /\
    calm [frame_of FRAME_ACK req_id (begin_reply req_id path size)] st st' /\
    only_file (tmp_of path) (world st) (world st')) st.
Proof.
  intros Hw Hu Hc Hp Hq Ep Es Hsize Hr. unfold transfer_handle_put_begin.
  do 2 parts_step. rewrite Hu, Ep, Es. cbn [t_active transfer_init].
  pose proof (begin_reply_length req_id path size) as Hl.
  pose proof (zlen_nonneg (dec (u32 req_id))). pose proof (zlen_nonneg (dec size)).
  rewrite util_snprintf_ok by (rewrite zlen_app; change (zlen (lit ".part")) with 5; lia).
  apply wp_bind, wp_malloc_healthy; [done|]. intros w1 Hw1 Hf1. do 2 parts_step.
  apply wp_bind, wp_malloc_healthy; [done|]. intros w2 Hw2 Hf2. do 2 parts_step.
  cbn [negb orb]. do 2 parts_step.
  apply wp_bind, wp_now_healthy; [done|]. intros t w3 Hw3 Hf3. do 5 parts_step.
  apply wp_lift. intros fd w4 Hopen. cbn in Hopen, Hf1, Hf2, Hf3.
  destruct (healthy_open_write _ (path ++ lit ".part") w3 Hw3) as [Hfd Hw4].
  pose proof (law_open_write _ _ _ _ _ Hopen) as Hlaw. rewrite Hopen in Hfd, Hw4. cbn in Hfd, Hw4.
  rewrite (proj2 (Z.leb_le _ _) Hfd) in Hlaw. destruct Hlaw as (_ & Hfiles & Hfds).
  destruct (fd <? 0) eqn:E; b2p; [lia|]. do 2 parts_step.
  rewrite util_snprintf_ok by done.
  apply wp_send_text_healthy; try done; [cbn; lia|unfold LUAGENT_MAX_FRAME_PAYLOAD; lia|].
  intros st' Hs. destruct (sent_calm _ _ _ Hs) as [Hc1 Hp1 Hw'].
  destruct Hs as [[Hup _ _ _ _ _ _ _ _] _ _ _ _ Hfs Hh]. unfold fs_kept in Hfs. cbn in *.
  split; [done|]. split; [|split; [by apply Hh|split; [by split|]]].
  - destruct Hfs as [Hfs1 Hfs2]. split; rewrite ?Hup; try done; cbn; try lia.
    + rewrite Hfs2, Hfds. by rewrite decide_True.
    + rewrite Hfs1, Hfiles. by rewrite decide_True.
    + apply kv_u64_range in Es. cbn. unfold zlen. cbn. lia.
  - intros q Hq'. destruct Hfs as [Hfs1 _]. rewrite Hfs1, Hfiles, decide_False by done.
    by rewrite (fs_eq_files _ _ _ Hf3), (fs_eq_files _ _ _ Hf2), (fs_eq_files _ _ _ Hf1).
Qed.

Lemma i64_small z : 0 <= z < 2 ^ 63 -> i64 z = z.
Proof. intros H. unfold i64. rewrite Z.mod_small; lia. Qed.

Lemma put_chunk_healthy st req_id path size data c :
  healthy (world st) -> uploading st req_id path size data -> zlen data + zlen c <= size ->
  wp (transfer_handle_put_chunk req_id c) (fun rc st' =>
    rc = 0 /\ uploading st' req_id path size (data ++ c) /\ healthy (world st') /\
    calm [] st st' /\ only_file (tmp_of path) (world st) (world st')) st.
Proof.
  intros Hw Hup Hfit. destruct Hup as [Ha Hm Hr Ht Ho Hp Htmp Hf Hfd Hd Hle Hs Hrep].
  pose proof (zlen_nonneg data). pose proof (zlen_nonneg c).
  unfold transfer_handle_put_chunk. do 2 parts_step.
  rewrite Ha, Hr, Z.eqb_refl, Hm, bool_decide_eq_true_2, Ht, Ho by done. cbn [negb orb].
  rewrite u64_small, i64_small by lia.
  destruct (size <? zlen data + zlen c) eqn:E; b2p; [lia|].
  apply wp_bind, wp_lift. intros rc w1 Hwr.
  destruct (healthy_write _ _ _ _ c (zlen data) _ Hw Hfd Hd (zlen_nonneg _)) as [Hrc Hw1].
  pose proof (law_write _ _ _ _ _ _ _ _ _ Hfd Hd (zlen_nonneg _) Hwr) as Hlaw.
  rewrite Hwr in Hrc, Hw1. cbn in Hrc, Hw1. subst rc.
  destruct (0 <=? zlen c) eqn:E2; b2p; [|lia]. destruct Hlaw as (_ & Hfiles & Hfds).
  rewrite !to_nat_zlen, firstn_all, pwrite_append in Hfiles.
  destruct (zlen c <? 0) eqn:E3; b2p; [lia|]. rewrite Z.eqb_refl. cbn [negb orb].
  do 2 parts_step. apply wp_bind, wp_now_healthy; [done|]. intros t w2 Hw2 Hf2. cbn in Hf2.
  repeat parts_step. split; [done|]. split; [|split; [done|split]].
  - split; cbn; try done.
    + rewrite Ho, u64_small, zlen_app by lia. done.
    + by rewrite (fs_eq_fds _ _ _ Hf2), Hfds.
    + by rewrite (fs_eq_files _ _ _ Hf2), Hfiles, decide_True.
    + rewrite zlen_app. lia.
  - split; cbn; [done|lia|by rewrite app_nil_r].
  - intros q Hq. cbn. by rewrite (fs_eq_files _ _ _ Hf2), Hfiles, decide_False.
Qed.

Lemma put_chunks_healthy st req_id path size data cs :
  healthy (world st) -> uploading st req_id path size data ->
  zlen data + zlen (concat cs) <= size ->
  wp (put_chunks req_id cs) (fun rc st' =>
    rc = 0 /\ uploading st' req_id path size (data ++ concat cs) /\ healthy (world st') /\
    calm [] st st' /\ only_file (tmp_of path) (world st) (world st')) st.
Proof.
  revert st data. induction cs as [|c cs IH]; intros st data Hw Hup Hfit; cbn [put_chunks concat] in *.
  - apply wp_ret. rewrite app_nil_r. split; [done|]. split; [done|]. split; [done|].
    split; [split; cbn; [done|lia|by rewrite app_nil_r]|by intros q].
  - rewrite zlen_app in Hfit. pose proof (zlen_nonneg (concat cs)).
    apply wp_bind. eapply wp_mono; [apply (put_chunk_healthy st req_id path size data c Hw Hup ltac:(lia))|].
    intros rc st1 (-> & Hup1 & Hw1 & [H1 H2 H3] & Ho1). cbn [Z.eqb].
    eapply wp_mono; [apply (IH st1 (data ++ c) Hw1 Hup1); rewrite zlen_app; lia|].
    intros rc st2 (-> & Hup2 & Hw2 & [H4 H5 H6] & Ho2). rewrite app_assoc.
    split; [done|]. split; [done|]. split; [done|]. split.
    + cbn in H2, H5. split; cbn; [congruence|lia|]. by rewrite H6, H3, <- app_assoc.
    + intros q Hq. by rewrite Ho2, Ho1.
Qed.

(** Removing the target when asked to, then renaming over it. *)
Lemma finalize_rename_healthy st path data :
  healthy (world st) -> files (world st) (tmp_of path) = Some data ->
  t_path (s_upload (sess st)) = Some path -> t_tmp_path (s_upload (sess st)) = Some (tmp_of path) ->
  wp transfer_finalize_rename (fun rc st' => exists w, st' = st <| world := w |> /\
    0 <= rc /\ healthy w /\ files w path = Some data /\ files w (tmp_of path) = None /\
    forall q, q <> path -> q <> tmp_of path -> files w q = files (world st) q) st.
Proof.
  intros Hw Hd Hp Htmp. pose proof (tmp_of_ne path) as Hne.
  unfold transfer_finalize_rename. do 2 parts_step. rewrite Hp, Htmp. cbn [default from_option id].
  assert (Hrename : forall w, healthy w -> (forall q, q <> path -> files w q = files (world st) q) ->
    wp (lift (uv_fs_rename (tmp_of path) path)) (fun rc st' => exists w, st' = st <| world := w |> /\
      0 <= rc /\ healthy w /\ files w path = Some data /\ files w (tmp_of path) = None /\
      forall q, q <> path -> q <> tmp_of path -> files w q = files (world st) q) (st <| world := w |>)).
  { intros w Hwh Hfs. apply wp_lift. cbn. intros rc w' Hren. exists w'. split; [done|].
    assert (Hsome : files w (tmp_of path) = Some data) by (by rewrite Hfs).
    destruct (healthy_rename _ (tmp_of path) path _ Hwh (mk_is_Some _ _ Hsome)) as [Hrc Hw'].
    pose proof (law_rename _ _ _ _ _ _ Hne Hren) as [Hl _]. rewrite Hren in Hrc, Hw'. cbn in Hrc, Hw'.
    rewrite (proj2 (Z.leb_le _ _) Hrc) in Hl. destruct Hl as [_ Hl].
    split; [done|]. split; [done|]. rewrite !Hl, (decide_False (P := path = _)), !decide_True by done.
    split; [done|]. split; [done|]. intros q Hq1 Hq2. by rewrite Hl, !decide_False, Hfs. }
  destruct (t_overwrite _).
  - apply wp_bind, wp_bind, wp_lift. intros rc2 w2 Hu. apply wp_ret.
    destruct (healthy_unlink _ path _ Hw) as [_ Hw2]. pose proof (law_unlink _ _ _ _ _ Hu) as [Hl _].
    rewrite Hu in Hw2. apply Hrename; [done|]. intros q Hq.
    destruct (0 <=? rc2); [by rewrite Hl, decide_False|apply Hl].
  - apply wp_bind, wp_ret. destruct st. by apply Hrename.
Qed.

Lemma put_end_healthy st req_id path size data :
  healthy (world st) -> uploading st req_id path size data -> zlen data = size ->
  s_closed (sess st) = false -> 0 <= s_pending_write_bytes (sess st) ->
  s_pending_write_bytes (sess st) + 14 + 256 <= LUAGENT_MAX_WRITE_QUEUE_BYTES ->
  wp (transfer_handle_put_end req_id) (fun rc st' =>
    rc = 0 /\ s_upload (sess st') = transfer_init /\ healthy (world st') /\
    calm [frame_of FRAME_ACK req_id (end_reply path size)] st st' /\
    files (world st') path = Some data /\ files (world st') (tmp_of path) = None /\
    forall q, q <> path -> q <> tmp_of path -> files (world st') q = files (world st) q) st.
Proof.
  intros Hw Hup Hfull Hc Hpend Hroom. destruct Hup as [Ha Hm Hr Ht Ho Hp Htmp Hf Hfd Hd Hle Hs Hrep].
  pose proof (end_reply_shorter req_id path size) as Hshort.
  unfold transfer_handle_put_end. do 2 parts_step.
  rewrite Ha, Hr, Z.eqb_refl, Hm, bool_decide_eq_true_2, Ht, Ho, Hfull, Z.eqb_refl by done. cbn [negb orb].
  apply wp_bind, wp_lift. intros rc w1 Hcl.
  destruct (healthy_close _ _ _ Hw (mk_is_Some _ _ Hfd)) as [Hrc Hw1].
  pose proof (law_close _ (t_file (s_upload (sess st))) (world st)) as [Hf1 _].
  rewrite Hcl in Hrc, Hw1, Hf1. cbn in Hrc, Hw1, Hf1. do 2 parts_step.
  destruct (rc <? 0) eqn:E; b2p; [lia|].
  apply wp_bind. eapply wp_mono; [apply (finalize_rename_healthy _ path data); cbn; try done; by rewrite Hf1|].
  intros rc3 st3 (w3 & -> & Hrc3 & Hw3 & H1 & H2 & H3). cbn in H3.
  destruct (rc3 <? 0) eqn:E3; b2p; [lia|]. rewrite Hp. cbn [default from_option id].
  rewrite util_snprintf_ok by lia.
  apply wp_bind, wp_send_text_healthy; cbn; try done; [lia|unfold LUAGENT_MAX_FRAME_PAYLOAD; lia|].
  intros st4 Hsent. destruct (sent_calm _ _ _ Hsent) as [Hc4 Hp4 Hw4].
  destruct Hsent as [_ _ _ _ _ [Hfs4 _] Hh]. cbn in *. repeat parts_step. cbn.
  split; [done|]. split; [apply transfer_reset_init|]. split; [by apply Hh|]. split; [by split|].
  rewrite !Hfs4. split; [done|]. split; [done|]. intros q Hq1 Hq2. by rewrite Hfs4, H3, Hf1.
Qed.
End upload_steps.

(** ** Aborted uploads *)

(** What an abort leaves: no upload, no temporary file, nothing else
    changed. *)
Definition upload_gone {W} `{!FsView W} (path : bytes) (st st' : St W) : Prop :=
  s_upload (sess st') = transfer_init /\ files (world st') (tmp_of path) = None /\
  forall q, q <> tmp_of path -> files (world st') q = files (world st) q.

Section aborts.
Context {W : Type} `{!Uv W, !FsView W, !FsLaws W, !Healthy W}.
Implicit Types st : St W.

Lemma wp_abort_healthy st0 st req_id path size data :
  healthy (world st) -> uploading st req_id path size data ->
  (forall q, files (world st) q = files (world st0) q) ->
  wp (transfer_abort s_upload) (fun _ => upload_gone path st0) st.
Proof.
  intros Hw [_ _ _ _ _ _ Htmp Hf Hfd Hd _ _ _] Hst0. apply wp_abort_upload. split; [done|]. cbn.
  unfold abort_world. rewrite Htmp, (proj2 (Z.leb_le _ _) Hf).
  destruct (uv_fs_close (t_file (s_upload (sess st))) (world st)) as [rc3 w3] eqn:E3.
  pose proof (law_close _ (t_file (s_upload (sess st))) (world st)) as [Hf3 _]. rewrite E3 in Hf3. cbn in Hf3 |- *.
  destruct (healthy_close _ _ _ Hw (mk_is_Some _ _ Hfd)) as [_ Hw3]. rewrite E3 in Hw3.
  destruct (uv_fs_unlink (tmp_of path) w3) as [rc4 w4] eqn:E4. cbn.
  destruct (law_unlink _ _ _ _ _ E4) as [Hl _].
  assert (Hsome : is_Some (files w3 (tmp_of path))) by (rewrite Hf3, Hd; by eexists).
  pose proof (proj1 (healthy_unlink _ (tmp_of path) w3 Hw3) Hsome) as Hrc. rewrite E4 in Hrc. cbn in Hrc.
  rewrite (proj2 (Z.leb_le _ _) Hrc) in Hl. rewrite !Hl, decide_True by done. split; [done|].
  intros q Hq. by rewrite Hl, decide_False, Hf3, Hst0.
Qed.

(** An error reply does not disturb an upload. *)
Lemma wp_error_uploading st req_id path size data r code message (Q : Z -> St W -> Prop) :
  healthy (world st) -> uploading st req_id path size data ->
  (forall a st', healthy (world st') -> uploading st' req_id path size data ->
     (forall q, files (world st') q = files (world st) q) -> Q a st') ->
  wp (session_send_error r code message) Q st.
Proof.
  intros Hw Hu HQ.
  pose proof (send_error_parts r code message st) as [Hup _ _ _ _ _ _ _ _].
  pose proof (session_send_error_fs r code message st) as [Hf1 Hf2].
  pose proof (session_send_error_stays_healthy r code message st Hw) as Hh.
  apply HQ; [done| |done]. destruct Hu. split; rewrite ?Hup, ?Hf1, ?Hf2; done.
Qed.

(** An error reply, a count, and the abort. *)
Lemma wp_refused st0 st req_id path size data r code message :
  healthy (world st) -> uploading st req_id path size data ->
  (forall q, files (world st) q = files (world st0) q) ->
  wp (_ ← session_send_error r code message; transfer_abort s_upload;; mret (-1))
    (fun rc st' => rc = -1 /\ upload_gone path st0 st') st /\
  wp (_ ← session_send_error r code message; diag_count_transfer_abort;; transfer_abort s_upload;; mret (-1))
    (fun rc st' => rc = -1 /\ upload_gone path st0 st') st.
Proof.
  intros Hw Hu Hst0. split; apply wp_bind; apply (wp_error_uploading st req_id path size data _ _ _ _ Hw Hu);
    intros a st1 Hw1 Hu1 Hf1.
  - apply wp_bind. eapply wp_mono; [apply (wp_abort_healthy st0 st1 req_id path size data Hw1 Hu1)|].
    + intros q. by rewrite Hf1.
    + intros ? st2 H2. by apply wp_ret.
  - apply wp_bind, wp_modify, wp_bind.
    eapply wp_mono; [refine (wp_abort_healthy st0 _ req_id path size data _ _ _)|].
    + exact Hw1.
    + destruct Hu1. by split.
    + intros q. cbn. by rewrite Hf1.
    + intros ? st2 H2. by apply wp_ret.
Qed.
End aborts.

(** ** The payload of [PUT_BEGIN] *)

Lemma first_value_cons key k v kvs :
  first_value key ((k, v) :: kvs) =
  if bool_decide (k = key) && negb (bytes_eqb v []) then Some v else first_value key kvs.
Proof. unfold first_value. cbn. by destruct (bool_decide _ && _). Qed.

Lemma isdigit_one_line s : forallb isdigit s = true -> one_line s.
Proof.
  intros H. rewrite forallb_forall in H.
  split; intros Hin; apply list_elem_of_In, H in Hin; discriminate.
Qed.

Lemma lit_one_line s : forallb (fun c => negb (existsb (Byte.eqb c) [CR; LF])) (lit s) = true -> one_line (lit s).
Proof.
  intros H. rewrite forallb_forall in H.
  split; intros Hin; apply list_elem_of_In, H in Hin; discriminate.
Qed.

Lemma bytes_eqb_nil v : v <> [] -> bytes_eqb v [] = false.
Proof. intros H. destruct (bytes_eqb v []) eqn:E; [|done]. by apply bytes_eqb_eq in E. Qed.

Lemma not_elem_of_lit c s : existsb (Byte.eqb c) (lit s) = false -> c ∉ lit s.
Proof.
  intros H Hin. apply list_elem_of_In in Hin.
  assert (existsb (Byte.eqb c) (lit s) = true); [|congruence].
  apply existsb_exists. exists c. split; [done|]. by apply byte_eqb_eq.
Qed.

Lemma kv_ok_lit k v :
  existsb (Byte.eqb Byte.x3d) (lit k) = false ->
  forallb (fun c => negb (existsb (Byte.eqb c) [CR; LF])) (lit k) = true ->
  one_line v -> kv_ok (lit k, v).
Proof.
  intros H1 H2 H3. split; [by apply not_elem_of_lit|]. split; [by apply lit_one_line|done].
Qed.

Lemma put_begin_payload_fields path size overwrite :
  path <> [] -> one_line path -> one_line overwrite -> 0 <= size < 2 ^ 64 ->
  kv_lookup (put_begin_payload path size overwrite) (lit "path") = Some path /\
  kv_lookup (put_begin_payload path size overwrite) (lit "size") = Some (dec size).
Proof.
  intros Hne Hp Ho Hs. unfold put_begin_payload.
  assert (Hok : Forall kv_ok [(lit "path", path); (lit "size", dec size); (lit "overwrite", overwrite)]).
  { pose proof (isdigit_one_line _ (dec_digits size ltac:(lia))).
    do 3 (apply Forall_cons; split; [by apply kv_ok_lit|]). apply Forall_nil. done. }
  rewrite !kv_lookup_payload by (try done; by apply not_elem_of_lit).
  rewrite !first_value_cons, (bytes_eqb_nil path) by done.
  change (bool_decide (lit "path" = lit "path")) with true.
  change (bool_decide (lit "path" = lit "size")) with false.
  change (bool_decide (lit "size" = lit "size")) with true. cbn [andb negb].
  rewrite bytes_eqb_nil; [done|]. intros E. pose proof (dec_positive size). by rewrite E in *.
Qed.

(** ** Theorems *)

(** C1: A whole upload stores exactly the bytes that were sent.  From an open
    session with an idle upload and room for the two replies, [PUT_BEGIN]
    with the payload the clients send, the chunks [cs] (in any division) and
    [PUT_END] all succeed; afterwards the target file holds the concatenation
    of the chunks, the temporary file is gone, no other file changed, the
    upload is idle again, and exactly the two acknowledgements were sent.
    The target is replaced whatever the value of [overwrite]. *)
Theorem upload_roundtrip `{!Uv W, !FsView W, !FsLaws W, !Healthy W}
    (st : St W) req_id path overwrite cs :
  healthy (world st) -> s_upload (sess st) = transfer_init -> s_closed (sess st) = false ->
  0 <= s_pending_write_bytes (sess st) ->
  s_pending_write_bytes (sess st) + 540 <= LUAGENT_MAX_WRITE_QUEUE_BYTES ->
  path <> [] -> one_line path -> one_line overwrite -> zlen path <= 180 ->
  zlen (concat cs) < 2 ^ 63 ->
  let size := zlen (concat cs) in
  exists st', upload req_id (put_begin_payload path size overwrite) cs st = (0, st') /\
    files (world st') path = Some (concat cs) /\
    files (world st') (tmp_of path) = None /\
    (forall q, q <> path -> q <> tmp_of path -> files (world st') q = files (world st) q) /\
    s_upload (sess st') = transfer_init /\
    wire st' = wire st ++ [frame_of FRAME_ACK req_id (begin_reply req_id path size);
                           frame_of FRAME_ACK req_id (end_reply path size)].
Proof.
  intros Hw Hu Hc Hp Hq Hne Hl1 Hl2 Hlen Hsize size. pose proof (zlen_nonneg (concat cs)) as Hnn.
  destruct (put_begin_payload_fields path size overwrite) as [E1 E2]; try done; [lia|].
  set (payload := put_begin_payload path size overwrite) in *.
  assert (Hrep : zlen (begin_reply req_id path size) < 256).
  { rewrite begin_reply_length. pose proof (dec_length (u32 req_id)). pose proof (dec_length size).
    lia. }
  assert (Hrun : wp (upload req_id payload cs) (fun rc st' => rc = 0 /\
    files (world st') path = Some (concat cs) /\ files (world st') (tmp_of path) = None /\
    (forall q, q <> path -> q <> tmp_of path -> files (world st') q = files (world st) q) /\
    s_upload (sess st') = transfer_init /\
    wire st' = wire st ++ [frame_of FRAME_ACK req_id (begin_reply req_id path size);
                           frame_of FRAME_ACK req_id (end_reply path size)]) st).
  { unfold upload. apply wp_bind. eapply wp_mono.
    { apply (put_begin_healthy st req_id payload path size); try done; [lia| |by apply kv_u64_dec; [lia|]].
      rewrite kv_copy_eval, E1. destruct (512 <? _) eqn:E; b2p; [lia|done]. }
    intros rc st1 (-> & Hup & Hw1 & [Hc1 Hp1 Hwi1] & Ho1). cbn [negb Z.eqb]. apply wp_bind.
    eapply wp_mono; [apply (put_chunks_healthy st1 req_id path size [] cs); try done; unfold size; cbn; lia|].
    cbn [app]. intros rc st2 (-> & Hup2 & Hw2 & [Hc2 Hp2 Hwi2] & Ho2). cbn [negb Z.eqb].
    rewrite queue_bytes_cons, zlen_frame_of in Hp1. change (queue_bytes []) with 0 in Hp1, Hp2.
    pose proof (zlen_nonneg (begin_reply req_id path size)).
    eapply wp_mono; [apply (put_end_healthy st2 req_id path size (concat cs)); try done; try congruence; lia|].
    intros rc st3 (-> & Hi & Hw3 & [_ _ Hwi3] & Hf1 & Hf2 & Hf3).
    split; [done|]. split; [done|]. split; [done|]. split.
    - intros q Hq1 Hq2. by rewrite Hf3, Ho2, Ho1.
    - split; [done|]. rewrite Hwi3, Hwi2, Hwi1, app_nil_r, <- app_assoc. done. }
  unfold wp in Hrun. destruct (upload req_id payload cs st) as [rc st']. cbn in Hrun.
  destruct Hrun as [-> Hrun]. by exists st'.
Qed.

Lemma upload_roundtrip_witness :
  exists st', upload 7 (put_begin_payload (lit "/tmp/x") 5 (lit "0")) [lit "ab"; lit "cde"]
      (accepted (Sim.MkSim {[lit "/tmp/x" := lit "old"]} ∅ 3 0 0)) = (0, st') /\
    files (world st') (lit "/tmp/x") = Some (lit "abcde").
Proof.
  destruct (upload_roundtrip (accepted (Sim.MkSim {[lit "/tmp/x" := lit "old"]} ∅ 3 0 0))
    7 (lit "/tmp/x") (lit "0") [lit "ab"; lit "cde"]) as (st' & H1 & H2 & _).
  - split; [done|]. intros fd _. apply lookup_empty.
  - reflexivity.
  - reflexivity.
  - vm_compute. discriminate.
  - vm_compute. discriminate.
  - discriminate.
  - by apply lit_one_line.
  - by apply lit_one_line.
  - vm_compute. discriminate.
  - vm_compute. reflexivity.
  - exists st'. by split.
Defined.

(** C7: An upload that ends early, or receives more than was declared, never
    reaches the target: [PUT_END] before all bytes arrived, and a chunk that
    exceeds the declared size, fail, remove the temporary file and reset the
    upload; every other file, the target included, keeps its contents. *)
Theorem bad_upload_leaves_target `{!Uv W, !FsView W, !FsLaws W, !Healthy W}
    (st : St W) req_id path size data chunk :
  healthy (world st) -> uploading st req_id path size data ->
  zlen chunk <= LUAGENT_MAX_FRAME_PAYLOAD ->
  (zlen data < size ->
   let '(rc, st') := transfer_handle_put_end req_id st in rc = -1 /\ upload_gone path st st') /\
  (size < zlen data + zlen chunk ->
   let '(rc, st') := transfer_handle_put_chunk req_id chunk st in rc = -1 /\ upload_gone path st st').
Proof.
  intros Hw Hu Hch. pose proof Hu as [Ha Hm Hr Ht Ho _ _ _ _ _ Hle Hs _]. unfold LUAGENT_MAX_FRAME_PAYLOAD in *.
  pose proof (zlen_nonneg data). pose proof (zlen_nonneg chunk). split; intros Hsz.
  - assert (Hrun : wp (transfer_handle_put_end req_id) (fun rc st' => rc = -1 /\ upload_gone path st st') st);
      [|unfold wp in Hrun; by destruct (transfer_handle_put_end req_id st)].
    unfold transfer_handle_put_end. do 2 parts_step.
    rewrite Ha, Hr, Z.eqb_refl, Hm, bool_decide_eq_true_2, Ht, Ho by done. cbn [negb orb].
    destruct (zlen data =? size) eqn:E; b2p; [lia|]. by eapply wp_refused.
  - assert (Hrun : wp (transfer_handle_put_chunk req_id chunk) (fun rc st' => rc = -1 /\ upload_gone path st st') st);
      [|unfold wp in Hrun; by destruct (transfer_handle_put_chunk req_id chunk st)].
    unfold transfer_handle_put_chunk. do 2 parts_step.
    rewrite Ha, Hr, Z.eqb_refl, Hm, bool_decide_eq_true_2, Ht, Ho, u64_small by (done || lia). cbn [negb orb].
    destruct (size <? zlen data + zlen chunk) eqn:E; b2p; [|lia]. by eapply wp_refused.
Qed.

(** An upload of five bytes with three of them received. *)
Definition half_uploaded : St Sim.sim :=
  (transfer_handle_put_chunk 7 (lit "abc")
    (transfer_handle_put_begin 7 (put_begin_payload (lit "/x") 5 (lit "0"))
      (accepted (Sim.MkSim {[lit "/x" := lit "old"]} ∅ 3 1000000000 0))).2).2.

Lemma half_uploaded_ok : healthy (world half_uploaded) /\ uploading half_uploaded 7 (lit "/x") 5 (lit "abc").
Proof.
  split.
  - split; [vm_compute; discriminate|]. intros fd Hfd.
    change (({[3 := lit "/x.part"]} : gmap Z (list Byte.byte)) !! fd = None). apply lookup_singleton_None.
    vm_compute in Hfd. intros <-. by apply Hfd.
  - split; vm_compute; try reflexivity; discriminate.
Qed.

Lemma bad_upload_leaves_target_witness :
  files (world (transfer_handle_put_end 7 half_uploaded).2) (lit "/x") = Some (lit "old").
Proof.
  destruct half_uploaded_ok as [Hw Hu].
  destruct (bad_upload_leaves_target half_uploaded 7 (lit "/x") 5 (lit "abc") [] Hw Hu) as [H _];
    [vm_compute; discriminate|].
  specialize (H ltac:(vm_compute; reflexivity)).
  destruct (transfer_handle_put_end 7 half_uploaded) as [rc st']. destruct H as (_ & _ & _ & H).
  cbn [snd]. rewrite H; [vm_compute; reflexivity|]. vm_compute. discriminate.
Defined.
