(* ===== verification/Download.v ===== *)
(** * Downloads end to end

    What a download puts on the wire, and the limit the write queue sets on
    it: [transfer_handle_get_begin] queues the whole file before any write
    can complete. *)

From Stdlib Require Import ZArith Lia Bool.
From Stdlib Require Import Strings.Byte Strings.String.
From stdpp Require Import base list numbers option gmap.
From S2P Require Import Prelude CLib Frame Kv State Uv Session Transfer Upload.

#[local] Arguments queue_bytes : simpl never.

(** ** Specification *)

(** A list divided into pieces of [n] elements, the last one shorter. *)
Fixpoint split_chunks (fuel n : nat) (l : bytes) : list bytes :=
  match fuel, l with
  | O, _ | _, [] => []
  | S fuel', _ => take n l :: split_chunks fuel' n (drop n l)
  end.

(** The data frames of a download. *)
Definition chunk_frames (req_id chunk_size : Z) (data : bytes) : list bytes :=
  map (frame_of FRAME_GET_CHUNK req_id) (split_chunks (length data) (Z.to_nat chunk_size) data).

(** The acknowledgement that starts a download. *)
Definition get_ack (req_id : Z) (path data : bytes) : bytes :=
  frame_of FRAME_ACK req_id (begin_reply req_id path (zlen data)).

Definition get_end (req_id : Z) : bytes := frame_of FRAME_GET_END req_id (lit "status=ok").

Section spec.
Context {W : Type} `{!Uv W, !FsView W}.

(** A download of [data] under [path] is in progress with the bytes before
    [off] sent. *)
Record downloading (st : St W) (path data : bytes) (off c : Z) : Prop := Downloading {
  dn_file : fds (world st) (t_file (s_download (sess st))) = Some path;
  dn_disk : files (world st) path = Some data;
  dn_tmp : t_tmp_path (s_download (sess st)) = None;
  dn_total : t_total_size (s_download (sess st)) = zlen data;
  dn_off : t_offset (s_download (sess st)) = off;
  dn_range : 0 <= off <= zlen data;
  dn_size : zlen data < 2 ^ 63;
  dn_chunk : t_chunk_size (s_download (sess st)) = c;
  dn_chunk_range : 1 <= c <= LUAGENT_MAX_FRAME_PAYLOAD
}.
End spec.

(** ** Lemmas *)

Lemma split_chunks_concat fuel n l :
  (length l <= fuel)%nat -> (0 < n)%nat -> concat (split_chunks fuel n l) = l.
Proof.
  revert l. induction fuel as [|fuel IH]; intros l Hf Hn; [by destruct l; cbn in *; [|lia]|].
  cbn. destruct l as [|x l]; [done|]. cbn [concat]. rewrite IH; [apply take_drop| |done].
  rewrite length_drop. cbn [length] in *. lia.
Qed.

Lemma split_chunks_fuel f1 f2 n l :
  (length l <= f1)%nat -> (length l <= f2)%nat -> (0 < n)%nat ->
  split_chunks f1 n l = split_chunks f2 n l.
Proof.
  revert f2 l. induction f1 as [|f1 IH]; intros [|f2] l H1 H2 Hn.
  - done.
  - by destruct l; cbn in *; [|lia].
  - by destruct l; cbn in *; [|lia].
  - cbn. destruct l as [|x l]; [done|]. f_equal.
    apply IH; rewrite ?length_drop; cbn [length] in *; lia.
Qed.

Lemma chunk_frames_step req_id c l :
  1 <= c -> l <> [] ->
  chunk_frames req_id c l =
  frame_of FRAME_GET_CHUNK req_id (take (Z.to_nat c) l) :: chunk_frames req_id c (drop (Z.to_nat c) l).
Proof.
  intros Hc Hl. unfold chunk_frames. destruct l as [|x l]; [done|].
  cbn [length split_chunks map]. f_equal. f_equal.
  apply split_chunks_fuel; rewrite ?length_drop; cbn [length]; lia.
Qed.

Section download_steps.
Context {W : Type} `{!Uv W, !FsView W, !FsLaws W, !Healthy W}.
Implicit Types st : St W.

(** One iteration in a healthy world reads the next piece. *)
Lemma read_next st path data off c :
  healthy (world st) -> downloading st path data off c -> off < zlen data ->
  exists w, uv_fs_read (t_file (s_download (sess st))) (u32 (to_read (s_download (sess st))))
      (i64 (t_offset (s_download (sess st)))) (world st)
    = (zlen (take (Z.to_nat c) (drop (Z.to_nat off) data)), take (Z.to_nat c) (drop (Z.to_nat off) data), w) /\
    fs_eq (world st) w /\ healthy w.
Proof.
  intros Hw [Hf Hd _ Ht Ho Hr Hs Hc Hcr] Hlt.
  destruct (to_read_spec (s_download (sess st))) as [E _].
  { split; rewrite ?Ho, ?Ht, ?Hc; [done|lia|done]. }
  { lia. }
  rewrite Ho, Ht, Hc in E. rewrite Ho, i64_small, E by lia.
  set (len := Z.min c (zlen data - off)).
  assert (Hl0 : 0 < len) by (unfold len; lia). assert (Hl1 : 0 <= len) by lia.
  assert (Ho0 : 0 <= off) by lia.
  destruct (uv_fs_read (t_file (s_download (sess st))) len off (world st)) as [[n d] w] eqn:Er.
  pose proof (healthy_read _ _ _ _ len off _ Hw Hf Hd Hr Hl0) as [Hn Hw'].
  destruct (law_read _ _ _ _ _ _ _ _ _ _ Hf Hd Ho0 Hl1 Er) as [Hfs Hread].
  rewrite Er in Hn, Hw'. cbn in Hn, Hw'.
  destruct Hread as (Hnd & _ & Hdd); [lia|].
  exists w. split; [|done]. f_equal.
  assert (d = take (Z.to_nat c) (drop (Z.to_nat off) data)) as <-; [|congruence].
  rewrite Hdd, Hn. pose proof (zlen_drop (Z.to_nat off) data).
  destruct (Z.le_ge_cases c (zlen data - off)).
  - f_equal. lia.
  - rewrite !take_ge; [done|unfold zlen in *; lia..].
Qed.

(** With no room in the queue, sending closes the session and sends nothing. *)
Lemma send_frame_full st type req_id payload :
  s_closed (sess st) = false ->
  0 <= s_pending_write_bytes (sess st) <= LUAGENT_MAX_WRITE_QUEUE_BYTES -> zlen payload < 2 ^ 63 ->
  LUAGENT_MAX_WRITE_QUEUE_BYTES < s_pending_write_bytes (sess st) + 14 + zlen payload ->
  wp (session_send_frame type req_id payload) (fun rc st' =>
    rc = -1 /\ s_closed (sess st') = true /\ wire st' = wire st /\
    same_parts st st' /\ fs_kept st st') st.
Proof.
  intros Hc Hp Hl Hfull. unfold wp.
  pose proof (session_send_frame_parts type req_id payload st) as Hparts.
  pose proof (session_send_frame_fs type req_id payload st) as Hfs.
  destruct (session_send_frame type req_id payload st) as [rc st'] eqn:E.
  apply session_send_frame_outcome in E; [|done..]. cbn in *.
  inversion E; subst; try congruence; try lia.
  split; [done|]. split; [apply session_close_closed|]. split; [|done].
  by destruct (session_close_queue st) as [_ _ ->].
Qed.

(** The frames still to send from offset [off]. *)
Definition rest_frames (req_id c : Z) (data : bytes) (off : Z) : list bytes :=
  chunk_frames req_id c (drop (Z.to_nat off) data).

Lemma rest_frames_step req_id c data off :
  1 <= c -> 0 <= off < zlen data ->
  let chunk := take (Z.to_nat c) (drop (Z.to_nat off) data) in
  rest_frames req_id c data off =
    frame_of FRAME_GET_CHUNK req_id chunk :: rest_frames req_id c data (off + zlen chunk) /\
  1 <= zlen chunk <= c /\ off + zlen chunk <= zlen data.
Proof.
  intros Hc Ho chunk. unfold rest_frames.
  assert (Hlen : zlen (drop (Z.to_nat off) data) = zlen data - off) by (rewrite zlen_drop; lia).
  assert (Hch : zlen chunk = Z.min c (zlen data - off)) by (unfold chunk; rewrite zlen_take; lia).
  split; [|lia]. rewrite chunk_frames_step; [|done|].
  2: { intros E. rewrite E in Hlen. change (zlen []) with 0 in Hlen. lia. }
  f_equal. rewrite drop_drop, Hch. destruct (Z.le_ge_cases c (zlen data - off)).
  - do 2 f_equal. lia.
  - rewrite !drop_ge; [done|unfold zlen in *; lia..].
Qed.

Lemma rest_frames_end req_id c data : rest_frames req_id c data (zlen data) = [].
Proof. unfold rest_frames. by rewrite drop_ge by (unfold zlen; lia). Qed.

Lemma calm_app l k st1 st2 st3 : calm l st1 st2 -> calm k st2 st3 -> calm (l ++ k) st1 st3.
Proof.
  intros [H1 H2 H3] [H4 H5 H6]. split; [congruence|rewrite queue_bytes_app; lia|].
  by rewrite H6, H3, app_assoc.
Qed.

(** What the loop of a download ends with: every piece sent, or the queue
    overflowed and the session closed. *)
Definition loop_post (req_id : Z) (path data : bytes) (off c : Z) (st : St W)
    (r : option Z) (st' : St W) : Prop :=
  (forall q, files (world st') q = files (world st) q) /\
  if decide (s_pending_write_bytes (sess st) + queue_bytes (rest_frames req_id c data off)
             <= LUAGENT_MAX_WRITE_QUEUE_BYTES) then
    r = Some 0 /\ calm (rest_frames req_id c data off) st st' /\ healthy (world st') /\
    fs_eq (world st) (world st') /\
    t_file (s_download (sess st')) = t_file (s_download (sess st)) /\
    s_upload (sess st') = s_upload (sess st)
  else
    r = Some (-1) /\ s_closed (sess st') = true /\
    exists l, wire st' = wire st ++ l /\ l `prefix_of` rest_frames req_id c data off.

Lemma abort_world_files t (w : W) q :
  t_tmp_path t = None -> files (abort_world t w) q = files w q.
Proof.
  intros Ht. unfold abort_world. rewrite Ht. destruct (0 <=? t_file t); [|done].
  apply (proj1 (law_close _ (t_file t) w)).
Qed.

(** The pieces of the loop compose: one frame, then the rest. *)
Lemma loop_post_cons req_id path data off c st st2 r st' :
  let chunk := take (Z.to_nat c) (drop (Z.to_nat off) data) in
  1 <= c -> 0 <= off < zlen data ->
  calm [frame_of FRAME_GET_CHUNK req_id chunk] st st2 ->
  fs_eq (world st) (world st2) ->
  t_file (s_download (sess st2)) = t_file (s_download (sess st)) ->
  s_upload (sess st2) = s_upload (sess st) ->
  loop_post req_id path data (off + zlen chunk) c st2 r st' ->
  loop_post req_id path data off c st r st'.
Proof.
  intros chunk Hc Ho [H1 H2 H3] Hfs Hfile Hup [Hfiles Hpost].
  destruct (rest_frames_step req_id c data off Hc Ho) as (Hrest & _). fold chunk in Hrest.
  split; [intros q; rewrite Hfiles; by apply fs_eq_files|]. rewrite Hrest, queue_bytes_cons.
  rewrite queue_bytes_cons in H2. change (queue_bytes []) with 0 in H2. rewrite H2 in Hpost.
  destruct (decide _) as [Hle|Hgt] in Hpost; [rewrite decide_True by lia|rewrite decide_False by lia].
  - destruct Hpost as (-> & [H4 H5 H6] & Hw5 & Hfs' & Hfile' & Hup').
    split; [done|]. split; [|split; [done|split; [by etransitivity|split; congruence]]].
    split; [congruence|rewrite queue_bytes_cons; lia|]. by rewrite H6, H3, <- app_assoc.
  - destruct Hpost as (-> & Hcl & l & Hwl & Hpre). split; [done|]. split; [done|].
    exists (frame_of FRAME_GET_CHUNK req_id chunk :: l). split; [by rewrite Hwl, H3, <- app_assoc|].
    by apply prefix_cons.
Qed.

Lemma get_loop_sends fuel req_id st path data off c :
  healthy (world st) -> downloading st path data off c -> zlen data - off < Z.of_nat fuel ->
  s_closed (sess st) = false ->
  0 <= s_pending_write_bytes (sess st) <= LUAGENT_MAX_WRITE_QUEUE_BYTES ->
  wp (get_loop fuel req_id) (loop_post req_id path data off c st) st.
Proof.
  revert st off. induction fuel as [|fuel IH]; intros st off Hw Hd Hf Hc Hp.
  { destruct Hd. lia. }
  pose proof Hd as Hd0. destruct Hd as [Hfd Hdisk Htmp Ht Ho Hr Hs Hch Hcr].
  unfold LUAGENT_MAX_FRAME_PAYLOAD in *.
  cbn [get_loop]. do 2 parts_step. fold (to_read (s_download (sess st))). parts_step; b2p.
  { apply wp_ret. assert (off = zlen data) as -> by lia. unfold loop_post.
    rewrite rest_frames_end. split; [done|]. change (queue_bytes []) with 0. rewrite decide_True by lia.
    split; [done|]. split; [|done]. split; [done|change (queue_bytes []) with 0; lia|by rewrite app_nil_r]. }
  destruct (rest_frames_step req_id c data off) as (Hrest & Hlen & Hfit); [lia..|].
  destruct (read_next st path data off c Hw Hd0) as (w1 & Eread & Hfs1 & Hw1); [lia|].
  set (chunk := take (Z.to_nat c) (drop (Z.to_nat off) data)) in *.
  apply wp_bind, wp_lift. rewrite Eread. intros _ _ [= <- <-].
  destruct (zlen chunk <=? 0) eqn:E0; b2p; [lia|].
  destruct (Z.le_gt_cases (s_pending_write_bytes (sess st) + 14 + zlen chunk) LUAGENT_MAX_WRITE_QUEUE_BYTES) as [Hroom|Hno].
  - apply wp_bind. unfold wp at 1.
    destruct (session_send_frame_healthy (st <| world := w1 |>) FRAME_GET_CHUNK req_id chunk)
      as (st2 & -> & Hsent); try done; [cbn; lia|unfold LUAGENT_MAX_FRAME_PAYLOAD; lia|].
    destruct (sent_calm _ _ _ Hsent) as [H1 H2 H3].
    rewrite queue_bytes_cons, zlen_frame_of in H2. change (queue_bytes []) with 0 in H2.
    destruct Hsent as [[Hup Hdn _ _ _ _ _ _ _] _ _ _ _ Hfs2 Hh]. unfold fs_kept in Hfs2. cbn in *.
    do 2 parts_step. apply wp_bind, wp_now_healthy; [by apply Hh|]. intros t w3 Hw3 Hfs3. cbn in Hfs3.
    do 2 parts_step.
    assert (Hfs : fs_eq (world st) w3) by (do 2 (etransitivity; [eassumption|]); done).
    eapply wp_mono; [apply (IH _ (off + zlen chunk))|]; cbn; try done; try lia; try congruence.
    + split; cbn; rewrite ?Hdn; try done; try lia.
      * by rewrite (fs_eq_fds _ _ _ Hfs).
      * by rewrite (fs_eq_files _ _ _ Hfs).
      * rewrite Ho, u64_small by lia. done.
    + intros r st5 Hpost. eapply loop_post_cons; [..|exact Hpost]; cbn; try done; try lia; try congruence.
      * fold chunk. split; cbn; [done|rewrite queue_bytes_cons, zlen_frame_of; change (queue_bytes []) with 0; lia|done].
  - apply wp_bind. eapply wp_mono.
    { apply (send_frame_full (st <| world := w1 |>) FRAME_GET_CHUNK req_id chunk); cbn; try done; lia. }
    intros rc st2 (-> & Hcl & Hwi & [_ Hdn _ _ _ _ _ _ _] & Hfs2). unfold fs_kept in Hfs2. cbn in *.
    repeat parts_step. unfold loop_post. cbn. split.
    + intros q. rewrite abort_world_files by (by rewrite Hdn).
      by rewrite (fs_eq_files _ _ _ Hfs2), (fs_eq_files _ _ _ Hfs1).
    + pose proof (queue_bytes_nonneg (rest_frames req_id c data (off + zlen chunk))).
      rewrite Hrest, queue_bytes_cons, zlen_frame_of, decide_False by lia.
      split; [done|]. split; [done|]. exists []. rewrite app_nil_r. split; [done|]. apply prefix_nil.
Qed.

#[local] Arguments get_loop : simpl never.

(** The frames of a whole download of [data]. *)
Definition download_frames (req_id c : Z) (path data : bytes) : list bytes :=
  get_ack req_id path data :: chunk_frames req_id c data ++ [get_end req_id].

(** What a download ends with. *)
Definition download_post (req_id c : Z) (path data : bytes) (st : St W) (r : option Z) (st' : St W) : Prop :=
  (forall q, files (world st') q = files (world st) q) /\
  (s_pending_write_bytes (sess st) + queue_bytes (download_frames req_id c path data)
     <= LUAGENT_MAX_WRITE_QUEUE_BYTES ->
   r = Some 0 /\ calm (download_frames req_id c path data) st st' /\ s_download (sess st') = transfer_init) /\
  (LUAGENT_MAX_WRITE_QUEUE_BYTES <
     s_pending_write_bytes (sess st) + queue_bytes (get_ack req_id path data :: chunk_frames req_id c data) ->
   r = Some (-1) /\ s_closed (sess st') = true /\
   exists l, wire st' = wire st ++ get_ack req_id path data :: l /\ l `prefix_of` chunk_frames req_id c data).

(** The last statements of [transfer_handle_get_begin]. *)
Definition get_tail (req_id : Z) : M (St W) (option Z) :=
  t ← get_sess s_download;
  _ ← lift (uv_fs_close (t_file t));
  mod_transfer s_download (upd t_file (fun _ => -1));;
  _ ← session_send_text FRAME_GET_END req_id (Some (lit "status=ok"));
  diag_count_transfer_complete;;
  mod_transfer s_download transfer_reset;;
  mret (Some 0).

(** The end of a download whose pieces were all sent. *)
Lemma get_finish st req_id :
  healthy (world st) -> is_Some (fds (world st) (t_file (s_download (sess st)))) ->
  s_closed (sess st) = false -> 0 <= s_pending_write_bytes (sess st) ->
  wp (get_tail req_id) (fun r st' =>
    (forall q, files (world st') q = files (world st) q) /\
    (s_pending_write_bytes (sess st) + 23 <= LUAGENT_MAX_WRITE_QUEUE_BYTES ->
     r = Some 0 /\ calm [get_end req_id] st st' /\ s_download (sess st') = transfer_init)) st.
Proof.
  intros Hw Hfd Hc Hp. unfold get_tail. do 2 parts_step. apply wp_bind, wp_lift. intros rc w1 Hcl.
  destruct (healthy_close _ _ _ Hw Hfd) as [_ Hw1].
  pose proof (law_close _ (t_file (s_download (sess st))) (world st)) as [Hf1 _].
  rewrite Hcl in Hw1, Hf1. cbn in Hw1, Hf1. do 2 parts_step. apply wp_bind.
  set (st1 := _ <| sess ::= _ |>).
  assert (Hfs : forall a s', session_send_text FRAME_GET_END req_id (Some (lit "status=ok")) st1 = (a, s') ->
    forall q, files (world s') q = files (world st) q).
  { intros a s' E q. pose proof (keeps_run _ _ _ _ _ (session_send_frame_fs _ _ _) E) as [H _].
    by rewrite H, <- Hf1. }
  unfold wp at 1. destruct (session_send_text _ _ _ st1) as [rc2 st2] eqn:E. cbn [fst snd].
  repeat parts_step. split; [exact (Hfs _ _ eq_refl)|]. intros Hroom.
  destruct (session_send_frame_healthy st1 FRAME_GET_END req_id (lit "status=ok")) as (st3 & E3 & Hs);
    try done; [change (zlen (lit "status=ok")) with 9; cbn; lia|].
  unfold session_send_text in E. cbn [default from_option id] in E. rewrite E3 in E. injection E as <- <-.
  split; [done|]. split; [|apply transfer_reset_init]. destruct (sent_calm _ _ _ Hs) as [H1 H2 H3].
  by split.
Qed.

(** From the acknowledgement on. *)
Lemma get_run st st1 req_id fuel path data c :
  healthy (world st1) -> downloading st1 path data 0 c -> zlen data < Z.of_nat fuel ->
  calm [get_ack req_id path data] st st1 ->
  s_closed (sess st) = false -> 0 <= s_pending_write_bytes (sess st) ->
  s_pending_write_bytes (sess st1) <= LUAGENT_MAX_WRITE_QUEUE_BYTES ->
  (forall q, files (world st1) q = files (world st) q) ->
  wp (r ← get_loop fuel req_id; match r with Some 0 => get_tail req_id | _ => mret r end)
    (download_post req_id c path data st) st1.
Proof.
  intros Hw Hd Hf [H1 H2 H3] Hc Hp Hroom Hfiles. apply wp_bind.
  pose proof (queue_bytes_nonneg [get_ack req_id path data]).
  eapply wp_mono; [apply (get_loop_sends fuel req_id st1 path data 0 c); try done; try lia; congruence|].
  intros r st2 [Hfiles2 Hpost]. unfold rest_frames in Hpost. rewrite drop_0 in Hpost.
  pose proof (queue_bytes_nonneg (chunk_frames req_id c data)) as Hqn.
  unfold download_post, download_frames. rewrite (queue_bytes_cons (get_ack _ _ _)), queue_bytes_app.
  rewrite queue_bytes_cons in *. change (queue_bytes []) with 0 in *.
  change (zlen (get_end req_id)) with 23.
  destruct (decide _) as [Hle|Hgt] in Hpost.
  - destruct Hpost as (-> & [H4 H5 H6] & Hw2 & Hfs & Hfile & Hup).
    eapply wp_mono; [apply get_finish; try done; try congruence; [|lia]|].
    { rewrite Hfile, (fs_eq_fds _ _ _ Hfs), (dn_file _ _ _ _ _ Hd). by eexists. }
    intros r st3 [Hfiles3 Hend]. split; [intros q; by rewrite Hfiles3, Hfiles2|]. split; [|intros Hx; exfalso; rewrite queue_bytes_cons in Hx; lia].
    intros Hfit. destruct Hend as (-> & [H7 H8 H9] & Hi); [lia|]. split; [done|]. split; [|done].
    rewrite queue_bytes_cons in H8. change (queue_bytes []) with 0 in H8.
    split; [congruence| |].
    + rewrite queue_bytes_cons, queue_bytes_app, queue_bytes_cons. change (queue_bytes []) with 0. lia.
    + by rewrite H9, H6, H3, <- !app_assoc.
  - destruct Hpost as (-> & Hcl & l & Hwl & Hpre). apply wp_ret.
    split; [intros q; by rewrite Hfiles2|]. split; [intros; exfalso; lia|]. intros _. split; [done|]. split; [done|].
    exists l. split; [|done]. by rewrite Hwl, H3, <- app_assoc.
Qed.

Lemma get_begin_healthy st req_id payload path data :
  healthy (world st) -> s_download (sess st) = transfer_init -> s_closed (sess st) = false ->
  0 <= s_pending_write_bytes (sess st) ->
  s_pending_write_bytes (sess st) + 270 <= LUAGENT_MAX_WRITE_QUEUE_BYTES ->
  kv_copy 512 payload (lit "path") = Some path -> files (world st) path = Some data ->
  zlen data < 2 ^ 63 -> zlen (begin_reply req_id path (zlen data)) < 256 ->
  wp (transfer_handle_get_begin req_id payload)
    (download_post req_id (get_chunk_size payload) path data st) st.
Proof.
  intros Hw Hd Hc Hp Hroom Ep Hfile Hsize Hrep. pose proof (zlen_nonneg data) as Hnn.
  unfold transfer_handle_get_begin. do 2 parts_step. rewrite Hd, Ep. cbn [t_active transfer_init].
  apply wp_bind, wp_malloc_healthy; [done|]. intros w1 Hw1 Hf1. do 2 parts_step. cbn [negb].
  do 2 parts_step. apply wp_bind, wp_lift. cbn. intros fd w2 Hopen.
  assert (Hsome : is_Some (files w1 path)) by (rewrite (fs_eq_files _ _ _ Hf1), Hfile; by eexists).
  destruct (healthy_open_read _ path w1 Hw1 Hsome) as [Hfd Hw2].
  pose proof (law_open_read _ _ _ _ _ Hopen) as Hlaw. rewrite Hopen in Hfd, Hw2. cbn in Hfd, Hw2.
  rewrite (proj2 (Z.leb_le _ _) Hfd) in Hlaw. destruct Hlaw as (_ & _ & Hfiles & Hfds).
  destruct (fd <? 0) eqn:E; b2p; [lia|]. do 2 parts_step.
  assert (Hfd2 : fds w2 fd = Some path) by (by rewrite Hfds, decide_True).
  assert (Hfile2 : files w2 path = Some data) by (by rewrite Hfiles, (fs_eq_files _ _ _ Hf1)).
  apply wp_bind, wp_lift. cbn. intros [src sz] w3 Hstat.
  destruct (healthy_fstat _ _ _ _ Hw2 Hfd2 (mk_is_Some _ _ Hfile2)) as [Hsrc Hw3].
  destruct (law_fstat _ _ _ _ _ _ _ _ Hfd2 Hfile2 Hstat) as [Hf3 Hsz].
  rewrite Hstat in Hsrc, Hw3. cbn in Hsrc, Hw3. rewrite (Hsz Hsrc), u64_small by lia.
  destruct (src <? 0) eqn:E2; b2p; [lia|]. do 2 parts_step.
  apply wp_bind, wp_now_healthy; [done|]. intros t w4 Hw4 Hf4. cbn in Hf4. do 4 parts_step.
  rewrite util_snprintf_ok by done.
  apply wp_bind, wp_send_text_healthy; cbn; try done; [lia|unfold LUAGENT_MAX_FRAME_PAYLOAD; lia|].
  intros st5 Hs5. destruct (sent_calm _ _ _ Hs5) as [H1 H2 H3].
  destruct Hs5 as [[_ Hdn _ _ _ _ _ _ _] _ _ _ _ Hf5 Hh]. unfold fs_kept in Hf5. cbn in *.
  apply wp_bind, wp_malloc_healthy; [by apply Hh|]. intros w6 Hw6 Hf6. cbn [negb].
  assert (Hfs : fs_eq w2 w6) by (do 3 (etransitivity; [eassumption|]); done).
  assert (Hfs6 : forall q, files w6 q = files (world st) q).
  { intros q. by rewrite (fs_eq_files _ _ _ Hfs), Hfiles, (fs_eq_files _ _ _ Hf1). }
  apply get_run; cbn; try done; try congruence; try lia.
  - split; cbn; rewrite ?Hdn; cbn; try done; try lia.
    + by rewrite (fs_eq_fds _ _ _ Hfs).
    + by rewrite Hfs6.
    + by rewrite Hd.
    + apply get_chunk_size_range.
  - rewrite H2, queue_bytes_cons, zlen_frame_of. change (queue_bytes []) with 0. lia.
Qed.
End download_steps.

Lemma queue_bytes_chunks req_id n fuel l :
  (0 < n)%nat -> (length l <= fuel)%nat ->
  zlen l <= queue_bytes (map (frame_of FRAME_GET_CHUNK req_id) (split_chunks fuel n l)).
Proof.
  revert l. induction fuel as [|fuel IH]; intros l Hn Hl.
  { destruct l; [done|cbn in Hl; lia]. }
  cbn [split_chunks]. destruct l as [|x l]; [done|]. cbn [map]. rewrite queue_bytes_cons, zlen_frame_of.
  assert (Hd : (length (drop n (x :: l)) <= fuel)%nat) by (rewrite length_drop; cbn [length] in *; lia).
  specialize (IH _ Hn Hd). rewrite zlen_take. rewrite zlen_drop in IH. lia.
Qed.

Lemma split_chunks_sizes fuel n l :
  (0 < n)%nat -> Forall (fun c => 1 <= zlen c <= Z.of_nat n) (split_chunks fuel n l).
Proof.
  intros Hn. revert l. induction fuel as [|fuel IH]; intros l; [constructor|]. cbn.
  destruct l as [|x l]; [constructor|]. constructor; [|apply IH].
  rewrite zlen_take, zlen_cons. pose proof (zlen_nonneg l). lia.
Qed.

(** A file larger than the write queue does not fit in it. *)
Lemma chunk_frames_large req_id c data :
  1 <= c -> zlen data <= queue_bytes (chunk_frames req_id c data).
Proof. intros Hc. apply queue_bytes_chunks; [lia|done]. Qed.

(** ** Theorems *)

(** C5: A download delivers exactly the file.  From an open session with an
    idle download, for a file whose frames fit in the free part of the write
    queue, [GET_BEGIN] succeeds and sends an acknowledgement with the size,
    then data frames of between one byte and the chunk size whose payloads
    concatenate to the contents of the file, then the end frame; no file
    changes, the session stays open and the download is idle again. *)
Theorem download_roundtrip `{!Uv W, !FsView W, !FsLaws W, !Healthy W}
    (st : St W) req_id payload path data :
  healthy (world st) -> s_download (sess st) = transfer_init -> s_closed (sess st) = false ->
  0 <= s_pending_write_bytes (sess st) ->
  s_pending_write_bytes (sess st) + 270 <= LUAGENT_MAX_WRITE_QUEUE_BYTES ->
  kv_copy 512 payload (lit "path") = Some path -> files (world st) path = Some data ->
  zlen (begin_reply req_id path (zlen data)) < 256 ->
  s_pending_write_bytes (sess st) + queue_bytes (download_frames req_id (get_chunk_size payload) path data)
    <= LUAGENT_MAX_WRITE_QUEUE_BYTES ->
  exists st' chunks, transfer_handle_get_begin req_id payload st = (Some 0, st') /\
    concat chunks = data /\ Forall (fun c => 1 <= zlen c <= get_chunk_size payload) chunks /\
    wire st' = wire st ++ [frame_of FRAME_ACK req_id (begin_reply req_id path (zlen data))]
      ++ map (frame_of FRAME_GET_CHUNK req_id) chunks ++ [frame_of FRAME_GET_END req_id (lit "status=ok")] /\
    (forall q, files (world st') q = files (world st) q) /\
    s_closed (sess st') = false /\ s_download (sess st') = transfer_init.
Proof.
  intros Hw Hd Hc Hp Hr Ep Hf Hrep Hfit. pose proof (get_chunk_size_range payload) as Hch.
  assert (Hsize : zlen data < 2 ^ 63).
  { pose proof (chunk_frames_large req_id (get_chunk_size payload) data ltac:(lia)) as Hl.
    unfold download_frames in Hfit. rewrite queue_bytes_cons, queue_bytes_app in Hfit.
    pose proof (zlen_nonneg (get_ack req_id path data)). pose proof (queue_bytes_nonneg [get_end req_id]).
    unfold LUAGENT_MAX_WRITE_QUEUE_BYTES in *. lia. }
  pose proof (get_begin_healthy st req_id payload path data Hw Hd Hc Hp Hr Ep Hf Hsize Hrep) as H.
  unfold wp in H. destruct (transfer_handle_get_begin req_id payload st) as [r st']. cbn [fst snd] in H.
  destruct H as (Hfiles & H & _). destruct (H Hfit) as (-> & [H1 _ H3] & Hi).
  exists st', (split_chunks (length data) (Z.to_nat (get_chunk_size payload)) data).
  split; [done|]. split; [apply split_chunks_concat; lia|]. split.
  - eapply Forall_impl; [apply split_chunks_sizes; lia|]. cbn. lia.
  - split; [by rewrite H3|]. split; [done|]. split; [congruence|done].
Qed.

Lemma download_roundtrip_witness :
  let st := accepted (Sim.MkSim {[lit "/tmp/x" := lit "abcde"]} ∅ 3 0 0) in
  let payload := kv_payload [(lit "path", lit "/tmp/x"); (lit "chunk_size", lit "2")] in
  exists st' chunks, transfer_handle_get_begin 7 payload st = (Some 0, st') /\ concat chunks = lit "abcde".
Proof.
  intros st payload.
  destruct (download_roundtrip st 7 payload (lit "/tmp/x") (lit "abcde")) as (st' & chunks & H1 & H2 & _).
  - split; [done|]. intros fd _. apply lookup_empty.
  - reflexivity.
  - reflexivity.
  - vm_compute. discriminate.
  - vm_compute. discriminate.
  - vm_compute. reflexivity.
  - vm_compute. reflexivity.
  - vm_compute. reflexivity.
  - vm_compute. discriminate.
  - exists st', chunks. by split.
Defined.

(** C32: A file larger than the write queue (256 KiB) can never be downloaded:
    [transfer_handle_get_begin] queues every chunk before any write can
    complete, so the queue overflows, the session is closed and only a
    prefix of the chunks was handed to the network. *)
Theorem download_too_large `{!Uv W, !FsView W, !FsLaws W, !Healthy W}
    (st : St W) req_id payload path data :
  healthy (world st) -> s_download (sess st) = transfer_init -> s_closed (sess st) = false ->
  0 <= s_pending_write_bytes (sess st) ->
  s_pending_write_bytes (sess st) + 270 <= LUAGENT_MAX_WRITE_QUEUE_BYTES ->
  kv_copy 512 payload (lit "path") = Some path -> files (world st) path = Some data ->
  zlen (begin_reply req_id path (zlen data)) < 256 ->
  LUAGENT_MAX_WRITE_QUEUE_BYTES <= zlen data < 2 ^ 63 ->
  exists st' l, transfer_handle_get_begin req_id payload st = (Some (-1), st') /\
    s_closed (sess st') = true /\
    wire st' = wire st ++ frame_of FRAME_ACK req_id (begin_reply req_id path (zlen data)) :: l /\
    l `prefix_of` chunk_frames req_id (get_chunk_size payload) data.
Proof.
  intros Hw Hd Hc Hp Hr Ep Hf Hrep Hsize. pose proof (get_chunk_size_range payload) as Hch.
  pose proof (chunk_frames_large req_id (get_chunk_size payload) data ltac:(lia)) as Hl.
  pose proof (get_begin_healthy st req_id payload path data Hw Hd Hc Hp Hr Ep Hf ltac:(lia) Hrep) as H.
  unfold wp in H. destruct (transfer_handle_get_begin req_id payload st) as [r st']. cbn [fst snd] in H.
  destruct H as (_ & _ & H). destruct H as (-> & Hcl & l & Hwl & Hpre).
  { unfold get_ack. rewrite queue_bytes_cons, zlen_frame_of.
    pose proof (zlen_nonneg (begin_reply req_id path (zlen data))). lia. }
  by exists st', l.
Qed.

Lemma download_too_large_witness :
  let st := accepted (Sim.MkSim {[lit "/f" := replicate (64 * 64 * 64) Byte.x61]} ∅ 3 0 0) in
  let payload := kv_payload [(lit "path", lit "/f")] in
  exists st', transfer_handle_get_begin 7 payload st = (Some (-1), st') /\ s_closed (sess st') = true.
Proof.
  intros st payload.
  destruct (download_too_large st 7 payload (lit "/f") (replicate (64 * 64 * 64) Byte.x61)) as (st' & l & H1 & H2 & _).
  - split; [done|]. intros fd _. apply lookup_empty.
  - reflexivity.
  - reflexivity.
  - vm_compute. discriminate.
  - vm_compute. discriminate.
  - vm_compute. reflexivity.
  - apply lookup_singleton_eq.
  - vm_compute. reflexivity.
  - unfold zlen. rewrite length_replicate. unfold LUAGENT_MAX_WRITE_QUEUE_BYTES. lia.
  - exists st'. by split.
Defined.
