(* ===== verification/Proc.v ===== *)
(** * Processes ([src/proc.c])

    Spawning one process per session, forwarding its output, and closing its
    three handles (the process and the two pipes) when it has exited and
    both pipes are at their end.  The parsers of control payloads in this
    file of the source are in [Kv.v].  [uv_read_stop], which only ends the
    callbacks of a stream, is not part of the model. *)

From Stdlib Require Import ZArith Lia Bool.
From Stdlib Require Import Strings.Byte Strings.String.
From stdpp Require Import base list numbers option.
From S2P Require Import Prelude CLib Frame Kv State Uv Session.

(** ** The handles inside [struct proc_state] *)

Definition proc_process (s : session) : handle := p_process (s_proc s).
Definition proc_stdout_pipe (s : session) : handle := p_stdout_pipe (s_proc s).
Definition proc_stderr_pipe (s : session) : handle := p_stderr_pipe (s_proc s).

#[global] Instance proc_process_update : Update proc_process :=
  fun f => upd s_proc (upd p_process f).
#[global] Instance proc_stdout_pipe_update : Update proc_stdout_pipe :=
  fun f => upd s_proc (upd p_stdout_pipe f).
#[global] Instance proc_stderr_pipe_update : Update proc_stderr_pipe :=
  fun f => upd s_proc (upd p_stderr_pipe f).

(** The stream a read callback is called for. *)
Inductive stream :=
| Stdout_pipe
| Stderr_pipe.

#[global] Instance stream_eq_dec : EqDecision stream.
Proof. solve_decision. Defined.

(** [stream->data]. *)
Definition stream_data (p : stream) (x : proc_state) : pipe_data :=
  match p with Stdout_pipe => p_stdout_data x | Stderr_pipe => p_stderr_data x end.

Definition set_stream_data (p : stream) (d : pipe_data) : proc_state -> proc_state :=
  match p with
  | Stdout_pipe => upd p_stdout_data (fun _ => d)
  | Stderr_pipe => upd p_stderr_data (fun _ => d)
  end.

Definition kill_reason_name (reason : proc_kill_reason) : bytes :=
  match reason with
  | PROC_KILL_REQUESTED => lit "killed"
  | PROC_KILL_TIMEOUT => lit "timeout"
  | PROC_KILL_IDLE => lit "idle_timeout"
  | PROC_KILL_NONE => lit "exit"
  end.

(** Freeing an absent vector does nothing: it stays [NULL]. *)
Definition proc_free_args (p : proc_state) : proc_state := p <| p_args := None |>.

Definition proc_reset (p : proc_state) : proc_state :=
  proc_free_args
    (p <| p_active := false |> <| p_stdout_closed := false |> <| p_stderr_closed := false |>
       <| p_proc_id := 0 |> <| p_started_ms := 0 |> <| p_last_io_ms := 0 |>
       <| p_timeout_ms := 0 |> <| p_idle_timeout_ms := 0 |> <| p_kill_reason := PROC_KILL_NONE |>
       <| p_file := None |>).

(** The texts of the replies. *)
Definition exit_reply (proc_id exit_status : Z) (reason : bytes) : bytes :=
  lit "status=ok" ++ [LF] ++ lit "proc_id=" ++ dec (u32 proc_id) ++ [LF]
  ++ lit "exit_code=" ++ sdec exit_status ++ [LF] ++ lit "reason=" ++ reason.

Definition spawn_reply (proc_id : Z) (file : bytes) : bytes :=
  lit "status=ok" ++ [LF] ++ lit "proc_id=" ++ dec (u32 proc_id) ++ [LF] ++ lit "path=" ++ file.

Definition kill_reply (proc_id : Z) : bytes :=
  lit "status=ok" ++ [LF] ++ lit "proc_id=" ++ dec (u32 proc_id).

(** The key of an argument. *)
Definition argv_key (i : Z) : bytes := lit "argv" ++ dec (u32 i).

(** The counting loop of [proc_build_args]: [None] out of fuel, [Some None]
    when the function returns [NULL] from inside it. *)
Fixpoint count_args (fuel : nat) (payload : bytes) (count : Z) : option (option Z) :=
  match fuel with
  | O => None
  | S fuel' =>
      match util_snprintf 32 (argv_key count) with
      | (0, key) =>
          match kv_copy 512 payload key with
          | None => Some (Some count)
          | Some _ => count_args fuel' payload (size_t (count + 1))
          end
      | _ => Some None
      end
  end.

Section proc.
Context {W : Type} `{!Uv W}.
Notation M := (M (St W)).

Definition mod_proc (f : proc_state -> proc_state) : M unit := mod_sess (upd s_proc f).

Definition proc_maybe_finalize : M unit :=
  p ← get_sess s_proc;
  if negb (p_active p) && p_stdout_closed p && p_stderr_closed p then
    mod_proc (fun p => p <| p_stdout_data := PD_session |> <| p_stderr_data := PD_session |>);;
    uv_close proc_stdout_pipe true;;
    uv_close proc_stderr_pipe true;;
    mod_proc proc_reset
  else mret tt.

(** [read_cb] for [nread] and, when it is positive, the bytes read. *)
Definition read_cb (strm : stream) (nread : Z) (base : bytes) : M unit :=
  ctx ← get_sess (fun s => stream_data strm (s_proc s));
  if 0 <? nread then
    match ctx with
    | PD_ctx frame_type =>
        now ← util_now_ms;
        mod_proc (upd p_last_io_ms (fun _ => now));;
        proc_id ← get_sess (fun s => p_proc_id (s_proc s));
        _ ← session_send_frame frame_type proc_id (take (Z.to_nat nread) base);
        mret tt
    | _ => report HZ_bad_pointer
    end
  else if nread <? 0 then
    match ctx with
    | PD_ctx frame_type =>
        (if frame_type =? FRAME_STDOUT then mod_proc (upd p_stdout_closed (fun _ => true))
         else mod_proc (upd p_stderr_closed (fun _ => true)));;
        mod_proc (set_stream_data strm PD_null);;
        proc_maybe_finalize
    | _ => report HZ_bad_pointer
    end
  else mret tt.

Definition proc_exit_cb (exit_status : Z) : M unit :=
  mod_proc (upd p_active (fun _ => false));;
  p ← get_sess s_proc;
  let reason := kill_reason_name (p_kill_reason p) in
  diag_count_process_exit;;
  (match util_snprintf 256 (exit_reply (p_proc_id p) exit_status reason) with
   | (0, payload) => _ ← session_send_text FRAME_EXIT (p_proc_id p) (Some payload); mret tt
   | _ => mret tt
   end);;
  uv_close proc_process true;;
  proc_maybe_finalize.

Definition proc_abort : M unit :=
  p ← get_sess s_proc;
  if p_active p then
    mod_proc (upd p_kill_reason (fun _ => PROC_KILL_REQUESTED));;
    _ ← lift uv_process_kill; mret tt
  else mod_proc proc_reset.

(** [strdup] of each string, stopping at the first failure. *)
Fixpoint dup_all (args : list bytes) : M (option (list bytes)) :=
  match args with
  | [] => mret (Some [])
  | a :: args' =>
      ok ← lift (c_malloc (zlen a + 1));
      if negb ok then mret None
      else
        r ← dup_all args';
        mret (cons a <$> r)
  end.

(** The copying loop of [proc_build_args] for [i] from [i] to [i + n]. *)
Fixpoint copy_args (n : nat) (payload : bytes) (i : Z) : M (option (list bytes)) :=
  match n with
  | O => mret (Some [])
  | S n' =>
      match util_snprintf 32 (argv_key i) with
      | (0, key) =>
          match kv_copy 512 payload key with
          | None => mret None
          | Some value =>
              ok ← lift (c_malloc (zlen value + 1));
              if negb ok then mret None
              else
                r ← copy_args n' payload (i + 1);
                mret (cons value <$> r)
          end
      | _ => mret None
      end
  end.

(** The argument vector; [None] is [NULL].  When the [strdup] of the path
    fails the vector is returned all the same, with no argument in it. *)
Definition proc_build_args (payload path : bytes) : M (option (list bytes)) :=
  match count_args (length payload + 2) payload 0 with
  | Some (Some count) =>
      let count := if count =? 0 then 1 else count in
      ok ← lift (c_malloc ((count + 1) * 8));
      if negb ok then mret None
      else if count =? 1 then
        ok ← lift (c_malloc (zlen path + 1));
        mret (Some (if ok : bool then [path] else []))
      else copy_args (Z.to_nat count) payload 0
  | _ => mret None
  end.

Definition proc_dup_args (argv : list bytes) : M (option (list bytes)) :=
  match argv with
  | [] => mret None
  | _ =>
      ok ← lift (c_malloc ((zlen argv + 1) * 8));
      if negb ok then mret None else dup_all argv
  end.

(** The result and [*proc_id_out], when it is written. *)
Definition proc_spawn_common (req_id : Z) (path : bytes) (args : option (list bytes))
    (timeout_ms idle_timeout_ms : Z) (send_ack : bool) : M (Z * option Z) :=
  p ← get_sess s_proc;
  if p_active p then
    _ ← send_error req_id "spawn_failed" "process already active"; mret (-1, None)
  else
    mod_proc proc_reset;;
    ok ← lift (c_malloc (zlen path + 1));
    mod_proc (fun p => p <| p_file := if ok : bool then Some path else None |> <| p_args := args |>);;
    if negb ok || bool_decide (args = None) then
      mod_proc proc_reset;;
      _ ← send_error req_id "internal" "out of memory"; mret (-1, None)
    else
      proc_id ← get_sess s_next_proc_id;
      mod_sess (upd s_next_proc_id (fun n => u32 (n + 1)));;
      mod_proc (upd p_proc_id (fun _ => proc_id));;
      now ← util_now_ms;
      mod_proc (fun p => p <| p_started_ms := now |> <| p_last_io_ms := now |>
        <| p_timeout_ms := timeout_ms |> <| p_idle_timeout_ms := idle_timeout_ms |>
        <| p_kill_reason := PROC_KILL_NONE |>);;
      diag_count_process_spawn;;
      rc ← lift uv_pipe_init;
      if negb (rc =? 0) then
        mod_proc proc_reset;;
        _ ← session_send_error req_id (Some (lit "spawn_failed")) (Some (uv_strerror rc)); mret (-1, None)
      else
        uv_opened proc_stdout_pipe;;
        rc ← lift uv_pipe_init;
        if negb (rc =? 0) then
          uv_close proc_stdout_pipe false;;
          mod_proc proc_reset;;
          _ ← session_send_error req_id (Some (lit "spawn_failed")) (Some (uv_strerror rc)); mret (-1, None)
        else
          uv_opened proc_stderr_pipe;;
          ok1 ← lift (c_malloc 1);
          ok2 ← lift (c_malloc 1);
          if negb ok1 || negb ok2 then
            uv_close proc_stdout_pipe false;;
            uv_close proc_stderr_pipe false;;
            mod_proc proc_reset;;
            _ ← send_error req_id "internal" "out of memory"; mret (-1, None)
          else
            mod_proc (fun p => p <| p_stdout_data := PD_ctx FRAME_STDOUT |>
                                 <| p_stderr_data := PD_ctx FRAME_STDERR |>);;
            rc ← lift (uv_spawn path (default [] args));
            if negb (rc =? 0) then
              mod_proc (fun p => p <| p_stdout_data := PD_null |> <| p_stderr_data := PD_null |>);;
              uv_close proc_stdout_pipe false;;
              uv_close proc_stderr_pipe false;;
              mod_proc proc_reset;;
              _ ← session_send_error req_id (Some (lit "spawn_failed")) (Some (uv_strerror rc));
              mret (-1, None)
            else
              uv_opened proc_process;;
              mod_proc (upd p_active (fun _ => true));;
              session_add_ref;;
              session_add_ref;;
              session_add_ref;;
              _ ← lift uv_read_start;
              _ ← lift uv_read_start;
              if negb send_ack then mret (0, Some proc_id)
              else
                match util_snprintf 256 (spawn_reply proc_id path) with
                | (0, reply) =>
                    rc ← session_send_text FRAME_ACK req_id (Some reply); mret (rc, Some proc_id)
                | _ =>
                    _ ← send_error req_id "internal" "reply overflow"; mret (-1, Some proc_id)
                end.

Definition proc_spawn_direct (path : bytes) (argv : list bytes) (timeout_ms idle_timeout_ms : Z) :
    M (Z * option Z) :=
  if bool_decide (argv = []) then mret (-1, None)
  else
    args ← proc_dup_args argv;
    match args with
    | None => mret (-1, None)
    | Some _ => proc_spawn_common 0 path args timeout_ms idle_timeout_ms false
    end.

Definition proc_handle_spawn (req_id : Z) (payload : bytes) : M Z :=
  match kv_copy 512 payload (lit "path") with
  | None => _ ← send_error req_id "bad_payload" "missing path"; mret (-1)
  | Some path =>
      args ← proc_build_args payload path;
      match args with
      | None => _ ← send_error req_id "internal" "out of memory"; mret (-1)
      | Some _ =>
          r ← proc_spawn_common req_id path args
                (ProcKv.kv_u64_default payload (lit "timeout_ms") 60000)
                (ProcKv.kv_u64_default payload (lit "idle_timeout_ms") 10000) true;
          mret (fst r)
      end
  end.

Definition proc_handle_kill (ulong_max req_id : Z) (payload : bytes) : M Z :=
  match ProcKv.kv_u32 ulong_max payload (lit "proc_id") with
  | None => _ ← send_error req_id "bad_payload" "missing proc_id"; mret (-1)
  | Some proc_id =>
      p ← get_sess s_proc;
      if negb (p_active p) || negb (p_proc_id p =? proc_id) then
        _ ← send_error req_id "not_found" "process not active"; mret (-1)
      else
        mod_proc (upd p_kill_reason (fun _ => PROC_KILL_REQUESTED));;
        rc ← lift uv_process_kill;
        if negb (rc =? 0) then
          _ ← send_error req_id "io_error" "kill failed"; mret (-1)
        else
          match util_snprintf 128 (kill_reply proc_id) with
          | (0, reply) => session_send_text FRAME_ACK req_id (Some reply)
          | _ => _ ← send_error req_id "internal" "reply overflow"; mret (-1)
          end
  end.

Definition proc_check_timeouts (now_ms : Z) : M unit :=
  p ← get_sess s_proc;
  if negb (p_active p) then mret tt
  else if (0 <? p_timeout_ms p) && (p_timeout_ms p <=? u64 (now_ms - p_started_ms p)) then
    mod_proc (upd p_kill_reason (fun _ => PROC_KILL_TIMEOUT));;
    diag_count_process_timeout;;
    _ ← lift uv_process_kill; mret tt
  else if (0 <? p_idle_timeout_ms p) && (p_idle_timeout_ms p <=? u64 (now_ms - p_last_io_ms p)) then
    mod_proc (upd p_kill_reason (fun _ => PROC_KILL_IDLE));;
    diag_count_process_timeout;;
    _ ← lift uv_process_kill; mret tt
  else mret tt.
End proc.
