(* ===== verification/Args.v ===== *)
(** * The argument vector of a spawn request

    [proc_build_args] of [src/proc.c]: its counting loop ends for every
    payload, and the vector it builds is the list of the consecutive values
    [argv0], [argv1], ... of the payload. *)

From Stdlib Require Import ZArith Lia Bool.
From Stdlib Require Import Strings.Byte Strings.String.
From stdpp Require Import base list numbers option gmap.
From S2P Require Import Prelude CLib Frame Kv State Uv Session Transfer Upload Proc.

(** ** Specification *)

(** The values of [argv i], [argv (i+1)], ... up to the first that is
    missing, empty or too long. *)
Fixpoint argv_values (fuel : nat) (payload : bytes) (i : Z) : list bytes :=
  match fuel with
  | O => []
  | S fuel' =>
      match kv_copy 512 payload (argv_key i) with
      | None => []
      | Some v => v :: argv_values fuel' payload (i + 1)
      end
  end.

Definition argv_of (payload : bytes) : list bytes := argv_values (length payload + 2) payload 0.

(** The pairs a client sends for the arguments [args]. *)
Fixpoint argv_pairs (i : Z) (args : list bytes) : list (bytes * bytes) :=
  match args with
  | [] => []
  | a :: args' => (argv_key i, a) :: argv_pairs (i + 1) args'
  end.

(** ** Lemmas *)

Lemma argv_key_length i : zlen (argv_key i) < 32.
Proof.
  unfold argv_key. rewrite zlen_app. change (zlen (lit "argv")) with 4.
  pose proof (dec_length (u32 i)). lia.
Qed.

Lemma argv_key_inj i j : 0 <= i < 2 ^ 32 -> 0 <= j < 2 ^ 32 -> argv_key i = argv_key j -> i = j.
Proof.
  intros Hi Hj H. apply app_inv_head in H. rewrite !u32_small in H by done.
  apply dec_inj in H; lia.
Qed.

Lemma argv_key_plain i : Byte.x3d ∉ argv_key i /\ one_line (argv_key i).
Proof.
  assert (Hd : forall c, isdigit c = false -> existsb (Byte.eqb c) (lit "argv") = false -> c ∉ argv_key i).
  { intros c Hc Hl. unfold argv_key. rewrite not_elem_of_app. split; [by apply not_elem_of_lit|].
    intros Hin%list_elem_of_In. pose proof (dec_digits (u32 i)) as H. rewrite forallb_forall in H.
    rewrite H in Hc; [done|apply u32_range|done]. }
  split; [by apply Hd|split; by apply Hd].
Qed.

(** A line has at most one key. *)
Lemma line_value_key k1 k2 line v1 v2 :
  Byte.x3d ∉ k1 -> Byte.x3d ∉ k2 ->
  line_value k1 line = Some v1 -> line_value k2 line = Some v2 -> k1 = k2.
Proof.
  intros H1 H2 E1 E2. unfold line_value in E1. destruct (_ && _) eqn:E; [|done].
  apply andb_true_iff in E as [E _]. apply bytes_eqb_eq in E.
  assert (Hl : line = kv_line k1 (drop (length k1 + 1) line)).
  { unfold kv_line. rewrite app_assoc, <- E. symmetry. apply take_drop. }
  rewrite Hl, line_value_kv_line in E2 by done.
  destruct (bool_decide_reflect (k1 = k2)); [done|]. done.
Qed.

Lemma kv_copy_line size payload key v :
  kv_copy size payload key = Some v -> exists line w, line ∈ split_lines payload /\ line_value key line = Some w.
Proof.
  rewrite kv_copy_eval. unfold kv_lookup.
  destruct (omap (line_value key) (split_lines payload)) as [|w ws] eqn:E; [done|]. intros _.
  assert (Hin : w ∈ omap (line_value key) (split_lines payload)) by (rewrite E; apply list_elem_of_here).
  apply list_elem_of_omap in Hin as (line & Hl & Hv). eauto.
Qed.

Lemma length_split_lines s : (length (split_lines s) <= length s + 1)%nat.
Proof.
  induction s as [|c s IH]; [done|]. cbn. destruct (Byte.eqb c LF); cbn; [lia|].
  destruct (split_lines s); cbn in *; lia.
Qed.

(** Each argument has a line of its own. *)
Lemma argv_lines payload n :
  Z.of_nat n <= 2 ^ 32 ->
  (forall j, 0 <= j < Z.of_nat n -> is_Some (kv_copy 512 payload (argv_key j))) ->
  exists ls, length ls = n /\ NoDup ls /\ ls ⊆ split_lines payload /\
    Forall (fun l => exists j w, 0 <= j < Z.of_nat n /\ line_value (argv_key j) l = Some w) ls.
Proof.
  induction n as [|n IH]; intros Hn H.
  { exists []. split; [done|]. split; [constructor|]. split; [set_solver|constructor]. }
  destruct IH as (ls & Hlen & Hnd & Hsub & Hall); [lia|intros j Hj; apply H; lia|].
  destruct (H (Z.of_nat n)) as [v Hv]; [lia|]. apply kv_copy_line in Hv as (line & w & Hin & Hw).
  exists (line :: ls). split; [cbn; lia|]. split; [|split; [set_solver|]].
  - constructor; [|done]. intros Hin'. rewrite Forall_forall in Hall.
    destruct (Hall line Hin') as (j & w' & Hj & Hw').
    enough (j = Z.of_nat n) by lia. apply argv_key_inj; [lia..|].
    eapply line_value_key; eauto; apply argv_key_plain.
  - constructor; [exists (Z.of_nat n), w; split; [lia|done]|].
    eapply Forall_impl; [exact Hall|]. cbn. intros l (j & w' & Hj & Hw'). exists j, w'. split; [lia|done].
Qed.

Lemma argv_bound payload n :
  Z.of_nat n <= 2 ^ 32 ->
  (forall j, 0 <= j < Z.of_nat n -> is_Some (kv_copy 512 payload (argv_key j))) ->
  (n <= length payload + 1)%nat.
Proof.
  intros Hn H. destruct (argv_lines payload n Hn H) as (ls & <- & Hnd & Hsub & _).
  pose proof (length_split_lines payload). pose proof (submseteq_length _ _ (NoDup_submseteq _ _ Hnd Hsub)).
  lia.
Qed.

Lemma argv_values_some fuel payload i j :
  i <= j < i + zlen (argv_values fuel payload i) -> is_Some (kv_copy 512 payload (argv_key j)).
Proof.
  revert i. induction fuel as [|fuel IH]; intros i; cbn [argv_values]; [change (zlen []) with 0; lia|].
  destruct (kv_copy 512 payload (argv_key i)) as [v|] eqn:E; [|change (zlen []) with 0; lia].
  rewrite zlen_cons. intros H. destruct (Z.eq_dec i j) as [->|]; [by rewrite E; eexists|].
  apply (IH (i + 1)). lia.
Qed.

(** The counting loop returns the number of arguments. *)
Lemma count_args_values fuel payload i :
  0 <= i -> i + Z.of_nat fuel < 2 ^ 64 -> (length (argv_values fuel payload i) < fuel)%nat ->
  count_args fuel payload i = Some (Some (i + zlen (argv_values fuel payload i))).
Proof.
  revert i. induction fuel as [|fuel IH]; intros i Hi Hf; cbn [argv_values count_args length]; [lia|].
  rewrite util_snprintf_ok by apply argv_key_length.
  destruct (kv_copy 512 payload (argv_key i)) as [v|] eqn:E; cbn [length].
  - intros Hlen. rewrite size_t_small, IH by lia. rewrite zlen_cons. do 2 f_equal. lia.
  - intros _. change (zlen []) with 0. do 2 f_equal. lia.
Qed.

Lemma argv_values_le fuel payload i : (length (argv_values fuel payload i) <= fuel)%nat.
Proof.
  revert i. induction fuel as [|fuel IH]; intros i; cbn [argv_values]; [done|].
  destruct (kv_copy _ _ _); cbn [length]; [specialize (IH (i + 1)); lia|lia].
Qed.

(** The fuel of the model is enough for every payload the program can be
    given. *)
Lemma argv_of_length payload : zlen payload < 2 ^ 31 -> (length (argv_of payload) <= length payload + 1)%nat.
Proof.
  intros Hp. pose proof (argv_values_le (length payload + 2) payload 0). unfold zlen in Hp.
  apply argv_bound; [unfold argv_of; lia|]. intros j Hj.
  apply (argv_values_some (length payload + 2) payload 0). unfold argv_of in Hj. unfold zlen. lia.
Qed.

Lemma count_args_total payload :
  zlen payload < 2 ^ 31 ->
  count_args (length payload + 2) payload 0 = Some (Some (zlen (argv_of payload))).
Proof.
  intros Hp. pose proof (argv_of_length payload Hp). unfold zlen in Hp.
  rewrite count_args_values; [done|lia|lia|]. unfold argv_of in *. lia.
Qed.

Lemma argv_values_more n fuel payload i :
  (n <= length (argv_values fuel payload i))%nat ->
  argv_values n payload i = take n (argv_values fuel payload i).
Proof.
  revert fuel i. induction n as [|n IH]; intros [|fuel] i; cbn [argv_values length]; try done; try lia.
  destruct (kv_copy _ _ _); cbn [length]; [|lia]. intros H. cbn [take]. f_equal. apply IH. lia.
Qed.

Section build.
Context {W : Type} `{!Uv W, !FsView W, !FsLaws W, !Healthy W}.
Implicit Types st : St W.

Lemma copy_args_healthy n payload i st :
  healthy (world st) -> length (argv_values n payload i) = n ->
  wp (copy_args n payload i) (fun r st' =>
    r = Some (argv_values n payload i) /\ exists w, st' = st <| world := w |> /\ healthy w /\ fs_eq (world st) w) st.
Proof.
  revert i st. induction n as [|n IH]; intros i st Hw Hlen; cbn [copy_args argv_values] in *.
  { apply wp_ret. split; [done|]. exists (world st). destruct st. by split. }
  rewrite util_snprintf_ok by apply argv_key_length.
  destruct (kv_copy 512 payload (argv_key i)) as [v|] eqn:E; [|done]. cbn in Hlen.
  apply wp_bind, wp_malloc_healthy; [done|]. intros w1 Hw1 Hf1. cbn [negb]. apply wp_bind.
  eapply wp_mono; [apply IH; [done|lia]|]. intros r st2 (-> & w & -> & Hw2 & Hf2). apply wp_ret.
  split; [done|]. exists w. split; [by destruct st|]. split; [done|]. by transitivity w1.
Qed.

Lemma build_args_healthy payload path st :
  healthy (world st) -> zlen payload < 2 ^ 31 ->
  wp (proc_build_args payload path) (fun r st' =>
    r = Some (if (1 <? zlen (argv_of payload)) then argv_of payload else [path]) /\
    exists w, st' = st <| world := w |> /\ healthy w /\ fs_eq (world st) w) st.
Proof.
  intros Hw Hp. unfold proc_build_args. rewrite count_args_total by done.
  pose proof (zlen_nonneg (argv_of payload)) as Hn.
  apply wp_bind, wp_malloc_healthy; [done|]. intros w1 Hw1 Hf1. cbn [negb].
  destruct (1 <? zlen (argv_of payload)) eqn:E; b2p.
  - destruct (zlen (argv_of payload) =? 0) eqn:E0; b2p; [lia|].
    destruct (zlen (argv_of payload) =? 1) eqn:E1; b2p; [lia|]. rewrite to_nat_zlen.
    assert (Hv : argv_values (length (argv_of payload)) payload 0 = argv_of payload).
    { unfold argv_of. rewrite (argv_values_more _ (length payload + 2)) by done. apply firstn_all. }
    eapply wp_mono; [apply copy_args_healthy; [done|by rewrite Hv]|].
    rewrite Hv. intros r st2 (-> & w & -> & Hw2 & Hf2). split; [done|]. exists w.
    split; [by destruct st|]. split; [done|]. by transitivity w1.
  - assert ((if zlen (argv_of payload) =? 0 then 1 else zlen (argv_of payload)) = 1) as ->.
    { destruct (_ =? 0) eqn:E0; b2p; lia. }
    cbn [Z.eqb Pos.eqb]. apply wp_bind, wp_malloc_healthy; [done|]. intros w2 Hw2 Hf2. apply wp_ret.
    split; [done|]. exists w2. split; [by destruct st|]. split; [done|]. by transitivity w1.
Qed.
End build.

(** ** Payloads the clients send *)

Definition spawn_payload (path : bytes) (args : list bytes) : bytes :=
  kv_payload ((lit "path", path) :: argv_pairs 0 args).

(** An argument that survives the control payload. *)
Definition arg_ok (a : bytes) : Prop := a <> [] /\ one_line a /\ zlen a < 512.

Lemma argv_pairs_ok i args : Forall arg_ok args -> Forall kv_ok (argv_pairs i args).
Proof.
  intros H. revert i. induction H as [|a args (_ & Ha & _) _ IH]; intros i; cbn; constructor; [|apply IH].
  split; [apply argv_key_plain|]. split; [apply argv_key_plain|done].
Qed.

Lemma first_value_argv i j args :
  0 <= i <= j -> j < 2 ^ 32 -> i + zlen args < 2 ^ 32 -> Forall arg_ok args ->
  first_value (argv_key j) (argv_pairs i args) = args !! Z.to_nat (j - i).
Proof.
  intros Hij Hj Hl H. revert i Hij Hl. induction H as [|a args (Hne & _) _ IH]; intros i Hij Hl; [done|].
  rewrite zlen_cons in Hl. pose proof (zlen_nonneg args). cbn [argv_pairs].
  rewrite first_value_cons. destruct (decide (i = j)) as [->|Hn].
  - rewrite bool_decide_eq_true_2 by done. rewrite bytes_eqb_nil by done.
    by rewrite Z.sub_diag.
  - rewrite bool_decide_eq_false_2; cycle 1.
    { intros E. apply argv_key_inj in E; [done|lia..]. }
    cbn [andb]. rewrite IH by lia.
    replace (Z.to_nat (j - i)) with (S (Z.to_nat (j - (i + 1)))) by lia. done.
Qed.

Lemma argv_values_spec payload args n fuel i :
  (forall k, (k < fuel)%nat -> kv_copy 512 payload (argv_key (i + Z.of_nat k)) = args !! (n + k)%nat) ->
  (length args - n < fuel)%nat -> (n <= length args)%nat ->
  argv_values fuel payload i = drop n args.
Proof.
  revert n i. induction fuel as [|fuel IH]; intros n i H Hf Hn; [lia|]. cbn [argv_values].
  pose proof (H O ltac:(lia)) as H0. rewrite Z.add_0_r, Nat.add_0_r in H0. rewrite H0.
  destruct (args !! n) as [a|] eqn:E.
  - apply lookup_lt_Some in E as Hlt. rewrite (drop_S args a n) by done. f_equal. apply IH; [|lia..].
    intros k Hk. specialize (H (S k) ltac:(lia)).
    replace (i + 1 + Z.of_nat k) with (i + Z.of_nat (S k)) by lia. rewrite H. f_equal. lia.
  - apply lookup_ge_None in E. by rewrite drop_ge.
Qed.

Lemma length_join_lines ls : (length ls <= length (join_lines ls) + 1)%nat.
Proof.
  induction ls as [|l ls IH]; [cbn; lia|]. destruct ls as [|l' ls]; [cbn; lia|].
  change (join_lines (l :: l' :: ls)) with (l ++ LF :: join_lines (l' :: ls)).
  rewrite length_app. cbn [length] in *. lia.
Qed.

Lemma length_argv_pairs i args : length (argv_pairs i args) = length args.
Proof. revert i. induction args as [|a args IH]; intros i; [done|]. cbn. by rewrite IH. Qed.

Lemma argv_key_path i : lit "path" <> argv_key i.
Proof. intros E%(f_equal head). discriminate E. Qed.

Lemma spawn_payload_argv path args :
  one_line path -> Forall arg_ok args -> zlen (spawn_payload path args) < 2 ^ 31 ->
  argv_of (spawn_payload path args) = args.
Proof.
  intros Hp Ha Hlen.
  assert (Hok : Forall kv_ok ((lit "path", path) :: argv_pairs 0 args)).
  { constructor; [apply kv_ok_lit; [reflexivity..|done]|by apply argv_pairs_ok]. }
  assert (Hn : (length args + 1 <= length (spawn_payload path args) + 1)%nat).
  { unfold spawn_payload, kv_payload. etransitivity; [|apply length_join_lines].
    rewrite length_map. cbn [length]. rewrite length_argv_pairs. lia. }
  unfold zlen in Hlen. unfold argv_of. rewrite (argv_values_spec _ args 0); [done| |lia..].
  intros k Hk. rewrite kv_copy_eval. unfold spawn_payload at 1.
  rewrite kv_lookup_payload by (done || apply argv_key_plain).
  rewrite first_value_cons, (bool_decide_eq_false_2 _ (argv_key_path _)). cbn [andb].
  rewrite first_value_argv by (try done; unfold zlen; lia).
  replace (Z.to_nat (0 + Z.of_nat k - 0)) with k by lia. cbn [Nat.add].
  destruct (args !! k) as [a|] eqn:E; [|done].
  rewrite Forall_lookup in Ha. destruct (Ha _ _ E) as (_ & _ & Hl).
  destruct (512 <? zlen a + 1) eqn:E2; b2p; [lia|done].
Qed.

(** ** Theorems *)

(** [proc_build_args] always returns: with memory available it gives, for
    every payload, the consecutive values of [argv0], [argv1], ... when
    there are at least two of them, and otherwise the path alone, and it
    touches nothing but the allocator. *)
Theorem build_args_total `{!Uv W, !FsView W, !FsLaws W, !Healthy W} (st : St W) payload path :
  healthy (world st) -> zlen payload <= LUAGENT_MAX_FRAME_PAYLOAD ->
  exists w, proc_build_args payload path st =
      (Some (if 1 <? zlen (argv_of payload) then argv_of payload else [path]), st <| world := w |>) /\
    fs_eq (world st) w.
Proof.
  intros Hw Hp. unfold LUAGENT_MAX_FRAME_PAYLOAD in Hp.
  pose proof (build_args_healthy payload path st Hw ltac:(lia)) as H. unfold wp in H.
  destruct (proc_build_args payload path st) as [r st']. cbn in H.
  destruct H as (-> & w & -> & _ & Hf). by exists w.
Qed.

Lemma build_args_total_witness :
  exists w, proc_build_args (spawn_payload (lit "/bin/ls") [lit "ls"; lit "-l"]) (lit "/bin/ls") (accepted Sim.empty)
    = (Some [lit "ls"; lit "-l"], accepted Sim.empty <| world := w |>).
Proof.
  destruct (build_args_total (accepted Sim.empty) (spawn_payload (lit "/bin/ls") [lit "ls"; lit "-l"])
    (lit "/bin/ls")) as (w & H & _).
  - split; [done|]. intros fd _. apply lookup_empty.
  - vm_compute. discriminate.
  - exists w. exact H.
Defined.

(** C26: Round trip of the arguments.  For a request with the path and the
    pairs [argv0=a0], [argv1=a1], ... as the clients write them, of
    non-empty arguments without line breaks and shorter than 512 bytes, the
    argument vector is exactly the arguments when there are two or more; a
    single argument is dropped and replaced by the path. *)
Theorem spawn_args_roundtrip `{!Uv W, !FsView W, !FsLaws W, !Healthy W} (st : St W) path args :
  healthy (world st) -> one_line path -> Forall arg_ok args ->
  zlen (spawn_payload path args) <= LUAGENT_MAX_FRAME_PAYLOAD ->
  (proc_build_args (spawn_payload path args) path st).1 =
    Some (if (2 <=? length args)%nat then args else [path]).
Proof.
  intros Hw Hp Ha Hlen. unfold LUAGENT_MAX_FRAME_PAYLOAD in *.
  destruct (build_args_healthy (spawn_payload path args) path st Hw ltac:(lia)) as [-> _].
  rewrite spawn_payload_argv by (done || lia). unfold zlen.
  destruct (1 <? Z.of_nat (length args)) eqn:E1; destruct (2 <=? length args)%nat eqn:E2; try done;
    b2p; [apply Nat.leb_gt in E2|apply Nat.leb_le in E2]; lia.
Qed.

Lemma spawn_args_roundtrip_witness :
  (proc_build_args (spawn_payload (lit "/bin/sh") [lit "sh"; lit "-c"; lit "a b=c"]) (lit "/bin/sh")
     (accepted Sim.empty)).1 = Some [lit "sh"; lit "-c"; lit "a b=c"].
Proof.
  apply (spawn_args_roundtrip (accepted Sim.empty) (lit "/bin/sh") [lit "sh"; lit "-c"; lit "a b=c"]).
  - split; [done|]. intros fd _. apply lookup_empty.
  - by apply lit_one_line.
  - repeat apply Forall_cons_2; try (split; [discriminate|]; split; [by apply lit_one_line|vm_compute; reflexivity]).
    apply Forall_nil_2.
  - vm_compute. discriminate.
Defined.
