(* ===== verification/ProcLife.v ===== *)
(** * The life of a process

    The exit of a process and the ends of its two pipes arrive in any order.
    This file states what the process component promises about that: every
    handle is closed exactly once, after all three events, and libuv's rules
    for handles are kept; and where the source gives that up. *)

From Stdlib Require Import ZArith Lia Bool.
From Stdlib Require Import Strings.Byte Strings.String.
From stdpp Require Import base list numbers option gmap.
From S2P Require Import Prelude CLib Frame Kv State Uv Session Transfer Upload Proc.

(** ** Specification *)

(** What the event loop does with the process of a session. *)
Inductive proc_event :=
| Ev_output (strm : stream) (data : bytes)
| Ev_eof (strm : stream) (err : positive)
| Ev_exit (status : Z)
| Ev_kill (req_id : Z) (payload : bytes)
| Ev_timer (now_ms : Z).

(** Which of the three final events have been seen. *)
Record seen := Seen { seen_exit : bool; seen_out : bool; seen_err : bool }.

#[global] Instance seen_eta : Eta seen := fun x => Seen (seen_exit x) (seen_out x) (seen_err x).

Definition all_seen (x : seen) : bool := seen_exit x && seen_out x && seen_err x.

Definition seen_eof (strm : stream) (x : seen) : bool :=
  match strm with Stdout_pipe => seen_out x | Stderr_pipe => seen_err x end.

Definition see (ev : proc_event) (x : seen) : seen :=
  match ev with
  | Ev_eof Stdout_pipe _ => x <| seen_out := true |>
  | Ev_eof Stderr_pipe _ => x <| seen_err := true |>
  | Ev_exit _ => x <| seen_exit := true |>
  | _ => x
  end.

(** libuv reports no data after the end of a stream, and one exit. *)
Definition enabled (ev : proc_event) (x : seen) : bool :=
  match ev with
  | Ev_output strm data => negb (seen_eof strm x) && negb (bytes_eqb data [])
  | Ev_eof strm _ => negb (seen_eof strm x)
  | Ev_exit _ => negb (seen_exit x)
  | Ev_kill _ _ | Ev_timer _ => true
  end.

Fixpoint legal (evs : list proc_event) (x : seen) : bool :=
  match evs with
  | [] => true
  | ev :: evs' => enabled ev x && legal evs' (see ev x)
  end.

Definition see_all (evs : list proc_event) (x : seen) : seen := foldl (fun x ev => see ev x) x evs.

Section spec.
Context {W : Type} `{!Uv W}.
Variable ulong_max : Z.

Definition run_event (ev : proc_event) : M (St W) unit :=
  match ev with
  | Ev_output strm data => read_cb strm (zlen data) data
  | Ev_eof strm err => read_cb strm (Z.neg err) []
  | Ev_exit status => proc_exit_cb status
  | Ev_kill req_id payload => _ ← proc_handle_kill ulong_max req_id payload; mret tt
  | Ev_timer now_ms => proc_check_timeouts now_ms
  end.

Fixpoint run_events (evs : list proc_event) : M (St W) unit :=
  match evs with
  | [] => mret tt
  | ev :: evs' => run_event ev;; run_events evs'
  end.
End spec.

(** The process component while a process has final events to come. *)
Record live (x : seen) (p : proc_state) : Prop := Live {
  lv_active : p_active p = negb (seen_exit x);
  lv_out : p_stdout_closed p = seen_out x;
  lv_err : p_stderr_closed p = seen_err x;
  lv_process : p_process p = if seen_exit x then H_closing true else H_open;
  lv_out_pipe : p_stdout_pipe p = H_open;
  lv_err_pipe : p_stderr_pipe p = H_open;
  lv_out_data : p_stdout_data p = if seen_out x then PD_null else PD_ctx FRAME_STDOUT;
  lv_err_data : p_stderr_data p = if seen_err x then PD_null else PD_ctx FRAME_STDERR
}.

(** After all three: the state is reset and each handle is being closed with
    the callback that releases its reference to the session. *)
Definition proc_finished : proc_state :=
  ProcState false false false 0 0 0 0 0 PROC_KILL_NONE
    (H_closing true) (H_closing true) (H_closing true) PD_session PD_session None None.

(** No process, and its handles free for the next one. *)
Record ready (p : proc_state) : Prop := Ready {
  rd_active : p_active p = false;
  rd_process : p_process p = H_none;
  rd_out_pipe : p_stdout_pipe p = H_none;
  rd_err_pipe : p_stderr_pipe p = H_none
}.

(** An attempt that did not start a process: the handles that were
    initialised are being closed. *)
Record spawn_failed (p : proc_state) : Prop := SpawnFailed {
  sf_active : p_active p = false;
  sf_process : p_process p = H_none;
  sf_out_pipe : p_stdout_pipe p = H_none \/ p_stdout_pipe p = H_closing false;
  sf_err_pipe : p_stderr_pipe p = H_none \/ p_stderr_pipe p = H_closing false
}.

(** The handles of an open session are open. *)
Definition life_ok {W} (st : St W) : Prop :=
  s_closed (sess st) = false ->
  s_tcp (sess st) = H_open /\ (s_timer_started (sess st) = true -> s_heartbeat_timer (sess st) = H_open).

(** No rule of libuv is broken, given the handles of the session. *)
Definition safe {W} (st st' : St W) : Prop :=
  life_ok st -> life_ok st' /\ hazards st' = hazards st.

#[global] Instance safe_preorder {W} : PreOrder (@safe W).
Proof.
  split; [by intros st|]. intros a b c H1 H2 H. destruct (H1 H) as [Hb E1].
  destruct (H2 Hb) as [Hc E2]. split; [done|congruence].
Qed.

Lemma safe_from {W} (st st1 st' : St W) :
  s_closed (sess st1) = s_closed (sess st) -> s_tcp (sess st1) = s_tcp (sess st) ->
  s_timer_started (sess st1) = s_timer_started (sess st) ->
  s_heartbeat_timer (sess st1) = s_heartbeat_timer (sess st) -> hazards st1 = hazards st ->
  safe st1 st' -> safe st st'.
Proof. unfold safe, life_ok. intros -> -> -> -> ->. done. Qed.

(** ** Sending and closing are safe *)

Section safe.
Context {W : Type} `{!Uv W}.
Implicit Types st : St W.

Lemma session_close_safe : keeps safe (session_close (W := W)).
Proof.
  intros st Hl. rewrite session_close_eval. destruct (s_closed (sess st)) eqn:E; [done|].
  destruct (Hl E) as [Ht Hb]. split; [by intros ?|]. cbn. rewrite Ht.
  destruct (s_timer_started (sess st)); [by rewrite Hb|done].
Qed.

Lemma session_send_frame_safe type req_id payload :
  keeps safe (session_send_frame (W := W) type req_id payload).
Proof.
  unfold session_send_frame, diag_count_frame_tx, diag_count, mod_sess.
  pose proof session_close_safe. solve_keeps.
Qed.

Lemma session_send_error_safe req_id code message :
  keeps safe (session_send_error (W := W) req_id code message).
Proof.
  unfold session_send_error, session_send_text. pose proof session_send_frame_safe. solve_keeps.
Qed.

(** Sending changes neither the process nor the hazards. *)
Definition quiet (st st' : St W) : Prop :=
  s_proc (sess st') = s_proc (sess st) /\ s_next_proc_id (sess st') = s_next_proc_id (sess st) /\ safe st st'.

Lemma wp_send_frame_quiet type req_id payload (Q : Z -> St W -> Prop) st :
  (forall a st', quiet st st' -> Q a st') -> wp (session_send_frame type req_id payload) Q st.
Proof.
  intros HQ. apply HQ. pose proof (session_send_frame_parts type req_id payload st) as [].
  split; [done|]. split; [done|]. apply session_send_frame_safe.
Qed.

Lemma wp_send_error_quiet req_id code message (Q : Z -> St W -> Prop) st :
  (forall a st', quiet st st' -> Q a st') -> wp (session_send_error req_id code message) Q st.
Proof.
  intros HQ. apply HQ. pose proof (send_error_parts req_id code message st) as [].
  split; [done|]. split; [done|]. apply session_send_error_safe.
Qed.
End safe.

(** Symbolic execution of the process code. *)
Ltac proc_step :=
  lazymatch goal with
  | |- wp (mod_proc _) _ _ => apply wp_modify
  | |- wp session_add_ref _ _ => apply wp_modify
  | |- wp (report _) _ _ => apply wp_modify
  | |- wp diag_count_process_exit _ _ => apply wp_modify
  | |- wp diag_count_process_spawn _ _ => apply wp_modify
  | |- wp diag_count_process_timeout _ _ => apply wp_modify
  | |- wp (session_send_error _ _ _) _ _ => apply wp_send_error_quiet; intros ? ? (? & ? & ?); cbn in *
  | |- wp (send_error _ _ _) _ _ => apply wp_send_error_quiet; intros ? ? (? & ? & ?); cbn in *
  | |- wp (session_send_text _ _ _) _ _ => apply wp_send_frame_quiet; intros ? ? (? & ? & ?); cbn in *
  | |- wp (session_send_frame _ _ _) _ _ => apply wp_send_frame_quiet; intros ? ? (? & ? & ?); cbn in *
  | _ => wp_step
  end; cbn beta iota in *.

Section life.
Context {W : Type} `{!Uv W}.
Implicit Types st : St W.

(** What an event leaves: the process finished if it was the last of the
    three, and no rule broken. *)
Definition settled (x : seen) (st st' : St W) : Prop :=
  safe st st' /\ if all_seen x then s_proc (sess st') = proc_finished else live x (s_proc (sess st')).

Lemma maybe_finalize_settles x st :
  live x (s_proc (sess st)) -> wp proc_maybe_finalize (fun _ st' => settled x st st') st.
Proof.
  intros [H1 H2 H3 H4 H5 H6 H7 H8]. unfold proc_maybe_finalize. do 2 proc_step.
  unfold settled, all_seen. rewrite H1, H2, H3, negb_involutive.
  destruct (seen_exit x && seen_out x && seen_err x) eqn:E.
  - unfold uv_close, proc_stdout_pipe, proc_stderr_pipe. repeat proc_step; cbn in *.
    rewrite H5. repeat proc_step. cbn. rewrite H6. repeat proc_step.
    split; [by intros ?|]. cbn. unfold proc_reset, proc_free_args, proc_finished. cbn.
    b2p. destruct (s_proc (sess st)). cbn in *. rewrite H4. by destruct (seen_exit x).
  - repeat proc_step. split; [done|]. by split.
Qed.

Ltac live_done := repeat split; cbn in *; congruence.

Lemma read_cb_output_live x strm data st :
  live x (s_proc (sess st)) -> seen_eof strm x = false -> data <> [] ->
  wp (read_cb strm (zlen data) data) (fun _ st' => safe st st' /\ live x (s_proc (sess st'))) st.
Proof.
  intros [H1 H2 H3 H4 H5 H6 H7 H8] He Hd. unfold read_cb. do 2 proc_step.
  destruct data as [|c data]; [done|]. rewrite zlen_cons. pose proof (zlen_nonneg data).
  destruct (0 <? 1 + zlen data) eqn:E; b2p; [|lia].
  destruct strm; cbn in *; rewrite ?H7, ?H8, He; repeat proc_step; cbn in *;
    (split; [assumption|]); split; match goal with H : s_proc _ = _ |- _ => rewrite H end; cbn; congruence.
Qed.

(** An event that ends in [proc_maybe_finalize]. *)
Lemma finalize_from x st1 st :
  safe st st1 -> live x (s_proc (sess st1)) ->
  wp proc_maybe_finalize (fun _ st' => settled x st st') st1.
Proof.
  intros Hs Hl. eapply wp_mono; [by apply maybe_finalize_settles|].
  intros _ st' [Hs' Hx]. split; [by transitivity st1|done].
Qed.

Lemma read_cb_eof_settles x strm err st :
  live x (s_proc (sess st)) -> seen_eof strm x = false ->
  wp (read_cb strm (Z.neg err) []) (fun _ st' => settled (see (Ev_eof strm err) x) st st') st.
Proof.
  intros [H1 H2 H3 H4 H5 H6 H7 H8] He. unfold read_cb. do 2 proc_step. cbn [Z.ltb Z.compare].
  destruct strm; cbn in He; cbn [stream_data]; rewrite ?H7, ?H8, He; repeat proc_step;
    try discriminate; (apply finalize_from; [by intros ?|split; cbn; congruence]).
Qed.

Lemma exit_cb_settles x status st :
  live x (s_proc (sess st)) -> seen_exit x = false ->
  wp (proc_exit_cb status) (fun _ st' => settled (see (Ev_exit status) x) st st') st.
Proof.
  intros [H1 H2 H3 H4 H5 H6 H7 H8] He. unfold proc_exit_cb.
  assert (Htail : forall st1, safe st st1 ->
    s_proc (sess st1) = s_proc (sess st) <| p_active := false |> ->
    wp (uv_close proc_process true;; proc_maybe_finalize)
      (fun _ st' => settled (see (Ev_exit status) x) st st') st1).
  { intros st1 Hs Hp. unfold uv_close. repeat proc_step. unfold proc_process. rewrite Hp. cbn. rewrite H4, He.
    repeat proc_step. apply finalize_from; [transitivity st1; [done|by intros ?]|].
    split; cbn; rewrite ?Hp; cbn; congruence. }
  repeat proc_step. cbn. set (r := exit_reply _ _ _).
  destruct (util_snprintf_cases 256 r) as [[E _]|[y E]]; rewrite E.
  - do 3 proc_step. apply wp_ret, Htail; [|done]. etransitivity; [|eassumption]. by intros ?.
  - do 1 proc_step. apply wp_ret, Htail; [by intros ?|done].
Qed.

(** Killing and the timer do not end the process: they ask for it. *)
Definition asked (st st' : St W) : Prop :=
  safe st st' /\ exists reason, s_proc (sess st') = s_proc (sess st) <| p_kill_reason := reason |>.

Lemma asked_live x st st' : asked st st' -> live x (s_proc (sess st)) -> live x (s_proc (sess st')).
Proof. intros [_ [r E]] []. split; rewrite E; done. Qed.

Lemma same_reason p : p = p <| p_kill_reason := p_kill_reason p |>.
Proof. by destruct p. Qed.

Lemma kill_asks um req_id payload st : wp (proc_handle_kill um req_id payload) (fun _ => asked st) st.
Proof.
  unfold proc_handle_kill.
  destruct (ProcKv.kv_u32 _ _ _) as [id|]; repeat proc_step;
    try (split; [done|]; eexists; etransitivity; [eassumption|apply same_reason]);
    try (split; [done|]; by eexists).
  destruct (util_snprintf_cases 128 (kill_reply id)) as [[E _]|[y E]]; rewrite E; repeat proc_step;
    (split; [done|]; by eexists).
Qed.

Lemma timer_asks now_ms st : wp (proc_check_timeouts now_ms) (fun _ => asked st) st.
Proof.
  unfold proc_check_timeouts. repeat proc_step; (split; [by intros ?|]);
    first [by eexists | eexists; apply same_reason].
Qed.

Lemma event_settles um x ev st :
  live x (s_proc (sess st)) -> all_seen x = false -> enabled ev x = true ->
  wp (run_event um ev) (fun _ st' => settled (see ev x) st st') st.
Proof.
  intros Hl Hx He. destruct ev as [strm data|strm err|status|req_id payload|now_ms]; cbn [run_event].
  - cbn in He. b2p. eapply wp_mono; [apply (read_cb_output_live x); try done; by intros ->|].
    intros _ st' [H1 H2]. split; [done|]. cbn. by rewrite Hx.
  - apply read_cb_eof_settles; [done|]. cbn in He. by b2p.
  - apply exit_cb_settles; [done|]. cbn in He. by b2p.
  - apply wp_bind. eapply wp_mono; [apply kill_asks|]. intros ? st' Ha. cbn in Ha. apply wp_ret.
    split; [apply Ha|]. cbn. rewrite Hx. by eapply asked_live.
  - eapply wp_mono; [apply timer_asks|]. intros ? st' Ha. cbn in Ha.
    split; [apply Ha|]. cbn. rewrite Hx. by eapply asked_live.
Qed.

(** Once finished, only requests for a process that is not there. *)
Lemma event_finished um x ev st :
  s_proc (sess st) = proc_finished -> all_seen x = true -> enabled ev x = true ->
  wp (run_event um ev) (fun _ st' => safe st st' /\ s_proc (sess st') = proc_finished) st /\ see ev x = x.
Proof.
  intros Hp Hx He. unfold all_seen in Hx. apply andb_true_iff in Hx as [[H1 H2]%andb_true_iff H3].
  destruct ev as [[]|[]| | |]; cbn in He; rewrite ?H1, ?H2, ?H3 in He; try done; split; try done; cbn [run_event].
  - unfold proc_handle_kill. destruct (ProcKv.kv_u32 _ _ _); repeat proc_step; rewrite ?Hp in *; try done.
  - unfold proc_check_timeouts. do 2 proc_step. rewrite Hp. by apply wp_ret.
Qed.

Lemma events_settle um evs x st :
  (if all_seen x then s_proc (sess st) = proc_finished else live x (s_proc (sess st))) ->
  legal evs x = true ->
  wp (run_events um evs) (fun _ st' => settled (see_all evs x) st st') st.
Proof.
  revert x st. induction evs as [|ev evs IH]; intros x st Hl He; cbn [run_events].
  { apply wp_ret. by split. }
  cbn in He. apply andb_true_iff in He as [He1 He2]. apply wp_bind.
  assert (Hstep : wp (run_event um ev) (fun _ st' => settled (see ev x) st st') st).
  { destruct (all_seen x) eqn:Ex; [|by apply event_settles].
    destruct (event_finished um x ev st Hl Ex He1) as [H E]. unfold settled. by rewrite E, Ex. }
  eapply wp_mono; [exact Hstep|]. intros _ st1 [Hs1 Hl1].
  eapply wp_mono; [by apply (IH (see ev x))|]. intros _ st2 [Hs2 Hl2]. split; [by transitivity st1|done].
Qed.
End life.

(** ** Spawning *)

Section spawn.
Context {W : Type} `{!Uv W}.
Implicit Types st : St W.

(** What a spawn attempt on free handles ends with. *)
Definition spawn_post (st : St W) (r : Z * option Z) (st' : St W) : Prop :=
  safe st st' /\
  match r.2 with
  | Some id =>
      live (Seen false false false) (s_proc (sess st')) /\
      id = s_next_proc_id (sess st) /\ p_proc_id (s_proc (sess st')) = id /\
      s_next_proc_id (sess st') = u32 (id + 1)
  | None => r.1 = -1 /\ spawn_failed (s_proc (sess st'))
  end.

Lemma wp_uv_opened (h : session -> handle) `{!Update h} (Q : unit -> St W -> Prop) st :
  h (sess st) = H_none -> Q tt (st <| sess ::= upd h (fun _ => H_open) |>) -> wp (uv_opened h) Q st.
Proof. intros E HQ. unfold uv_opened. repeat proc_step. rewrite E. by repeat proc_step. Qed.

Lemma wp_uv_close (h : session -> handle) `{!Update h} cb (Q : unit -> St W -> Prop) st :
  h (sess st) = H_open -> Q tt (st <| sess ::= upd h (fun _ => H_closing cb) |>) -> wp (uv_close h cb) Q st.
Proof. intros E HQ. unfold uv_close. repeat proc_step. rewrite E. by repeat proc_step. Qed.

#[local] Arguments upd {R F} proj {_} _ _ /.
#[local] Arguments proc_reset _ /.
#[local] Arguments proc_free_args _ /.

Ltac spawn_step :=
  lazymatch goal with
  | |- wp (uv_opened _) _ _ => apply wp_uv_opened; [reflexivity|]
  | |- wp (uv_close _ _) _ _ => apply wp_uv_close; [reflexivity|]
  | _ => proc_step
  end; norm_state.

Lemma spawn_ready req_id path args timeout idle ack st :
  ready (s_proc (sess st)) ->
  wp (proc_spawn_common req_id path args timeout idle ack) (spawn_post st) st.
Proof.
  destruct st as [[tcp tm up dn pr buf cap pend lrx ltx sid ctr nreq npid refs ts cl] g n q l z w].
  destruct pr as [act oc ec pid stm iom tmo idl kr hp ho he od ed fl ar].
  intros [H1 H2 H3 H4]. cbn in H1, H2, H3, H4. subst. unfold proc_spawn_common.
  repeat spawn_step; try discriminate.
  1-5: split; [match goal with H : safe _ _ |- _ => exact H end|]; cbn; split; [done|];
    match goal with H : s_proc _ = _ |- _ => rewrite H end; split; cbn; auto.
  - split; [by intros ?|]. cbn. split; [by split|done].
  - match goal with |- context [util_snprintf 256 ?x] =>
      destruct (util_snprintf_cases 256 x) as [[E _]|[y E]]; rewrite E end; repeat spawn_step;
      (split; [match goal with H : safe _ _ |- _ => exact H end|]; cbn;
       match goal with H : s_proc _ = _ |- _ => rewrite H end; split; [by split|done]).
Qed.
End spawn.

(** ** Spawning on handles that are in use *)

(** Rules once broken stay on record. *)
Record grew {W} (st st' : St W) : Prop := Grew { gr_hazards : hazards st `suffix_of` hazards st' }.

#[global] Instance grew_preorder {W} : PreOrder (@grew W).
Proof. split; [by split|]. intros a b c [H1] [H2]. split. by transitivity (hazards b). Qed.

Section in_use.
Context {W : Type} `{!Uv W}.
Implicit Types st : St W.




End in_use.

(** ** What a client sees of an exit *)

Lemma sdec_length n : zlen (sdec n) <= 21.
Proof.
  unfold sdec. destruct (n <? 0).
  - rewrite zlen_app. change (zlen (lit "-")) with 1. pose proof (dec_length (- n)). lia.
  - pose proof (dec_length n). lia.
Qed.

Lemma exit_reply_length id status reason : zlen (exit_reply id status (kill_reason_name reason)) < 256.
Proof.
  unfold exit_reply. autorewrite with zlen. pose proof (dec_length (u32 id)). pose proof (sdec_length status).
  change (zlen (lit "status=ok")) with 9. change (zlen (lit "proc_id=")) with 8.
  change (zlen (lit "exit_code=")) with 10. change (zlen (lit "reason=")) with 7.
  assert (zlen (kill_reason_name reason) <= 12) by (destruct reason; vm_compute; discriminate). lia.
Qed.

Section exit.
Context {W : Type} `{!Uv W, !FsView W, !FsLaws W, !Healthy W}.
Implicit Types st : St W.

Lemma maybe_finalize_wire : keeps same_queue (proc_maybe_finalize (W := W)).
Proof. unfold proc_maybe_finalize, uv_close, mod_proc, mod_sess, report. solve_keeps. Qed.

Lemma uv_close_wire (h : session -> handle) `{!Update h} cb :
  (forall st, same_queue st (st <| sess ::= upd h (fun _ => H_closing cb) |>)) ->
  keeps same_queue (uv_close (W := W) h cb).
Proof. intros H. unfold uv_close, mod_sess, report. solve_keeps. intros ?. apply H. Qed.

Lemma exit_cb_sends st status :
  healthy (world st) -> s_closed (sess st) = false -> 0 <= s_pending_write_bytes (sess st) ->
  s_pending_write_bytes (sess st) + 270 <= LUAGENT_MAX_WRITE_QUEUE_BYTES ->
  let p := s_proc (sess st) in
  wp (proc_exit_cb status) (fun _ st' => wire st' = wire st ++
    [frame_of FRAME_EXIT (p_proc_id p) (exit_reply (p_proc_id p) status (kill_reason_name (p_kill_reason p)))]) st.
Proof.
  intros Hw Hc Hp Hq p. pose proof (exit_reply_length (p_proc_id p) status (p_kill_reason p)) as Hl.
  unfold proc_exit_cb. do 6 proc_step. cbn. fold p. rewrite util_snprintf_ok by done.
  apply wp_bind, wp_bind, wp_send_text_healthy; try done; cbn;
    [lia|unfold LUAGENT_MAX_FRAME_PAYLOAD; lia|].
  intros st1 Hs. pose proof (st_wire _ _ _ Hs) as Hw1. cbn in Hw1. apply wp_ret, wp_bind.
  apply (wp_keeps same_queue); [apply uv_close_wire; by split|]. intros _ st2 [_ _ H2].
  apply (wp_keeps same_queue); [apply maybe_finalize_wire|]. intros _ st3 [_ _ H3]. by rewrite H3, H2.
Qed.
End exit.

(** ** Theorems *)

(** C6: The exit of a process and the ends of its two output streams may
    arrive in any order, between any output, kill requests and timer ticks:
    from a process just spawned, for every sequence of events libuv can
    deliver, no rule for handles is broken, the component is finalised
    exactly when all three final events have been seen (all three handles
    then being closed with the callback that releases the session, and the
    state reset for the next process), and until then the process, its pipes
    and their contexts are intact. *)
Theorem process_any_order `{!Uv W} um (evs : list proc_event) (st : St W) :
  life_ok st -> live (Seen false false false) (s_proc (sess st)) ->
  legal evs (Seen false false false) = true ->
  let x := see_all evs (Seen false false false) in
  let st' := (run_events um evs st).2 in
  hazards st' = hazards st /\
  if all_seen x then s_proc (sess st') = proc_finished else live x (s_proc (sess st')).
Proof.
  intros Hl Hp He x st'. destruct (events_settle um evs (Seen false false false) st Hp He) as [Hs Hx].
  split; [by apply Hs|exact Hx].
Qed.

(** An accepted session after a spawn request. *)
Definition spawned : St Sim.sim :=
  (proc_spawn_common 5 (lit "/bin/ls") (Some [lit "/bin/ls"]) 60000 10000 true (accepted Sim.empty)).2.

Lemma process_any_order_witness :
  let evs := [Ev_output Stdout_pipe (lit "a"); Ev_kill 9 (lit "proc_id=1"); Ev_eof Stderr_pipe 1;
              Ev_exit 0; Ev_output Stdout_pipe (lit "b"); Ev_eof Stdout_pipe 1] in
  s_proc (sess (run_events (2 ^ 64 - 1) evs spawned).2) = proc_finished /\
  s_proc (sess (run_events (2 ^ 64 - 1) (take 5 evs) spawned).2) <> proc_finished.
Proof.
  intros evs. split; [|vm_compute; discriminate].
  refine (proj2 (process_any_order (2 ^ 64 - 1) evs spawned _ _ _)).
  - intros _. split; [reflexivity|reflexivity].
  - split; reflexivity.
  - reflexivity.
Defined.

(** C24: Spawning on free handles.  When no process is active and the three
    handles are free, a spawn request breaks no rule for handles and either
    reports a fresh process id, with the process running and both pipes
    read, or fails with -1 leaving no process and no open handle. *)
Theorem spawn_on_free_handles `{!Uv W} req_id path args timeout idle ack (st : St W) rc id st' :
  life_ok st -> ready (s_proc (sess st)) ->
  proc_spawn_common req_id path args timeout idle ack st = (rc, id, st') ->
  hazards st' = hazards st /\
  match id with
  | Some id =>
      live (Seen false false false) (s_proc (sess st')) /\
      id = s_next_proc_id (sess st) /\ p_proc_id (s_proc (sess st')) = id /\
      s_next_proc_id (sess st') = u32 (id + 1)
  | None => rc = -1 /\ spawn_failed (s_proc (sess st'))
  end.
Proof.
  intros Hl Hr E. pose proof (spawn_ready req_id path args timeout idle ack st Hr) as H.
  eapply wp_run in H as [Hs Hx]; [|exact E]. split; [by apply Hs|]. by destruct id.
Qed.

Lemma spawn_on_free_handles_witness :
  hazards spawned = [] /\ p_proc_id (s_proc (sess spawned)) = 1.
Proof.
  destruct (proc_spawn_common 5 (lit "/bin/ls") (Some [lit "/bin/ls"]) 60000 10000 true (accepted Sim.empty))
    as [[rc id] st'] eqn:E.
  pose proof (spawn_on_free_handles 5 (lit "/bin/ls") (Some [lit "/bin/ls"]) 60000 10000 true
    (accepted Sim.empty) rc id st') as H.
  destruct H as [H1 H2].
  - intros _. split; reflexivity.
  - split; reflexivity.
  - exact E.
  - change spawned with ((proc_spawn_common 5 (lit "/bin/ls") (Some [lit "/bin/ls"]) 60000 10000 true
      (accepted Sim.empty)).2). rewrite E. cbn [snd]. split; [exact H1|].
    assert (Hid : id = Some 1) by (apply (f_equal (fun r => r.1.2)) in E; vm_compute in E; done).
    rewrite Hid in H2. apply H2.
Defined.



(** What the client is told of an exit: with an open session and room in
    the queue, [proc_exit_cb] sends exactly one frame, of type [EXIT] and
    carrying the process id, the exit code and the reason of the last kill
    request (or [exit]). *)
Theorem exit_is_reported `{!Uv W, !FsView W, !FsLaws W, !Healthy W} (st : St W) status :
  healthy (world st) -> s_closed (sess st) = false -> 0 <= s_pending_write_bytes (sess st) ->
  s_pending_write_bytes (sess st) + 270 <= LUAGENT_MAX_WRITE_QUEUE_BYTES ->
  let p := s_proc (sess st) in
  wire (proc_exit_cb status st).2 = wire st ++
    [frame_of FRAME_EXIT (p_proc_id p)
      (lit "status=ok" ++ [LF] ++ lit "proc_id=" ++ dec (u32 (p_proc_id p)) ++ [LF] ++
       lit "exit_code=" ++ sdec status ++ [LF] ++ lit "reason=" ++ kill_reason_name (p_kill_reason p))].
Proof. intros Hw Hc Hp Hq p. exact (exit_cb_sends st status Hw Hc Hp Hq). Qed.

Lemma exit_is_reported_witness :
  wire (proc_exit_cb (-9) (run_events (2 ^ 64 - 1) [Ev_kill 9 (lit "proc_id=1")] spawned).2).2 =
  wire (run_events (2 ^ 64 - 1) [Ev_kill 9 (lit "proc_id=1")] spawned).2 ++
    [frame_of FRAME_EXIT 1 (lit "status=ok" ++ [LF] ++ lit "proc_id=1" ++ [LF] ++
       lit "exit_code=-9" ++ [LF] ++ lit "reason=killed")].
Proof.
  refine (exit_is_reported (run_events (2 ^ 64 - 1) [Ev_kill 9 (lit "proc_id=1")] spawned).2 (-9) _ _ _ _).
  - split; [done|]. intros fd _. apply lookup_empty.
  - reflexivity.
  - vm_compute. discriminate.
  - vm_compute. discriminate.
Defined.

(** A kill request acts on the process it names and on nothing else: the
    kill reason becomes [REQUESTED] and libuv is asked to kill exactly when
    the payload has a process id, a process is active and the ids agree
    (modulo [2^32]); in every other case the request fails with -1 and
    neither the process nor the world outside the error reply is touched. *)
Theorem kill_acts_on_named_process `{!Uv W} um req_id payload (st : St W) :
  let p := s_proc (sess st) in
  let named := match ProcKv.kv_u32 um payload (lit "proc_id") with
               | Some id => p_active p && (p_proc_id p =? id) | None => false end in
  if named : bool then
    s_proc (sess (proc_handle_kill um req_id payload st).2) = p <| p_kill_reason := PROC_KILL_REQUESTED |> /\
    (fst (uv_process_kill (world st)) <> 0 -> (proc_handle_kill um req_id payload st).1 = -1)
  else
    exists code message, proc_handle_kill um req_id payload st = (-1, (send_error req_id code message st).2) /\
    s_proc (sess (proc_handle_kill um req_id payload st).2) = p.
Proof.
  intros p named. destruct named eqn:En.
  - unfold named in En. destruct (ProcKv.kv_u32 um payload (lit "proc_id")) as [id|] eqn:Eid; [|done].
    apply andb_true_iff in En as [Ha Hi].
    enough (wp (proc_handle_kill um req_id payload) (fun rc st' =>
      s_proc (sess st') = p <| p_kill_reason := PROC_KILL_REQUESTED |> /\
      (fst (uv_process_kill (world st)) <> 0 -> rc = -1)) st) by done.
    unfold proc_handle_kill. rewrite Eid. do 2 proc_step. fold p. rewrite Ha, Hi. cbn [negb orb].
    do 3 proc_step. apply wp_lift. cbn. intros rc w Ek. rewrite Ek. cbn [fst].
    destruct (rc =? 0) eqn:Er; cbn [negb]; b2p; [|by repeat proc_step].
    destruct (util_snprintf_cases 128 (kill_reply id)) as [[E _]|[y E]]; rewrite E; by repeat proc_step.
  - assert (Hf : exists code message, proc_handle_kill um req_id payload st = (-1, (send_error req_id code message st).2)).
    { unfold proc_handle_kill. unfold named in En.
      destruct (ProcKv.kv_u32 um payload (lit "proc_id")) as [id|].
      - rewrite bind_run. cbn [fst snd get_sess gets]. fold p. rewrite <- negb_andb, En. cbn [negb].
        exists "not_found"%string, "process not active"%string. by rewrite bind_run.
      - exists "bad_payload"%string, "missing proc_id"%string. by rewrite bind_run. }
    destruct Hf as (code & message & E). exists code, message. rewrite E. split; [done|].
    apply (sp_proc _ _ (send_error_parts req_id (Some (lit code)) (Some (lit message)) st)).
Qed.

(** The deadlines of a process.  For times that do not run backwards, a
    timer tick asks libuv to kill an active process exactly when its total
    time is limited and used up (reason [timeout], which comes first) or its
    idle time is (reason [idle_timeout]); a limit of zero is no limit, and a
    tick before the deadlines changes nothing at all. *)
Theorem timeouts_enforced `{!Uv W} (st : St W) now_ms :
  let p := s_proc (sess st) in
  0 <= p_started_ms p <= now_ms -> 0 <= p_last_io_ms p <= now_ms -> now_ms < 2 ^ 64 ->
  let over := 0 < p_timeout_ms p /\ p_started_ms p + p_timeout_ms p <= now_ms in
  let idle := 0 < p_idle_timeout_ms p /\ p_last_io_ms p + p_idle_timeout_ms p <= now_ms in
  let st' := (proc_check_timeouts now_ms st).2 in
  (p_active p = true -> over \/ idle -> world st' = (uv_process_kill (world st)).2 /\
    (over -> p_kill_reason (s_proc (sess st')) = PROC_KILL_TIMEOUT) /\
    (~ over -> p_kill_reason (s_proc (sess st')) = PROC_KILL_IDLE)) /\
  (p_active p = false \/ (~ over /\ ~ idle) -> st' = st).
Proof.
  intros p Hs Hi Hn over idle st'. unfold st', proc_check_timeouts, mod_proc. run_eval. fold p.
  rewrite !u64_small by lia.
  destruct (p_active p); cbn [negb]; [|split; [done|by intros]].
  destruct ((0 <? p_timeout_ms p) && (p_timeout_ms p <=? now_ms - p_started_ms p)) eqn:E1;
  [|destruct ((0 <? p_idle_timeout_ms p) && (p_idle_timeout_ms p <=? now_ms - p_last_io_ms p)) eqn:E2];
    unfold diag_count_process_timeout, diag_count; run_eval; unfold over, idle; b2p.
  - destruct (uv_process_kill (world st)) as [rc w]. cbn. split; [|lia]. intros _ _. split; [done|].
    split; [done|lia].
  - destruct (uv_process_kill (world st)) as [rc w]. cbn. split; [|lia]. intros _ _. split; [done|].
    split; [lia|done].
  - split; [lia|done].
Qed.

Lemma timeouts_enforced_witness :
  p_kill_reason (s_proc (sess (proc_check_timeouts 61001 spawned).2)) = PROC_KILL_TIMEOUT /\
  p_kill_reason (s_proc (sess (proc_check_timeouts 11001 spawned).2)) = PROC_KILL_IDLE.
Proof.
  split.
  - destruct (timeouts_enforced spawned 61001) as [H _].
    + vm_compute. split; discriminate.
    + vm_compute. split; discriminate.
    + lia.
    + destruct H as (_ & H & _); [reflexivity|left; vm_compute; split; [reflexivity|discriminate]|].
      apply H. vm_compute. split; [reflexivity|discriminate].
  - destruct (timeouts_enforced spawned 11001) as [H _].
    + vm_compute. split; discriminate.
    + vm_compute. split; discriminate.
    + lia.
    + destruct H as (_ & _ & H); [reflexivity|right; vm_compute; split; [reflexivity|discriminate]|].
      apply H. vm_compute. intros [_ C]. apply C. reflexivity.
Defined.
