(* ===== verification/Heartbeat.v ===== *)
(** * The session timer ([heartbeat_cb] of [src/session.c])

    Once a second: close an idle session, send a heartbeat on a quiet one,
    and check the deadlines of transfers and of the process. *)

From Stdlib Require Import ZArith Lia Bool.
From Stdlib Require Import Strings.Byte Strings.String.
From stdpp Require Import base list numbers option gmap.
From S2P Require Import Prelude CLib Frame Kv State Uv Session Transfer Upload Proc ProcLife.

Definition heartbeat_cb {W} `{!Uv W} : M (St W) unit :=
  now_ms ← util_now_ms;
  closed ← get_sess s_closed;
  if closed : bool then mret tt
  else
    last_rx_ms ← get_sess s_last_rx_ms;
    if LUAGENT_SESSION_IDLE_MS <=? u64 (now_ms - last_rx_ms) then session_close
    else
      last_tx_ms ← get_sess s_last_tx_ms;
      (if LUAGENT_HEARTBEAT_IDLE_MS <=? u64 (now_ms - last_tx_ms) then
         diag_count_heartbeat;;
         req_id ← get_sess s_next_req_id;
         mod_sess (upd s_next_req_id (fun n => u32 (n + 1)));;
         _ ← session_send_text FRAME_PING req_id (Some (lit "status=ping")); mret tt
       else mret tt);;
      transfer_check_timeout s_upload now_ms;;
      transfer_check_timeout s_download now_ms;;
      proc_check_timeouts now_ms.

(** ** Theorems *)

Section heartbeat.
Context {W : Type} `{!Uv W, !FsView W, !FsLaws W, !Healthy W}.
Implicit Types st : St W.

(** Sending leaves an upload alone. *)
Definition sending_kept st st' : Prop := same_parts st st' /\ fs_kept st st' /\ (healthy (world st) -> healthy (world st')).

Lemma kept_uploading st st' req_id path size data :
  sending_kept st st' -> uploading st req_id path size data -> uploading st' req_id path size data.
Proof. intros (P & [F1 F2] & _) []. split; rewrite ?(sp_upload _ _ P), ?F1, ?F2; done. Qed.

Lemma send_error_kept req_id code message : keeps sending_kept (session_send_error (W := W) req_id code message).
Proof.
  intros st. split; [apply send_error_parts|]. split; [apply session_send_error_fs|].
  apply session_send_error_stays_healthy.
Qed.

Lemma send_text_kept type req_id text : keeps sending_kept (session_send_text (W := W) type req_id (Some text)).
Proof.
  intros st. split; [apply session_send_frame_parts|]. split; [apply session_send_frame_fs|].
  apply session_send_frame_stays_healthy.
Qed.

(** A stalled upload: an error to the client, then the abort. *)
Lemma stalled_upload_aborts st0 st req_id path size data now :
  healthy (world st) -> uploading st req_id path size data ->
  0 < t_last_progress_ms (s_upload (sess st)) ->
  t_last_progress_ms (s_upload (sess st)) + LUAGENT_TRANSFER_IDLE_MS <= now < 2 ^ 64 ->
  (forall q, files (world st) q = files (world st0) q) ->
  wp (transfer_check_timeout s_upload now)
    (fun _ st' => upload_gone path st0 st' /\ s_download (sess st') = s_download (sess st)) st.
Proof.
  intros Hw Hu Hpos Hnow H0. pose proof (up_active _ _ _ _ _ Hu) as Ha. unfold transfer_check_timeout, LUAGENT_TRANSFER_IDLE_MS in *.
  do 2 parts_step. rewrite Ha. destruct (_ =? 0) eqn:E0; b2p; [lia|]. cbn [negb orb].
  rewrite u64_small by lia. destruct (20000 <=? _) eqn:E; b2p; [|lia]. do 2 parts_step. apply wp_bind.
  match goal with |- wp _ _ ?x => set (st1 := x) end.
  assert (uploading st1 req_id path size data) as Hu1 by (destruct Hu; by split).
  apply (wp_keeps sending_kept); [apply send_error_kept|]. intros a st2 K.
  pose proof (kept_uploading _ _ _ _ _ _ K Hu1) as Hu2. destruct K as (P & [F _] & Hh). apply wp_and.
  - apply (wp_abort_healthy st0 st2 req_id path size data); [by apply Hh|done|]. intros q. rewrite F. apply H0.
  - apply wp_abort_upload. apply (sp_download _ _ P).
Qed.

(** The check of the process asks at most for a kill. *)
Lemma check_timeouts_files now st (kill_files : forall w, fs_eq w (uv_process_kill (W := W) w).2) :
  wp (proc_check_timeouts now)
    (fun _ st' => s_upload (sess st') = s_upload (sess st) /\ fs_eq (world st) (world st')) st.
Proof.
  unfold proc_check_timeouts. repeat proc_step; (split; [done|]);
    first [match goal with H : uv_process_kill ?w = _ |- _ => specialize (kill_files w); rewrite H in kill_files; exact kill_files end
          | done].
Qed.

(** The rest of a tick, from the transfers on. *)
Lemma tick_removes_stalled st0 st req_id path size data now (kill_files : forall w, fs_eq w (uv_process_kill (W := W) w).2) :
  healthy (world st) -> uploading st req_id path size data -> s_download (sess st) = transfer_init ->
  0 < t_last_progress_ms (s_upload (sess st)) ->
  t_last_progress_ms (s_upload (sess st)) + LUAGENT_TRANSFER_IDLE_MS <= now < 2 ^ 64 ->
  (forall q, files (world st) q = files (world st0) q) ->
  wp (transfer_check_timeout s_upload now;; transfer_check_timeout s_download now;; proc_check_timeouts now)
    (fun _ st' => upload_gone path st0 st') st.
Proof.
  intros Hw Hu Hd Hpos Hnow H0. apply wp_bind.
  eapply wp_mono; [by apply (stalled_upload_aborts st0 st req_id path size data)|].
  intros _ st1 [(G1 & G2 & G3) Hd1]. apply wp_bind. unfold wp at 1. rewrite check_timeout_idle by congruence. cbn [fst snd].
  eapply wp_mono; [by apply check_timeouts_files|]. intros _ st2 (E1 & E2 & _).
  split; [congruence|]. rewrite E2. split; [done|]. intros q Hq. rewrite E2. by apply G3.
Qed.
End heartbeat.

(** C29: A stalled upload is cleaned up.  At a tick that finds no chunk for 20
    seconds: if something else was received in the last 15 seconds, the tick
    resets the upload and removes its temporary file, and touches no other
    file, in particular not the target; if not, the tick closes the idle
    session and leaves the upload and the file for the end of the session. *)
Theorem stalled_upload_removed `{!Uv W, !FsView W, !FsLaws W, !Healthy W} (st : St W) req_id path size data :
  let now := (uv_hrtime (world st)).1 / 1000000 in
  let s := sess st in
  (forall w, fs_eq w (uv_process_kill (W := W) w).2) ->
  healthy (world st) -> uploading st req_id path size data -> s_closed s = false -> s_download s = transfer_init ->
  0 <= s_last_rx_ms s <= now -> now < 2 ^ 64 ->
  0 < t_last_progress_ms (s_upload s) -> t_last_progress_ms (s_upload s) + LUAGENT_TRANSFER_IDLE_MS <= now ->
  let st' := (heartbeat_cb st).2 in
  if s_last_rx_ms s + LUAGENT_SESSION_IDLE_MS <=? now then
    s_closed (sess st') = true /\ s_upload (sess st') = s_upload s /\
    files (world st') (tmp_of path) = Some data
  else upload_gone path st st'.
Proof.
  intros now s Hk Hw Hu Hc Hd Hrx Hn Hpos Hp st'. subst st'.
  enough (wp heartbeat_cb (fun _ st' =>
    if s_last_rx_ms s + LUAGENT_SESSION_IDLE_MS <=? now then
      s_closed (sess st') = true /\ s_upload (sess st') = s_upload s /\ files (world st') (tmp_of path) = Some data
    else upload_gone path st st') st) by done.
  unfold heartbeat_cb, LUAGENT_SESSION_IDLE_MS, LUAGENT_HEARTBEAT_IDLE_MS.
  apply wp_bind, wp_now. intros t w1 Et. pose proof (healthy_hrtime _ _ Hw) as Hw1. rewrite Et in Hw1.
  pose proof (law_hrtime _ (world st)) as [Hf1 Hf2]. rewrite Et in Hf1, Hf2. cbn in Hw1, Hf1, Hf2.
  assert (Hnow : t / 1000000 = now) by (unfold now; by rewrite Et). rewrite Hnow.
  set (st1 := st <| world := w1 |>).
  assert (uploading st1 req_id path size data) as Hu1 by (destruct Hu; split; cbn; rewrite ?Hf1, ?Hf2; done).
  do 2 wp_step. cbn. fold s. rewrite Hc. do 2 wp_step. cbn. fold s. rewrite u64_small by lia.
  destruct (15000 <=? now - s_last_rx_ms s) eqn:E1; destruct (s_last_rx_ms s + 15000 <=? now) eqn:E2; b2p; try lia.
  { unfold wp. split; [apply session_close_closed|]. pose proof (session_close_parts st1) as P.
    split; [apply (sp_upload _ _ P)|]. rewrite session_close_world. apply (up_disk _ _ _ _ _ Hu1). }
  do 2 wp_step. cbn. fold s. apply wp_bind.
  apply (wp_mono _ (fun _ st2 => healthy (world st2) /\ uploading st2 req_id path size data /\
    s_download (sess st2) = transfer_init /\
    t_last_progress_ms (s_upload (sess st2)) = t_last_progress_ms (s_upload s) /\
    forall q, files (world st2) q = files (world st) q)).
  - wp_step; [|by apply wp_ret].
    apply wp_bind, wp_modify. do 2 wp_step. do 2 wp_step. apply wp_bind.
    apply (wp_keeps sending_kept); [apply send_text_kept|]. intros a st2 K. apply wp_ret.
    split; [by apply K|]. split; [eapply kept_uploading; [exact K|]; destruct Hu1; by split|].
    destruct K as (P & [F _] & _). split; [by rewrite (sp_download _ _ P)|]. split; [by rewrite (sp_upload _ _ P)|].
    intros q. rewrite F. apply Hf1.
  - intros _ st2 (H1 & H2 & H3 & H4 & H5). apply (tick_removes_stalled st st2 req_id path size data); try done.
    + by rewrite H4.
    + rewrite H4. by split.
Qed.

(** 30 seconds after the last chunk, one second after another frame. *)
Definition stalled : St Sim.sim :=
  half_uploaded <| world ::= upd Sim.m_clock (fun _ => 31000000000) |> <| sess ::= upd s_last_rx_ms (fun _ => 30000) |>.

Lemma stalled_upload_removed_witness :
  files (world stalled) (lit "/x.part") = Some (lit "abc") /\
  files (world (heartbeat_cb stalled).2) (lit "/x.part") = None.
Proof.
  split; [vm_compute; reflexivity|].
  pose proof (stalled_upload_removed stalled 7 (lit "/x") 5 (lit "abc")) as H. cbv zeta in H.
  assert (Hb : (s_last_rx_ms (sess stalled) + LUAGENT_SESSION_IDLE_MS <=? (uv_hrtime (world stalled)).1 / 1000000) = false)
    by (vm_compute; reflexivity).
  rewrite Hb in H. refine (proj1 (proj2 (H _ _ _ _ _ _ _ _ _))).
  - intros w. split; reflexivity.
  - exact (proj1 half_uploaded_ok).
  - split; vm_compute; try reflexivity; discriminate.
  - vm_compute. reflexivity.
  - vm_compute. reflexivity.
  - vm_compute. split; discriminate.
  - vm_compute. reflexivity.
  - vm_compute. reflexivity.
  - vm_compute. discriminate.
Defined.

(** C28: The idle timeout: a tick that finds nothing received for 15 seconds
    closes an open session; before that, a tick leaves it open and, when
    nothing was sent for 5 seconds, sends one [PING] under a fresh request
    id (given room in the queue, idle transfers and no process). *)
Theorem heartbeat_spec `{!Uv W, !FsView W, !FsLaws W, !Healthy W} (st : St W) :
  let now := (uv_hrtime (world st)).1 / 1000000 in
  let s := sess st in
  healthy (world st) -> s_closed s = false ->
  0 <= s_last_rx_ms s <= now -> 0 <= s_last_tx_ms s <= now -> now < 2 ^ 64 ->
  s_upload s = transfer_init -> s_download s = transfer_init -> p_active (s_proc s) = false ->
  0 <= s_pending_write_bytes s -> s_pending_write_bytes s + 128 <= LUAGENT_MAX_WRITE_QUEUE_BYTES ->
  let st' := (heartbeat_cb st).2 in
  if s_last_rx_ms s + LUAGENT_SESSION_IDLE_MS <=? now then s_closed (sess st') = true /\ wire st' = wire st
  else s_closed (sess st') = false /\
    if s_last_tx_ms s + LUAGENT_HEARTBEAT_IDLE_MS <=? now then
      wire st' = wire st ++ [frame_of FRAME_PING (s_next_req_id s) (lit "status=ping")] /\
      s_next_req_id (sess st') = u32 (s_next_req_id s + 1)
    else wire st' = wire st /\ s_next_req_id (sess st') = s_next_req_id s.
Proof.
  intros now s Hw Hc Hrx Htx Hn Hu Hd Hpr Hp Hq st'. subst st'.
  enough (wp heartbeat_cb (fun _ st' =>
    if s_last_rx_ms s + LUAGENT_SESSION_IDLE_MS <=? now then s_closed (sess st') = true /\ wire st' = wire st
    else s_closed (sess st') = false /\
      if s_last_tx_ms s + LUAGENT_HEARTBEAT_IDLE_MS <=? now then
        wire st' = wire st ++ [frame_of FRAME_PING (s_next_req_id s) (lit "status=ping")] /\
        s_next_req_id (sess st') = u32 (s_next_req_id s + 1)
      else wire st' = wire st /\ s_next_req_id (sess st') = s_next_req_id s) st) by done.
  unfold heartbeat_cb, LUAGENT_SESSION_IDLE_MS, LUAGENT_HEARTBEAT_IDLE_MS.
  assert (Htail : forall st1, s_upload (sess st1) = transfer_init -> s_download (sess st1) = transfer_init ->
    p_active (s_proc (sess st1)) = false ->
    (transfer_check_timeout s_upload now;; transfer_check_timeout s_download now;; proc_check_timeouts now) st1 = (tt, st1)).
  { intros st1 H1 H2 H3. rewrite bind_run, (check_timeout_idle s_upload) by done. cbn [snd].
    rewrite bind_run, (check_timeout_idle s_download) by done. cbn [snd]. unfold proc_check_timeouts. run_eval. by rewrite H3. }
  apply wp_bind, wp_now. intros t w1 Et. pose proof (healthy_hrtime _ _ Hw) as Hw1. rewrite Et in Hw1.
  assert (Hnow : t / 1000000 = now) by (unfold now; by rewrite Et). rewrite Hnow. cbn in Hw1.
  do 2 wp_step. cbn. fold s. rewrite Hc. do 2 wp_step. cbn. fold s. rewrite u64_small by lia.
  destruct (15000 <=? now - s_last_rx_ms s) eqn:E1; destruct (s_last_rx_ms s + 15000 <=? now) eqn:E2; b2p; try lia.
  { unfold wp. split; [apply session_close_closed|]. exact (sq_wire _ _ (session_close_queue (st <| world := w1 |>))). }
  do 2 wp_step. cbn. fold s. rewrite u64_small by lia.
  destruct (5000 <=? now - s_last_tx_ms s) eqn:E3; destruct (s_last_tx_ms s + 5000 <=? now) eqn:E4; b2p; try lia.
  - apply wp_bind, wp_bind, wp_modify. do 2 wp_step. do 2 wp_step. apply wp_bind. cbn.
    apply wp_send_text_healthy; cbn; try done; [fold s; change (zlen (lit "status=ping")) with 11; lia|].
    intros st2 Hs. apply wp_ret. unfold wp.
    destruct (st_parts _ _ _ Hs) as [P1 P2 P3 _ _ _ _ P8 _]. cbn in P1, P2, P3, P8.
    rewrite Htail by (rewrite ?P1, ?P2, ?P3; assumption). cbn.
    split; [rewrite (sl_closed _ _ (st_life _ _ _ Hs)); exact Hc|]. split; [apply (st_wire _ _ _ Hs)|exact P8].
  - apply wp_bind, wp_ret. unfold wp. rewrite Htail by done. cbn. by split.
Qed.

Lemma heartbeat_spec_witness :
  let st := accepted (Sim.MkSim ∅ ∅ 3 6000000000 0) in
  wire (heartbeat_cb st).2 = [frame_of FRAME_PING 1 (lit "status=ping")].
Proof.
  intros st. refine (proj1 (proj2 (heartbeat_spec st _ _ _ _ _ _ _ _ _ _))).
  - split; [done|]. intros fd _. apply lookup_empty.
  - reflexivity.
  - vm_compute. split; discriminate.
  - vm_compute. split; discriminate.
  - vm_compute. reflexivity.
  - reflexivity.
  - reflexivity.
  - reflexivity.
  - vm_compute. discriminate.
  - vm_compute. discriminate.
Defined.
