(* ===== verification/Lua.v ===== *)
(** * The script engine ([src/lua_engine.c]) and its bindings ([src/bindings.c])

    The Lua interpreter is not part of the repository.  What a call of the
    script function [dispatch_request] does to the agent is a [script]: a
    tree of calls of the bindings, in the order the script makes them, each
    continued by what the script does with the result, with steps of the
    interpreter's own libraries on the world in between.  A script need not
    return: [S_diverge] is a script that computes forever from there on, and
    one that makes calls forever is each of its finite prefixes ended by
    [S_diverge].  The theorems hold for every script; the ones that say that a
    callback returns assume [LuaReturns].  All bindings are modelled; what [log] writes is in
    [Diag.v].  The relays, which [port_open], [port_close] and [port_list] act
    on, are a component of their own, used through the interface [Ports]. *)

From Stdlib Require Import ZArith Lia Bool.
From Stdlib Require Import Strings.Byte Strings.String.
From stdpp Require Import base list numbers option gmap.
From S2P Require Import Prelude CLib Frame Kv State Uv Tables Session Transfer Upload Proc ProcLife.

(** A call of a binding with its converted arguments; integers are Lua's
    64-bit integers, an absent optional argument is [None]. *)
Inductive lua_call :=
| L_log (level msg : bytes)
| L_now_ms
| L_reply (req_id : Z) (kind : bytes) (payload : option bytes)
| L_error (req_id : Z) (code : bytes) (message : option bytes)
| L_fs_list (path : bytes)
| L_port_open (listen_host : option bytes) (listen_port : Z) (target_host : option bytes) (target_port : Z)
| L_port_close (relay_id : Z)
| L_port_list
| L_debug_sessions
| L_debug_transfers
| L_debug_procs
| L_debug_stats
| L_proc_spawn (path : bytes) (argv : list bytes) (timeout_ms idle_timeout_ms : option Z).

(** What a binding gives back to the script, or that it raised an error. *)
Inductive lua_value :=
| V_none
| V_int (z : Z)
| V_true
| V_names (names : list bytes)
| V_relay (relay_id listen_port : Z)
| V_relays (rows : list relay_row)
| V_table (t : table)
| V_proc (proc_id : Z) (path : bytes)
| V_raised (message : bytes).

Inductive script (W : Type) :=
| S_return
| S_raise
| S_diverge
| S_call (c : lua_call) (k : lua_value -> script W)
| S_io (f : W -> W) (k : W -> script W).
Arguments S_return {W}.
Arguments S_raise {W}.
Arguments S_diverge {W}.
Arguments S_call {W} _ _.
Arguments S_io {W} _ _.

(** What the relays share with the active session: its counters and the
    global ones. *)
Record shared := Shared {
  sh_ctr : counters;
  sh_global : diag_counters
}.

(** The relays, as the bindings use them for the active session: the calls
    [portfwd_open] (result, and relay id and port when they are written),
    [portfwd_close] and [portfwd_push_list]; [None] is a call that uses memory it must not. *)
Class Ports (W : Type) := {
  ports_open : bytes -> Z -> bytes -> Z -> shared -> W -> option ((Z * option (Z * Z)) * shared * W);
  ports_close : Z -> shared -> W -> option (Z * shared * W);
  ports_list : shared -> W -> option (list relay_row * shared * W)
}.

(** The state of the interpreter: what its global [dispatch_request] does
    with a request, [None] when it is not a function. *)
Class Lua (W : Type) := {
  dispatch_request : Z -> bytes -> W -> option (script W);
  lua_ports :: Ports W
}.

Section bindings.
Context {W : Type} `{!Uv W, !Ports W}.
Notation M := (M (St W)).

(** The bindings check for an active session; inside a dispatch there is
    one.  Their string arguments are C strings. *)
Definition l_now_ms : M lua_value :=
  t ← lift uv_hrtime; mret (V_int (t / 1000000)).

Definition reply_type (kind : bytes) : Z :=
  if bytes_eqb kind (lit "ACK") then FRAME_ACK
  else if bytes_eqb kind (lit "OP_RESULT") then FRAME_OP_RESULT
  else if bytes_eqb kind (lit "PONG") then FRAME_PONG
  else FRAME_OP_RESULT.

Definition l_reply (req_id : Z) (kind : bytes) (payload : option bytes) : M lua_value :=
  rc ← session_send_text (reply_type (cstr kind)) (u32 req_id) (Some (cstr (default [] payload)));
  mret (if negb (rc =? 0) then V_raised (lit "failed to send reply") else V_none).

Definition l_error (req_id : Z) (code : bytes) (message : option bytes) : M lua_value :=
  rc ← session_send_error (u32 req_id) (Some (cstr code)) (Some (cstr (default [] message)));
  mret (if negb (rc =? 0) then V_raised (lit "failed to send error") else V_none).

(** [uv_fs_scandir] and the entries [uv_fs_scandir_next] gives. *)
Definition l_fs_list (path : bytes) : M lua_value :=
  r ← lift (uv_fs_scandir (cstr path));
  let '(rc, names) := r : Z * list bytes in
  mret (if rc <? 0 then V_raised (lit "fs_list failed for '" ++ cstr path ++ lit "': " ++ uv_strerror rc)
        else V_names names).

(** A call of the relays, which count for the session as well. *)
Definition call_ports {A} (f : shared -> W -> option (A * shared * W)) : M (option A) :=
  fun st =>
    match f (Shared (s_ctr (sess st)) (g_counters st)) (world st) with
    | Some (a, sh, w) =>
        (Some a, st <| sess ::= upd s_ctr (fun _ => sh_ctr sh) |> <| g_counters := sh_global sh |> <| world := w |>)
    | None => (None, st <| hazards ::= cons HZ_bad_pointer |>)
    end.

(** [lua_pushinteger] of an unsigned 32 or 16 bit value. *)
Definition l_port_open (listen_host : option bytes) (listen_port : Z) (target_host : option bytes)
    (target_port : Z) : M lua_value :=
  r ← call_ports (ports_open (cstr (default (lit "0.0.0.0") listen_host)) (u16 (u32 listen_port))
        (cstr (default (lit "127.0.0.1") target_host)) (u16 (u32 target_port)));
  mret match r with
       | Some (rc, out) =>
           let '(relay_id, actual_port) := default (0, 0) out in
           if negb (rc =? 0) then V_raised (lit "port_open failed: " ++ uv_strerror rc)
           else V_relay relay_id actual_port
       | None => V_none
       end.

Definition l_port_close (relay_id : Z) : M lua_value :=
  r ← call_ports (ports_close (u32 relay_id));
  mret match r with
       | Some rc =>
           if negb (rc =? 0) then V_raised (lit "port_close failed: " ++ uv_strerror rc) else V_true
       | None => V_none
       end.

Definition l_port_list : M lua_value :=
  r ← call_ports ports_list;
  mret match r with Some rows => V_relays rows | None => V_none end.

Definition l_debug_sessions : M lua_value := s ← get_sess id; mret (V_table (diag_push_sessions (Some s))).
Definition l_debug_transfers : M lua_value := s ← get_sess id; mret (V_table (diag_push_transfers (Some s))).
Definition l_debug_procs : M lua_value := s ← get_sess id; mret (V_table (diag_push_procs (Some s))).
Definition l_debug_stats : M lua_value :=
  g ← gets g_counters; s ← get_sess id; mret (V_table (diag_push_stats g (Some s))).

Definition l_proc_spawn (path : bytes) (argv : list bytes) (timeout_ms idle_timeout_ms : option Z) :
    M lua_value :=
  match argv with
  | [] => mret (V_raised (lit "argv table must not be empty"))
  | _ =>
      ok ← lift (c_malloc (zlen argv * 8));
      if negb ok then mret (V_raised (lit "out of memory"))
      else
        r ← proc_spawn_direct (cstr path) (map cstr argv)
              (u64 (default 60000 timeout_ms)) (u64 (default 10000 idle_timeout_ms));
        let '(rc, id) := r : Z * option Z in
        mret (if negb (rc =? 0) then V_raised (lit "proc_spawn failed")
              else V_proc (default 0 id) (cstr path))
  end.

Definition run_call (c : lua_call) : M lua_value :=
  match c with
  | L_log _ _ => mret V_none
  | L_now_ms => l_now_ms
  | L_reply req_id kind payload => l_reply req_id kind payload
  | L_error req_id code message => l_error req_id code message
  | L_fs_list path => l_fs_list path
  | L_port_open listen_host listen_port target_host target_port =>
      l_port_open listen_host listen_port target_host target_port
  | L_port_close relay_id => l_port_close relay_id
  | L_port_list => l_port_list
  | L_debug_sessions => l_debug_sessions
  | L_debug_transfers => l_debug_transfers
  | L_debug_procs => l_debug_procs
  | L_debug_stats => l_debug_stats
  | L_proc_spawn path argv timeout_ms idle_timeout_ms => l_proc_spawn path argv timeout_ms idle_timeout_ms
  end.

(** [lua_pcall]: whether the function returned without an error, or [None]
    when it does not return; the state is then the one it has reached. *)
Fixpoint lua_pcall (s : script W) : M (option bool) :=
  match s with
  | S_return => mret (Some true)
  | S_raise => mret (Some false)
  | S_diverge => mret None
  | S_call c k => v ← run_call c; lua_pcall (k v)
  | S_io f k =>
      modify (fun st => st <| world ::= f |>);;
      w ← gets world;
      lua_pcall (k w)
  end.

End bindings.

(** [None] when the script does not return. *)
Definition lua_engine_dispatch {W} `{!Uv W, !Lua W} (req_id : Z) (payload : bytes) : M (St W) (option Z) :=
  w ← gets world;
  match dispatch_request req_id payload w with
  | None => mret (Some (-1))
  | Some f =>
      ok ← lua_pcall f;
      match ok with
      | None => mret None
      | Some false => diag_count_lua_error;; mret (Some (-1))
      | Some true => mret (Some 0)
      end
  end.

(** The scripts that return, whatever the bindings give them. *)
Inductive script_returns {W} : script W -> Prop :=
| SR_return : script_returns S_return
| SR_raise : script_returns S_raise
| SR_call c k : (forall v, script_returns (k v)) -> script_returns (S_call c k)
| SR_io f k : (forall w, script_returns (k w)) -> script_returns (S_io f k).

Class LuaReturns (W : Type) `{!Lua W} :=
  lua_scripts_return : forall req_id payload w s, dispatch_request req_id payload w = Some s -> script_returns s.

Lemma lua_pcall_returns {W} `{!Uv W, !Ports W} (s : script W) (st : St W) :
  script_returns s -> is_Some (lua_pcall s st).1.
Proof.
  intros Hs. revert st. induction Hs as [| |c k _ IH|f k _ IH]; intros st; cbn [lua_pcall]; [by eexists..| |];
    rewrite !bind_run; apply IH.
Qed.

Lemma lua_dispatch_returns {W} `{!Uv W, !Lua W, !LuaReturns W} req_id payload (st : St W) :
  is_Some (lua_engine_dispatch req_id payload st).1.
Proof.
  unfold lua_engine_dispatch. rewrite bind_run. cbn [fst snd gets].
  destruct (dispatch_request req_id payload (world st)) as [s|] eqn:E; [|by eexists].
  rewrite bind_run. destruct (lua_pcall_returns s st (lua_scripts_return _ _ _ _ E)) as [ok Hok].
  rewrite Hok. by destruct ok; eexists.
Qed.

(** A script for the in-memory world: it answers every request.  There is no
    network in that world: no relay can be opened. *)
#[global] Instance sim_ports : Ports Sim.sim := {
  ports_open _ _ _ _ sh w := Some ((Sim.EBADF, None), sh, w);
  ports_close _ sh w := Some (Sim.EBADF, sh, w);
  ports_list sh w := Some ([], sh, w)
}.

#[global] Instance sim_lua : Lua Sim.sim := {|
  dispatch_request req_id payload w :=
    Some (S_call L_now_ms (fun _ => S_call (L_reply req_id (lit "OP_RESULT") (Some (lit "status=ok")))
      (fun v => match v with V_raised _ => S_raise | _ => S_return end)));
  lua_ports := sim_ports
|}.

#[global] Instance sim_lua_returns : LuaReturns Sim.sim.
Proof. intros req_id payload w s [= <-]. do 2 (constructor; intros ?). case_match; constructor. Qed.
