(* ===== verification/Protocol.v ===== *)
(** * Frame dispatch ([src/protocol.c]) *)

From Stdlib Require Import ZArith Lia Bool.
From Stdlib Require Import Strings.Byte Strings.String.
From stdpp Require Import base list numbers option gmap.
From S2P Require Import Prelude CLib Frame Kv State Uv Session Transfer Upload Proc ProcLife Lua.

Definition protocol_type_name (type : Z) : bytes :=
  if type =? FRAME_HELLO then lit "HELLO"
  else if type =? FRAME_ACK then lit "ACK"
  else if type =? FRAME_ERROR then lit "ERROR"
  else if type =? FRAME_OP then lit "OP"
  else if type =? FRAME_OP_RESULT then lit "OP_RESULT"
  else if type =? FRAME_PUT_BEGIN then lit "PUT_BEGIN"
  else if type =? FRAME_PUT_CHUNK then lit "PUT_CHUNK"
  else if type =? FRAME_PUT_END then lit "PUT_END"
  else if type =? FRAME_GET_BEGIN then lit "GET_BEGIN"
  else if type =? FRAME_GET_CHUNK then lit "GET_CHUNK"
  else if type =? FRAME_GET_END then lit "GET_END"
  else if type =? FRAME_PROC_SPAWN then lit "PROC_SPAWN"
  else if type =? FRAME_STDOUT then lit "STDOUT"
  else if type =? FRAME_STDERR then lit "STDERR"
  else if type =? FRAME_EXIT then lit "EXIT"
  else if type =? FRAME_KILL then lit "KILL"
  else if type =? FRAME_PING then lit "PING"
  else if type =? FRAME_PONG then lit "PONG"
  else lit "UNKNOWN".

Section protocol.
Context {W : Type} `{!Uv W, !Lua W}.
Notation M := (M (St W)).

(** [ULONG_MAX] of the target. *)
Variable ulong_max : Z.

Definition hello_reply : bytes := lit "status=ok" ++ [LF] ++ lit "message=hello".

(** 0 or -1 from a handler. *)
Definition fail_code (rc : Z) : Z := if negb (rc =? 0) then -1 else 0.

(** The result is [None] if a script does not return, or if the download loop
    of the model runs out of fuel, which it never does.  The handlers of the second group get the payload as a C string:
    a copy with a NUL behind it. *)
Definition protocol_handle_control (type req_id : Z) (payload : bytes) : M (option Z) :=
  if type =? FRAME_PUT_CHUNK then rc ← transfer_handle_put_chunk req_id payload; mret (Some rc)
  else if type =? FRAME_PUT_END then rc ← transfer_handle_put_end req_id; mret (Some rc)
  else
    ok ← lift (c_malloc (zlen payload + 1));
    if negb ok then
      _ ← send_error req_id "internal" "out of memory"; mret (Some (-1))
    else
      let payload_copy := cstr payload in
      if type =? FRAME_HELLO then
        rc ← session_send_text FRAME_ACK req_id (Some hello_reply); mret (Some rc)
      else if type =? FRAME_PING then
        rc ← session_send_text FRAME_PONG req_id (Some (lit "status=ok")); mret (Some rc)
      else if type =? FRAME_OP then
        rc ← lua_engine_dispatch req_id payload_copy;
        match rc with
        | None => mret None
        | Some rc =>
            if negb (rc =? 0) then
              diag_count_protocol_error;;
              _ ← send_error req_id "internal" "lua dispatch failed"; mret (Some (-1))
            else mret (Some 0)
        end
      else if type =? FRAME_PUT_BEGIN then
        rc ← transfer_handle_put_begin req_id payload_copy; mret (Some (fail_code rc))
      else if type =? FRAME_GET_BEGIN then
        rc ← transfer_handle_get_begin req_id payload_copy; mret (fail_code <$> rc)
      else if type =? FRAME_PROC_SPAWN then
        rc ← proc_handle_spawn req_id payload_copy; mret (Some (fail_code rc))
      else if type =? FRAME_KILL then
        rc ← proc_handle_kill ulong_max req_id payload_copy; mret (Some (fail_code rc))
      else
        diag_count_protocol_error;;
        _ ← send_error req_id "bad_type" "unsupported frame type"; mret (Some (-1)).
End protocol.

(** ** Theorems *)

(** The frame types a client may send. *)
Definition handled_types : list Z :=
  [FRAME_PUT_CHUNK; FRAME_PUT_END; FRAME_HELLO; FRAME_PING; FRAME_OP; FRAME_PUT_BEGIN;
   FRAME_GET_BEGIN; FRAME_PROC_SPAWN; FRAME_KILL].

Definition bad_type_error : bytes :=
  lit "code=bad_type" ++ [LF] ++ lit "message=unsupported frame type".

Definition same_errors {W} (st st' : St W) : Prop :=
  d_protocol_errors (s_ctr (sess st')) = d_protocol_errors (s_ctr (sess st)) /\
  d_protocol_errors (d_shared (g_counters st')) = d_protocol_errors (d_shared (g_counters st)).

#[global] Instance same_errors_preorder {W} : PreOrder (@same_errors W).
Proof. split; [by split|]. intros a b c [] []. split; congruence. Qed.

Section replies.
Context {W : Type} `{!Uv W, !Lua W, !FsView W, !FsLaws W, !Healthy W}.
Implicit Types st : St W.

Lemma close_errors : keeps same_errors (session_close (W := W)).
Proof. intros st. rewrite session_close_eval. by destruct (s_closed (sess st)). Qed.

Lemma send_frame_errors type req_id payload : keeps same_errors (session_send_frame (W := W) type req_id payload).
Proof.
  unfold session_send_frame, diag_count_frame_tx, diag_count, mod_sess. pose proof close_errors. solve_keeps.
Qed.

(** One short text, from a state with room for it. *)
Lemma send_text_run type req_id text st :
  healthy (world st) -> s_closed (sess st) = false -> 0 <= s_pending_write_bytes (sess st) ->
  s_pending_write_bytes (sess st) + 128 <= LUAGENT_MAX_WRITE_QUEUE_BYTES -> zlen text <= 100 -> u8 type <> 0 ->
  exists st', session_send_text type req_id (Some text) st = (0, st') /\
    sent [frame_of type req_id text] st st' /\ same_errors st st'.
Proof.
  intros Hw Hc Hp Hq Hl Ht. unfold session_send_text. cbn [default from_option id].
  pose proof (send_frame_errors type req_id text st) as He.
  destruct (session_send_frame_healthy st type req_id text) as (st' & E & Hs); try done;
    [lia|unfold LUAGENT_MAX_FRAME_PAYLOAD; lia|].
  rewrite E in He. by exists st'.
Qed.
End replies.

(** C30: A frame of any type the agent does not handle is refused: with an
    open session and room in the queue, the handler fails, sends exactly one
    [ERROR] frame with code [bad_type] under the request id, counts a
    protocol error, and changes nothing else of the session's components.
    This includes [PONG], the reply to the agent's own heartbeat, and
    [STDIN]. *)
Theorem unsupported_type_refused `{!Uv W, !Lua W, !FsView W, !FsLaws W, !Healthy W}
    um type req_id payload (st : St W) :
  type ∉ handled_types ->
  healthy (world st) -> s_closed (sess st) = false -> 0 <= s_pending_write_bytes (sess st) ->
  s_pending_write_bytes (sess st) + 128 <= LUAGENT_MAX_WRITE_QUEUE_BYTES ->
  exists st', protocol_handle_control um type req_id payload st = (Some (-1), st') /\
    wire st' = wire st ++ [frame_of FRAME_ERROR req_id bad_type_error] /\
    d_protocol_errors (s_ctr (sess st')) = incr64 (d_protocol_errors (s_ctr (sess st))) /\
    s_upload (sess st') = s_upload (sess st) /\ s_download (sess st') = s_download (sess st) /\
    s_proc (sess st') = s_proc (sess st) /\ fs_eq (world st) (world st').
Proof.
  intros Ht Hw Hc Hp Hq.
  assert (Hne : Forall (fun t => (type =? t) = false) handled_types).
  { apply Forall_forall. intros t Hin. apply Z.eqb_neq. intros ->. done. }
  unfold handled_types in Hne. rewrite !Forall_cons in Hne.
  destruct Hne as (N1 & N2 & N3 & N4 & N5 & N6 & N7 & N8 & N9 & _).
  unfold protocol_handle_control. rewrite N1, N2, bind_run.
  pose proof (healthy_malloc _ (zlen payload + 1) _ Hw) as [Hm Hw1]. pose proof (law_malloc _ (zlen payload + 1) (world st)) as Hf1.
  unfold lift at 1 2. destruct (c_malloc (zlen payload + 1) (world st)) as [ok w]. cbn in Hm, Hw1, Hf1. subst ok. cbn [fst snd negb].
  rewrite N3, N4, N5, N6, N7, N8, N9, !bind_run. unfold send_error, session_send_error.
  change (util_snprintf 512 _) with (0, bad_type_error).
  destruct (send_text_run FRAME_ERROR req_id bad_type_error
    (diag_count_protocol_error (st <| world := w |>)).2) as (st' & E & Hs & He1 & _); try done.
  cbv beta iota. rewrite E. exists st'. split; [done|].
  split; [apply (st_wire _ _ _ Hs)|]. split; [by rewrite He1|].
  destruct (st_parts _ _ _ Hs) as [H1 H2 H3 _ _ _ _ _ _]. split; [done|]. split; [done|]. split; [done|].
  transitivity w; [done|]. apply (st_fs _ _ _ Hs).
Qed.

Lemma unsupported_type_refused_witness :
  exists st', protocol_handle_control (2 ^ 64 - 1) FRAME_PONG 4 (lit "status=pong") (accepted Sim.empty)
      = (Some (-1), st') /\
    wire st' = [frame_of FRAME_ERROR 4 bad_type_error].
Proof.
  destruct (unsupported_type_refused (2 ^ 64 - 1) FRAME_PONG 4 (lit "status=pong") (accepted Sim.empty))
    as (st' & H1 & H2 & _).
  - apply (bool_decide_unpack (FRAME_PONG ∉ handled_types)). vm_compute. exact I.
  - split; [done|]. intros fd _. apply lookup_empty.
  - reflexivity.
  - vm_compute. discriminate.
  - vm_compute. discriminate.
  - exists st'. by split.
Defined.

(** The two greetings are answered: with an open session and room in the
    queue, [HELLO] gets an [ACK] and [PING] a [PONG] under the same request
    id, and nothing else is sent. *)
Theorem greetings_answered `{!Uv W, !Lua W, !FsView W, !FsLaws W, !Healthy W}
    um req_id payload (st : St W) :
  healthy (world st) -> s_closed (sess st) = false -> 0 <= s_pending_write_bytes (sess st) ->
  s_pending_write_bytes (sess st) + 128 <= LUAGENT_MAX_WRITE_QUEUE_BYTES ->
  (exists st', protocol_handle_control um FRAME_HELLO req_id payload st = (Some 0, st') /\
     wire st' = wire st ++ [frame_of FRAME_ACK req_id hello_reply] /\ same_errors st st') /\
  (exists st', protocol_handle_control um FRAME_PING req_id payload st = (Some 0, st') /\
     wire st' = wire st ++ [frame_of FRAME_PONG req_id (lit "status=ok")] /\ same_errors st st').
Proof.
  intros Hw Hc Hp Hq. unfold protocol_handle_control. cbn [Z.eqb Pos.eqb FRAME_HELLO FRAME_PING FRAME_PUT_CHUNK FRAME_PUT_END].
  pose proof (healthy_malloc _ (zlen payload + 1) _ Hw) as [Hm Hw1].
  rewrite !(bind_run (lift _)). unfold lift.
  destruct (c_malloc (zlen payload + 1) (world st)) as [ok w]. cbn in Hm, Hw1. subst ok. cbn [fst snd negb].
  rewrite !bind_run. split.
  - destruct (send_text_run FRAME_ACK req_id hello_reply (st <| world := w |>)) as (st' & E & Hs & He); try done.
    rewrite E. exists st'. split; [done|]. split; [apply (st_wire _ _ _ Hs)|exact He].
  - destruct (send_text_run FRAME_PONG req_id (lit "status=ok") (st <| world := w |>)) as (st' & E & Hs & He); try done.
    rewrite E. exists st'. split; [done|]. split; [apply (st_wire _ _ _ Hs)|exact He].
Qed.

Lemma greetings_answered_witness :
  exists st', protocol_handle_control (2 ^ 64 - 1) FRAME_PING 4 [] (accepted Sim.empty) = (Some 0, st') /\
    wire st' = [frame_of FRAME_PONG 4 (lit "status=ok")].
Proof.
  destruct (greetings_answered (2 ^ 64 - 1) 4 [] (accepted Sim.empty)) as [_ (st' & H1 & H2 & _)].
  - split; [done|]. intros fd _. apply lookup_empty.
  - reflexivity.
  - vm_compute. discriminate.
  - vm_compute. discriminate.
  - exists st'. by split.
Defined.

(** A script that does not return blocks the handler, and nothing else does:
    the handler of an [OP] frame does not return exactly when its copy of the
    payload was allocated and [dispatch_request] runs on. *)
Theorem script_blocks `{!Uv W, !Lua W} um req_id payload (st : St W) :
  let '(ok, w) := c_malloc (zlen payload + 1) (world st) in
  (protocol_handle_control um FRAME_OP req_id payload st).1 = None <->
  ok = true /\ (lua_engine_dispatch req_id (cstr payload) (st <| world := w |>)).1 = None.
Proof.
  unfold protocol_handle_control. cbn [Z.eqb Pos.eqb FRAME_OP FRAME_PUT_CHUNK FRAME_PUT_END FRAME_HELLO FRAME_PING].
  rewrite bind_run. unfold lift. destruct (c_malloc (zlen payload + 1) (world st)) as [ok w]. cbn [fst snd].
  destruct ok; cbn [negb]; [|rewrite bind_run; cbn; by split; [|intros []]].
  rewrite bind_run. destruct (lua_engine_dispatch _ _ _) as [[rc|] st']; cbn [fst snd]; [|by split].
  split; [|by intros []]. destruct (negb (rc =? 0)); [rewrite !bind_run|]; done.
Qed.
