(* ===== verification/Diag.v ===== *)
(** * The diagnostic log ([src/diag.c])

    Filtering by level, the text of a line, the rotation of the log file and
    the dump of frames.  The log touches only its own files and the standard
    error stream, so it has a state of its own: the global [g_diag] without
    the counters (which are in [State.v]), the files, and what was written to
    [stderr].  The C library leaves it to the platform whether [rename]
    replaces an existing file: POSIX does, Windows does not. *)

From Stdlib Require Import ZArith Lia Bool.
From Stdlib Require Import Strings.Byte Strings.String.
From stdpp Require Import base list numbers option gmap.
From S2P Require Import Prelude CLib Frame Kv State Uv Tables Session Transfer Upload Proc ProcLife.
From S2P Require Import Heartbeat Lua Protocol.

(** ** Data *)

Inductive diag_level :=
| DIAG_LEVEL_ERROR
| DIAG_LEVEL_WARN
| DIAG_LEVEL_INFO
| DIAG_LEVEL_DEBUG
| DIAG_LEVEL_TRACE.

Definition level_value (level : diag_level) : Z :=
  match level with
  | DIAG_LEVEL_ERROR => 0
  | DIAG_LEVEL_WARN => 1
  | DIAG_LEVEL_INFO => 2
  | DIAG_LEVEL_DEBUG => 3
  | DIAG_LEVEL_TRACE => 4
  end.

Inductive wire_mode :=
| WIRE_MODE_OFF
| WIRE_MODE_SUMMARY
| WIRE_MODE_HEX.

#[global] Instance wire_mode_eq_dec : EqDecision wire_mode.
Proof. solve_decision. Defined.

Definition DIAG_LOG_ROTATE_BYTES : Z := 1024 * 1024.
Definition DIAG_LOG_ROTATE_KEEP : nat := 3.

(** [g_file]: whether [file] is not [NULL]; it is then open for appending to
    the file named [g_path].  An empty [g_path] is no path. *)
Record diag_state := DiagState {
  g_initialized : bool;
  g_level : diag_level;
  g_wire_mode : wire_mode;
  g_file : bool;
  g_path : bytes
}.

#[global] Instance diag_state_eta : Eta diag_state := fun d =>
  DiagState (g_initialized d) (g_level d) (g_wire_mode d) (g_file d) (g_path d).

Record LS := MkLS {
  g_diag : diag_state;
  log_files : gmap bytes bytes;
  log_stderr : bytes
}.

#[global] Instance LS_eta : Eta LS := fun s => MkLS (g_diag s) (log_files s) (log_stderr s).

Definition level_name (level : diag_level) : bytes :=
  match level with
  | DIAG_LEVEL_ERROR => lit "ERROR"
  | DIAG_LEVEL_WARN => lit "WARN"
  | DIAG_LEVEL_INFO => lit "INFO"
  | DIAG_LEVEL_DEBUG => lit "DEBUG"
  | DIAG_LEVEL_TRACE => lit "TRACE"
  end.

Definition parse_level (value : option bytes) : diag_level :=
  match value with
  | None => DIAG_LEVEL_INFO
  | Some v =>
      if bytes_eqb v (lit "ERROR") then DIAG_LEVEL_ERROR
      else if bytes_eqb v (lit "WARN") then DIAG_LEVEL_WARN
      else if bytes_eqb v (lit "DEBUG") then DIAG_LEVEL_DEBUG
      else if bytes_eqb v (lit "TRACE") then DIAG_LEVEL_TRACE
      else DIAG_LEVEL_INFO
  end.

Definition parse_wire_mode (value : option bytes) : wire_mode :=
  match value with
  | None => WIRE_MODE_OFF
  | Some v =>
      if bytes_eqb v (lit "off") then WIRE_MODE_OFF
      else if bytes_eqb v (lit "hex") then WIRE_MODE_HEX
      else WIRE_MODE_SUMMARY
  end.

(** [%-5s] and [%-6s]. *)
Definition pad_right (n : nat) (s : bytes) : bytes := s ++ replicate (n - length s) Byte.x20.

(** [%02X]. *)
Definition hex_digit (d : Z) : Byte.byte := if d <? 10 then z2b (48 + d) else z2b (55 + d).
Definition hex2 (b : Byte.byte) : bytes := [hex_digit (b2z b / 16); hex_digit (b2z b mod 16)].

(** Conversion to [int]. *)
Definition i32 (z : Z) : Z := (z + 2 ^ 31) mod 2 ^ 32 - 2 ^ 31.

(** The text of a line. *)
Definition log_line (now_ms : Z) (level : diag_level) (pid session_id req_id : Z) (subsystem msg : bytes) : bytes :=
  dec now_ms ++ lit " " ++ pad_right 5 (level_name level) ++ lit " pid=" ++ sdec pid
  ++ lit " session=" ++ sdec session_id ++ lit " req=" ++ dec (u32 req_id) ++ lit " "
  ++ pad_right 6 subsystem ++ lit " " ++ msg ++ [LF].

Section diag.
(** Whether [rename] replaces a file, which files can be opened for
    appending, and the process id. *)
Variable replaces : bool.
Variable can_open : bytes -> bool.
Variable pid : Z.
Notation M := (M LS).

Definition mod_diag (f : diag_state -> diag_state) : M unit := modify (upd g_diag f).

(** ** Files *)

Definition c_rename (src dst : bytes) : M unit :=
  modify (fun s =>
    match log_files s !! src with
    | Some c =>
        if replaces || bool_decide (log_files s !! dst = None)
        then s <| log_files ::= fun f => <[dst := c]> (delete src f) |>
        else s
    | None => s
    end).

(** [fopen(path, "a")]: whether it succeeded, which the path alone decides.
    A line that [fputs] is given reaches the file whole: a full disk is not
    modelled. *)
Definition c_fopen_append (path : bytes) : M bool :=
  if can_open path then
    modify (fun s => s <| log_files ::= fun f => <[path := default [] (f !! path)]> f |>);;
    mret true
  else mret false.

Definition fputs_file (line : bytes) : M unit :=
  modify (fun s => s <| log_files ::= alter (fun c => c ++ line) (g_path (g_diag s)) |>).

Definition fputs_stderr (line : bytes) : M unit := modify (upd log_stderr (fun e => e ++ line)).

(** ** Operations *)

(** The names of the rotated files: 0 is the log itself. *)
Definition rotate_src (path : bytes) (i : nat) : bytes :=
  if Nat.eqb i 1 then (util_snprintf 640 path).2
  else (util_snprintf 640 (path ++ lit "." ++ dec (Z.of_nat i - 1))).2.
Definition rotate_dst (path : bytes) (i : nat) : bytes :=
  (util_snprintf 640 (path ++ lit "." ++ dec (Z.of_nat i))).2.

Fixpoint rotate_loop (i : nat) : M unit :=
  match i with
  | O => mret tt
  | S i' =>
      path ← gets (fun s => g_path (g_diag s));
      c_rename (rotate_src path i) (rotate_dst path i);;
      rotate_loop i'
  end.

Definition rotate_logs_if_needed (incoming_len : Z) : M unit :=
  path ← gets (fun s => g_path (g_diag s));
  if bytes_eqb path [] then mret tt
  else
    st ← gets (fun s => log_files s !! path);
    match st with
    | None => mret tt
    | Some c =>
        if size_t (zlen c + incoming_len) <? DIAG_LOG_ROTATE_BYTES then mret tt
        else
          mod_diag (upd g_file (fun _ => false));;
          rotate_loop DIAG_LOG_ROTATE_KEEP
    end.

Definition ensure_log_file : M unit :=
  d ← gets g_diag;
  if bytes_eqb (g_path d) [] || g_file d then mret tt
  else
    ok ← c_fopen_append (g_path d);
    mod_diag (upd g_file (fun _ => ok)).

(** The arguments are the values of the three environment variables. *)
Definition diag_init (level_env wire_env file_env : option bytes) : M Z :=
  mod_diag (fun _ => DiagState false (parse_level level_env) (parse_wire_mode wire_env) false
    (match file_env with Some f => if bytes_eqb f [] then [] else (util_snprintf 512 f).2 | None => [] end));;
  ensure_log_file;;
  mod_diag (upd g_initialized (fun _ => true));;
  mret 0.

Definition diag_shutdown : M unit :=
  mod_diag (fun _ => DiagState false DIAG_LEVEL_ERROR WIRE_MODE_OFF false []).

(** [diag_log] for a message that the format and the arguments produce; [msg]
    holds 1024 bytes, and [now_ms] is what [util_now_ms] returns. *)
Definition diag_log (now_ms : Z) (level : diag_level) (subsystem : option bytes) (session_id : option Z)
    (req_id : Z) (text : bytes) : M unit :=
  d ← gets g_diag;
  if negb (g_initialized d) || (level_value (g_level d) <? level_value level) then mret tt
  else
    let msg := take 1023 text in
    let line := (util_snprintf 1400 (log_line now_ms level pid (i32 (default 0 session_id)) req_id
                   (default (lit "misc") subsystem) msg)).2 in
    fputs_stderr line;;
    rotate_logs_if_needed (zlen line);;
    ensure_log_file;;
    d ← gets g_diag;
    if g_file d then fputs_file line else mret tt.

(** The dump: three characters per byte while there is room. *)
Fixpoint hex_loop (frame : bytes) (pos : nat) : bytes :=
  match frame with
  | [] => []
  | b :: frame' => if Nat.ltb (pos + 4) 1024 then hex2 b ++ lit " " ++ hex_loop frame' (pos + 3) else []
  end.

Definition diag_wire (now_ms : Z) (dir : bytes) (session_id : option Z) (type req_id payload_len : Z)
    (frame : option bytes) : M unit :=
  d ← gets g_diag;
  if negb (g_initialized d) || bool_decide (g_wire_mode d = WIRE_MODE_OFF) then mret tt
  else
    diag_log now_ms DIAG_LEVEL_DEBUG (Some (lit "frame")) session_id req_id
      (dir ++ lit " type=" ++ protocol_type_name type ++ lit " len=" ++ dec (u64 payload_len));;
    match frame with
    | Some bytes =>
        if negb (bool_decide (g_wire_mode d = WIRE_MODE_HEX)) then mret tt
        else
          diag_log now_ms DIAG_LEVEL_TRACE (Some (lit "frame")) session_id req_id
            (dir ++ lit " raw=" ++ hex_loop bytes 0)
    | None => mret tt
    end.

Definition diag_wire_rx (now_ms : Z) (session_id : option Z) (type req_id payload_len : Z) (frame : option bytes) :
    M unit := diag_wire now_ms (lit "RX") session_id type req_id payload_len frame.

Definition diag_wire_tx (now_ms : Z) (session_id : option Z) (type req_id payload_len : Z) (frame : option bytes) :
    M unit := diag_wire now_ms (lit "TX") session_id type req_id payload_len frame.

(** The binding [agent.log]: unknown levels are [INFO]. *)
Definition l_log (now_ms : Z) (session_id : option Z) (level msg : bytes) : M unit :=
  let diag_level :=
    if bytes_eqb (cstr level) (lit "ERROR") then DIAG_LEVEL_ERROR
    else if bytes_eqb (cstr level) (lit "WARN") then DIAG_LEVEL_WARN
    else if bytes_eqb (cstr level) (lit "DEBUG") then DIAG_LEVEL_DEBUG
    else if bytes_eqb (cstr level) (lit "TRACE") then DIAG_LEVEL_TRACE
    else DIAG_LEVEL_INFO in
  diag_log now_ms diag_level (Some (lit "lua")) session_id 0 (cstr msg).
End diag.

(** ** Lemmas *)

(** The log and its rotated copies, by age. *)
Definition log_name (path : bytes) (i : nat) : bytes :=
  match i with O => path | S _ => path ++ lit "." ++ dec (Z.of_nat i) end.

Lemma log_name_inj path i j : (i <= 3)%nat -> (j <= 3)%nat -> log_name path i = log_name path j -> i = j.
Proof.
  intros Hi Hj E. unfold log_name in E.
  destruct i as [|i], j as [|j]; try done.
  - rewrite <- (app_nil_r path) in E at 1. by apply app_inv_head in E.
  - rewrite <- (app_nil_r path) in E at 2. by apply app_inv_head in E.
  - apply app_inv_head, app_inv_head, dec_inj in E; lia.
Qed.

Lemma rotate_names path i :
  zlen path < 512 -> (i < 3)%nat ->
  rotate_src path (S i) = log_name path i /\ rotate_dst path (S i) = log_name path (S i).
Proof.
  intros Hp Hi. unfold rotate_src, rotate_dst, log_name.
  assert (Hl : forall n, zlen (path ++ lit "." ++ dec n) < 640).
  { intros n. rewrite !zlen_app. pose proof (dec_length n). change (zlen (lit ".")) with 1. lia. }
  rewrite (util_snprintf_ok 640 (path ++ lit "." ++ dec (Z.of_nat (S i)))) by apply Hl. split; [|done].
  destruct i as [|i]; cbn [Nat.eqb]; [rewrite util_snprintf_ok by lia; done|].
  rewrite util_snprintf_ok by apply Hl. cbn [snd]. do 3 f_equal. lia.
Qed.

(** What the log has kept, oldest first. *)
Definition kept (path : bytes) (f : gmap bytes bytes) : bytes :=
  default [] (f !! log_name path 3) ++ default [] (f !! log_name path 2)
  ++ default [] (f !! log_name path 1) ++ default [] (f !! log_name path 0).

(** No file is larger than the limit. *)
Definition log_bounded (path : bytes) (f : gmap bytes bytes) : Prop :=
  forall i, (i <= 3)%nat -> zlen (default [] (f !! log_name path i)) < DIAG_LOG_ROTATE_BYTES.

(** The copies are those of full files, a copy only after the younger ones. *)
Definition long (c : bytes) : Prop := DIAG_LOG_ROTATE_BYTES - 1400 < zlen c.
Definition copies_long (path : bytes) (f : gmap bytes bytes) : Prop :=
  match f !! log_name path 1, f !! log_name path 2, f !! log_name path 3 with
  | None, None, None => True
  | Some a, None, None => long a
  | Some a, Some b, None => long a /\ long b
  | Some a, Some b, Some c => long a /\ long b /\ long c
  | _, _, _ => False
  end.

(** From [f] to [f'] lines were added, and bytes were lost only if three full
    files are left. *)
Definition retains (path : bytes) (f f' : gmap bytes bytes) (lines : bytes) : Prop :=
  copies_long path f ->
  copies_long path f' /\
  (kept path f' = kept path f ++ lines \/ 3 * (DIAG_LOG_ROTATE_BYTES - 1400) < zlen (kept path f')).

Lemma retains_refl path f : retains path f f [].
Proof. intros H. split; [done|]. left. by rewrite app_nil_r. Qed.

Lemma retains_trans path f g h l1 l2 : retains path f g l1 -> retains path g h l2 -> retains path f h (l1 ++ l2).
Proof.
  intros H1 H2 Hf. destruct (H1 Hf) as [Hg Hx]. destruct (H2 Hg) as [Hh [->|Hy]]; split; try done; [|by right].
  destruct Hx as [->|Hx]; [left; by rewrite app_assoc|right]. rewrite zlen_app. pose proof (zlen_nonneg l2). lia.
Qed.

(** Only the copies count. *)
Lemma retains_same path f f' lines :
  (forall i, (1 <= i <= 3)%nat -> f' !! log_name path i = f !! log_name path i) ->
  kept path f' = kept path f ++ lines -> retains path f f' lines.
Proof. intros Hi Hk Hf. split; [|by left]. unfold copies_long in *. by rewrite !Hi by lia. Qed.

Definition ren (replaces : bool) (src dst : bytes) (f : gmap bytes bytes) : gmap bytes bytes :=
  match f !! src with
  | Some c => if replaces || bool_decide (f !! dst = None) then <[dst := c]> (delete src f) else f
  | None => f
  end.

Lemma ren_lookup src dst f k :
  src <> dst ->
  ren true src dst f !! k =
  match f !! src with
  | None => f !! k
  | Some c => if decide (k = dst) then Some c else if decide (k = src) then None else f !! k
  end.
Proof.
  intros Hne. unfold ren. destruct (f !! src) as [c|] eqn:E; [|done]. cbn.
  destruct (decide (k = dst)) as [->|H1]; [by rewrite lookup_insert_eq|]. rewrite lookup_insert_ne by done.
  destruct (decide (k = src)) as [->|H2]; [by rewrite lookup_delete_eq|by rewrite lookup_delete_ne].
Qed.

Section rotation.
Variable path : bytes.
Hypothesis path_short : zlen path < 512.

Definition rotated (replaces : bool) (f : gmap bytes bytes) : gmap bytes bytes :=
  ren replaces (log_name path 0) (log_name path 1)
    (ren replaces (log_name path 1) (log_name path 2)
      (ren replaces (log_name path 2) (log_name path 3) f)).

Lemma rotate_loop_files replaces s :
  g_path (g_diag s) = path ->
  (rotate_loop replaces DIAG_LOG_ROTATE_KEEP s).2 = s <| log_files ::= rotated replaces |>.
Proof.
  intros Hp. destruct s as [d f e]. cbn in Hp.
  assert (E : forall i g, (i < 3)%nat ->
    (c_rename replaces (rotate_src path (S i)) (rotate_dst path (S i)) (MkLS d g e)).2 =
    MkLS d (ren replaces (log_name path i) (log_name path (S i)) g) e).
  { intros i g Hi. destruct (rotate_names path i path_short Hi) as [-> ->]. unfold c_rename, ren. cbn.
    destruct (g !! log_name path i); [|done]. by destruct (replaces || _). }
  unfold DIAG_LOG_ROTATE_KEEP. cbn [rotate_loop]. rewrite !bind_run. cbn [gets fst snd g_path g_diag]. rewrite Hp.
  rewrite E by lia. cbn [g_path g_diag]. rewrite Hp, E by lia. cbn [g_path g_diag]. by rewrite Hp, E by lia.
Qed.

Lemma names_ne i j : (i <= 3)%nat -> (j <= 3)%nat -> i <> j -> log_name path i <> log_name path j.
Proof. intros Hi Hj Hne E. by apply log_name_inj in E. Qed.

(** On POSIX: the log is moved away, and only the oldest copy is lost. *)
Lemma rotated_spec f :
  is_Some (f !! log_name path 0) ->
  let f' := rotated true f in
  f' !! log_name path 0 = None /\ kept path f' `suffix_of` kept path f /\
  (log_bounded path f -> log_bounded path f') /\
  (long (default [] (f !! log_name path 0)) -> retains path f f' []).
Proof.
  intros [c0 E0] f'.
  pose proof (names_ne 0 1 ltac:(lia) ltac:(lia) ltac:(lia)) as N01.
  pose proof (names_ne 0 2 ltac:(lia) ltac:(lia) ltac:(lia)) as N02.
  pose proof (names_ne 0 3 ltac:(lia) ltac:(lia) ltac:(lia)) as N03.
  pose proof (names_ne 1 2 ltac:(lia) ltac:(lia) ltac:(lia)) as N12.
  pose proof (names_ne 1 3 ltac:(lia) ltac:(lia) ltac:(lia)) as N13.
  pose proof (names_ne 2 3 ltac:(lia) ltac:(lia) ltac:(lia)) as N23.
  assert (L : forall i, (i <= 3)%nat -> f' !! log_name path i =
    match i with
    | O => None
    | S O => Some c0
    | S (S O) => f !! log_name path 1
    | _ => match f !! log_name path 2 with Some c => Some c | None => f !! log_name path 3 end
    end).
  { intros i Hi. unfold f', rotated. rewrite !ren_lookup by done.
    destruct i as [|[|[|[|i]]]]; [| | | |lia];
      rewrite ?E0; destruct (f !! log_name path 2) eqn:E2, (f !! log_name path 1) eqn:E1;
      repeat (rewrite ?E0, ?E1, ?E2; case_decide; try congruence); congruence. }
  split; [by rewrite (L 0%nat) by lia|]. split.
  - unfold kept. rewrite !L by lia. rewrite E0. cbn [default from_option].
    destruct (f !! log_name path 2) as [c2|]; cbn [default from_option id app]; rewrite app_nil_r; [|done].
    by apply suffix_app_r.
  - split; [|intros Hl Hf; unfold retains, copies_long, kept in *; rewrite !L by lia; rewrite E0 in *;
      destruct (f !! log_name path 1), (f !! log_name path 2), (f !! log_name path 3); try done;
      cbn [default from_option id app] in *; rewrite ?app_nil_r; try (by split; [|left]);
      (split; [naive_solver|right; rewrite !zlen_app; unfold long in *; lia])].
    intros Hb i Hi. rewrite L by done. destruct i as [|[|[|[|i]]]]; [done| | | |lia]; cbn [default from_option id].
    + specialize (Hb 0%nat ltac:(lia)). by rewrite E0 in Hb.
    + apply (Hb 1%nat). lia.
    + destruct (f !! log_name path 2) eqn:E2; [|by apply (Hb 3%nat)].
      specialize (Hb 2%nat ltac:(lia)). by rewrite E2 in Hb.
Qed.
End rotation.

(** *** Lines *)

Lemma pad_right_length n s : zlen (pad_right n s) = Z.max (Z.of_nat n) (zlen s).
Proof. unfold pad_right, zlen. rewrite length_app, length_replicate. lia. Qed.

Lemma level_name_length level : zlen (level_name level) <= 5.
Proof. by destruct level. Qed.

(** A line fits its buffer: it is written whole, with its newline. *)
Lemma log_line_fits now level pid sid req subsystem msg :
  zlen subsystem <= 200 -> zlen msg <= 1023 -> zlen (log_line now level pid sid req subsystem msg) < 1400.
Proof.
  intros Hs Hm. unfold log_line. rewrite !zlen_app, !pad_right_length.
  pose proof (dec_length now). pose proof (dec_length (u32 req)). pose proof (sdec_length pid).
  pose proof (sdec_length sid). pose proof (level_name_length level).
  change (zlen (lit " ")) with 1. change (zlen (lit " pid=")) with 5. change (zlen (lit " session=")) with 9.
  change (zlen (lit " req=")) with 5. change (zlen [LF]) with 1. lia.
Qed.

Section logging.
Variable can_open : bytes -> bool.
Variable pid : Z.
Variable path : bytes.

(** A log that writes to [path]. *)
Record log_ok (s : LS) : Prop := LogOk {
  lo_init : g_initialized (g_diag s) = true;
  lo_path : g_path (g_diag s) = path;
  lo_short : zlen path < 512;
  lo_nonempty : path <> [];
  lo_open : g_file (g_diag s) = true -> is_Some (log_files s !! path);
  lo_bounded : log_bounded path (log_files s)
}.

Lemma kept_append f c line :
  f !! path = Some c -> kept path (alter (fun c => c ++ line) path f) = kept path f ++ line.
Proof.
  intros E. unfold kept. change (log_name path 0) with path.
  assert (N : forall i, (0 < i <= 3)%nat -> log_name path i <> path).
  { intros i Hi H. change path with (log_name path 0) in H at 2. apply log_name_inj in H; lia. }
  rewrite !(lookup_alter_ne _ f path (log_name path _)) by (symmetry; apply N; lia).
  rewrite lookup_alter_eq, E. cbn. by rewrite !app_assoc.
Qed.

Lemma bounded_append f c line :
  f !! path = Some c -> zlen c + zlen line < DIAG_LOG_ROTATE_BYTES -> log_bounded path f ->
  log_bounded path (alter (fun c => c ++ line) path f).
Proof.
  intros E Hl Hb i Hi. destruct i as [|i].
  - cbn [log_name]. rewrite lookup_alter_eq, E. cbn. by rewrite zlen_app.
  - rewrite lookup_alter_ne; [by apply Hb|]. intros H. change path with (log_name path 0) in H at 1.
    apply log_name_inj in H; lia.
Qed.

(** The log file, open and with room for the line. *)
Definition log_ready (line : bytes) (s s' : LS) : Prop :=
  log_ok s' /\ g_file (g_diag s') = true /\ log_stderr s' = log_stderr s /\ g_level (g_diag s') = g_level (g_diag s) /\
  kept path (log_files s') `suffix_of` kept path (log_files s) /\
  retains path (log_files s) (log_files s') [] /\
  exists c, log_files s' !! path = Some c /\ zlen c + zlen line < DIAG_LOG_ROTATE_BYTES.

(** Opening the file for appending creates it if need be. *)
Lemma created_same f k :
  default [] ((<[path := default [] (f !! path)]> f : gmap bytes bytes) !! k) = default [] (f !! k : option bytes).
Proof.
  destruct (decide (k = path)) as [->|H]; [by rewrite lookup_insert_eq|by rewrite lookup_insert_ne].
Qed.

Hypothesis path_opens : can_open path = true.

Lemma ensure_ready line s s0 c :
  log_ok s -> default [] (log_files s !! path) = c -> zlen c + zlen line < DIAG_LOG_ROTATE_BYTES ->
  log_stderr s = log_stderr s0 -> g_level (g_diag s) = g_level (g_diag s0) ->
  kept path (log_files s) `suffix_of` kept path (log_files s0) ->
  retains path (log_files s0) (log_files s) [] ->
  wp (ensure_log_file can_open) (fun _ s' => log_ready line s0 s') s.
Proof.
  intros [H1 H2 H3 H4 H5 H6] Hc Hl He Hv Hk Hret. unfold ensure_log_file. apply wp_bind, wp_gets. rewrite H2.
  assert (En : bytes_eqb path [] = false).
  { unfold bytes_eqb. by rewrite bool_decide_false. }
  rewrite En. cbn [orb]. destruct (g_file (g_diag s)) eqn:Ef.
  - apply wp_ret. destruct (H5 eq_refl) as [c' Ec]. rewrite Ec in Hc. cbn in Hc. subst c'.
    split; [by split|]. repeat (split; [done|]). by exists c.
  - apply wp_bind. unfold c_fopen_append. rewrite path_opens. apply wp_bind, wp_modify, wp_ret, wp_modify.
    split; [split; cbn; try done|].
    + intros _. rewrite lookup_insert_eq. by eexists.
    + intros i Hi. rewrite created_same. by apply H6.
    + split; [done|]. split; [done|]. split; [done|].
      assert (Hsame : forall f, kept path (<[path := default [] (f !! path)]> f) = kept path f).
      { intros f. unfold kept. by rewrite !created_same. }
      split; [|split].
      * cbn. by rewrite Hsame.
      * apply (retains_trans _ _ _ _ [] []  Hret). cbn. apply retains_same; [|by rewrite Hsame, app_nil_r].
        intros i Hi. apply lookup_insert_ne. intros H. change path with (log_name path 0) in H at 1.
        apply log_name_inj in H; lia.
      * exists c. cbn. by rewrite lookup_insert_eq, Hc.
Qed.

Lemma prepare_ready line s :
  log_ok s -> zlen line < 1400 ->
  wp (rotate_logs_if_needed true (zlen line);; ensure_log_file can_open) (fun _ s' => log_ready line s s') s.
Proof.
  intros I Hl. pose proof I as [H1 H2 H3 H4 H5 H6]. pose proof (zlen_nonneg line).
  unfold rotate_logs_if_needed. do 2 apply wp_bind. apply wp_gets. rewrite H2.
  unfold bytes_eqb. rewrite bool_decide_false by done. apply wp_bind, wp_gets.
  pose proof (H6 0%nat ltac:(lia)) as Hb. cbn [log_name] in Hb. unfold DIAG_LOG_ROTATE_BYTES in Hb.
  destruct (log_files s !! path) as [c|] eqn:E; cbn in Hb.
  - pose proof (zlen_nonneg c). rewrite size_t_small by lia. destruct (_ <? _) eqn:Er; b2p.
    + apply wp_ret. apply (ensure_ready line s s c); rewrite ?E; try done. apply retains_refl.
    + apply wp_bind, wp_modify. unfold wp at 1. rewrite (rotate_loop_files path) by done. cbn.
      destruct (rotated_spec path (log_files s)) as (R1 & R2 & R3 & R4); [by exists c|]. cbn [log_name] in R1.
      apply (ensure_ready line _ s []); cbn; try done;
        [|by rewrite R1|rewrite zlen_nil; unfold DIAG_LOG_ROTATE_BYTES; lia|apply R4; cbn [log_name]; rewrite E; unfold long; cbn; lia].
      split; cbn; try done. by apply R3.
  - apply wp_ret. apply (ensure_ready line s s []); rewrite ?E; try done;
      [rewrite zlen_nil; unfold DIAG_LOG_ROTATE_BYTES; lia|apply retains_refl].
Qed.

(** A message of the program. *)
Record log_msg := LogMsg {
  m_now : Z;
  m_level : diag_level;
  m_subsystem : option bytes;
  m_session : option Z;
  m_req : Z;
  m_text : bytes
}.

Definition msg_line (m : log_msg) : bytes :=
  log_line (m_now m) (m_level m) pid (i32 (default 0 (m_session m))) (m_req m)
    (default (lit "misc") (m_subsystem m)) (take 1023 (m_text m)).

(** The subsystems have short names. *)
Definition msg_ok (m : log_msg) : Prop := zlen (default (lit "misc") (m_subsystem m)) <= 200.

Definition do_log (replaces : bool) (m : log_msg) : M LS unit :=
  diag_log replaces can_open pid (m_now m) (m_level m) (m_subsystem m) (m_session m) (m_req m) (m_text m).

Lemma msg_line_whole m : msg_ok m -> util_snprintf 1400 (msg_line m) = (0, msg_line m) /\ zlen (msg_line m) < 1400.
Proof.
  intros Hm. assert (zlen (msg_line m) < 1400) as Hl.
  { apply log_line_fits; [done|]. rewrite zlen_take. lia. }
  split; [|done]. by apply util_snprintf_ok.
Qed.

Lemma do_log_spec m s :
  log_ok s -> msg_ok m ->
  let s' := (do_log true m s).2 in
  log_ok s' /\ g_level (g_diag s') = g_level (g_diag s) /\
  if level_value (g_level (g_diag s)) <? level_value (m_level m) then s' = s
  else log_stderr s' = log_stderr s ++ msg_line m /\ retains path (log_files s) (log_files s') (msg_line m) /\
    exists keep, keep `suffix_of` kept path (log_files s) /\ kept path (log_files s') = keep ++ msg_line m.
Proof.
  intros I Hm. cbv zeta. unfold do_log, diag_log. rewrite bind_run. cbn [gets fst snd].
  rewrite (lo_init s I). cbn [negb orb]. destruct (_ <? _); [done|].
  destruct (msg_line_whole m Hm) as [Ew Hl]. fold (msg_line m). rewrite Ew. cbn [snd].
  set (line := msg_line m) in *. rewrite bind_run. cbn [fputs_stderr modify fst snd].
  set (s1 := s <| log_stderr ::= _ |>).
  assert (I1 : log_ok s1) by (by destruct I; split).
  pose proof (prepare_ready line s1 I1 Hl) as Hp. unfold wp in Hp. rewrite bind_run in Hp. rewrite !bind_run.
  set (s2 := (ensure_log_file can_open _).2) in *.
  destruct Hp as (I2 & Hf & He & Hv & Hk & Hret & c & Ec & Hr). cbn [gets fst snd]. rewrite Hf.
  unfold fputs_file. cbn [modify snd]. rewrite (lo_path s2 I2). destruct I2 as [J1 J2 J3 J4 J5 J6]. split; [split; cbn; try done|].
  - intros _. rewrite lookup_alter_eq, Ec. by eexists.
  - by apply (bounded_append _ c).
  - split; [exact Hv|]. split; [by cbn; rewrite He|]. split.
    { apply (retains_trans _ _ _ _ [] line Hret). cbn. apply retains_same; [|by apply (kept_append _ c)].
      intros i Hi. apply lookup_alter_ne. intros H. change path with (log_name path 0) in H at 1.
      apply log_name_inj in H; lia. }
    exists (kept path (log_files s2)). split; [exact Hk|].
    cbn. by apply (kept_append _ c).
Qed.
End logging.

(** The messages in order. *)
Fixpoint log_all (replaces : bool) (can_open : bytes -> bool) (pid : Z) (ms : list log_msg) : M LS unit :=
  match ms with
  | [] => mret tt
  | m :: ms' => do_log can_open pid replaces m;; log_all replaces can_open pid ms'
  end.

(** The lines a log at this level writes. *)
Definition log_lines (pid : Z) (level : diag_level) (ms : list log_msg) : bytes :=
  concat (map (msg_line pid) (List.filter (fun m => level_value (m_level m) <=? level_value level) ms)).

Lemma log_all_spec can_open pid path ms s :
  can_open path = true -> log_ok path s -> Forall msg_ok ms ->
  let s' := (log_all true can_open pid ms s).2 in
  log_ok path s' /\
  kept path (log_files s') `suffix_of` kept path (log_files s) ++ log_lines pid (g_level (g_diag s)) ms /\
  retains path (log_files s) (log_files s') (log_lines pid (g_level (g_diag s)) ms) /\
  log_stderr s' = log_stderr s ++ log_lines pid (g_level (g_diag s)) ms.
Proof.
  intros Ho. revert s. induction ms as [|m ms IH]; intros s I Hm; cbv zeta.
  { cbn. unfold log_lines. cbn. rewrite !app_nil_r. split; [done|]. split; [done|]. split; [apply retains_refl|done]. }
  apply Forall_cons in Hm as [Hm Hms]. cbn [log_all]. rewrite bind_run.
  pose proof (do_log_spec can_open pid path Ho m s I Hm) as (I1 & Hv & Hx).
  set (s1 := (do_log can_open pid true m s).2) in *.
  destruct (IH s1 I1 Hms) as (I2 & Hk & Hret & He). split; [done|]. rewrite Hv in Hk, Hret, He.
  unfold log_lines in *. cbn [List.filter].
  destruct (level_value (g_level (g_diag s)) <? level_value (m_level m)) eqn:El; b2p.
  - rewrite Hx in Hk, Hret, He |- *. destruct (_ <=? _) eqn:E2; b2p; [lia|]. done.
  - destruct Hx as (Hs & Hret1 & keep & Hsuf & Hkeep). destruct (_ <=? _) eqn:E2; b2p; [|lia].
    cbn [map concat]. rewrite He, Hs, <- app_assoc. split; [|split; [by eapply retains_trans|done]].
    etransitivity; [exact Hk|]. rewrite Hkeep, <- app_assoc. destruct Hsuf as [x ->]. exists x. by rewrite <- app_assoc.
Qed.

(** ** Theorems *)

(** C17: On a platform whose [rename] replaces, the log is bounded and loses
    only its oldest part: after any messages the file and its rotated copies
    are each smaller than 1 MiB, what they hold together is a suffix of what
    was there followed by all lines of the enabled levels, each of them whole
    and with its newline, and [stderr] has all of these lines.  If the copies
    were those of full files (or there were none), they still are, and nothing
    is lost unless more than 3 * (1 MiB - 1400) bytes are kept. *)
Theorem log_bounded_recent can_open pid path ms (s : LS) :
  can_open path = true -> log_ok path s -> Forall msg_ok ms ->
  let s' := (log_all true can_open pid ms s).2 in
  log_bounded path (log_files s') /\
  kept path (log_files s') `suffix_of` kept path (log_files s) ++ log_lines pid (g_level (g_diag s)) ms /\
  log_stderr s' = log_stderr s ++ log_lines pid (g_level (g_diag s)) ms /\
  (copies_long path (log_files s) ->
   copies_long path (log_files s') /\
   (kept path (log_files s') = kept path (log_files s) ++ log_lines pid (g_level (g_diag s)) ms \/
    3 * (DIAG_LOG_ROTATE_BYTES - 1400) < zlen (kept path (log_files s')))).
Proof.
  intros Ho I Hm. destruct (log_all_spec can_open pid path ms s Ho I Hm) as (I' & Hk & Hret & He).
  split; [apply I'|]. split; [done|]. by split.
Qed.

(** The log after [diag_init] with a file. *)
Definition started (path : bytes) (f : gmap bytes bytes) : LS :=
  (diag_init (fun _ => true) (Some (lit "DEBUG")) None (Some path) (MkLS (DiagState false DIAG_LEVEL_ERROR WIRE_MODE_OFF false []) f [])).2.

Definition hello_msg : log_msg := LogMsg 5 DIAG_LEVEL_INFO (Some (lit "net")) None 0 (lit "accepted").

Lemma log_bounded_recent_witness :
  kept (lit "a.log") (log_files (log_all true (fun _ => true) 1 [hello_msg; hello_msg] (started (lit "a.log") ∅)).2)
  `suffix_of` log_lines 1 DIAG_LEVEL_DEBUG [hello_msg; hello_msg].
Proof.
  refine (proj1 (proj2 (log_bounded_recent (fun _ => true) 1 (lit "a.log") [hello_msg; hello_msg] (started (lit "a.log") ∅) _ _ _))).
  - reflexivity.
  - split; [reflexivity|reflexivity|vm_compute; reflexivity|discriminate|intros _; eexists; vm_compute; reflexivity|].
    intros i Hi. do 4 (destruct i as [|i]; [vm_compute; reflexivity|]). lia.
  - repeat (apply Forall_cons_2; [vm_compute; discriminate|]). apply Forall_nil_2.
Defined.

(** *** Where [rename] does not replace *)

Section no_replace.
Variable pid : Z.
Variable path : bytes.
Hypothesis path_short : zlen path < 512.
Hypothesis path_some : path <> [].

Notation always := (fun _ : bytes => true).

(** A log that writes to [path]. *)
Record logging (s : LS) (c : bytes) : Prop := Logging {
  lg_init : g_initialized (g_diag s) = true;
  lg_path : g_path (g_diag s) = path;
  lg_file : log_files s !! path = Some c
}.

(** All three copies exist. *)
Definition copies_full (f : gmap bytes bytes) : Prop :=
  forall i, (1 <= i <= 3)%nat -> is_Some (f !! log_name path i).

Lemma rotated_full f : copies_full f -> rotated path false f = f.
Proof.
  intros Hr. unfold rotated, ren.
  destruct (Hr 1%nat ltac:(lia)) as [c1 E1], (Hr 2%nat ltac:(lia)) as [c2 E2], (Hr 3%nat ltac:(lia)) as [c3 E3].
  rewrite E2, E3. cbn [orb]. rewrite bool_decide_false by done. rewrite E1, E2. cbn [orb]. rewrite bool_decide_false by done.
  destruct (f !! log_name path 0); [|done]. rewrite E1. by rewrite bool_decide_false.
Qed.

(** A rename on such a platform, by name. *)
Lemma ren_false src dst f :
  src <> dst ->
  ren false src dst f !! src = (if decide (f !! dst = None) then None else f !! src) /\
  forall k, k <> src -> k <> dst -> ren false src dst f !! k = f !! k.
Proof.
  intros Hne. unfold ren. cbn [orb]. destruct (f !! src) as [c|] eqn:E; [|by case_decide].
  case_bool_decide; case_decide; try done. split.
  - by rewrite lookup_insert_ne, lookup_delete_eq.
  - intros k H1 H2. by rewrite lookup_insert_ne, lookup_delete_ne.
Qed.

(** With a gap among the copies the log is moved away. *)
Lemma rotated_gap f i : (1 <= i <= 3)%nat -> f !! log_name path i = None -> rotated path false f !! path = None.
Proof.
  intros Hi Hf. pose proof (fun i j => names_ne path i j) as N.
  unfold rotated. set (f1 := ren false (log_name path 2) (log_name path 3) f).
  set (f2 := ren false (log_name path 1) (log_name path 2) f1).
  destruct (ren_false (log_name path 2) (log_name path 3) f) as [A1 A2]; [by apply N; lia|].
  destruct (ren_false (log_name path 1) (log_name path 2) f1) as [B1 _]; [by apply N; lia|].
  destruct (ren_false (log_name path 0) (log_name path 1) f2) as [C1 _]; [by apply N; lia|].
  fold f1 in A1, A2. fold f2 in B1. change (ren false (log_name path 0) (log_name path 1) f2 !! log_name path 0 = None). rewrite C1, decide_True; [done|].
  rewrite B1, A1, (A2 (log_name path 1)) by (apply N; lia).
  destruct i as [|[|[|[|i]]]]; [lia| | | |lia]; rewrite Hf; repeat case_decide; done.
Qed.

(** A message of an enabled level: the line is appended to what rotation
    leaves. *)
Lemma do_log_false s c m :
  logging s c -> level_value (m_level m) <= level_value (g_level (g_diag s)) -> msg_ok m ->
  let f := if size_t (zlen c + zlen (msg_line pid m)) <? DIAG_LOG_ROTATE_BYTES then log_files s
           else rotated path false (log_files s) in
  let s' := (do_log always pid false m s).2 in
  g_initialized (g_diag s') = true /\ g_path (g_diag s') = path /\ g_level (g_diag s') = g_level (g_diag s) /\
  log_files s' = <[path := default [] (f !! path) ++ msg_line pid m]> f.
Proof.
  intros [H1 H2 Hc] Hv Hm f. destruct (msg_line_whole pid m Hm) as [Ew Hl]. cbv zeta.
  unfold do_log, diag_log. rewrite bind_run. cbn [gets fst snd]. rewrite H1. cbn [negb orb].
  destruct (level_value (g_level (g_diag s)) <? level_value (m_level m)) eqn:El; b2p; [lia|].
  fold (msg_line pid m). rewrite Ew. cbn [snd]. set (line := msg_line pid m) in *.
  assert (Hmid : wp (fputs_stderr line;; rotate_logs_if_needed false (zlen line);; ensure_log_file always)
    (fun _ s' => g_initialized (g_diag s') = true /\ g_path (g_diag s') = path /\ g_level (g_diag s') = g_level (g_diag s) /\
      g_file (g_diag s') = true /\ is_Some (log_files s' !! path) /\
      log_files s' = <[path := default [] (f !! path)]> f) s).
  { apply wp_bind, wp_modify. set (s1 := upd log_stderr _ s). assert (E1 : log_files s1 = log_files s) by done.
    assert (E2 : g_diag s1 = g_diag s) by done. clearbody s1. apply wp_bind.
    apply (wp_mono _ (fun _ s' => g_initialized (g_diag s') = true /\ g_path (g_diag s') = path /\
      g_level (g_diag s') = g_level (g_diag s) /\ log_files s' = f /\ (g_file (g_diag s') = true -> is_Some (f !! path)))).
    - unfold rotate_logs_if_needed. apply wp_bind, wp_gets. rewrite E2, H2. unfold bytes_eqb.
      rewrite bool_decide_false by done. apply wp_bind, wp_gets. rewrite E1, Hc. subst f.
      destruct (_ <? _); [apply wp_ret; rewrite E1, E2; repeat (split; [done|]); by rewrite Hc|].
      apply wp_bind, wp_modify. unfold wp. rewrite (rotate_loop_files path) by (cbn; by rewrite ?E2).
      cbn. by rewrite E1, E2.
    - intros _ s' (G1 & G2 & G3 & G4 & G5). unfold ensure_log_file. apply wp_bind, wp_gets. rewrite G2. unfold bytes_eqb.
      rewrite bool_decide_false by done. cbn [orb]. destruct (g_file (g_diag s')) eqn:Eg.
      + apply wp_ret. destruct (G5 eq_refl) as [c' Ec]. rewrite G4, Ec. cbn. by rewrite insert_id.
      + apply wp_bind, wp_bind, wp_modify, wp_ret, wp_modify. cbn. rewrite G4. repeat (split; [done|]).
        by rewrite lookup_insert_eq. }
  unfold wp in Hmid. rewrite !bind_run in Hmid. rewrite !bind_run. cbn [gets fst snd].
  set (s2 := (ensure_log_file _ _).2) in *. destruct Hmid as (G1 & G2 & G3 & G4 & _ & G5). rewrite G4. cbn. rewrite G2, G5.
  repeat (split; [done|]). rewrite alter_insert_eq. done.
Qed.

(** Once the copies are full every line goes to the log. *)
Lemma log_all_full ms s c :
  logging s c -> copies_full (log_files s) -> Forall msg_ok ms ->
  let s' := (log_all false always pid ms s).2 in
  log_files s' = <[path := c ++ log_lines pid (g_level (g_diag s)) ms]> (log_files s).
Proof.
  revert s c. induction ms as [|m ms IH]; intros s c L F Hm; cbv zeta.
  { unfold log_lines. cbn. rewrite app_nil_r, insert_id; [done|apply L]. }
  apply Forall_cons in Hm as [Hm Hms]. cbn [log_all]. rewrite bind_run. unfold log_lines. cbn [List.filter].
  destruct (level_value (m_level m) <=? level_value (g_level (g_diag s))) eqn:E; b2p.
  - destruct (do_log_false s c m L E Hm) as (G1 & G2 & G3 & G4). set (s1 := (do_log _ _ _ _ _).2) in *.
    rewrite rotated_full in G4 by done.
    assert (log_files s1 = <[path := c ++ msg_line pid m]> (log_files s)) as G5.
    { rewrite G4. destruct (_ <? _); rewrite (lg_file _ _ L); done. }
    rewrite (IH s1 (c ++ msg_line pid m)).
    + rewrite G5, G3, insert_insert_eq. cbn [map concat]. by rewrite <- app_assoc.
    + split; [done|done|]. rewrite G5. by rewrite lookup_insert_eq.
    + intros i Hi. rewrite G5, lookup_insert_ne; [by apply F|]. change path with (log_name path 0) at 1.
      apply names_ne; lia.
    + done.
  - assert ((do_log always pid false m s).2 = s) as ->.
    { unfold do_log, diag_log. rewrite bind_run. cbn [gets fst snd]. destruct (_ <? _) eqn:E2; b2p; [|lia].
      by rewrite orb_true_r. }
    by apply IH.
Qed.
End no_replace.

(** C39: On a platform whose [rename] does not replace, rotation works until
    three copies exist and then stops for good: as long as one of the copies
    is missing, a line that would make the log too large starts a new file;
    once all three are there, any number of lines is appended to the log and
    the copies never change, so that the log has no bound. *)
Theorem log_grows_without_replace pid path c (s : LS) :
  zlen path < 512 -> path <> [] -> logging path s c ->
  (forall m i, level_value (m_level m) <= level_value (g_level (g_diag s)) -> msg_ok m ->
    DIAG_LOG_ROTATE_BYTES <= zlen c + zlen (msg_line pid m) < 2 ^ 63 ->
    (1 <= i <= 3)%nat -> log_files s !! log_name path i = None ->
    log_files (do_log (fun _ => true) pid false m s).2 !! path = Some (msg_line pid m)) /\
  (copies_full path (log_files s) ->
    (forall ms, Forall msg_ok ms ->
      log_files (log_all false (fun _ => true) pid ms s).2 =
      <[path := c ++ log_lines pid (g_level (g_diag s)) ms]> (log_files s)) /\
    (forall n, exists ms c', log_files (log_all false (fun _ => true) pid ms s).2 !! path = Some c' /\ n <= zlen c')).
Proof.
  intros Hp Hn L. split.
  - intros m i Hv Hm Hsz Hi Hf. destruct (do_log_false pid path Hp Hn s c m L Hv Hm) as (_ & _ & _ & ->).
    pose proof (zlen_nonneg c). pose proof (zlen_nonneg (msg_line pid m)).
    rewrite size_t_small by lia. destruct (_ <? _) eqn:E; b2p; [lia|].
    by rewrite lookup_insert_eq, (rotated_gap path _ i).
  - intros F. split; [intros ms Hms; by apply log_all_full|]. intros n.
    set (m := LogMsg 0 DIAG_LEVEL_ERROR None None 0 []). set (ms := replicate (Z.to_nat n) m).
    assert (Forall msg_ok ms) as Hms by (apply Forall_replicate; vm_compute; discriminate).
    exists ms. eexists. rewrite (log_all_full pid path Hp Hn ms s c L F Hms), lookup_insert_eq. split; [done|].
    rewrite zlen_app. pose proof (zlen_nonneg c). enough (n <= zlen (log_lines pid (g_level (g_diag s)) ms)) by lia.
    assert (forall k, Z.of_nat k <= zlen (log_lines pid (g_level (g_diag s)) (replicate k m))) as Hk.
    { induction k as [|k IH]; [done|]. unfold log_lines in *. cbn [replicate List.filter].
      replace (level_value (m_level m) <=? _) with true by (by destruct (g_level (g_diag s))).
      cbn [map concat]. rewrite zlen_app. enough (1 <= zlen (msg_line pid m)) by lia.
      unfold msg_line, log_line. rewrite !zlen_app. change (zlen [LF]) with 1.
      repeat match goal with |- context [zlen ?x] => lazymatch goal with H : 0 <= zlen x |- _ => fail | _ => pose proof (zlen_nonneg x) end end.
      lia. }
    specialize (Hk (Z.to_nat n)). unfold ms. lia.
Qed.

Definition full_logs : gmap bytes bytes :=
  <[lit "a.log" := lit "x"]> (<[lit "a.log.1" := lit "1"]> (<[lit "a.log.2" := lit "2"]> (<[lit "a.log.3" := lit "3"]> ∅))).

Lemma log_grows_without_replace_witness :
  log_files (log_all false (fun _ => true) 1 [hello_msg; hello_msg] (started (lit "a.log") full_logs)).2 =
  <[lit "a.log" := lit "x" ++ log_lines 1 DIAG_LEVEL_DEBUG [hello_msg; hello_msg]]> full_logs.
Proof.
  destruct (log_grows_without_replace 1 (lit "a.log") (lit "x") (started (lit "a.log") full_logs)) as [_ H].
  - vm_compute. reflexivity.
  - discriminate.
  - split; [reflexivity|reflexivity|vm_compute; reflexivity].
  - destruct H as [H _].
    + intros i Hi. do 4 (destruct i as [|i]; [try lia; eexists; vm_compute; reflexivity|]). lia.
    + refine (H [hello_msg; hello_msg] _). repeat (apply Forall_cons_2; [vm_compute; discriminate|]). apply Forall_nil_2.
Defined.

(** The dump shows the first 340 bytes of the frame. *)
Lemma hex_loop_eq frame n :
  (n <= 340)%nat ->
  hex_loop frame (3 * (340 - n)) = concat (map (fun b => hex2 b ++ lit " ") (take n frame)).
Proof.
  revert n. induction frame as [|b frame IH]; intros n Hn; [by rewrite take_nil|]. cbn [hex_loop].
  destruct n as [|n]; [done|]. destruct (Nat.ltb _ _) eqn:E; [|apply Nat.ltb_ge in E; lia].
  cbn [firstn map concat]. rewrite <- app_assoc, <- IH by lia. do 3 f_equal. lia.
Qed.

Lemma hex_loop_shows frame :
  hex_loop frame 0 = concat (map (fun b => hex2 b ++ lit " ") (take 340 frame)).
Proof. exact (hex_loop_eq frame 340 ltac:(lia)). Qed.
