(* ===== verification/Handlers.v ===== *)
(** * What every handler keeps

    The facts about [protocol_handle_control] and [heartbeat_cb] that hold
    for every frame, every script and every behaviour of the environment:
    the receive buffer is left alone, the write queue and the transfers stay
    well-formed, and no closed session is reopened. *)

From Stdlib Require Import ZArith Lia Bool.
From Stdlib Require Import Strings.Byte Strings.String.
From stdpp Require Import base list numbers option gmap.
From S2P Require Import Prelude CLib Frame Kv State Uv Tables Session Transfer Upload.
From S2P Require Import Proc ProcLife Heartbeat Lua Protocol.

(** ** The receive buffer *)

Definition same_rx {W} (st st' : St W) : Prop :=
  s_rx_buf (sess st') = s_rx_buf (sess st) /\ s_rx_cap (sess st') = s_rx_cap (sess st).

#[global] Instance same_rx_preorder {W} : PreOrder (@same_rx W).
Proof. split; [by split|]. intros a b c [] []. split; congruence. Qed.

Section same_rx.
Context {W : Type} `{!Uv W}.

Lemma send_frame_rx type req_id payload : keeps same_rx (session_send_frame (W := W) type req_id payload).
Proof. intros st. by destruct (session_send_frame_parts type req_id payload st). Qed.

Lemma send_text_rx type req_id payload : keeps same_rx (session_send_text (W := W) type req_id payload).
Proof. apply send_frame_rx. Qed.

Lemma send_error_rx req_id code message : keeps same_rx (session_send_error (W := W) req_id code message).
Proof. intros st. by destruct (send_error_parts req_id code message st). Qed.

Lemma close_rx : keeps same_rx (session_close (W := W)).
Proof. intros st. by destruct (session_close_parts st). Qed.
End same_rx.

#[export] Hint Resolve send_frame_rx send_text_rx send_error_rx close_rx : keeps.

Ltac rx_solve :=
  unfold mod_transfer, mod_proc, diag_count_transfer_start, diag_count_transfer_complete,
    diag_count_transfer_abort, diag_count_process_exit, diag_count_process_spawn,
    diag_count_process_timeout, diag_count_lua_error, diag_count_protocol_error,
    diag_count_heartbeat, diag_count, session_add_ref, uv_close, uv_opened, send_error, mod_sess, report;
  solve_keeps.

Section handlers_rx.
Context {W : Type} `{!Uv W, !Lua W}.

Lemma put_begin_rx req_id payload : keeps same_rx (transfer_handle_put_begin (W := W) req_id payload).
Proof. unfold transfer_handle_put_begin, transfer_abort. rx_solve. Qed.

Lemma put_chunk_rx req_id payload : keeps same_rx (transfer_handle_put_chunk (W := W) req_id payload).
Proof. unfold transfer_handle_put_chunk, transfer_abort. rx_solve. Qed.

Lemma put_end_rx req_id : keeps same_rx (transfer_handle_put_end (W := W) req_id).
Proof. unfold transfer_handle_put_end, transfer_finalize_rename, transfer_abort. rx_solve. Qed.

Lemma get_loop_rx fuel req_id : keeps same_rx (get_loop (W := W) fuel req_id).
Proof. induction fuel as [|fuel IH]; cbn [get_loop]; unfold transfer_abort; rx_solve. Qed.

Lemma get_begin_rx req_id payload : keeps same_rx (transfer_handle_get_begin (W := W) req_id payload).
Proof.
  unfold transfer_handle_get_begin, transfer_abort. pose proof get_loop_rx.
  rx_solve.
Qed.
End handlers_rx.

#[export] Hint Resolve put_begin_rx put_chunk_rx put_end_rx get_begin_rx : keeps.

(** ** Processes and scripts leave the transfers and the buffer alone *)

Record same_io {W} (st st' : St W) : Prop := SameIo {
  si_upload : s_upload (sess st') = s_upload (sess st);
  si_download : s_download (sess st') = s_download (sess st);
  si_rx : same_rx st st'
}.

#[global] Instance same_io_preorder {W} : PreOrder (@same_io W).
Proof.
  split; [by split|]. intros a b c [? ? H1] [? ? H2]. split; [congruence..|by transitivity b].
Qed.

Lemma transfers_ok_same_io {W} (st st' : St W) : same_io st st' -> transfers_ok st -> transfers_ok st'.
Proof. intros [H1 H2 _]. unfold transfers_ok. by rewrite H1, H2. Qed.

Section same_io.
Context {W : Type} `{!Uv W, !Lua W}.

Lemma send_frame_io type req_id payload : keeps same_io (session_send_frame (W := W) type req_id payload).
Proof. intros st. by destruct (session_send_frame_parts type req_id payload st). Qed.

Lemma send_text_io type req_id payload : keeps same_io (session_send_text (W := W) type req_id payload).
Proof. apply send_frame_io. Qed.

Lemma send_error_io req_id code message : keeps same_io (session_send_error (W := W) req_id code message).
Proof. intros st. by destruct (send_error_parts req_id code message st). Qed.

Lemma close_io : keeps same_io (session_close (W := W)).
Proof. intros st. by destruct (session_close_parts st). Qed.

Hint Resolve send_frame_io send_text_io send_error_io close_io : keeps.

Lemma dup_all_io args : keeps same_io (dup_all (W := W) args).
Proof. induction args as [|a args IH]; cbn [dup_all]; rx_solve. Qed.

Lemma copy_args_io n payload i : keeps same_io (copy_args (W := W) n payload i).
Proof. revert i. induction n as [|n IH]; intros i; cbn [copy_args]; rx_solve. Qed.

Hint Resolve dup_all_io copy_args_io : keeps.

Lemma build_args_io payload path : keeps same_io (proc_build_args (W := W) payload path).
Proof. unfold proc_build_args. rx_solve. Qed.

Lemma spawn_common_io req_id path args timeout idle ack :
  keeps same_io (proc_spawn_common (W := W) req_id path args timeout idle ack).
Proof. unfold proc_spawn_common. rx_solve. Qed.

Hint Resolve build_args_io spawn_common_io : keeps.

Lemma handle_spawn_io req_id payload : keeps same_io (proc_handle_spawn (W := W) req_id payload).
Proof. unfold proc_handle_spawn. rx_solve. Qed.

Lemma handle_kill_io um req_id payload : keeps same_io (proc_handle_kill (W := W) um req_id payload).
Proof. unfold proc_handle_kill. rx_solve. Qed.

Lemma spawn_direct_io path argv timeout idle : keeps same_io (proc_spawn_direct (W := W) path argv timeout idle).
Proof. unfold proc_spawn_direct, proc_dup_args. rx_solve. Qed.

Lemma check_timeouts_io now : keeps same_io (proc_check_timeouts (W := W) now).
Proof. unfold proc_check_timeouts. rx_solve. Qed.

Hint Resolve spawn_direct_io : keeps.

Lemma call_ports_io {A} (f : shared -> W -> option (A * shared * W)) : keeps same_io (call_ports f).
Proof. intros st. unfold call_ports. by destruct (f _ _) as [[[a sh] w]|]. Qed.

Hint Resolve call_ports_io : keeps.

Lemma run_call_io c : keeps same_io (run_call (W := W) c).
Proof.
  destruct c; cbn [run_call]; unfold l_now_ms, l_reply, l_error, l_proc_spawn, l_fs_list, l_port_open,
    l_port_close, l_port_list, l_debug_sessions, l_debug_transfers, l_debug_procs, l_debug_stats; rx_solve.
Qed.

Hint Resolve run_call_io : keeps.

Lemma lua_pcall_io s : keeps same_io (lua_pcall (W := W) s).
Proof. induction s as [| | |c k IH|f k IH]; cbn [lua_pcall]; rx_solve. Qed.

Hint Resolve lua_pcall_io : keeps.

Lemma dispatch_io req_id payload : keeps same_io (lua_engine_dispatch (W := W) req_id payload).
Proof. unfold lua_engine_dispatch. rx_solve. Qed.

Lemma handle_control_rx um type req_id payload :
  keeps same_rx (protocol_handle_control (W := W) um type req_id payload).
Proof.
  assert (Hio : forall A (m : M (St W) A), keeps same_io m -> keeps same_rx m).
  { intros A m H st. by destruct (H st). }
  pose proof (fun r p => Hio _ _ (dispatch_io r p)). pose proof (fun r p => Hio _ _ (handle_spawn_io r p)).
  pose proof (fun u r p => Hio _ _ (handle_kill_io u r p)).
  unfold protocol_handle_control. rx_solve.
Qed.
End same_io.

(** ** The transfers *)

Section transfers.
Context {W : Type} `{!Uv W, !Lua W, !FsView W, !FsLaws W}.
Implicit Types st : St W.

Lemma wp_same_io {A} (m : M (St W) A) (Q : A -> St W -> Prop) st :
  keeps same_io m -> transfers_ok st -> (forall a st', transfers_ok st' -> Q a st') -> wp m Q st.
Proof. intros Hm Ht HQ. apply HQ. apply (transfers_ok_same_io st); [apply Hm|done]. Qed.

(** Every frame leaves the transfers well-formed, and is handled in finitely
    many steps when the scripts return. *)
Lemma handle_control_transfers um type req_id payload st :
  transfers_ok st ->
  wp (protocol_handle_control um type req_id payload)
    (fun r st' => (LuaReturns W -> is_Some r) /\ transfers_ok st') st.
Proof.
  intros Ht. unfold protocol_handle_control.
  assert (Hret : forall A (m : M (St W) A) (f : A -> option Z) st1,
    (forall a, is_Some (f a)) -> wp m (fun _ => transfers_ok) st1 ->
    wp (m ≫= fun a => mret (f a)) (fun r st' => (LuaReturns W -> is_Some r) /\ transfers_ok st') st1).
  { intros A m f st1 Hf H. apply wp_bind. eapply wp_mono; [exact H|]. intros a st' H'. by apply wp_ret. }
  assert (Hsome : forall A (g : A -> Z) a, is_Some (Some (g a))) by (intros; by eexists).
  assert (Hio : forall A (m : M (St W) A) st1, keeps same_io m -> transfers_ok st1 -> wp m (fun _ => transfers_ok) st1).
  { intros A m st1 Hm H1. by apply wp_same_io. }
  destruct (type =? FRAME_PUT_CHUNK); [apply (Hret _ _ Some); [apply (Hsome _ id)|by apply put_chunk_ok]|].
  destruct (type =? FRAME_PUT_END); [apply (Hret _ _ Some); [apply (Hsome _ id)|by apply put_end_ok]|].
  apply wp_bind, wp_lift. intros ok w _. set (st1 := st <| world := w |>).
  assert (Ht1 : transfers_ok st1) by exact Ht. clearbody st1. clear Ht.
  destruct (negb ok); [apply (Hret _ _ (fun _ => Some (-1))); [by eexists|apply Hio; [apply send_error_io|done]]|].
  destruct (type =? FRAME_HELLO); [apply (Hret _ _ Some); [apply (Hsome _ id)|apply Hio; [apply send_text_io|done]]|].
  destruct (type =? FRAME_PING); [apply (Hret _ _ Some); [apply (Hsome _ id)|apply Hio; [apply send_text_io|done]]|].
  destruct (type =? FRAME_OP).
  { apply wp_bind. pose proof (Hio _ _ st1 (dispatch_io req_id (cstr payload)) Ht1) as Ht2.
    pose proof (fun H => lua_dispatch_returns (LuaReturns0 := H) req_id (cstr payload) st1) as Hsc.
    unfold wp at 1 in Ht2. unfold wp at 1. destruct (lua_engine_dispatch _ _ st1) as [[rc|] st2]; cbn [fst snd] in *;
      [|by apply wp_ret].
    destruct (negb (rc =? 0)); [|apply wp_ret; split; [by eexists|done]].
    apply wp_bind, wp_modify. apply (Hret _ _ (fun _ => Some (-1))); [by eexists|]. apply Hio; [apply send_error_io|exact Ht2]. }
  destruct (type =? FRAME_PUT_BEGIN); [apply (Hret _ _ (fun rc => Some (fail_code rc))); [apply Hsome|by apply put_begin_ok]|].
  destruct (type =? FRAME_GET_BEGIN).
  { apply wp_bind. eapply wp_mono; [by apply get_begin_ok|]. intros r st2 [Ht2 [->| ->]]; apply wp_ret; (split; [by eexists|done]). }
  destruct (type =? FRAME_PROC_SPAWN); [apply (Hret _ _ (fun rc => Some (fail_code rc))); [apply Hsome|apply Hio; [apply handle_spawn_io|done]]|].
  destruct (type =? FRAME_KILL); [apply (Hret _ _ (fun rc => Some (fail_code rc))); [apply Hsome|apply Hio; [apply handle_kill_io|done]]|].
  apply wp_bind, wp_modify. apply (Hret _ _ (fun _ => Some (-1))); [by eexists|]. apply Hio; [apply send_error_io|exact Ht1].
Qed.

Lemma heartbeat_transfers st : transfers_ok st -> wp heartbeat_cb (fun _ => transfers_ok) st.
Proof.
  intros Ht. unfold heartbeat_cb. apply wp_bind, wp_now. intros t w _.
  do 2 wp_step. wp_step; [by apply wp_ret|]. do 2 wp_step. wp_step.
  { apply wp_same_io; [apply close_io|exact Ht|done]. }
  do 2 wp_step. apply wp_bind.
  assert (Hq : forall st1, transfers_ok st1 ->
    wp (transfer_check_timeout s_upload (t / 1000000);; transfer_check_timeout s_download (t / 1000000);;
        proc_check_timeouts (t / 1000000)) (fun _ => transfers_ok) st1).
  { intros st1 H1. apply wp_bind. eapply wp_mono; [by apply check_timeout_upload_ok|]. intros ? st2 H2. cbn beta in H2.
    apply wp_bind. unfold wp at 1. rewrite check_timeout_idle by apply H2. cbn.
    apply wp_same_io; [apply check_timeouts_io|done|done]. }
  wp_step.
  - apply wp_bind, wp_modify. do 2 wp_step. do 2 wp_step. apply wp_bind.
    apply wp_same_io; [apply send_text_io|exact Ht|]. intros _ st1 H1. by apply wp_ret, Hq.
  - by apply wp_ret, Hq.
Qed.
End transfers.

(** ** The write queue *)

(** The strings a script sends are objects in memory. *)
Definition call_ok (c : lua_call) : Prop :=
  match c with
  | L_reply _ _ payload => zlen (default [] payload) < 2 ^ 63
  | _ => True
  end.

Inductive script_ok {W} : script W -> Prop :=
| SK_return : script_ok S_return
| SK_raise : script_ok S_raise
| SK_diverge : script_ok S_diverge
| SK_call c k : call_ok c -> (forall v, script_ok (k v)) -> script_ok (S_call c k)
| SK_io f k : (forall w, script_ok (k w)) -> script_ok (S_io f k).

Class LuaOk (W : Type) `{!Lua W} :=
  lua_scripts_ok : forall req_id payload w s, dispatch_request req_id payload w = Some s -> script_ok s.

Lemma cstr_le b : zlen (cstr b) <= zlen b.
Proof. unfold zlen, cstr. pose proof (take_while_le (fun c => negb (Byte.eqb c NUL)) b). lia. Qed.

Ltac handler_net_step :=
  lazymatch goal with
  | |- keeps _ (mod_proc _) => apply net_modify; [by split|by intros ? ?]
  | |- keeps _ session_add_ref => apply net_modify; [by split|by intros ? ?]
  | |- keeps _ (report _) => apply net_modify; [by split|by intros ? ?]
  | |- keeps _ diag_count_process_exit => apply net_modify; [by split|by intros ? ?]
  | |- keeps _ diag_count_process_spawn => apply net_modify; [by split|by intros ? ?]
  | |- keeps _ diag_count_process_timeout => apply net_modify; [by split|by intros ? ?]
  | |- keeps _ diag_count_lua_error => apply net_modify; [by split|by intros ? ?]
  | |- keeps _ diag_count_protocol_error => apply net_modify; [by split|by intros ? ?]
  | |- keeps _ diag_count_heartbeat => apply net_modify; [by split|by intros ? ?]
  | |- keeps _ (uv_close _ _) => unfold uv_close
  | |- keeps _ (uv_opened _) => unfold uv_opened
  | |- keeps _ (session_send_text _ _ (Some _)) =>
      apply session_send_text_net; cbn [default from_option id];
      first [eapply (snprintf_short 256); [lia|eassumption]
            |eapply (snprintf_short 128); [lia|eassumption]
            |vm_compute; reflexivity|idtac]
  | _ => net_step
  end.

Section handlers_net.
Context {W : Type} `{!Uv W, !Lua W}.

Lemma dup_all_net args : keeps net_rel (dup_all (W := W) args).
Proof. induction args as [|a args IH]; cbn [dup_all]; repeat first [exact IH|handler_net_step]. Qed.

Lemma copy_args_net n payload i : keeps net_rel (copy_args (W := W) n payload i).
Proof. revert i. induction n as [|n IH]; intros i; cbn [copy_args]; repeat first [apply IH|handler_net_step]. Qed.

Lemma build_args_net payload path : keeps net_rel (proc_build_args (W := W) payload path).
Proof. unfold proc_build_args. repeat first [apply copy_args_net|handler_net_step]. Qed.

Lemma spawn_common_net req_id path args timeout idle ack :
  keeps net_rel (proc_spawn_common (W := W) req_id path args timeout idle ack).
Proof. unfold proc_spawn_common. repeat handler_net_step. Qed.

Lemma handle_spawn_net req_id payload : keeps net_rel (proc_handle_spawn (W := W) req_id payload).
Proof.
  unfold proc_handle_spawn.
  repeat first [apply build_args_net|apply spawn_common_net|handler_net_step].
Qed.

Lemma handle_kill_net um req_id payload : keeps net_rel (proc_handle_kill (W := W) um req_id payload).
Proof. unfold proc_handle_kill. repeat handler_net_step. Qed.

Lemma check_timeouts_net now : keeps net_rel (proc_check_timeouts (W := W) now).
Proof. unfold proc_check_timeouts. repeat handler_net_step. Qed.

Lemma spawn_direct_net path argv timeout idle : keeps net_rel (proc_spawn_direct (W := W) path argv timeout idle).
Proof.
  unfold proc_spawn_direct, proc_dup_args.
  repeat first [apply dup_all_net|apply spawn_common_net|handler_net_step].
Qed.

Lemma call_ports_net {A} (f : shared -> W -> option (A * shared * W)) : keeps net_rel (call_ports f).
Proof.
  intros st. unfold call_ports. destruct (f _ _) as [[[a sh] w]|]; (apply net_rel_same; [by split|by intros ?]).
Qed.

Lemma run_call_net c : call_ok c -> keeps net_rel (run_call (W := W) c).
Proof.
  intros Hc. destruct c as [| |req_id kind payload| | | | | | | | | |]; cbn [run_call];
    unfold l_now_ms, l_reply, l_error, l_proc_spawn, l_fs_list, l_port_open,
      l_port_close, l_port_list, l_debug_sessions, l_debug_transfers, l_debug_procs, l_debug_stats;
    repeat lazymatch goal with
    | |- keeps _ (call_ports _) => apply call_ports_net
    | |- keeps _ (proc_spawn_direct _ _ _ _) => apply spawn_direct_net
    | |- keeps _ (session_send_text _ _ _) => apply session_send_text_net; cbn [default from_option id]
    | _ => handler_net_step
    end.
  cbn in Hc. pose proof (cstr_le (default [] payload)). lia.
Qed.

Lemma lua_pcall_net s : script_ok s -> keeps net_rel (lua_pcall (W := W) s).
Proof.
  induction 1 as [| | |c k Hc _ IH|f k _ IH]; cbn [lua_pcall];
    repeat lazymatch goal with
    | |- keeps _ (lua_pcall _) => apply IH
    | |- keeps _ (run_call _) => apply (run_call_net _ Hc)
    | _ => handler_net_step
    end.
Qed.

Context `{!LuaOk W}.

Lemma dispatch_net req_id payload : keeps net_rel (lua_engine_dispatch (W := W) req_id payload).
Proof.
  unfold lua_engine_dispatch. refine (keeps_bind _ _ _ _ _); [refine (keeps_gets _ _)|]. intros w.
  destruct (dispatch_request req_id payload w) as [s|] eqn:E; [|refine (keeps_ret _ _)].
  pose proof (lua_pcall_net s (lua_scripts_ok _ _ _ _ E)).
  repeat lazymatch goal with
  | |- keeps _ (lua_pcall _) => assumption
  | _ => handler_net_step
  end.
Qed.

Context `{!FsView W, !FsLaws W}.

Lemma handle_control_net um type req_id payload :
  keeps net_rel (protocol_handle_control (W := W) um type req_id payload).
Proof.
  unfold protocol_handle_control.
  repeat lazymatch goal with
  | |- keeps _ (transfer_handle_put_begin _ _) => apply put_begin_net
  | |- keeps _ (transfer_handle_put_chunk _ _) => apply put_chunk_net
  | |- keeps _ (transfer_handle_put_end _) => apply put_end_net
  | |- keeps _ (transfer_handle_get_begin _ _) => apply get_begin_net
  | |- keeps _ (proc_handle_spawn _ _) => apply handle_spawn_net
  | |- keeps _ (proc_handle_kill _ _ _) => apply handle_kill_net
  | |- keeps _ (lua_engine_dispatch _ _) => apply dispatch_net
  | _ => handler_net_step
  end.
Qed.

Lemma check_timeout_download_net now : keeps net_rel (transfer_check_timeout (W := W) s_download now).
Proof.
  unfold transfer_check_timeout.
  repeat lazymatch goal with
  | |- keeps _ (transfer_abort s_download) => apply abort_download_net
  | |- keeps _ diag_count_transfer_abort => apply net_modify; [by split|by intros ? ?]
  | _ => handler_net_step
  end.
Qed.

Lemma heartbeat_net : keeps net_rel (heartbeat_cb (W := W)).
Proof.
  unfold heartbeat_cb.
  repeat lazymatch goal with
  | |- keeps _ (transfer_check_timeout s_upload _) => apply check_timeout_upload_net
  | |- keeps _ (transfer_check_timeout s_download _) => apply check_timeout_download_net
  | |- keeps _ (proc_check_timeouts _) => apply check_timeouts_net
  | _ => handler_net_step
  end.
Qed.
End handlers_net.
