(* ===== verification/Stream.v ===== *)
(** * Cutting a byte stream into frames

    The reference for the receive loop of [src/server.c]: a function from the
    bytes of a stream to the frames in it, without buffer or offsets.  It
    inverts the encoding of frames, and cutting a stream into pieces does not
    change the frames found. *)

From Stdlib Require Import ZArith Lia Bool.
From Stdlib Require Import Strings.Byte Strings.String.
From stdpp Require Import base list numbers.
From S2P Require Import Prelude CLib Frame.

(** ** The reference *)

(** A received frame. *)
Notation frame := (frame_header * bytes)%type.

Definition encode_frame (f : frame) : bytes := header_bytes f.1 ++ f.2.

Definition frame_ok (f : frame) : Prop := header_valid f.1 /\ fh_length f.1 = zlen f.2.

(** What is at the front of a buffer. *)
Inductive front :=
| F_more
| F_bad
| F_frame (f : frame) (rest : bytes).

Definition next_frame (buf : bytes) : front :=
  match frame_decode_header (Some buf) (zlen buf) (Some (FrameHeader 0 0 0 0)) with
  | (1, Some h) =>
      let n := Z.to_nat (frame_header_size + fh_length h) in
      if zlen buf <? frame_header_size + fh_length h then F_more
      else F_frame (h, take (Z.to_nat (fh_length h)) (drop 14 buf)) (drop n buf)
  | (0, _) => F_more
  | _ => F_bad
  end.

(** Where parsing stops: waiting for more after the rest of the bytes, or at
    bytes that are not a frame. *)
Inductive stop :=
| Wait (rest : bytes)
| Bad (rest : bytes).

Fixpoint parse_loop (fuel : nat) (buf : bytes) : list frame * stop :=
  match fuel with
  | O => ([], Wait buf)
  | S fuel' =>
      match next_frame buf with
      | F_more => ([], Wait buf)
      | F_bad => ([], Bad buf)
      | F_frame f rest => let '(fs, e) := parse_loop fuel' rest in (f :: fs, e)
      end
  end.

(** Every frame takes at least 14 bytes, so the length is enough fuel. *)
Definition parse (buf : bytes) : list frame * stop := parse_loop (S (length buf)) buf.

(** The frames found when the stream arrives in pieces: the bytes left over
    by one piece are put before the next. *)
Fixpoint feed (left : bytes) (pieces : list bytes) : list frame * stop :=
  match pieces with
  | [] => ([], Wait left)
  | p :: pieces' =>
      match parse (left ++ p) with
      | (fs, Wait rest) => let '(fs', e) := feed rest pieces' in (fs ++ fs', e)
      | (fs, Bad rest) => (fs, Bad (rest ++ concat pieces'))
      end
  end.

Arguments next_frame : simpl never.
Arguments parse : simpl never.

(** ** Lemmas *)

Lemma length_drop14 (s : bytes) : zlen (drop 14 s) = Z.max 0 (zlen s - 14).
Proof. by rewrite zlen_drop. Qed.

(** What a front says about the bytes. *)
Lemma next_frame_spec buf :
  match next_frame buf with
  | F_more =>
      zlen buf < 14 \/
      exists h, header_valid h /\ take 14 buf = header_bytes h /\ zlen buf < 14 + fh_length h
  | F_bad => 14 <= zlen buf
  | F_frame f rest => buf = encode_frame f ++ rest /\ frame_ok f
  end.
Proof.
  unfold next_frame. destruct (Z.lt_ge_cases (zlen buf) 14) as [Hs|Hs].
  { unfold frame_decode_header. destruct (zlen buf <? frame_header_size) eqn:E; b2p; [by left|].
    unfold frame_header_size in E. lia. }
  pose proof (decode_in_range buf (zlen buf) (FrameHeader 0 0 0 0)) as Hrange.
  rewrite decode_eval in * by done.
  destruct (mem_eq buf LUAGENT_MAGIC LUAGENT_MAGIC_SIZE) eqn:Em; [|done].
  cbv zeta in *. set (h := FrameHeader _ _ _ _) in *.
  specialize (Hrange h _ Hs eq_refl eq_refl).
  destruct (validate_rc (Some h)) as [E|E]; rewrite E; cbn [Z.eqb]; [|done].
  apply validate_ok in E as [E1 E2].
  assert (Hb : header_bytes h = take 14 buf).
  { apply bytes_eqb_eq in Em. unfold zlen in Hs.
    do 14 (destruct buf as [|? buf]; [cbn in Hs; lia|]).
    unfold header_bytes, h. cbn [fh_type fh_flags fh_req_id fh_length drop].
    rewrite !write_read_u32le by (cbn; lia). cbn in Em |- *.
    unfold at_. cbn. rewrite !z2b_b2z. by injection Em as -> -> -> ->. }
  unfold FRAME_STATUS_OK. cbv iota. unfold frame_header_size.
  destruct (zlen buf <? 14 + fh_length h) eqn:El; b2p.
  { right. exists h. split; [exact (conj Hrange (conj E2 E1))|by split]. }
  pose proof Hrange as (? & ? & ? & Hlen).
  unfold encode_frame, frame_ok. cbn [fst snd]. rewrite Hb, <- app_assoc, zlen_take, length_drop14.
  split; [|split; [exact (conj Hrange (conj E2 E1))|lia]].
  rewrite <- (take_drop 14 buf) at 1. f_equal.
  rewrite <- (take_drop (Z.to_nat (fh_length h)) (drop 14 buf)) at 1. f_equal.
  rewrite drop_drop. f_equal. lia.
Qed.

Lemma zlen_header_bytes h : zlen (header_bytes h) = 14.
Proof. unfold zlen. by rewrite length_header_bytes. Qed.

Lemma next_frame_encode f rest : frame_ok f -> next_frame (encode_frame f ++ rest) = F_frame f rest.
Proof.
  intros [Hv Hl]. unfold next_frame, encode_frame. rewrite <- app_assoc.
  pose proof (zlen_nonneg f.2). pose proof (zlen_nonneg rest).
  rewrite decode_header_bytes; [|done|rewrite !zlen_app, zlen_header_bytes; unfold frame_header_size; lia].
  unfold FRAME_STATUS_OK. cbv iota. unfold frame_header_size. rewrite !zlen_app, zlen_header_bytes, Hl.
  destruct (_ <? _) eqn:E; b2p; [lia|]. f_equal.
  - destruct f as [h p]. cbn [fst snd] in *. f_equal.
    change 14%nat with (length (header_bytes h)). rewrite drop_app_length, to_nat_zlen. apply take_app_length.
  - rewrite app_assoc. apply drop_app_length'. rewrite length_app, length_header_bytes. unfold zlen. lia.
Qed.

(** Bytes that are more than a frame stay one when more follow. *)
Lemma next_frame_app buf x :
  match next_frame buf with
  | F_more => True
  | F_bad => next_frame (buf ++ x) = F_bad
  | F_frame f rest => next_frame (buf ++ x) = F_frame f (rest ++ x)
  end.
Proof.
  pose proof (next_frame_spec buf) as H. destruct (next_frame buf) as [| |f rest] eqn:E; [done| |].
  - revert E. unfold next_frame. pose proof (zlen_nonneg x).
    rewrite !decode_eval by (rewrite ?zlen_app; unfold frame_header_size; lia).
    assert (Hat : forall i, (i < 14)%nat -> at_ (buf ++ x) i = at_ buf i).
    { intros i Hi. unfold at_. rewrite lookup_app_l; [done|unfold zlen in H; lia]. }
    assert (Hrd : forall k, (k <= 10)%nat -> read_u32le (drop k (buf ++ x)) = read_u32le (drop k buf)).
    { intros k Hk. rewrite !read_u32le_sum. unfold at_. rewrite !lookup_drop.
      pose proof (fun j Hj => Hat (k + j)%nat Hj) as H4. unfold at_ in H4.
      rewrite !H4 by lia. done. }
    assert (Hm : mem_eq (buf ++ x) LUAGENT_MAGIC LUAGENT_MAGIC_SIZE = mem_eq buf LUAGENT_MAGIC LUAGENT_MAGIC_SIZE).
    { unfold mem_eq. rewrite take_app_le; [done|unfold zlen in H; unfold LUAGENT_MAGIC_SIZE; lia]. }
    rewrite Hm, !Hat, !Hrd by lia. unfold FRAME_STATUS_OK, FRAME_STATUS_ERROR.
    clear Hm. destruct (mem_eq buf LUAGENT_MAGIC LUAGENT_MAGIC_SIZE); [|by intros _]. cbv zeta. set (h := FrameHeader _ _ _ _).
    destruct (frame_validate_header (Some h) =? 0); cbv iota; [by destruct (zlen buf <? _)|by intros _].
  - destruct H as [-> Hf]. rewrite <- app_assoc. by apply next_frame_encode.
Qed.

(** The frame at the front takes at least 14 bytes. *)
Lemma next_frame_shorter buf f rest : next_frame buf = F_frame f rest -> (length rest < length buf)%nat.
Proof.
  intros E. pose proof (next_frame_spec buf) as H. rewrite E in H. destruct H as [-> _].
  unfold encode_frame. rewrite !length_app, length_header_bytes. lia.
Qed.

Lemma parse_loop_fuel f1 f2 buf :
  (length buf < f1)%nat -> (length buf < f2)%nat -> parse_loop f1 buf = parse_loop f2 buf.
Proof.
  revert f2 buf. induction f1 as [|f1 IH]; intros [|f2] buf H1 H2; [lia..|]. cbn [parse_loop].
  destruct (next_frame buf) as [| |f rest] eqn:E; [done..|]. apply next_frame_shorter in E.
  rewrite (IH f2) by lia. done.
Qed.

Lemma parse_unfold buf :
  parse buf = match next_frame buf with
              | F_more => ([], Wait buf)
              | F_bad => ([], Bad buf)
              | F_frame f rest => let '(fs, e) := parse rest in (f :: fs, e)
              end.
Proof.
  unfold parse. cbn [parse_loop]. destruct (next_frame buf) as [| |f rest] eqn:E; [done..|].
  apply next_frame_shorter in E. rewrite (parse_loop_fuel _ (S (length rest))) by lia. done.
Qed.

(** Induction along the frames of a buffer. *)
Lemma parse_ind (P : bytes -> Prop) :
  (forall buf, (forall f rest, next_frame buf = F_frame f rest -> P rest) -> P buf) -> forall buf, P buf.
Proof.
  intros H buf. induction buf as [buf IH] using (induction_ltof1 _ (@length Byte.byte)). apply H.
  intros f rest E. apply IH. unfold ltof. by eapply next_frame_shorter.
Qed.

(** Parsing is canonical: the bytes are the frames found and the rest. *)
Lemma parse_sound buf :
  Forall frame_ok (parse buf).1 /\
  match (parse buf).2 with
  | Wait rest => buf = concat (map encode_frame (parse buf).1) ++ rest /\ next_frame rest = F_more
  | Bad rest => buf = concat (map encode_frame (parse buf).1) ++ rest /\ next_frame rest = F_bad
  end.
Proof.
  induction buf as [buf IH] using parse_ind. rewrite parse_unfold.
  destruct (next_frame buf) as [| |f rest] eqn:E; [by split; [constructor|]..|].
  pose proof (next_frame_spec buf) as Hs. rewrite E in Hs. destruct Hs as [Hb Hf].
  destruct (IH f rest eq_refl) as [H1 H2]. destruct (parse rest) as [fs e] eqn:Ep. cbn [fst snd] in *.
  split; [by constructor|]. cbn [map concat]. destruct e as [r|r]; destruct H2 as [H2 H3];
    (split; [|done]); rewrite Hb, <- app_assoc; by f_equal.
Qed.

Lemma parse_app buf x :
  parse (buf ++ x) =
  match parse buf with
  | (fs, Wait rest) => let '(fs', e) := parse (rest ++ x) in (fs ++ fs', e)
  | (fs, Bad rest) => (fs, Bad (rest ++ x))
  end.
Proof.
  induction buf as [buf IH] using parse_ind. rewrite (parse_unfold buf).
  pose proof (next_frame_app buf x) as Ha.
  destruct (next_frame buf) as [| |f rest] eqn:E.
  - by destruct (parse (buf ++ x)).
  - by rewrite parse_unfold, Ha.
  - rewrite parse_unfold, Ha, (IH f rest eq_refl). destruct (parse rest) as [fs [r|r]]; [|done].
    by destruct (parse (r ++ x)).
Qed.

Lemma parse_nil : parse [] = ([], Wait []).
Proof. reflexivity. Qed.

Lemma parse_frames_app fs x :
  Forall frame_ok fs ->
  parse (concat (map encode_frame fs) ++ x) = let '(fs', e) := parse x in (fs ++ fs', e).
Proof.
  induction 1 as [|f fs Hf _ IH]; cbn [map concat app]; [by destruct (parse x)|].
  rewrite <- app_assoc, parse_unfold, next_frame_encode, IH by done. by destruct (parse x).
Qed.

Lemma feed_parse pieces left :
  next_frame left = F_more -> feed left pieces = parse (left ++ concat pieces).
Proof.
  revert left. induction pieces as [|p pieces IH]; intros left Hl; cbn [feed concat].
  { by rewrite app_nil_r, parse_unfold, Hl. }
  rewrite app_assoc, (parse_app (left ++ p)). pose proof (parse_sound (left ++ p)) as [_ Hs].
  destruct (parse (left ++ p)) as [fs [rest|rest]]; [|done]. cbn in Hs. by rewrite IH by apply Hs.
Qed.

(** A proper prefix of a frame asks for more. *)
Lemma next_frame_prefix f x y : frame_ok f -> x ++ y = encode_frame f -> y <> [] -> next_frame x = F_more.
Proof.
  intros Hf E Hy. pose proof (next_frame_app x y) as H. pose proof (next_frame_encode f [] Hf) as Hn.
  rewrite app_nil_r, <- E in Hn. destruct (next_frame x) as [| |f' r]; [done|congruence|].
  rewrite H in Hn. injection Hn as _ [_ ->]%app_eq_nil. done.
Qed.

(** The frames that are complete at a point of a stream of frames, and the
    beginning of the next. *)
Lemma parse_prefix fs x y :
  Forall frame_ok fs -> x ++ y = concat (map encode_frame fs) ->
  exists done_ todo rest, fs = done_ ++ todo /\ parse x = (done_, Wait rest) /\
    rest ++ y = concat (map encode_frame todo) /\
    match todo with [] => rest = [] | f :: _ => zlen rest < zlen (encode_frame f) end.
Proof.
  intros Hfs. revert x. induction Hfs as [|f fs Hf Hfs IH]; intros x E; cbn [map concat] in E.
  { apply app_eq_nil in E as [-> ->]. by exists [], [], []. }
  apply app_eq_inv in E as [(k & -> & E)|(k & E & ->)].
  - destruct (IH k (eq_sym E)) as (g & todo & rest & -> & Hp & Hr & Hl).
    exists (f :: g), todo, rest. split; [done|]. split; [|by split].
    by rewrite parse_unfold, next_frame_encode, Hp.
  - destruct k as [|c k].
    + rewrite app_nil_r in E. destruct (IH [] eq_refl) as (g & todo & rest & -> & Hp & Hr & Hl).
      exists (f :: g), todo, rest. split; [done|]. split; [|by split].
      rewrite parse_unfold, <- E, <- (app_nil_r (encode_frame f)), next_frame_encode, Hp by done. done.
    + exists [], (f :: fs), x. split; [done|]. split; [|split].
      * by rewrite parse_unfold, (next_frame_prefix f x (c :: k)).
      * cbn [map concat]. by rewrite E, <- app_assoc.
      * rewrite E, zlen_app, zlen_cons. pose proof (zlen_nonneg k). lia.
Qed.

(** ** Theorems *)

(** C19: The stream parser inverts the encoding of frames: a concatenation of
    well-formed frames parses to exactly those frames with nothing left; and
    it is canonical: whatever the bytes, they are the encodings of the frames
    found followed by the rest, and all frames found are well-formed. *)
Theorem stream_roundtrip fs buf :
  (Forall frame_ok fs -> parse (concat (map encode_frame fs)) = (fs, Wait [])) /\
  Forall frame_ok (parse buf).1 /\
  buf = concat (map encode_frame (parse buf).1) ++ match (parse buf).2 with Wait r | Bad r => r end.
Proof.
  split.
  - intros H. pose proof (parse_frames_app fs [] H) as E. rewrite app_nil_r in E.
    by rewrite E, parse_nil, app_nil_r.
  - destruct (parse_sound buf) as [H1 H2]. split; [done|]. destruct (parse buf).2; apply H2.
Qed.

Lemma stream_roundtrip_witness :
  let fs := [(FrameHeader 1 0 7 0, []); (FrameHeader 21 0 8 3, lit "abc")] in
  parse (concat (map encode_frame fs)) = (fs, Wait []).
Proof.
  intros fs. refine (proj1 (stream_roundtrip fs []) _).
  repeat apply Forall_cons_2; try apply Forall_nil_2;
    (split; [unfold header_valid, header_in_range, LUAGENT_MAX_FRAME_PAYLOAD; cbn; lia|reflexivity]).
Defined.
