(* ===== verification/Server.v ===== *)
(** * Connections ([src/server.c])

    Accepting a connection, and the read callback that cuts the byte stream
    into frames. *)

From Stdlib Require Import ZArith Lia Bool.
From Stdlib Require Import Strings.Byte Strings.String.
From stdpp Require Import base list numbers option gmap.
From S2P Require Import Prelude CLib Frame Kv State Uv Session Transfer Upload Proc.
From S2P Require Import ProcLife Heartbeat Lua Protocol Handlers Stream.

(** How the frame loop of [read_cb] ends: not at all (a script that does not
    return, or out of fuel), by the [return] after a bad header, or at an
    offset. *)
Inductive loop_end :=
| LE_stuck
| LE_return
| LE_break (offset : Z).

Section server.
Context {W : Type} `{!Uv W, !Lua W}.
Notation M := (M (St W)).
Variable ulong_max : Z.

Fixpoint frame_loop (fuel : nat) (offset : Z) : M loop_end :=
  match fuel with
  | O => mret LE_stuck
  | S fuel' =>
      rx_buf ← get_sess s_rx_buf;
      let rest := drop (Z.to_nat offset) rx_buf in
      let avail := size_t (zlen rx_buf - offset) in
      if negb (frame_header_size <=? avail) then mret (LE_break offset)
      else
        let '(status, header) := frame_decode_header (Some rest) avail (Some (FrameHeader 0 0 0 0)) in
        let header := default (FrameHeader 0 0 0 0) header in
        if status =? FRAME_STATUS_NEED_MORE then mret (LE_break offset)
        else if status =? FRAME_STATUS_ERROR then
          diag_count_parse_failure;;
          session_close;;
          mret LE_return
        else
          let frame_size := size_t (frame_header_size + fh_length header) in
          if avail <? frame_size then mret (LE_break offset)
          else
            diag_count_frame_rx frame_size;;
            rc ← protocol_handle_control ulong_max (fh_type header) (fh_req_id header)
                   (take (Z.to_nat (fh_length header)) (drop (Z.to_nat frame_header_size) rest));
            match rc with
            | None => mret LE_stuck
            | Some _ => frame_loop fuel' (size_t (offset + frame_size))
            end
  end.

(** [read_cb] for [nread] and, when it is positive, the bytes read; [false]
    if it does not return. *)
Definition read_cb (nread : Z) (base : bytes) : M bool :=
  if nread <? 0 then session_close;; mret true
  else if nread =? 0 then mret true
  else
    now ← util_now_ms;
    mod_sess (upd s_last_rx_ms (fun _ => now));;
    s ← get_sess id;
    if s_rx_cap s <? size_t (s_rx_used s + nread) then session_close;; mret true
    else
      mod_sess (upd s_rx_buf (fun b => b ++ take (Z.to_nat nread) base));;
      rx_buf ← get_sess s_rx_buf;
      r ← frame_loop (S (length rx_buf)) 0;
      match r with
      | LE_stuck => mret false
      | LE_return => mret true
      | LE_break offset =>
          (if 0 <? offset then mod_sess (upd s_rx_buf (drop (Z.to_nat offset))) else mret tt);;
          mret true
      end.

(** [on_new_connection]: [true] when the session object outlives the call;
    otherwise it was not allocated or was freed again. *)
Definition on_new_connection (status : Z) : M bool :=
  if status <? 0 then mret false
  else
    ok ← lift (c_malloc 1);
    if negb ok then mret false
    else
      session_init;;
      mod_sess (upd s_rx_cap (fun _ => LUAGENT_READ_CHUNK * 4));;
      ok ← lift (c_malloc (LUAGENT_READ_CHUNK * 4));
      if negb ok then mret false
      else
        rc ← lift uv_tcp_init;
        if negb (rc =? 0) then mret false
        else
          uv_opened s_tcp;;
          rc ← lift uv_accept;
          if negb (rc =? 0) then session_close;; mret true
          else
            rc ← session_start_timers;
            if negb (rc =? 0) then session_close;; mret true
            else
              rc ← lift uv_read_start;
              if negb (rc =? 0) then session_close;; mret true
              else mret true.

(** ** The reference: receiving a piece of the stream *)

Definition dispatch_frame (f : frame) : M (option Z) :=
  diag_count_frame_rx (frame_header_size + fh_length f.1);;
  protocol_handle_control ulong_max (fh_type f.1) (fh_req_id f.1) f.2.

(** The frames in order; [false] if the handler of one does not return. *)
Fixpoint dispatch_all (fs : list frame) : M bool :=
  match fs with
  | [] => mret true
  | f :: fs' =>
      r ← dispatch_frame f;
      match r with None => mret false | Some _ => dispatch_all fs' end
  end.

Definition receive (data : bytes) : M bool :=
  now ← util_now_ms;
  mod_sess (upd s_last_rx_ms (fun _ => now));;
  s ← get_sess id;
  if s_rx_cap s <? s_rx_used s + zlen data then session_close;; mret true
  else
    let '(fs, e) := parse (s_rx_buf s ++ data) in
    mod_sess (upd s_rx_buf (fun b => b ++ data));;
    ok ← dispatch_all fs;
    if negb ok then mret false
    else
      match e with
      | Wait rest => mod_sess (upd s_rx_buf (fun _ => rest));; mret true
      | Bad _ => diag_count_parse_failure;; session_close;; mret true
      end.
End server.

(** ** Lemmas *)

Section server_lemmas.
Context {W : Type} `{!Uv W, !Lua W}.
Variable ulong_max : Z.
Implicit Types st : St W.

Lemma dispatch_frame_rx f : keeps same_rx (dispatch_frame (W := W) ulong_max f).
Proof.
  unfold dispatch_frame, diag_count_frame_rx, diag_count.
  refine (keeps_bind _ _ _ _ _); [intros st; by split|intros _]. apply handle_control_rx.
Qed.

(** The tests of the loop at an offset are those of the reference on the
    rest of the buffer. *)
Lemma frame_loop_step fuel st off :
  let buf := s_rx_buf (sess st) in
  let rest := drop (Z.to_nat off) buf in
  0 <= off <= zlen buf -> zlen buf < 2 ^ 62 ->
  frame_loop ulong_max (S fuel) off st =
  match next_frame rest with
  | F_more => (LE_break off, st)
  | F_bad => (diag_count_parse_failure;; session_close;; mret LE_return) st
  | F_frame f rest' =>
      (rc ← dispatch_frame ulong_max f;
       match rc with
       | None => mret LE_stuck
       | Some _ => frame_loop ulong_max fuel (off + zlen (encode_frame f))
       end) st
  end.
Proof.
  intros buf rest Ho Hb. pose proof (next_frame_spec rest) as Hspec.
  assert (Hr : zlen rest = zlen buf - off) by (unfold rest; rewrite zlen_drop; lia).
  cbn [frame_loop]. rewrite bind_run. cbn [fst snd get_sess gets]. fold buf. fold rest.
  rewrite size_t_small, <- Hr by lia. unfold next_frame in *.
  destruct (frame_header_size <=? zlen rest) eqn:Eh; b2p; cbn [negb].
  2: { unfold frame_decode_header. by rewrite (proj2 (Z.ltb_lt _ _) Eh). }
  assert (Hd : exists h, 0 <= fh_length h < 2 ^ 32 /\
    (frame_decode_header (Some rest) (zlen rest) (Some (FrameHeader 0 0 0 0)) = (FRAME_STATUS_OK, Some h)
    \/ frame_decode_header (Some rest) (zlen rest) (Some (FrameHeader 0 0 0 0)) = (FRAME_STATUS_ERROR, Some h))).
  { rewrite decode_eval by done. destruct (mem_eq _ _ _); [|eexists; split; [|by right]; cbn; lia]. cbv zeta.
    eexists. split; [|by destruct (frame_validate_header _ =? 0); [left|right]]. cbn. apply read_u32le_range. }
  destruct Hd as (h & Hlen & [Hd|Hd]); rewrite Hd in *;
    unfold FRAME_STATUS_OK, FRAME_STATUS_ERROR, FRAME_STATUS_NEED_MORE in *;
    cbn [Z.eqb Pos.eqb default from_option id]; [|done].
  cbv iota in Hspec |- *. rewrite (size_t_small (_ + _)) by (unfold frame_header_size; lia).
  destruct (zlen rest <? frame_header_size + fh_length h) eqn:El; b2p; [done|].
  destruct Hspec as [He [_ Hp]]. unfold dispatch_frame. rewrite !bind_run. cbn [fst snd] in *.
  unfold encode_frame. cbn [fst snd]. rewrite zlen_app, <- Hp, zlen_header_bytes.
  rewrite size_t_small by (unfold frame_header_size in *; lia). done.
Qed.

(** The loop refines the reference. *)
Lemma frame_loop_refines fuel st off :
  let buf := s_rx_buf (sess st) in
  0 <= off <= zlen buf -> zlen buf < 2 ^ 62 -> zlen buf - off < Z.of_nat fuel ->
  frame_loop ulong_max fuel off st =
  (let '(fs, e) := parse (drop (Z.to_nat off) buf) in
   ok ← dispatch_all ulong_max fs;
   if negb ok then mret LE_stuck
   else match e with
        | Wait rest => mret (LE_break (zlen buf - zlen rest))
        | Bad _ => diag_count_parse_failure;; session_close;; mret LE_return
        end) st.
Proof.
  revert st off. induction fuel as [|fuel IH]; intros st off buf Ho Hb Hf; [lia|].
  rewrite frame_loop_step by done. fold buf. rewrite parse_unfold.
  pose proof (next_frame_spec (drop (Z.to_nat off) buf)) as Hspec.
  destruct (next_frame (drop (Z.to_nat off) buf)) as [| |f rest] eqn:En.
  - rewrite zlen_drop. unfold mret, M_ret, mbind, M_bind. cbn. do 2 f_equal. lia.
  - done.
  - destruct Hspec as [Hd Hok]. destruct (parse rest) as [fs e] eqn:Ep. cbn [dispatch_all].
    pose proof (dispatch_frame_rx f st) as [Hrx _].
    rewrite !bind_run. destruct (dispatch_frame ulong_max f st) as [r st1]. cbn [fst snd] in *.
    destruct r as [rc|]; [|done]. fold buf in Hrx.
    assert (Hz : zlen (encode_frame f) + zlen rest = zlen buf - off).
    { rewrite <- zlen_app, <- Hd, zlen_drop. lia. }
    pose proof (zlen_nonneg rest).
    assert (He : 14 <= zlen (encode_frame f)).
    { unfold encode_frame. rewrite zlen_app, zlen_header_bytes. pose proof (zlen_nonneg f.2). lia. }
    rewrite IH by (rewrite Hrx; lia). rewrite Hrx.
    assert (Hrest : drop (Z.to_nat (off + zlen (encode_frame f))) buf = rest).
    { rewrite Z2Nat.inj_add, <- drop_drop, Hd, to_nat_zlen by lia. apply drop_app_length. }
    rewrite Hrest, Ep. by rewrite bind_run.
Qed.

Lemma dispatch_all_rx fs : keeps same_rx (dispatch_all (W := W) ulong_max fs).
Proof.
  induction fs as [|f fs IH]; cbn [dispatch_all]; [refine (keeps_ret _ _)|].
  refine (keeps_bind _ _ _ _ _); [apply dispatch_frame_rx|]. intros [rc|]; [exact IH|refine (keeps_ret _ _)].
Qed.

Lemma set_rx (f g : bytes -> bytes) st :
  f (s_rx_buf (sess st)) = g (s_rx_buf (sess st)) ->
  st <| sess ::= upd s_rx_buf f |> = st <| sess ::= upd s_rx_buf g |>.
Proof. destruct st as [[] ? ? ? ? ? ?]. cbn. intros H. unfold upd. cbn. by rewrite H. Qed.

Lemma set_rx_same st : st <| sess ::= upd s_rx_buf id |> = st.
Proof. by destruct st as [[] ? ? ? ? ? ?]. Qed.

Lemma read_cb_receive st data :
  0 < zlen data -> zlen data < 2 ^ 61 -> zlen (s_rx_buf (sess st)) < 2 ^ 61 ->
  read_cb ulong_max (zlen data) data st = receive ulong_max data st.
Proof.
  intros Hd Hl Hb. unfold read_cb, receive.
  destruct (zlen data <? 0) eqn:E1; b2p; [lia|]. destruct (zlen data =? 0) eqn:E2; b2p; [lia|].
  rewrite to_nat_zlen, firstn_all, !(bind_run util_now_ms).
  pose proof (util_now_ms_keeps same_rx ltac:(by split) st) as [Hrx _].
  destruct (util_now_ms st) as [now st0]. cbn [fst snd] in *.
  rewrite !(bind_run (mod_sess _)), !(bind_run (get_sess _)). cbn [fst snd mod_sess modify get_sess gets].
  set (st1 := st0 <| sess ::= upd s_last_rx_ms (fun _ => now) |>).
  assert (H1 : s_rx_buf (sess st1) = s_rx_buf (sess st)) by exact Hrx. clearbody st1.
  pose proof (zlen_nonneg (s_rx_buf (sess st))).
  unfold s_rx_used. cbn [id]. rewrite H1, size_t_small by lia.
  destruct (s_rx_cap (sess st1) <? _); [done|].
  destruct (parse (s_rx_buf (sess st) ++ data)) as [fs e] eqn:Ep.
  rewrite !bind_run. cbn [fst snd mod_sess modify get_sess gets].
  set (st2 := st1 <| sess ::= upd s_rx_buf (fun b => b ++ data) |>).
  assert (H2 : s_rx_buf (sess st2) = s_rx_buf (sess st) ++ data) by (by rewrite <- H1). clearbody st2.
  rewrite frame_loop_refines by (rewrite H2, ?zlen_app; unfold zlen in *; rewrite ?length_app; lia).
  rewrite H2. change (drop (Z.to_nat 0) (s_rx_buf (sess st) ++ data)) with (s_rx_buf (sess st) ++ data).
  rewrite Ep, !bind_run. pose proof (dispatch_all_rx fs st2) as [Hrx2 _].
  pose proof (parse_sound (s_rx_buf (sess st) ++ data)) as [_ Hs]. rewrite Ep in Hs. cbn [fst snd] in Hs.
  destruct (dispatch_all ulong_max fs st2) as [ok st3]. cbn [fst snd] in *.
  destruct ok; cbn [negb]; [|done]. rewrite H2 in Hrx2.
  destruct e as [rest|rest]; [|by rewrite !bind_run].
  destruct Hs as [Hs _]. cbn [mret M_ret fst snd]. rewrite !bind_run.
  set (buf := s_rx_buf (sess st) ++ data) in *.
  assert (Hz : zlen buf - zlen rest = zlen (concat (map encode_frame fs))) by (rewrite Hs, zlen_app; lia).
  rewrite Hz. destruct (0 <? zlen (concat (map encode_frame fs))) eqn:Eo; b2p; cbn [mod_sess modify fst snd].
  - unfold mret, M_ret. f_equal. apply set_rx. rewrite Hrx2, Hs, to_nat_zlen. apply drop_app_length.
  - unfold mret, M_ret. cbn. f_equal. rewrite <- (set_rx_same st3) at 1. apply set_rx. rewrite Hrx2.
    destruct (concat (map encode_frame fs)) as [|c l] eqn:Ec; [done|].
    rewrite zlen_cons in Eo. pose proof (zlen_nonneg l). lia.
Qed.

Context `{!FsView W, !FsLaws W}.

Lemma dispatch_all_total fs st :
  transfers_ok st ->
  wp (dispatch_all ulong_max fs) (fun ok st' => (LuaReturns W -> ok = true) /\ transfers_ok st') st.
Proof.
  revert st. induction fs as [|f fs IH]; intros st Ht; cbn [dispatch_all]; [by apply wp_ret|].
  unfold dispatch_frame. apply wp_bind, wp_bind, wp_modify.
  eapply wp_mono; [apply handle_control_transfers; exact Ht|]. intros [rc|] st1 [Hs H1]; [by apply IH|].
  apply wp_ret. split; [|done]. intros H. by destruct (Hs H).
Qed.

(** What receiving a piece leaves in the buffer. *)
Definition rx_ok (st : St W) : Prop := zlen (s_rx_buf (sess st)) <= s_rx_cap (sess st).

Lemma close_transfers : keeps (inv_rel transfers_ok) (session_close (W := W)).
Proof. intros st Ht. by apply (transfers_ok_same_io st); [apply close_io|]. Qed.

Lemma receive_total data st :
  transfers_ok st -> rx_ok st ->
  wp (receive ulong_max data) (fun ok st' =>
    (LuaReturns W -> ok = true) /\ transfers_ok st' /\ rx_ok st' /\ s_rx_cap (sess st') = s_rx_cap (sess st)) st.
Proof.
  intros Ht Hr. unfold receive. apply wp_bind, wp_now. intros t w _. do 4 wp_step. cbn [sess].
  set (st1 := _ <| sess ::= _ |>).
  assert (H1 : transfers_ok st1 /\ rx_ok st1 /\ s_rx_cap (sess st1) = s_rx_cap (sess st)) by done.
  clearbody st1. clear Ht Hr. destruct H1 as (Ht & Hr & Hc). unfold rx_ok, s_rx_used, id in *.
  wp_step.
  - apply wp_bind. apply (wp_keeps same_io); [apply close_io|]. intros _ st2 [H2 H3 [H4 H5]]. apply wp_ret.
    split; [done|]. split; [|by rewrite H4, H5]. unfold transfers_ok. by rewrite H2, H3.
  - b2p. destruct (parse (s_rx_buf (sess st1) ++ data)) as [fs e] eqn:Ep. do 2 wp_step.
    set (st2 := st1 <| sess ::= _ |>).
    assert (H2 : transfers_ok st2 /\ s_rx_buf (sess st2) = s_rx_buf (sess st1) ++ data /\
      s_rx_cap (sess st2) = s_rx_cap (sess st)) by (split; [exact Ht|]; by split).
    clearbody st2. destruct H2 as (Ht2 & Hb2 & Hc2). apply wp_bind.
    eapply wp_mono; [apply wp_and; [by apply dispatch_all_total|]|].
    { apply (wp_keeps same_rx); [apply dispatch_all_rx|]. intros a s H. exact H. }
    intros ok st3 [[Hok Ht3] [Hb3 Hc3]].
    pose proof (parse_sound (s_rx_buf (sess st1) ++ data)) as [_ Hs]. rewrite Ep in Hs. cbn [snd fst] in Hs.
    rewrite Hb2 in Hb3.
    assert (Hz : zlen (s_rx_buf (sess st3)) <= s_rx_cap (sess st3)) by (rewrite Hb3, zlen_app, Hc3, Hc2, <- Hc; lia).
    destruct ok; cbn [negb].
    2: { apply wp_ret. split; [done|]. split; [exact Ht3|]. split; [done|]. by rewrite Hc3, Hc2. }
    destruct e as [rest|rest].
    + do 2 wp_step. wp_step. split; [done|]. split; [exact Ht3|]. cbn. split; [|by rewrite Hc3, Hc2].
      destruct Hs as [Hs _]. rewrite <- Hb3 in Hs. rewrite Hs, zlen_app in Hz.
      pose proof (zlen_nonneg (concat (map encode_frame fs))). lia.
    + apply wp_bind, wp_modify. apply wp_bind. apply (wp_keeps same_io); [apply close_io|].
      intros _ st4 [H4 H5 [H6 H7]]. apply wp_ret. cbn in *. split; [done|]. rewrite H6, H7, Hc3, Hc2.
      split; [|by rewrite <- Hc2, <- Hc3]. unfold transfers_ok. by rewrite H4, H5.
Qed.
End server_lemmas.

(** ** Theorems *)

(** C2: The receive callback implements the reference: for a piece of data
    within the bounds of an object in memory, [read_cb], with its buffer and
    its loop over offsets, does exactly what [receive] does: it dispatches,
    in order, the frames of the buffered bytes followed by the new ones, and
    keeps the unfinished rest, or closes the session at bytes that are no
    frame or do not fit. *)
Theorem read_cb_refines `{!Uv W, !Lua W} ulong_max (st : St W) data :
  0 < zlen data < 2 ^ 61 -> zlen (s_rx_buf (sess st)) < 2 ^ 61 ->
  read_cb ulong_max (zlen data) data st = receive ulong_max data st.
Proof. intros [Hd Hl] Hb. by apply read_cb_receive. Qed.

Lemma read_cb_refines_witness :
  read_cb (2 ^ 64 - 1) 14 (header_bytes (FrameHeader FRAME_PING 0 3 0)) (accepted Sim.empty) =
  receive (2 ^ 64 - 1) (header_bytes (FrameHeader FRAME_PING 0 3 0)) (accepted Sim.empty).
Proof.
  refine (read_cb_refines (2 ^ 64 - 1) (accepted Sim.empty) (header_bytes (FrameHeader FRAME_PING 0 3 0)) _ _).
  - rewrite zlen_header_bytes. lia.
  - vm_compute. reflexivity.
Defined.

(** C21: For every file system that satisfies [FsLaws], whatever the client
    sends, the receive callback keeps the transfers well-formed and the
    received bytes within the buffer; and it returns, if the scripts do: no
    loop of the agent's own code runs away.  A script that does not return
    blocks it. *)
Theorem read_cb_total `{!Uv W, !Lua W, !FsView W, !FsLaws W} ulong_max (st : St W) nread data :
  transfers_ok st -> rx_ok st -> s_rx_cap (sess st) < 2 ^ 61 -> (0 < nread -> nread = zlen data) ->
  zlen data < 2 ^ 61 ->
  let '(ok, st') := read_cb ulong_max nread data st in
  (LuaReturns W -> ok = true) /\ transfers_ok st' /\ rx_ok st' /\ s_rx_cap (sess st') = s_rx_cap (sess st).
Proof.
  intros Ht Hr Hc Hn Hd. destruct (Z.lt_trichotomy nread 0) as [H|[->|H]].
  - unfold read_cb. rewrite (proj2 (Z.ltb_lt _ _) H), bind_run. cbn.
    destruct (close_io st) as [H1 H2 [H3 H4]]. unfold rx_ok. rewrite H3, H4.
    split; [done|]. split; [|by split]. unfold transfers_ok. by rewrite H1, H2.
  - cbn. split; [done|]. split; [exact Ht|]. split; [exact Hr|done].
  - rewrite (Hn H) in *. unfold rx_ok in Hr. rewrite read_cb_receive by lia.
    pose proof (receive_total ulong_max data st Ht Hr) as Hw. unfold wp in Hw. by destruct (receive _ _ _).
Qed.

Lemma read_cb_total_witness :
  (read_cb (2 ^ 64 - 1) 3 (lit "RXS") (accepted Sim.empty)).1 = true.
Proof.
  pose proof (read_cb_total (2 ^ 64 - 1) (accepted Sim.empty) 3 (lit "RXS")) as H.
  destruct (read_cb (2 ^ 64 - 1) 3 (lit "RXS") (accepted Sim.empty)) as [ok st'].
  destruct H as [H _]; [by split; [left|]|vm_compute; discriminate|vm_compute; reflexivity|reflexivity|vm_compute; reflexivity|].
  exact (H _).
Defined.

(** ** Frames that do not fit the buffer *)

(** The pieces of a stream arrive while the session is open. *)
Fixpoint run_reads {W} `{!Uv W, !Lua W} (ulong_max : Z) (pieces : list bytes) : M (St W) unit :=
  match pieces with
  | [] => mret tt
  | p :: pieces' =>
      closed ← get_sess s_closed;
      if closed : bool then mret tt
      else _ ← read_cb ulong_max (zlen p) p; run_reads ulong_max pieces'
  end.

(** No frame was counted as received and nothing was sent. *)
Definition unheard {W} (st st' : St W) : Prop :=
  wire st' = wire st /\ d_frames_rx (s_ctr (sess st')) = d_frames_rx (s_ctr (sess st)).

#[global] Instance unheard_preorder {W} : PreOrder (@unheard W).
Proof. split; [by split|]. intros a b c [] []. split; congruence. Qed.

Section oversized.
Context {W : Type} `{!Uv W, !Lua W}.
Variable ulong_max : Z.
Implicit Types st : St W.

Lemma close_unheard : keeps unheard (session_close (W := W)).
Proof. intros st. rewrite session_close_eval. by destruct (s_closed (sess st)). Qed.

(** A piece that does not fit. *)
Lemma receive_overflow st p :
  s_rx_cap (sess st) < zlen (s_rx_buf (sess st)) + zlen p ->
  wp (receive ulong_max p) (fun _ st' => s_closed (sess st') = true /\ unheard st st') st.
Proof.
  intros Hcap. unfold receive. apply wp_bind, wp_now. intros t w _. do 4 wp_step. cbn. unfold s_rx_used. cbn.
  destruct (_ <? _) eqn:Eo; b2p; [|lia]. apply wp_bind. unfold wp at 1. apply wp_ret.
  split; [apply session_close_closed|etransitivity; [|apply close_unheard]; by split].
Qed.

(** One piece of an unfinished frame: it is kept, or the session closes. *)
Lemma receive_unfinished st p :
  next_frame (s_rx_buf (sess st) ++ p) = F_more ->
  wp (receive ulong_max p) (fun _ st' => unheard st st' /\
    if s_rx_cap (sess st) <? zlen (s_rx_buf (sess st)) + zlen p then s_closed (sess st') = true
    else s_closed (sess st') = s_closed (sess st) /\ s_rx_buf (sess st') = s_rx_buf (sess st) ++ p /\
         s_rx_cap (sess st') = s_rx_cap (sess st)) st.
Proof.
  intros Hn. unfold receive. apply wp_bind, wp_now. intros t w _. do 4 wp_step. cbn.
  unfold s_rx_used. cbn. destruct (_ <? _).
  - apply wp_bind. unfold wp at 1. apply wp_ret.
    split; [etransitivity; [|apply close_unheard]; by split|apply session_close_closed].
  - rewrite parse_unfold, Hn. do 2 wp_step. cbn [dispatch_all]. do 2 wp_step. cbn [negb]. do 3 wp_step.
    split; [done|]. by repeat split.
Qed.

Lemma reads_of_oversized f pieces st :
  frame_ok f -> s_rx_buf (sess st) ++ concat pieces = encode_frame f ->
  s_closed (sess st) = false -> rx_ok st -> s_rx_cap (sess st) < zlen (encode_frame f) ->
  zlen (encode_frame f) < 2 ^ 61 -> Forall (fun p => 0 < zlen p) pieces ->
  wp (run_reads ulong_max pieces) (fun _ st' => s_closed (sess st') = true /\ unheard st st') st.
Proof.
  intros Hf. revert st. induction pieces as [|p pieces IH]; intros st E Hc Hr Hcap Hlen Hp; cbn [run_reads concat] in *.
  { rewrite app_nil_r in E. unfold rx_ok in Hr. rewrite E in Hr. lia. }
  apply Forall_cons in Hp as [Hp0 Hp]. do 2 wp_step. rewrite Hc. apply wp_bind.
  assert (Hz : zlen (s_rx_buf (sess st)) + zlen p + zlen (concat pieces) = zlen (encode_frame f)).
  { rewrite <- E, !zlen_app. lia. }
  pose proof (zlen_nonneg (concat pieces)). pose proof (zlen_nonneg (s_rx_buf (sess st))).
  unfold wp at 1. rewrite read_cb_receive by lia.
  destruct (decide (concat pieces = [])) as [Hnil|Hne].
  - (* the last piece: it cannot fit *)
    rewrite Hnil, app_nil_r in E. rewrite Hnil in Hz. change (zlen []) with 0 in Hz.
    destruct (receive_overflow st p ltac:(lia)) as [H1 H2]. destruct pieces as [|q pieces]; [by apply wp_ret|].
    cbn [run_reads]. do 2 wp_step. rewrite H1. by apply wp_ret.
  - pose proof (next_frame_prefix f (s_rx_buf (sess st) ++ p) (concat pieces) Hf) as Hn.
    rewrite <- app_assoc in Hn. specialize (Hn E Hne).
    destruct (receive_unfinished st p Hn) as [Hu Hrest].
    destruct (receive ulong_max p st) as [b st1]. cbn [fst snd] in *.
    destruct (_ <? _) eqn:Eo; b2p.
    + destruct pieces as [|q pieces]; [by apply wp_ret|]. cbn [run_reads]. do 2 wp_step. rewrite Hrest.
      by apply wp_ret.
    + destruct Hrest as (H1 & H2 & H3). eapply wp_mono; [apply IH|].
      * by rewrite H2, <- app_assoc.
      * congruence.
      * unfold rx_ok. rewrite H2, H3, zlen_app. lia.
      * by rewrite H3.
      * done.
      * done.
      * cbn. intros _ st2 [H4 H5]. split; [done|]. by transitivity st1.
Qed.
(** A read that brings the end of a frame together with bytes behind it, more
    than the buffer has room for. *)
Lemma reads_of_overflow f pieces p z st :
  frame_ok f -> (s_rx_buf (sess st) ++ concat pieces) ++ p = encode_frame f ++ z ->
  zlen (s_rx_buf (sess st) ++ concat pieces) < zlen (encode_frame f) ->
  s_rx_cap (sess st) < zlen (s_rx_buf (sess st) ++ concat pieces) + zlen p ->
  s_closed (sess st) = false -> zlen (encode_frame f) < 2 ^ 60 ->
  Forall (fun p => 0 < zlen p < 2 ^ 60) (pieces ++ [p]) ->
  wp (run_reads ulong_max (pieces ++ [p])) (fun _ st' => s_closed (sess st') = true /\ unheard st st') st.
Proof.
  intros Hf. revert st. induction pieces as [|q pieces IH]; intros st E Hlt Hcap Hc Hlen Hp; cbn [run_reads concat app] in *.
  - rewrite app_nil_r in *. apply Forall_cons in Hp as [Hp _]. do 2 wp_step. rewrite Hc. apply wp_bind.
    unfold wp at 1. rewrite read_cb_receive by lia. apply wp_ret. by apply receive_overflow.
  - apply Forall_cons in Hp as [Hq Hp]. do 2 wp_step. rewrite Hc. apply wp_bind.
    assert (Hn : next_frame (s_rx_buf (sess st) ++ q) = F_more).
    { rewrite (app_assoc _ q), <- app_assoc in E. rewrite app_assoc, (zlen_app (_ ++ q)) in Hlt.
      pose proof (zlen_nonneg (concat pieces)).
      apply app_eq_inv in E as [(k & E & _)|(k & E & _)].
      - rewrite E, zlen_app in Hlt. pose proof (zlen_nonneg k). lia.
      - apply (next_frame_prefix f _ k Hf (eq_sym E)). intros ->. rewrite app_nil_r in E. rewrite E in Hlt. lia. }
    unfold wp at 1. rewrite !zlen_app in Hlt. pose proof (zlen_nonneg (concat pieces)).
    pose proof (zlen_nonneg (s_rx_buf (sess st))).
    rewrite read_cb_receive by lia. destruct (receive_unfinished st q Hn) as [Hu Hrest].
    destruct (receive ulong_max q st) as [b st1]. cbn [fst snd] in *. destruct (_ <? _) eqn:Eo; b2p.
    + destruct pieces as [|r pieces]; cbn [app run_reads]; do 2 wp_step; rewrite Hrest; by apply wp_ret.
    + destruct Hrest as (H1 & H2 & H3). eapply wp_mono; [apply IH|].
      * by rewrite H2, <- (app_assoc _ q).
      * rewrite H2, !zlen_app. lia.
      * rewrite H2, H3, <- (app_assoc _ q). exact Hcap.
      * congruence.
      * done.
      * done.
      * cbn. intros _ st2 [H4 H5]. split; [done|]. by transitivity st1.
Qed.
End oversized.

(** The bound of [frames_survive_segmentation] is the best one: a frame that
    fits the receive buffer but has more than 12289 bytes closes the session,
    undispatched, when all but its last bytes have arrived and the next read
    brings them together with enough of what follows. *)
Theorem frame_lost_by_segmentation `{!Uv W, !Lua W} ulong_max (st : St W) f pieces p z :
  frame_ok f -> s_rx_buf (sess st) = [] -> s_rx_cap (sess st) = 4 * LUAGENT_READ_CHUNK ->
  s_closed (sess st) = false -> concat pieces ++ p = encode_frame f ++ z ->
  zlen (concat pieces) < 14 + zlen f.2 -> 16384 < zlen (concat pieces) + zlen p ->
  Forall (fun p => 0 < zlen p <= LUAGENT_READ_CHUNK) (pieces ++ [p]) ->
  let st' := (run_reads ulong_max (pieces ++ [p]) st).2 in
  s_closed (sess st') = true /\ wire st' = wire st /\
  d_frames_rx (s_ctr (sess st')) = d_frames_rx (s_ctr (sess st)).
Proof.
  intros Hf Hb Hcap Hc E Hlt Hover Hp.
  assert (Hz : zlen (encode_frame f) = 14 + zlen f.2) by (unfold encode_frame; by rewrite zlen_app, zlen_header_bytes).
  pose proof Hf as [(_ & _ & Hm) Hl]. unfold LUAGENT_MAX_FRAME_PAYLOAD, LUAGENT_READ_CHUNK in *.
  apply (reads_of_overflow ulong_max f pieces p z st); rewrite ?Hb, ?Hcap; cbn [app]; try done; [lia..|].
  eapply Forall_impl; [exact Hp|]. cbn. lia.
Qed.

(** A frame of 12290 bytes, cut before its last byte. *)
Lemma frame_lost_by_segmentation_witness :
  let f := (FrameHeader FRAME_PUT_CHUNK 0 1 12276, replicate (12 * 1023) Byte.x61) in
  let z := replicate 4095 Byte.x61 in
  let s := encode_frame f ++ z in
  let pieces := [take 4096 s; take 4096 (drop 4096 s); take 4096 (drop 8192 s); take 1 (drop 12288 s)] in
  s_closed (sess (run_reads (2 ^ 64 - 1) (pieces ++ [drop 12289 s]) (accepted Sim.empty)).2) = true.
Proof.
  intros f z s pieces.
  refine (proj1 (frame_lost_by_segmentation (2 ^ 64 - 1) (accepted Sim.empty) f pieces (drop 12289 s) z _ _ _ _ _ _ _ _)).
  - split; [|vm_compute; reflexivity].
    unfold header_valid, header_in_range, LUAGENT_MAX_FRAME_PAYLOAD, f, FRAME_PUT_CHUNK. cbn [fst fh_type fh_flags fh_req_id fh_length]. lia.
  - reflexivity.
  - reflexivity.
  - reflexivity.
  - vm_compute. reflexivity.
  - vm_compute. reflexivity.
  - vm_compute. reflexivity.
  - repeat apply Forall_cons_2; try apply Forall_nil_2; (split; [vm_compute; reflexivity|vm_compute; discriminate]).
Defined.

(** C33: A well-formed frame larger than the receive buffer is never
    received: the buffer holds 16384 bytes while the protocol allows payloads
    of 65536.  However its bytes arrive, the session is closed before the
    frame is dispatched, without any reply. *)
Theorem oversized_frame_closes `{!Uv W, !Lua W} ulong_max (st : St W) f pieces :
  frame_ok f -> s_rx_buf (sess st) = [] -> s_rx_cap (sess st) = 4 * LUAGENT_READ_CHUNK ->
  s_closed (sess st) = false -> 16384 < 14 + zlen f.2 ->
  concat pieces = encode_frame f -> Forall (fun p => 0 < zlen p) pieces ->
  let st' := (run_reads ulong_max pieces st).2 in
  s_closed (sess st') = true /\ wire st' = wire st /\
  d_frames_rx (s_ctr (sess st')) = d_frames_rx (s_ctr (sess st)).
Proof.
  intros Hf Hb Hcap Hc Hlen E Hp. unfold LUAGENT_READ_CHUNK in Hcap.
  assert (Hz : zlen (encode_frame f) = 14 + zlen f.2) by (unfold encode_frame; by rewrite zlen_app, zlen_header_bytes).
  pose proof Hf as [(Hr & H0 & Hm) Hl]. unfold LUAGENT_MAX_FRAME_PAYLOAD in Hm.
  apply (reads_of_oversized ulong_max f pieces st); try done.
  - by rewrite Hb.
  - unfold rx_ok. rewrite Hb, Hcap. vm_compute. discriminate.
  - rewrite Hcap, Hz. lia.
  - rewrite Hz. lia.
Qed.

Lemma oversized_frame_closes_witness :
  let f := (FrameHeader FRAME_PUT_CHUNK 0 1 16384, replicate (64 * 256) Byte.x61) in
  s_closed (sess (run_reads (2 ^ 64 - 1) [encode_frame f] (accepted Sim.empty)).2) = true.
Proof.
  intros f. refine (proj1 (oversized_frame_closes (2 ^ 64 - 1) (accepted Sim.empty) f [encode_frame f] _ _ _ _ _ _ _)).
  - split; [|vm_compute; reflexivity].
    unfold header_valid, header_in_range, LUAGENT_MAX_FRAME_PAYLOAD, f, FRAME_PUT_CHUNK. cbn [fst fh_type fh_flags fh_req_id fh_length]. lia.
  - reflexivity.
  - reflexivity.
  - reflexivity.
  - vm_compute. reflexivity.
  - apply app_nil_r.
  - apply Forall_cons_2; [vm_compute; reflexivity|apply Forall_nil_2].
Defined.

(** ** Frames cut into pieces *)

(** A read, the frames it completes, and the bytes of the next frame it leaves. *)
Record heard := Heard { hd_piece : bytes; hd_frames : list frame; hd_rest : bytes }.

Section pieces.
Context {W : Type} `{!Uv W, !Lua W}.
Variable ulong_max : Z.
Implicit Types st : St W.

(** The time is noted, the completed frames are dispatched in order, and the
    rest is kept. *)
Definition hear (h : heard) : M (St W) unit :=
  now ← util_now_ms;
  mod_sess (upd s_last_rx_ms (fun _ => now));;
  mod_sess (upd s_rx_buf (fun b => b ++ hd_piece h));;
  _ ← dispatch_all ulong_max (hd_frames h);
  mod_sess (upd s_rx_buf (fun _ => hd_rest h)).

(** One read after the other, until a handler closes the session. *)
Fixpoint run_heard (hs : list heard) : M (St W) unit :=
  match hs with
  | [] => mret tt
  | h :: hs' =>
      closed ← get_sess s_closed;
      if closed : bool then mret tt else hear h;; run_heard hs'
  end.

Context `{!FsView W, !FsLaws W, !LuaReturns W}.

(** What holds between two reads. *)
Record between (cap : Z) (left : bytes) (st : St W) : Prop := Between {
  bw_buf : s_rx_buf (sess st) = left;
  bw_cap : s_rx_cap (sess st) = cap;
  bw_transfers : transfers_ok st
}.

Lemma receive_hear cap left p g rest st :
  between cap left st -> zlen left + zlen p <= cap -> parse (left ++ p) = (g, Wait rest) ->
  receive ulong_max p st = (true, (hear (Heard p g rest) st).2) /\
  between cap rest (hear (Heard p g rest) st).2.
Proof.
  intros [Hb Hc Ht] Hfit Hp. pose proof (zlen_nonneg p) as Hp0.
  pose proof (receive_total ulong_max p st Ht) as Htot. unfold rx_ok in Htot. rewrite Hb, Hc in Htot.
  specialize (Htot ltac:(lia)). revert Htot. unfold wp, receive, hear.
  rewrite !(bind_run util_now_ms).
  pose proof (util_now_ms_keeps same_rx ltac:(by split) st) as [Hrx Hrc].
  destruct (util_now_ms st) as [now st0]. cbn [fst snd hd_piece hd_frames hd_rest] in *.
  rewrite !(bind_run (mod_sess (upd s_last_rx_ms _))), !(bind_run (get_sess _)).
  cbn [fst snd mod_sess modify get_sess gets id].
  set (st1 := st0 <| sess ::= _ |>).
  assert (H1 : s_rx_buf (sess st1) = left /\ s_rx_cap (sess st1) = cap) by (split; [exact (eq_trans Hrx Hb)|exact (eq_trans Hrc Hc)]).
  clearbody st1. destruct H1 as [H1 H2]. unfold s_rx_used. rewrite H1, H2.
  destruct (cap <? _) eqn:E; b2p; [lia|]. rewrite Hp, !bind_run. cbn [fst snd mod_sess modify].
  destruct (dispatch_all ulong_max g _) as [[] st2]; cbn [fst snd negb].
  2: { intros [H _]. by specialize (H _). }
  rewrite bind_run. cbn [fst snd mod_sess modify mret M_ret]. intros (_ & H3 & _ & H4). split; [done|]. by split.
Qed.

(** Reads that cannot overflow the buffer. *)
Lemma reads_heard cap left pieces fs st :
  between cap left st -> Forall frame_ok fs -> left ++ concat pieces = concat (map encode_frame fs) ->
  match fs with [] => left = [] | f :: _ => zlen left < zlen (encode_frame f) end ->
  cap < 2 ^ 60 -> Forall (fun f => zlen (encode_frame f) <= cap - LUAGENT_READ_CHUNK + 1) fs ->
  Forall (fun p => 0 < zlen p <= LUAGENT_READ_CHUNK) pieces ->
  exists hs, map hd_piece hs = pieces /\ concat (map hd_frames hs) = fs /\
    run_reads ulong_max pieces st = run_heard hs st.
Proof.
  intros Hst Hfs E Hl Hcap Hsz Hps. revert left fs st Hst Hfs E Hl Hsz.
  induction Hps as [|p pieces Hp0 Hps IH]; intros left fs st Hst Hfs E Hl Hsz; cbn [concat] in E.
  - exists []. split; [done|]. split; [|done]. destruct fs as [|f fs]; [done|]. exfalso.
    rewrite app_nil_r in E. cbn [map concat] in E. rewrite E, zlen_app in Hl.
    pose proof (zlen_nonneg (concat (map encode_frame fs))). lia.
  - rewrite app_assoc in E. destruct (parse_prefix fs _ _ Hfs E) as (g & todo & rest & -> & Hp & Hr & Hl').
    pose proof (zlen_nonneg left). unfold LUAGENT_READ_CHUNK in *.
    assert (Hfit : zlen left + zlen p <= cap).
    { destruct (g ++ todo) as [|f fs'] eqn:Eg.
      - cbn in E. apply app_eq_nil in E as [[-> ->]%app_eq_nil _]. destruct Hp0 as [Hp0 _]. by vm_compute in Hp0.
      - apply Forall_cons in Hsz as [Hsz _]. lia. }
    destruct (receive_hear cap left p g rest st Hst Hfit Hp) as [Er Hst'].
    apply Forall_app in Hfs as [_ Hfs]. apply Forall_app in Hsz as [_ Hsz].
    destruct (IH rest todo _ Hst' Hfs Hr Hl' Hsz) as (hs & H1 & H2 & H3).
    exists (Heard p g rest :: hs). split; [cbn; by rewrite H1|]. split; [cbn; by rewrite H2|].
    cbn [run_reads run_heard]. rewrite !(bind_run (get_sess _)). cbn [fst snd get_sess gets].
    destruct (s_closed (sess st)); [done|]. rewrite !bind_run, read_cb_receive, Er by (rewrite ?(bw_buf _ _ _ Hst); lia).
    exact H3.
Qed.
End pieces.

(** C20: Frames of at most 12289 bytes survive any segmentation: however a
    stream of such frames is cut into reads of at most 4096 bytes, the size of
    the buffer [alloc_cb] hands out, no read overflows the receive buffer, and
    the run of the receive callback dispatches exactly these frames, each
    once, in order, at the read that completes it, until a handler closes
    the session.  Assumes that the scripts return and [FsLaws]. *)
Theorem frames_survive_segmentation `{!Uv W, !Lua W, !FsView W, !FsLaws W, !LuaReturns W} ulong_max (st : St W) fs pieces :
  Forall frame_ok fs -> Forall (fun f => 14 + zlen f.2 <= 12289) fs ->
  transfers_ok st -> s_rx_buf (sess st) = [] -> s_rx_cap (sess st) = 4 * LUAGENT_READ_CHUNK ->
  concat pieces = concat (map encode_frame fs) ->
  Forall (fun p => 0 < zlen p <= LUAGENT_READ_CHUNK) pieces ->
  exists hs, map hd_piece hs = pieces /\ concat (map hd_frames hs) = fs /\
    run_reads ulong_max pieces st = run_heard ulong_max hs st.
Proof.
  intros Hfs Hsz Ht Hb Hc E Hp.
  apply (reads_heard ulong_max (4 * LUAGENT_READ_CHUNK) []); try done.
  - destruct fs as [|f fs]; [done|]. unfold encode_frame. rewrite zlen_app, zlen_header_bytes.
    pose proof (zlen_nonneg f.2). change (zlen []) with 0. lia.
  - eapply Forall_impl; [exact Hsz|]. intros f Hf. cbn beta in *. unfold encode_frame, LUAGENT_READ_CHUNK.
    rewrite zlen_app, zlen_header_bytes. lia.
Qed.

(** A session that got two frames in four reads. *)
Lemma frames_survive_segmentation_witness :
  let fs := [(FrameHeader FRAME_HELLO 0 7 0, []); (FrameHeader FRAME_PING 0 8 3, lit "abc")] in
  let s := concat (map encode_frame fs) in
  let pieces := [take 5 s; take 15 (drop 5 s); take 1 (drop 20 s); drop 21 s] in
  exists hs, map hd_piece hs = pieces /\ concat (map hd_frames hs) = fs /\
    run_reads (2 ^ 64 - 1) pieces (accepted Sim.empty) = run_heard (2 ^ 64 - 1) hs (accepted Sim.empty).
Proof.
  intros fs s pieces. refine (frames_survive_segmentation (2 ^ 64 - 1) (accepted Sim.empty) fs pieces _ _ _ _ _ _ _).
  - repeat apply Forall_cons_2; try apply Forall_nil_2;
      (split; [unfold header_valid, header_in_range, LUAGENT_MAX_FRAME_PAYLOAD; cbn; unfold FRAME_HELLO, FRAME_PING; lia|reflexivity]).
  - repeat apply Forall_cons_2; try apply Forall_nil_2; vm_compute; discriminate.
  - by split; [left|].
  - reflexivity.
  - reflexivity.
  - reflexivity.
  - repeat apply Forall_cons_2; try apply Forall_nil_2; (split; [vm_compute; reflexivity|vm_compute; discriminate]).
Defined.

(** ** Accepting a connection *)

(** A session as it comes out of [on_new_connection]. *)
Record fresh {W} (st0 st : St W) : Prop := Fresh {
  fr_id : s_session_id (sess st) = g_next_session_id st0;
  fr_next : g_next_session_id st = incr64 (g_next_session_id st0);
  fr_queue : s_pending_write_bytes (sess st) = 0;
  fr_inflight : inflight st = inflight st0;
  fr_wire : wire st = wire st0;
  fr_up : s_upload (sess st) = transfer_init;
  fr_down : s_download (sess st) = transfer_init;
  fr_proc : s_proc (sess st) = proc_init;
  fr_buf : s_rx_buf (sess st) = [];
  fr_cap : s_rx_cap (sess st) = 4 * LUAGENT_READ_CHUNK
}.

Section accept.
Context {W : Type} `{!Uv W}.
Implicit Types st : St W.

Lemma close_fresh st0 st : fresh st0 st -> fresh st0 (session_close st).2.
Proof.
  intros []. rewrite session_close_eval. destruct (s_closed (sess st)); [by split|]. by split.
Qed.

#[local] Arguments upd {R F} proj {_} _ _ /.

(** What an accepted or refused connection leaves when the call ends. *)
Definition accept_post st0 (ok : bool) (st : St W) : Prop :=
  ok = true ->
  fresh st0 st /\ life_ok st /\
  (hazards st = hazards st0 \/
   (s_closed (sess st) = true /\ hazards st = HZ_close_not_open :: hazards st0 /\
    exists w, (uv_timer_start 1000 1000 w).1 <> 0)).

(** Closing a session whose handles are open. *)
Lemma wp_close_accept st0 st :
  fresh st0 st -> life_ok st -> hazards st = hazards st0 ->
  wp (session_close;; mret true) (accept_post st0) st.
Proof.
  intros Hf Hl Hh. apply wp_bind. unfold wp at 1. apply wp_ret. intros _.
  split; [by apply close_fresh|]. destruct (session_close_safe st Hl) as [H1 H2].
  split; [done|]. left. congruence.
Qed.

Lemma accept_ok status st :
  wp (on_new_connection status) (accept_post st) st.
Proof.
  destruct st as [s g n q l z w0].
  unfold on_new_connection, session_init, session_start_timers, session_add_ref.
  repeat (lazymatch goal with
  | |- wp (uv_opened _) _ _ => apply wp_uv_opened; [reflexivity|]
  | |- wp (session_close ≫= _) _ _ => fail
  | |- wp (uv_close _ _) _ _ => apply wp_uv_close; [reflexivity|]
  | _ => wp_step
  end; norm_state); try (by intros [=]); try congruence;
  (* accepted *)
  try (intros _; split; [by split|]; split; [by intros _|by left]);
  (* closed with its handles open *)
  try (apply wp_close_accept; [by split|by intros _|done]).
  (* the timer did not start *)
  apply wp_bind. unfold wp at 1. apply wp_ret. intros _. split; [apply close_fresh; by split|].
  rewrite session_close_eval. cbn. split; [by intros [=]|]. right. split; [done|]. split; [done|].
  b2p. eexists. rewrite Hcall5. cbn. done.
Qed.
End accept.

(** C27: Accepting a connection sets up a session: whenever
    [on_new_connection] leaves a session, it has a fresh id, empty buffers
    and queues, idle transfers and no process, and its handles are open
    unless it is already closed.  No rule for handles is broken, except that
    a failing [uv_timer_start] has the timer closed twice. *)
Theorem accept_sets_up `{!Uv W} status (st st' : St W) :
  on_new_connection status st = (true, st') ->
  fresh st st' /\ life_ok st' /\
  (hazards st' = hazards st \/
   (s_closed (sess st') = true /\ hazards st' = HZ_close_not_open :: hazards st /\
    exists w, (uv_timer_start (W := W) 1000 1000 w).1 <> 0)).
Proof. intros E. pose proof (accept_ok status st) as H. eapply wp_run in H; [|exact E]. by apply H. Qed.

Lemma accept_sets_up_witness :
  exists st', on_new_connection 0 (accepted Sim.empty) = (true, st') /\ fresh (accepted Sim.empty) st'.
Proof.
  destruct (on_new_connection 0 (accepted Sim.empty)) as [ok st'] eqn:E.
  assert (Hok : ok = true) by (apply (f_equal fst) in E; vm_compute in E; congruence).
  rewrite Hok in E. exists st'. split; [congruence|].
  exact (proj1 (accept_sets_up 0 (accepted Sim.empty) st' E)).
Defined.
