(* ===== verification/System.v ===== *)
(** * A session among the events of the loop

    The callbacks of one session as steps in any order the event loop may
    choose, with an environment that changes between them, and what holds in
    every reachable state. *)

From Stdlib Require Import ZArith Lia Bool.
From Stdlib Require Import Strings.Byte Strings.String.
From stdpp Require Import base list numbers option gmap relations.
From S2P Require Import Prelude CLib Frame Kv State Uv Session Transfer Upload Proc.
From S2P Require Import ProcLife Heartbeat Lua Protocol Handlers Stream Server.

#[local] Arguments queue_bytes : simpl never.

Section system.
Context {W : Type} `{!Uv W, !Lua W}.
Variable ulong_max : Z.
Implicit Types st : St W.

(** ** Steps *)

(** The callbacks of the event loop that concern the session. *)
Inductive callback : St W -> St W -> Prop :=
| step_read st nread data :
    s_closed (sess st) = false -> (0 < nread -> nread = zlen data) -> zlen data <= LUAGENT_READ_CHUNK ->
    callback st (Server.read_cb ulong_max nread data st).2
| step_written st i :
    is_Some (inflight st !! i) -> callback st (on_write_done i st).2
| step_timer st :
    s_heartbeat_timer (sess st) = H_open -> callback st (heartbeat_cb st).2
| step_output st strm nread data :
    zlen data <= 65536 -> callback st (Proc.read_cb strm nread data st).2
| step_exit st status :
    p_process (s_proc (sess st)) = H_open -> callback st (proc_exit_cb status st).2.

(** Between them the world outside may do anything. *)
Inductive step : St W -> St W -> Prop :=
| step_callback st st' : callback st st' -> step st st'
| step_world st w : step st (st <| world := w |>).

(** ** The invariant *)

Record sys_inv st : Prop := SysInv {
  inv_queue : queue_ok st;
  inv_wire : wire_ok st;
  inv_transfers : transfers_ok st;
  inv_rx : rx_ok st;
  inv_cap : s_rx_cap (sess st) = 4 * LUAGENT_READ_CHUNK
}.

(** ** Lemmas *)

Lemma on_write_done_net i : keeps net_rel (on_write_done (W := W) i).
Proof.
  intros st [Hq1 Hq2]. unfold on_write_done. run_eval.
  destruct (inflight st !! i) as [b|] eqn:E.
  2: { split; [done|]. split; [done|]. split; reflexivity. }
  pose proof (queue_bytes_delete _ _ _ E) as Hd. pose proof (queue_bytes_nonneg (delete i (inflight st))).
  pose proof (zlen_nonneg b). unfold LUAGENT_MAX_WRITE_QUEUE_BYTES in *.
  destruct (zlen b <=? s_pending_write_bytes (sess st)) eqn:El; b2p; [|lia]. cbn.
  split; [|split; [done|split; [exists []; cbn; by rewrite app_nil_r|by intros ?]]].
  split; cbn; [rewrite size_t_small by lia; lia|unfold LUAGENT_MAX_WRITE_QUEUE_BYTES; lia].
Qed.

Lemma on_write_done_io i : keeps same_io (on_write_done (W := W) i).
Proof. unfold on_write_done. rx_solve. Qed.

Lemma maybe_finalize_net : keeps net_rel (proc_maybe_finalize (W := W)).
Proof. unfold proc_maybe_finalize. repeat handler_net_step. Qed.

Lemma maybe_finalize_io : keeps same_io (proc_maybe_finalize (W := W)).
Proof. unfold proc_maybe_finalize. rx_solve. Qed.

Lemma proc_read_net strm nread data : zlen data < 2 ^ 63 -> keeps net_rel (Proc.read_cb (W := W) strm nread data).
Proof.
  intros Hd. unfold Proc.read_cb.
  repeat lazymatch goal with
  | |- keeps _ proc_maybe_finalize => apply maybe_finalize_net
  | |- keeps _ (session_send_frame _ _ _) => apply session_send_frame_net
  | _ => handler_net_step
  end.
  rewrite zlen_take. lia.
Qed.

Lemma proc_exit_net status : keeps net_rel (proc_exit_cb (W := W) status).
Proof.
  unfold proc_exit_cb.
  repeat lazymatch goal with
  | |- keeps _ proc_maybe_finalize => apply maybe_finalize_net
  | _ => handler_net_step
  end.
Qed.

Hint Resolve send_frame_io send_text_io maybe_finalize_io : keeps.

Lemma proc_read_io strm nread data : keeps same_io (Proc.read_cb (W := W) strm nread data).
Proof. unfold Proc.read_cb. rx_solve; destruct strm; (intros st; by split). Qed.

Lemma proc_exit_io status : keeps same_io (proc_exit_cb (W := W) status).
Proof. unfold proc_exit_cb. rx_solve. Qed.

Lemma heartbeat_rx : keeps same_rx (heartbeat_cb (W := W)).
Proof. unfold heartbeat_cb, transfer_check_timeout, transfer_abort, proc_check_timeouts. rx_solve. Qed.

Context `{!LuaOk W, !FsView W, !FsLaws W}.

Lemma dispatch_all_net fs : keeps net_rel (dispatch_all (W := W) ulong_max fs).
Proof.
  induction fs as [|f fs IH]; cbn [dispatch_all]; [refine (keeps_ret _ _)|].
  refine (keeps_bind _ _ _ _ _); [|intros [rc|]; [exact IH|refine (keeps_ret _ _)]].
  unfold dispatch_frame, diag_count_frame_rx. refine (keeps_bind _ _ _ _ _); [handler_net_step|].
  intros _. apply handle_control_net.
Qed.

Lemma receive_net data : keeps net_rel (receive (W := W) ulong_max data).
Proof.
  unfold receive, diag_count_parse_failure.
  repeat lazymatch goal with
  | |- keeps _ (dispatch_all _ _) => apply dispatch_all_net
  | |- keeps _ (let '(_, _) := parse ?b in _) => destruct (parse b) as [? ?]
  | _ => handler_net_step
  end.
Qed.

Lemma server_read_net nread data st :
  (0 < nread -> nread = zlen data) -> zlen data < 2 ^ 61 -> zlen (s_rx_buf (sess st)) < 2 ^ 61 ->
  net_rel st (Server.read_cb ulong_max nread data st).2.
Proof.
  intros Hn Hd Hb. destruct (Z.lt_trichotomy nread 0) as [H|[->|H]].
  - unfold Server.read_cb. rewrite (proj2 (Z.ltb_lt _ _) H), bind_run. apply session_close_net.
  - cbn. reflexivity.
  - rewrite (Hn H) in *. rewrite read_cb_receive by lia. apply receive_net.
Qed.

(** A step within [net_rel] and [same_io] keeps the invariant. *)
Lemma sys_inv_io st st' : net_rel st st' -> same_io st st' -> sys_inv st -> sys_inv st'.
Proof.
  intros Hn Hio [H1 H2 H3 H4 H5]. destruct (Hn H1) as (Hq & Hw & _).
  pose proof (transfers_ok_same_io _ _ Hio H3). destruct Hio as [_ _ [Hb Hc]].
  split; [done|by apply Hw|done|unfold rx_ok; by rewrite Hb, Hc|congruence].
Qed.

Lemma step_inv st st' : step st st' -> sys_inv st -> sys_inv st'.
Proof.
  intros Hs Hi. destruct Hs as [a b [st nread data Hc Hn Hd|st i Hi2|st Ht|st strm nread data Hd|st status Hp]|st w].
  - destruct Hi as [H1 H2 H3 H4 H5]. unfold LUAGENT_READ_CHUNK in *.
    pose proof H4 as Hr. unfold rx_ok in Hr.
    destruct (server_read_net nread data st Hn ltac:(lia) ltac:(lia) H1) as (Hq & Hw & _).
    assert (Htot : wp (Server.read_cb ulong_max nread data) (fun ok st' =>
      transfers_ok st' /\ rx_ok st' /\ s_rx_cap (sess st') = s_rx_cap (sess st)) st).
    { destruct (Z.lt_trichotomy nread 0) as [H|[->|H]].
      - unfold Server.read_cb. rewrite (proj2 (Z.ltb_lt _ _) H). apply wp_bind.
        apply (wp_keeps same_io); [apply close_io|]. intros _ st' Hio. apply wp_ret.
        split; [by apply (transfers_ok_same_io st)|]. destruct Hio as [_ _ [Hb' Hc']]. unfold rx_ok. by rewrite Hb', Hc'.
      - unfold Server.read_cb. cbn [Z.ltb Z.compare Z.eqb]. apply wp_ret. split; [exact H3|]. split; [exact H4|done].
      - unfold wp. rewrite (Hn H), read_cb_receive by lia. apply (receive_total ulong_max data st H3 H4). }
    destruct Htot as (Ht & Hr' & Hcap). split; [done|by apply Hw|done|done|by rewrite Hcap].
  - apply (sys_inv_io st); [apply on_write_done_net|apply on_write_done_io|done].
  - destruct Hi as [H1 H2 H3 H4 H5]. destruct (heartbeat_net st H1) as (Hq & Hw & _).
    destruct (heartbeat_rx st) as [Hb Hc].
    split; [done|by apply Hw|by apply heartbeat_transfers|unfold rx_ok; by rewrite Hb, Hc|congruence].
  - apply (sys_inv_io st); [apply proc_read_net; lia|apply proc_read_io|done].
  - apply (sys_inv_io st); [apply proc_exit_net|apply proc_exit_io|done].
  - apply (sys_inv_io st); [apply net_rel_same; [by split|by intros ?]|by split|done].
Qed.

Lemma reachable_inv st st' : rtc step st st' -> sys_inv st -> sys_inv st'.
Proof. induction 1 as [|st st1 st2 H _ IH]; [done|]. intros Hi. apply IH. by eapply step_inv. Qed.

Lemma fresh_inv st st' : inflight st = [] -> wire st = [] -> fresh st st' -> sys_inv st'.
Proof.
  intros Hi Hw []. split.
  - unfold queue_ok. rewrite fr_queue, fr_inflight, Hi. split; [done|]. vm_compute. discriminate.
  - unfold wire_ok. rewrite fr_wire, Hw. constructor.
  - split; [by left|done].
  - unfold rx_ok. rewrite fr_buf, fr_cap. vm_compute. discriminate.
  - done.
Qed.

Lemma wire_frames (l : list bytes) : Forall is_frame l -> exists fs, Forall frame_ok fs /\ l = map encode_frame fs.
Proof.
  induction 1 as [|b l (h & p & Hv & Hl & ->) _ (fs & Hfs & ->)]; [by exists []|].
  exists ((h, p) :: fs). split; [by constructor|done].
Qed.
End system.

(** ** Theorems *)

(** C3: The invariant of a session.  From an accepted connection, after any
    sequence of network reads, completed writes, timer ticks, process output
    and exits, for every script and every behaviour of the outside world:
    the count of queued bytes is that of the writes in flight and at most
    256 KiB; the receive buffer is within its 16 KiB; an upload is idle or
    has an open temporary file and no more bytes than declared; and no
    download is left half done. *)
Theorem session_invariant `{!Uv W, !Lua W, !LuaOk W, !FsView W, !FsLaws W} um status (st0 st1 st : St W) :
  inflight st0 = [] -> wire st0 = [] ->
  on_new_connection status st0 = (true, st1) -> rtc (step um) st1 st ->
  s_pending_write_bytes (sess st) = queue_bytes (inflight st) /\
  queue_bytes (inflight st) <= LUAGENT_MAX_WRITE_QUEUE_BYTES /\
  zlen (s_rx_buf (sess st)) <= s_rx_cap (sess st) /\ s_rx_cap (sess st) = 16384 /\
  (s_upload (sess st) = transfer_init \/ upload_active (s_upload (sess st))) /\
  s_download (sess st) = transfer_init.
Proof.
  intros Hi Hw Ha Hs. pose proof (accept_ok status st0) as H. eapply wp_run in H; [|exact Ha].
  destruct (H eq_refl) as [Hf _].
  destruct (reachable_inv um _ _ Hs (fresh_inv _ _ Hi Hw Hf)) as [[Hq1 Hq2] _ [Hu Hd] Hr Hc].
  split; [done|]. split; [done|]. split; [done|]. split; [exact Hc|]. by split.
Qed.

(** C4: Everything the agent ever sends parses: in every reachable state, the
    bytes handed to the network so far are a sequence of whole, well-formed
    frames, and a peer that parses them finds exactly those frames, whatever
    the order of events and however the bytes are cut. *)
Theorem output_parses `{!Uv W, !Lua W, !LuaOk W, !FsView W, !FsLaws W} um status (st0 st1 st : St W) :
  inflight st0 = [] -> wire st0 = [] ->
  on_new_connection status st0 = (true, st1) -> rtc (step um) st1 st ->
  exists fs, Forall frame_ok fs /\ wire st = map encode_frame fs /\
    forall pieces, concat pieces = concat (wire st) -> feed [] pieces = (fs, Wait []).
Proof.
  intros Hi Hw Ha Hs. pose proof (accept_ok status st0) as H. eapply wp_run in H; [|exact Ha].
  destruct (H eq_refl) as [Hf _].
  destruct (reachable_inv um _ _ Hs (fresh_inv _ _ Hi Hw Hf)) as [_ Hwire _ _ _].
  destruct (wire_frames _ Hwire) as (fs & Hok & E). exists fs. split; [done|]. split; [done|].
  intros pieces Hp. rewrite (feed_parse pieces []) by done. cbn [app]. rewrite Hp, E.
  pose proof (parse_frames_app fs [] Hok) as Hx. rewrite app_nil_r in Hx. by rewrite Hx, parse_nil, app_nil_r.
Qed.

#[local] Instance sim_lua_ok : LuaOk Sim.sim.
Proof.
  intros req_id payload w s [= <-]. apply SK_call; [exact I|]. intros v. apply SK_call; [vm_compute; reflexivity|].
  intros []; constructor.
Qed.

(** A run: a connection, a heartbeat request and its completed reply. *)
Definition first_session : St Sim.sim := (on_new_connection 0 (accepted Sim.empty)).2.
Definition ping_bytes : bytes := header_bytes (FrameHeader FRAME_PING 0 3 0).
Definition after_ping : St Sim.sim := (Server.read_cb (2 ^ 64 - 1) 14 ping_bytes first_session).2.
Definition after_write : St Sim.sim := (on_write_done 0 after_ping).2.

Lemma ping_run : rtc (step (2 ^ 64 - 1)) first_session after_write.
Proof.
  apply (rtc_l _ first_session after_ping); [|apply (rtc_l _ after_ping after_write); [|apply rtc_refl]].
  - exact (step_callback _ _ _ (step_read (2 ^ 64 - 1) first_session 14 ping_bytes eq_refl (fun _ => eq_refl) ltac:(vm_compute; discriminate))).
  - refine (step_callback _ _ _ (step_written (2 ^ 64 - 1) after_ping 0 _)). vm_compute. by eexists.
Qed.

Lemma session_invariant_witness :
  wire after_write = [frame_of FRAME_PONG 3 (lit "status=ok")] /\
  s_pending_write_bytes (sess after_write) = queue_bytes (inflight after_write).
Proof.
  split; [vm_compute; reflexivity|].
  refine (proj1 (session_invariant (2 ^ 64 - 1) 0 (accepted Sim.empty) first_session after_write _ _ _ ping_run)).
  - reflexivity.
  - reflexivity.
  - vm_compute. reflexivity.
Defined.

Lemma output_parses_witness :
  exists fs, Forall frame_ok fs /\ wire after_write = map encode_frame fs.
Proof.
  destruct (output_parses (2 ^ 64 - 1) 0 (accepted Sim.empty) first_session after_write) as (fs & H1 & H2 & _).
  - reflexivity.
  - reflexivity.
  - vm_compute. reflexivity.
  - exact ping_run.
  - exists fs. by split.
Defined.
