(* ===== verification/Balance.v ===== *)
(** * References to a session

    [close_refs] counts the close callbacks that have to run before a session
    may be freed: that of the timer from its start, that of the socket from
    the time it is closed, and those of the three handles of a process.  This
    file shows that every handler keeps the count exact, as long as no rule
    of libuv is broken. *)

From Stdlib Require Import ZArith Lia Bool.
From Stdlib Require Import Strings.Byte Strings.String.
From stdpp Require Import base list numbers option gmap.
From S2P Require Import Prelude CLib Frame Kv State Uv Tables Session Transfer Upload Proc.
From S2P Require Import ProcLife Heartbeat Lua Protocol Handlers Stream Server System.

(** ** The count *)

(** A handle that will call back. *)
Definition cnt (h : handle) : Z :=
  match h with H_open | H_closing true => 1 | _ => 0 end.

(** The socket counts from the time it is closed. *)
Definition cnt_tcp (h : handle) : Z :=
  match h with H_closing true => 1 | _ => 0 end.

Definition held (s : session) : Z :=
  cnt_tcp (s_tcp s) + cnt (s_heartbeat_timer s) + cnt (p_process (s_proc s))
  + cnt (p_stdout_pipe (s_proc s)) + cnt (p_stderr_pipe (s_proc s)).

(** The count with [j] references still to be taken: inside an operation it
    may be ahead of or behind the handles. *)
Record life_off (j : Z) (s : session) : Prop := LifeOff {
  li_refs : s_close_refs s + j = held s;
  li_open : s_closed s = false ->
    s_tcp s = H_open /\ s_heartbeat_timer s = H_open /\ s_timer_started s = true;
  li_closed : s_closed s = true ->
    s_tcp s <> H_open /\ s_heartbeat_timer s <> H_open /\ s_timer_started s = false;
  li_proc : p_active (s_proc s) = true -> p_process (s_proc s) = H_open;
  li_called : s_tcp s <> H_closing false /\ s_heartbeat_timer s <> H_closing false /\
    p_process (s_proc s) <> H_closing false
}.

Definition life_inv (s : session) : Prop := life_off 0 s.

(** What [life_inv] depends on. *)
Definition life_part (s : session) : handle * handle * Z * bool * bool * (bool * handle * handle * handle) :=
  (s_tcp s, s_heartbeat_timer s, s_close_refs s, s_closed s, s_timer_started s,
   (p_active (s_proc s), p_process (s_proc s), p_stdout_pipe (s_proc s), p_stderr_pipe (s_proc s))).

Lemma life_off_part j s s' : life_part s' = life_part s -> life_off j s -> life_off j s'.
Proof.
  unfold life_part. intros [= E1 E2 E3 E4 E5 E6 E7 E8 E9] [].
  split; unfold held in *; rewrite ?E1, ?E2, ?E3, ?E4, ?E5, ?E6, ?E7, ?E8, ?E9; done.
Qed.

(** ** The calls a session makes *)

(** The calls to libuv and the allocator. *)
Inductive uv_call {W} `{!Uv W} : forall A : Type, (W -> A * W) -> Prop :=
| UC_hrtime : uv_call _ uv_hrtime
| UC_malloc n : uv_call _ (c_malloc n)
| UC_write b : uv_call _ (uv_write b)
| UC_tcp_init : uv_call _ uv_tcp_init
| UC_accept : uv_call _ uv_accept
| UC_read_start : uv_call _ uv_read_start
| UC_timer_init : uv_call _ uv_timer_init
| UC_timer_start a b : uv_call _ (uv_timer_start a b)
| UC_fs_open p f : uv_call _ (uv_fs_open p f)
| UC_fs_write fd d o : uv_call _ (uv_fs_write fd d o)
| UC_fs_read fd n o : uv_call _ (uv_fs_read fd n o)
| UC_fs_fstat fd : uv_call _ (uv_fs_fstat fd)
| UC_fs_close fd : uv_call _ (uv_fs_close fd)
| UC_fs_unlink p : uv_call _ (uv_fs_unlink p)
| UC_fs_rename p q : uv_call _ (uv_fs_rename p q)
| UC_fs_scandir p : uv_call _ (uv_fs_scandir p)
| UC_pipe_init : uv_call _ uv_pipe_init
| UC_spawn f a : uv_call _ (uv_spawn f a)
| UC_kill : uv_call _ uv_process_kill.

(** The calls of the relays. *)
Inductive ports_call {W} `{!Ports W} : forall A : Type, (shared -> W -> option (A * shared * W)) -> Prop :=
| PC_open lh lp th tp : ports_call _ (ports_open lh lp th tp)
| PC_close id : ports_call _ (ports_close id)
| PC_list : ports_call _ ports_list.

(** An invariant of the world that all of them keep, and so does what a script
    does by itself. *)
Inductive script_keeps {W} (P : W -> Prop) : script W -> Prop :=
| KS_return : script_keeps P S_return
| KS_raise : script_keeps P S_raise
| KS_diverge : script_keeps P S_diverge
| KS_call c k : (forall v, script_keeps P (k v)) -> script_keeps P (S_call c k)
| KS_io f k : (forall w, P w -> P (f w)) -> (forall w, script_keeps P (k w)) -> script_keeps P (S_io f k).

Class WorldInv (W : Type) `{!Uv W, !Lua W} := {
  world_inv : W -> Prop;
  world_inv_uv A (f : W -> A * W) : uv_call A f -> forall w, world_inv w -> world_inv (f w).2;
  world_inv_ports A (f : shared -> W -> option (A * shared * W)) : ports_call A f ->
    forall sh w a sh' w', world_inv w -> f sh w = Some (a, sh', w') -> world_inv w';
  world_inv_script req_id payload w s : dispatch_request req_id payload w = Some s -> script_keeps world_inv s
}.

(** ** The effect of a step *)

(** A step that, when it breaks no rule of libuv, takes [- k] references more
    than handles; the invariant of the world is kept. *)
Definition shifts {W} `{!Uv W, !Lua W, !WorldInv W} (k : Z) (st st' : St W) : Prop :=
  (world_inv (world st) -> world_inv (world st')) /\
  hazards st `suffix_of` hazards st' /\
  (hazards st' = hazards st -> forall j, life_off j (sess st) -> life_off (j + k) (sess st')).

(** A step that keeps the count exact. *)
Definition balanced {W} `{!Uv W, !Lua W, !WorldInv W} : relation (St W) := shifts 0.

Section balance.
Context {W : Type} `{!Uv W, !Lua W, !WorldInv W}.
Implicit Types st : St W.

Lemma shifts_trans k l (a b c : St W) : shifts k a b -> shifts l b c -> shifts (k + l) a c.
Proof.
  intros (Wab & Hab & Iab) (Wbc & Hbc & Ibc). split; [auto|]. split; [by transitivity (hazards b)|].
  intros E. assert (hazards b = hazards a) as Eb.
  { apply (anti_symm suffix); [|done]. by rewrite <- E. }
  intros j I. rewrite Z.add_assoc. apply Ibc; [congruence|]. by apply Iab.
Qed.

#[global] Instance balanced_preorder : PreOrder (balanced (W := W)).
Proof.
  split; [|intros a b c; apply (shifts_trans 0 0)].
  intros st. split; [done|]. split; [done|]. intros _ j. by rewrite Z.add_0_r.
Qed.

Lemma balanced_same st st' :
  (world_inv (world st) -> world_inv (world st')) -> hazards st' = hazards st ->
  life_part (sess st') = life_part (sess st) -> balanced st st'.
Proof.
  intros Hw E Ep. split; [done|]. split; [by rewrite E|]. intros _ j. rewrite Z.add_0_r. by apply life_off_part.
Qed.

Lemma balanced_modify (f : St W -> St W) :
  (forall st, world (f st) = world st /\ hazards (f st) = hazards st /\ life_part (sess (f st)) = life_part (sess st)) ->
  keeps balanced (modify f).
Proof. intros H st. destruct (H st) as (Ew & Eh & El). apply balanced_same; cbn; [by rewrite Ew|done..]. Qed.

Lemma close_balanced : keeps balanced (session_close (W := W)).
Proof.
  intros st. rewrite session_close_eval. destruct (s_closed (sess st)) eqn:E; [reflexivity|]. split; [done|]. split.
  - cbn. rewrite app_assoc. by apply suffix_app_r.
  - cbn. intros Hz j [Hr Ho _ Hp Hb]. destruct (Ho E) as (Et & Eh & Es). split; try done.
    + cbn. revert Hr. rewrite Es. unfold held. cbn. rewrite Et, Eh. cbn. lia.
    + cbn. intros _. by rewrite Es.
    + cbn. rewrite Es. split; [done|]. split; [done|]. apply Hb.
Qed.

(** A handle that is closed twice shows up among the hazards. *)
Lemma not_longer {A} (x : A) l : l <> x :: l.
Proof. intros E. apply (f_equal length) in E. cbn in E. lia. Qed.

Lemma hazard_shifts k z st st' : world st' = world st -> hazards st' = z :: hazards st -> shifts k st st'.
Proof.
  intros Ew E. split; [by rewrite Ew|]. split; [rewrite E; by apply suffix_cons_r|]. rewrite E. intros Hz.
  by destruct (not_longer z (hazards st)).
Qed.

(** Closing a pipe of the process, with a callback or without one. *)
Lemma close_stdout_shifts (cb : bool) : keeps (shifts (if cb then 0 else -1)) (uv_close (W := W) proc_stdout_pipe cb).
Proof.
  intros st. unfold uv_close. run_eval. destruct (proc_stdout_pipe (sess st)) eqn:E; cbn; [by eapply hazard_shifts| |by eapply hazard_shifts].
  do 2 (split; [done|]). intros _ j [Hr Ho Hc Ha Hb]. unfold proc_stdout_pipe in E. split; [|done..].
  revert Hr. unfold held. cbn. rewrite E. destruct cb; cbn; lia.
Qed.

Lemma close_stderr_shifts (cb : bool) : keeps (shifts (if cb then 0 else -1)) (uv_close (W := W) proc_stderr_pipe cb).
Proof.
  intros st. unfold uv_close. run_eval. destruct (proc_stderr_pipe (sess st)) eqn:E; cbn; [by eapply hazard_shifts| |by eapply hazard_shifts].
  do 2 (split; [done|]). intros _ j [Hr Ho Hc Ha Hb]. unfold proc_stderr_pipe in E. split; [|done..].
  revert Hr. unfold held. cbn. rewrite E. destruct cb; cbn; lia.
Qed.

Lemma close_stdout_balanced : keeps balanced (uv_close (W := W) proc_stdout_pipe true).
Proof. apply (close_stdout_shifts true). Qed.

Lemma close_stderr_balanced : keeps balanced (uv_close (W := W) proc_stderr_pipe true).
Proof. apply (close_stderr_shifts true). Qed.

(** The process itself, when it has exited. *)
Lemma close_process_balanced st :
  p_active (s_proc (sess st)) = false -> balanced st (uv_close (W := W) proc_process true st).2.
Proof.
  intros Hact. unfold uv_close. run_eval. destruct (proc_process (sess st)) eqn:E; cbn; [by eapply hazard_shifts| |by eapply hazard_shifts].
  do 2 (split; [done|]). intros _ j [Hr Ho Hc Ha Hb]. unfold proc_process in E. destruct Hb as (? & ? & _).
  split; [|done|done|cbn; congruence|done]. revert Hr. unfold held. cbn. rewrite E. cbn. lia.
Qed.

(** Initialising a handle of the process. *)
Lemma open_stdout_shifts : keeps (shifts 1) (uv_opened (W := W) proc_stdout_pipe).
Proof.
  intros st. unfold uv_opened. run_eval. destruct (proc_stdout_pipe (sess st)) eqn:E; cbn; [|by eapply hazard_shifts..].
  do 2 (split; [done|]). intros _ j [Hr Ho Hc Ha Hb]. unfold proc_stdout_pipe in E. split; [|done..].
  revert Hr. unfold held. cbn. rewrite E. cbn. lia.
Qed.

Lemma open_stderr_shifts : keeps (shifts 1) (uv_opened (W := W) proc_stderr_pipe).
Proof.
  intros st. unfold uv_opened. run_eval. destruct (proc_stderr_pipe (sess st)) eqn:E; cbn; [|by eapply hazard_shifts..].
  do 2 (split; [done|]). intros _ j [Hr Ho Hc Ha Hb]. unfold proc_stderr_pipe in E. split; [|done..].
  revert Hr. unfold held. cbn. rewrite E. cbn. lia.
Qed.

Lemma start_process_shifts :
  keeps (shifts 1) (uv_opened (W := W) proc_process;; mod_proc (upd p_active (fun _ => true))).
Proof.
  intros st. unfold uv_opened, mod_proc. run_eval. destruct (proc_process (sess st)) eqn:E; cbn; [|by eapply hazard_shifts..].
  do 2 (split; [done|]). intros _ j [Hr Ho Hc Ha Hb]. unfold proc_process in E. destruct Hb as (? & ? & _).
  split; [|done..].
  revert Hr. unfold held. cbn. rewrite E. cbn. lia.
Qed.

Lemma add_ref_shifts : keeps (shifts (-1)) (session_add_ref (W := W)).
Proof.
  intros st. do 2 (split; [done|]). intros _ j [Hr Ho Hc Ha Hb]. split; [|done..].
  revert Hr. unfold held. cbn. lia.
Qed.

Lemma report_balanced z : keeps balanced (report (W := W) z).
Proof.
  intros st. by eapply hazard_shifts.
Qed.

(** The rest of an operation after a step. *)
Lemma wp_shifts {A B} k j (m : M (St W) A) (f : A -> M (St W) B) (Q : B -> St W -> Prop) st0 st :
  keeps (shifts k) m -> shifts j st0 st ->
  (forall a st', shifts (j + k) st0 st' -> wp (f a) Q st') -> wp (m ≫= f) Q st.
Proof. intros Hm Hs H. apply wp_bind, H. eapply shifts_trans; [exact Hs|apply Hm]. Qed.

Lemma reset_balanced : keeps balanced (mod_proc (W := W) proc_reset).
Proof. intros st. do 2 (split; [done|]). intros _ j [Hr Ho Hc Ha Hb]. split; try done. revert Hr. unfold held. cbn. lia. Qed.

Lemma lift_balanced {A} (f : W -> A * W) : uv_call A f -> keeps balanced (lift f).
Proof.
  intros Hf st. pose proof (world_inv_uv A f Hf (world st)) as Hw. unfold lift.
  destruct (f (world st)) as [a w]. by apply balanced_same.
Qed.

Lemma now_balanced : keeps balanced (util_now_ms (W := W)).
Proof.
  unfold util_now_ms. refine (keeps_bind _ _ _ _ _); [|intros; refine (keeps_ret _ _)].
  apply lift_balanced. constructor.
Qed.
End balance.

Ltac bal_step :=
  lazymatch goal with
  | |- keeps _ (mret _) => refine (keeps_ret _ _)
  | |- keeps _ (gets _) => refine (keeps_gets _ _)
  | |- keeps _ (get_sess _) => refine (keeps_gets _ _)
  | |- keeps _ (_ ≫= _) => refine (keeps_bind _ _ _ _ _); [| intros ?]
  | |- keeps _ (if ?b then _ else _) => destruct b eqn:?
  | |- keeps _ (mod_proc proc_reset) => apply reset_balanced
  | |- keeps _ (modify _) => apply balanced_modify; intros ?; by repeat split
  | |- keeps _ (mod_sess _) => apply balanced_modify; intros ?; by repeat split
  | |- keeps _ (mod_proc _) => apply balanced_modify; intros ?; by repeat split
  | |- keeps _ (mod_transfer _ _) => apply balanced_modify; intros ?; by repeat split
  | |- keeps _ (diag_count _) => apply balanced_modify; intros ?; by repeat split
  | |- keeps _ (lift _) => apply lift_balanced; constructor
  | |- keeps _ util_now_ms => apply now_balanced
  | |- keeps _ session_close => apply close_balanced
  | |- keeps _ (report _) => apply report_balanced
  | |- keeps _ (uv_close proc_stdout_pipe true) => apply close_stdout_balanced
  | |- keeps _ (uv_close proc_stderr_pipe true) => apply close_stderr_balanced
  | |- keeps _ (match _ with _ => _ end) => case_match
  | |- keeps _ _ => solve [eauto with balance nocore]
  end.

(** Unfold the counters and run. *)
Ltac bal_solve :=
  unfold diag_count_transfer_start, diag_count_transfer_complete, diag_count_transfer_abort,
    diag_count_process_exit, diag_count_process_spawn, diag_count_process_timeout, diag_count_lua_error,
    diag_count_protocol_error, diag_count_heartbeat, diag_count_frame_tx, diag_count_frame_rx,
    diag_count_parse_failure, send_error;
  repeat bal_step.

Create HintDb balance.

Section handlers.
Context {W : Type} `{!Uv W, !Lua W, !WorldInv W}.
Implicit Types st : St W.

Lemma send_frame_balanced type req_id payload : keeps balanced (session_send_frame (W := W) type req_id payload).
Proof. unfold session_send_frame. bal_solve. Qed.

Lemma send_text_balanced type req_id payload : keeps balanced (session_send_text (W := W) type req_id payload).
Proof. apply send_frame_balanced. Qed.

Lemma send_error_balanced req_id code message : keeps balanced (session_send_error (W := W) req_id code message).
Proof. unfold session_send_error. pose proof send_text_balanced. bal_solve. Qed.
End handlers.

#[export] Hint Resolve send_frame_balanced send_text_balanced send_error_balanced : balance.

Section transfers.
Context {W : Type} `{!Uv W, !Lua W, !WorldInv W}.
Implicit Types st : St W.

Lemma abort_upload_balanced : keeps balanced (transfer_abort (W := W) s_upload).
Proof. unfold transfer_abort. bal_solve. Qed.

Lemma abort_download_balanced : keeps balanced (transfer_abort (W := W) s_download).
Proof. unfold transfer_abort. bal_solve. Qed.

Hint Resolve abort_upload_balanced abort_download_balanced : balance.

Lemma put_begin_balanced req_id payload : keeps balanced (transfer_handle_put_begin (W := W) req_id payload).
Proof. unfold transfer_handle_put_begin. bal_solve. Qed.

Lemma put_chunk_balanced req_id payload : keeps balanced (transfer_handle_put_chunk (W := W) req_id payload).
Proof. unfold transfer_handle_put_chunk. bal_solve. Qed.

Lemma put_end_balanced req_id : keeps balanced (transfer_handle_put_end (W := W) req_id).
Proof. unfold transfer_handle_put_end, transfer_finalize_rename. bal_solve. Qed.

Lemma get_loop_balanced fuel req_id : keeps balanced (get_loop (W := W) fuel req_id).
Proof. induction fuel as [|fuel IH]; cbn [get_loop]; bal_solve. Qed.

Hint Resolve get_loop_balanced : balance.

Lemma get_begin_balanced req_id payload : keeps balanced (transfer_handle_get_begin (W := W) req_id payload).
Proof. unfold transfer_handle_get_begin. bal_solve. Qed.

Lemma timeout_upload_balanced now : keeps balanced (transfer_check_timeout (W := W) s_upload now).
Proof. unfold transfer_check_timeout. bal_solve. Qed.

Lemma timeout_download_balanced now : keeps balanced (transfer_check_timeout (W := W) s_download now).
Proof. unfold transfer_check_timeout. bal_solve. Qed.
End transfers.

#[export] Hint Resolve abort_upload_balanced abort_download_balanced put_begin_balanced put_chunk_balanced
  put_end_balanced get_begin_balanced timeout_upload_balanced timeout_download_balanced : balance.

(** ** Processes *)

Section processes.
Context {W : Type} `{!Uv W, !Lua W, !WorldInv W}.
Implicit Types st : St W.

Lemma maybe_finalize_balanced : keeps balanced (proc_maybe_finalize (W := W)).
Proof. unfold proc_maybe_finalize. bal_solve. Qed.

Hint Resolve maybe_finalize_balanced : balance.

Lemma proc_read_balanced strm nread base : keeps balanced (Proc.read_cb (W := W) strm nread base).
Proof.
  unfold Proc.read_cb, set_stream_data. destruct strm; bal_solve.
Qed.

Lemma kill_balanced um req_id payload : keeps balanced (proc_handle_kill (W := W) um req_id payload).
Proof. unfold proc_handle_kill. bal_solve. Qed.

Lemma check_timeouts_balanced now : keeps balanced (proc_check_timeouts (W := W) now).
Proof. unfold proc_check_timeouts. bal_solve. Qed.

Lemma proc_abort_balanced : keeps balanced (proc_abort (W := W)).
Proof. unfold proc_abort. bal_solve. Qed.

(** After the exit the process is inactive until its handle is closed. *)
Lemma proc_exit_balanced status : keeps balanced (proc_exit_cb (W := W) status).
Proof.
  apply keeps_wp. intros st. unfold proc_exit_cb.
  assert (Htail : forall st1, balanced st st1 -> p_active (s_proc (sess st1)) = false ->
    wp (uv_close proc_process true;; proc_maybe_finalize) (fun _ st' => balanced st st') st1).
  { intros st1 Hs Hp. apply wp_bind. pose proof (close_process_balanced st1 Hp) as Hc.
    unfold wp at 1. set (st2 := (uv_close proc_process true st1).2) in *.
    apply (wp_keeps balanced); [apply maybe_finalize_balanced|]. intros _ st3 H3.
    transitivity st2; [by transitivity st1|done]. }
  repeat proc_step. set (st1 := _ <| g_counters ::= _ |> <| sess ::= _ |>).
  assert (H1 : balanced st st1).
  { do 2 (split; [done|]). intros _ j [Hr Ho Hc Ha Hb]. split; try done. revert Hr. unfold held. cbn. lia. }
  assert (Ep : p_active (s_proc (sess st1)) = false) by done. clearbody st1.
  set (r := exit_reply _ _ _). destruct (util_snprintf_cases 256 r) as [[E _]|[y E]]; rewrite E.
  - set (id := p_proc_id _). apply wp_bind.
    pose proof (sp_proc _ _ (session_send_frame_parts FRAME_EXIT id r st1)) as Hp.
    apply (wp_mono _ (fun _ st2 => balanced st1 st2 /\ s_proc (sess st2) = s_proc (sess st1))).
    { split; [apply send_text_balanced|done]. }
    intros rc st2 [H2 E2]. apply wp_ret, Htail; [by transitivity st1|by rewrite E2].
  - by apply wp_ret, Htail.
Qed.

Lemma dup_all_balanced args : keeps balanced (dup_all (W := W) args).
Proof. induction args as [|a args IH]; cbn [dup_all]; bal_solve. Qed.

Lemma copy_args_balanced n payload i : keeps balanced (copy_args (W := W) n payload i).
Proof. revert i. induction n as [|n IH]; intros i; cbn [copy_args]; bal_solve. Qed.

Hint Resolve dup_all_balanced copy_args_balanced : balance.

Lemma build_args_balanced payload path : keeps balanced (proc_build_args (W := W) payload path).
Proof. unfold proc_build_args. bal_solve. Qed.

Lemma dup_args_balanced argv : keeps balanced (proc_dup_args (W := W) argv).
Proof. unfold proc_dup_args. bal_solve. Qed.

Lemma wp_assoc {A B C} (m : M (St W) A) (f : A -> M (St W) B) (g : B -> M (St W) C) Q st :
  wp ((m ≫= f) ≫= g) Q st -> wp (m ≫= fun a => f a ≫= g) Q st.
Proof. unfold wp. by rewrite !bind_run. Qed.

(** One step of [proc_spawn_common], and the rest of it. *)
Ltac spawn_step :=
  lazymatch goal with
  | |- wp (mret _) _ _ => apply wp_ret; assumption
  | |- wp (if ?b then _ else _) _ _ => destruct b eqn:?
  | |- wp (let '(_, _) := _ in _) _ _ => case_match
  | |- wp (match _ with _ => _ end) _ _ => case_match
  | Hs : shifts _ _ ?st |- wp (uv_opened proc_process ≫= _) _ ?st =>
      apply (wp_assoc (uv_opened proc_process) (fun _ => mod_proc (upd p_active (fun _ => true))));
      refine (wp_shifts 1 _ _ _ _ _ _ _ Hs _); [apply start_process_shifts|];
      clear Hs; intros ? ? Hs; cbn [Z.add Z.pos_sub Pos.add] in Hs
  | Hs : shifts _ _ ?st |- wp (?m ≫= _) _ ?st =>
      let k := lazymatch m with
               | uv_close _ false => constr:(-1)
               | uv_opened _ => constr:(1)
               | session_add_ref => constr:(-1)
               | _ => constr:(0)
               end in
      refine (wp_shifts k _ _ _ _ _ _ _ Hs _);
      [first [apply (close_stdout_shifts false) | apply (close_stderr_shifts false)
             | apply open_stdout_shifts | apply open_stderr_shifts | apply add_ref_shifts | change (keeps balanced m); bal_solve]
      |clear Hs; intros ? ? Hs; cbn [Z.add Z.pos_sub Pos.add] in Hs]
  end.

Lemma spawn_common_balanced req_id path args t i ack :
  keeps balanced (proc_spawn_common (W := W) req_id path args t i ack).
Proof.
  apply keeps_wp. intros st. unfold proc_spawn_common. unfold balanced.
  assert (Hs : shifts 0 st st) by apply balanced_preorder. revert Hs. generalize st at 2 4. intros st1 Hs.
  repeat spawn_step.
Qed.

Hint Resolve build_args_balanced dup_args_balanced spawn_common_balanced : balance.

Lemma spawn_direct_balanced path argv t i : keeps balanced (proc_spawn_direct (W := W) path argv t i).
Proof. unfold proc_spawn_direct. bal_solve. Qed.

Lemma handle_spawn_balanced req_id payload : keeps balanced (proc_handle_spawn (W := W) req_id payload).
Proof. unfold proc_handle_spawn. bal_solve. Qed.
End processes.

#[export] Hint Resolve proc_read_balanced kill_balanced check_timeouts_balanced proc_abort_balanced
  proc_exit_balanced spawn_direct_balanced handle_spawn_balanced : balance.

(** ** Frames, scripts, the timer *)

Section callbacks.
Context {W : Type} `{!Uv W, !Lua W, !WorldInv W}.
Variable ulong_max : Z.
Implicit Types st : St W.

Lemma call_ports_balanced {A} (f : shared -> W -> option (A * shared * W)) :
  ports_call A f -> keeps balanced (call_ports f).
Proof.
  intros Hf st. unfold call_ports. set (sh0 := Shared _ _).
  pose proof (world_inv_ports A f Hf sh0 (world st)) as Hw.
  destruct (f sh0 (world st)) as [[[a sh] w]|]; [|by eapply hazard_shifts].
  apply balanced_same; [|done..]. cbn. intros Hi. by eapply Hw.
Qed.

Lemma run_call_balanced c : keeps balanced (run_call (W := W) c).
Proof.
  destruct c; cbn [run_call]; unfold l_now_ms, l_reply, l_error, l_proc_spawn, l_fs_list, l_port_open,
    l_port_close, l_port_list, l_debug_sessions, l_debug_transfers, l_debug_procs, l_debug_stats;
    repeat lazymatch goal with
    | |- keeps _ (call_ports _) => apply call_ports_balanced; constructor
    | _ => bal_step
    end.
Qed.

Hint Resolve run_call_balanced : balance.

Lemma pcall_balanced s : script_keeps world_inv s -> keeps balanced (lua_pcall (W := W) s).
Proof.
  induction 1 as [| | |c k _ IH|f k Hf _ IH]; cbn [lua_pcall]; [bal_solve..|].
  refine (keeps_bind _ _ _ _ _); [|intros; bal_solve].
  intros st. apply balanced_same; [cbn; by apply Hf|done..].
Qed.

Lemma lua_dispatch_balanced req_id payload : keeps balanced (lua_engine_dispatch (W := W) req_id payload).
Proof.
  unfold lua_engine_dispatch. bal_step; [bal_step|]. case_match eqn:E; [|bal_solve].
  apply world_inv_script, pcall_balanced in E. bal_solve.
Qed.

Hint Resolve lua_dispatch_balanced : balance.

Lemma handle_control_balanced type req_id payload :
  keeps balanced (protocol_handle_control (W := W) ulong_max type req_id payload).
Proof. unfold protocol_handle_control. bal_solve. Qed.

Hint Resolve handle_control_balanced : balance.

Lemma frame_loop_balanced fuel off : keeps balanced (frame_loop (W := W) ulong_max fuel off).
Proof. revert off. induction fuel as [|fuel IH]; intros off; cbn [frame_loop]; bal_solve. Qed.

Hint Resolve frame_loop_balanced : balance.

Lemma server_read_balanced nread data : keeps balanced (Server.read_cb (W := W) ulong_max nread data).
Proof. unfold Server.read_cb. bal_solve. Qed.

Lemma written_balanced i : keeps balanced (on_write_done (W := W) i).
Proof. unfold on_write_done. bal_solve. Qed.

Lemma heartbeat_balanced : keeps balanced (heartbeat_cb (W := W)).
Proof. unfold heartbeat_cb. bal_solve. Qed.

Lemma callback_balanced st st' : callback ulong_max st st' -> balanced st st'.
Proof.
  intros []; [apply server_read_balanced|apply written_balanced|apply heartbeat_balanced
             |apply proc_read_balanced|apply proc_exit_balanced].
Qed.

(** A session starts with an exact count. *)
#[local] Arguments upd {R F} proj {_} _ _ /.

Definition accept_life st (ok : bool) (st' : St W) : Prop :=
  ok = true -> hazards st' = hazards st -> life_inv (sess st').

Lemma close_accept_life st0 st :
  hazards st = hazards st0 -> life_ok st -> s_proc (sess st) = proc_init -> s_closed (sess st) = false ->
  s_close_refs (sess st) = cnt (s_heartbeat_timer (sess st)) ->
  s_timer_started (sess st) = bool_decide (s_heartbeat_timer (sess st) = H_open) ->
  s_heartbeat_timer (sess st) <> H_closing false ->
  wp (session_close;; mret true) (accept_life st0) st.
Proof.
  intros _ Hl Hp Hc Hr Ht Hb. destruct (Hl Hc) as [Etcp _]. apply wp_bind. unfold wp at 1. apply wp_ret. intros _ _.
  rewrite session_close_eval, Hc. cbn. rewrite Ht. split; cbn; rewrite ?Hp, ?Hr; try done.
  - unfold held. cbn. case_bool_decide as E; [by rewrite E|lia].
  - intros _. by case_bool_decide.
  - split; [done|]. by case_bool_decide.
Qed.

Lemma accept_balanced status st : wp (on_new_connection status) (accept_life st) st.
Proof.
  destruct st as [s g n q l z w0].
  unfold on_new_connection, session_init, session_start_timers, session_add_ref.
  repeat (lazymatch goal with
  | |- wp (uv_opened _) _ _ => apply wp_uv_opened; [reflexivity|]
  | |- wp (session_close ≫= _) _ _ => fail
  | |- wp (uv_close _ _) _ _ => apply wp_uv_close; [reflexivity|]
  | _ => wp_step
  end; norm_state); try (by intros [=]); try congruence;
  try (intros _ _; by split); try (by apply close_accept_life).
Qed.
End callbacks.
