(* ===== verification/Portfwd.v ===== *)
(** * Port relays ([src/portfwd.c])

    A relay listens on a port and forwards one connection at a time to a
    target.  Relays and connections are heap objects that outlive the calls
    that make them: a relay is a member of the engine's list until it is
    destroyed and is freed by the close callback of its listener, a connection
    is freed by the later of the close callbacks of its two sockets.  The
    model keeps the heap: an object is an entry of a map, a pointer is its
    address, and an access of an object that was freed, a close of a handle
    that is not open, or a free of a handle that libuv still owns is the
    outcome [None] of the computation. *)

From Stdlib Require Import ZArith Lia Bool.
From Stdlib Require Import Strings.Byte Strings.String.
From stdpp Require Import base list numbers option gmap.
From S2P Require Import Prelude CLib Frame State Uv Tables Session.

(** ** Data *)

Definition PORTFWD_MAX_PENDING_BYTES : Z := 262144.

Notation loc := nat (only parsing).

(** [struct portfwd_relay].  There is one engine, so the field [engine] is
    left out; [r_owner] is the address of a session. *)
Record portfwd_relay := PortfwdRelay {
  r_owner : loc;
  r_next : option loc;
  r_conn : option loc;
  r_listener : handle;
  r_relay_id : Z;
  r_listen_port : Z;
  r_target_port : Z;
  r_closing : bool;
  r_listen_host : option bytes;
  r_target_host : option bytes
}.

#[global] Instance portfwd_relay_eta : Eta portfwd_relay := fun r =>
  PortfwdRelay (r_owner r) (r_next r) (r_conn r) (r_listener r) (r_relay_id r)
    (r_listen_port r) (r_target_port r) (r_closing r) (r_listen_host r) (r_target_host r).

(** [struct relay_conn].  The [data] of its handles and of its connect
    request point to the connection itself. *)
Record relay_conn := RelayConn {
  c_relay : option loc;
  c_inbound : handle;
  c_outbound : handle;
  c_pending_to_inbound : Z;
  c_pending_to_outbound : Z;
  c_inbound_closed : bool;
  c_outbound_closed : bool;
  c_inbound_connected : bool;
  c_outbound_connected : bool;
  c_closing : bool
}.

#[global] Instance relay_conn_eta : Eta relay_conn := fun c =>
  RelayConn (c_relay c) (c_inbound c) (c_outbound c) (c_pending_to_inbound c)
    (c_pending_to_outbound c) (c_inbound_closed c) (c_outbound_closed c)
    (c_inbound_connected c) (c_outbound_connected c) (c_closing c).

(** The memory [calloc] returns. *)
Definition relay_zero : portfwd_relay := PortfwdRelay 0 None None H_none 0 0 0 false None None.
Definition conn_zero : relay_conn := RelayConn None H_none H_none 0 0 false false false false false.

(** [struct relay_write_req]. *)
Record relay_write_req := RelayWriteReq {
  w_conn : loc;
  w_direction : Z;
  w_buf : bytes
}.

(** The handles of the component: the sockets of a connection, the listener
    of a relay, and the socket that only serves to turn a client away. *)
Inductive handle_ref :=
| HR_inbound (c : loc)
| HR_outbound (c : loc)
| HR_listener (r : loc)
| HR_reject (h : loc).

#[global] Instance handle_ref_eq_dec : EqDecision handle_ref.
Proof. solve_decision. Defined.

(** The heap, the engine's fields, the sessions that are allocated with their
    counters, the global counters, and what libuv holds for the component:
    close callbacks and write and connect requests that are pending.
    [received] and [forwarded] record what was read from and written to the
    connections, for the specification. *)
Record PS (W : Type) := mkPS {
  relays : gmap loc portfwd_relay;
  conns : gmap loc relay_conn;
  rejects : gmap loc handle;
  brk : loc;
  e_relays : option loc;
  e_next_relay_id : Z;
  sessions : gmap loc counters;
  pf_counters : diag_counters;
  closing : list handle_ref;
  writes : list relay_write_req;
  connects : list loc;
  received : list relay_write_req;
  forwarded : list relay_write_req;
  pf_world : W
}.
Arguments mkPS {W} _ _ _ _ _ _ _ _ _ _ _ _ _ _.
Arguments relays {W} _.
Arguments conns {W} _.
Arguments rejects {W} _.
Arguments brk {W} _.
Arguments e_relays {W} _.
Arguments e_next_relay_id {W} _.
Arguments sessions {W} _.
Arguments pf_counters {W} _.
Arguments closing {W} _.
Arguments writes {W} _.
Arguments connects {W} _.
Arguments received {W} _.
Arguments forwarded {W} _.
Arguments pf_world {W} _.

#[global] Instance PS_eta W : Eta (PS W) := fun s =>
  mkPS (relays s) (conns s) (rejects s) (brk s) (e_relays s) (e_next_relay_id s)
    (sessions s) (pf_counters s) (closing s) (writes s) (connects s) (received s)
    (forwarded s) (pf_world s).

(** The further calls of libuv and its error codes. *)
Class UvNet (W : Type) := {
  uv_ip4_addr : bytes -> Z -> Z;
  uv_tcp_bind : bytes -> Z -> W -> Z * W;
  uv_listen : Z -> W -> Z * W;
  (** [uv_tcp_getsockname]: result and port. *)
  uv_tcp_getsockname : W -> (Z * Z) * W;
  uv_tcp_connect : bytes -> Z -> W -> Z * W;
  UV_ENOMEM : Z;
  UV_EIO : Z;
  UV_EINVAL : Z;
  UV_EADDRINUSE : Z;
  UV_ENOENT : Z
}.

(** ** Computations that may go wrong *)

Definition PM (W A : Type) : Type := PS W -> option (A * PS W).

#[global] Instance PM_ret W : MRet (PM W) := fun A a s => Some (a, s).
#[global] Instance PM_bind W : MBind (PM W) :=
  fun A B f m s => match m s with Some (a, s') => f a s' | None => None end.

Section heap.
Context {W : Type} `{!Uv W}.

Definition wrong {A} : PM W A := fun _ => None.
Definition pget {A} (f : PS W -> A) : PM W A := fun s => Some (f s, s).
Definition pmod (f : PS W -> PS W) : PM W unit := fun s => Some (tt, f s).
Definition plift {A} (f : W -> A * W) : PM W A :=
  fun s => match f (pf_world s) with (a, w) => Some (a, s <| pf_world := w |>) end.

Definition get_relay (r : loc) : PM W portfwd_relay :=
  fun s => x ← relays s !! r; Some (x, s).
Definition get_conn (c : loc) : PM W relay_conn :=
  fun s => x ← conns s !! c; Some (x, s).
Definition set_relay (r : loc) (f : portfwd_relay -> portfwd_relay) : PM W unit :=
  x ← get_relay r; pmod (fun s => s <| relays ::= <[r := f x]> |>).
Definition set_conn (c : loc) (f : relay_conn -> relay_conn) : PM W unit :=
  x ← get_conn c; pmod (fun s => s <| conns ::= <[c := f x]> |>).

(** A new address. *)
Definition fresh_loc : PM W loc := fun s => Some (brk s, s <| brk ::= S |>).

Definition get_handle (h : handle_ref) : PM W handle :=
  match h with
  | HR_inbound c => x ← get_conn c; mret (c_inbound x)
  | HR_outbound c => x ← get_conn c; mret (c_outbound x)
  | HR_listener r => x ← get_relay r; mret (r_listener x)
  | HR_reject l => fun s => x ← rejects s !! l; Some (x, s)
  end.

Definition set_handle (h : handle_ref) (v : handle) : PM W unit :=
  match h with
  | HR_inbound c => set_conn c (upd c_inbound (fun _ => v))
  | HR_outbound c => set_conn c (upd c_outbound (fun _ => v))
  | HR_listener r => set_relay r (upd r_listener (fun _ => v))
  | HR_reject l => pmod (fun s => s <| rejects ::= <[l := v]> |>)
  end.

(** [uv_close] with a callback: the handle must be open, and its callback is
    pending from now on. *)
Definition pf_uv_close (h : handle_ref) : PM W unit :=
  v ← get_handle h;
  match v with
  | H_open => set_handle h (H_closing true);; pmod (fun s => s <| closing ::= fun l => l ++ [h] |>)
  | _ => wrong
  end.

(** [free]: an object whose handles libuv still owns must not be freed. *)
Definition free_conn (c : loc) : PM W unit :=
  x ← get_conn c;
  match c_inbound x, c_outbound x with
  | H_none, H_none => pmod (fun s => s <| conns ::= delete c |>)
  | _, _ => wrong
  end.

Definition free_relay (r : loc) : PM W unit :=
  x ← get_relay r;
  match r_listener x with
  | H_none => pmod (fun s => s <| relays ::= delete r |>)
  | _ => wrong
  end.

Definition free_reject (l : loc) : PM W unit :=
  v ← get_handle (HR_reject l);
  match v with
  | H_none => pmod (fun s => s <| rejects ::= delete l |>)
  | _ => wrong
  end.

(** A use of [*session]. *)
Definition use_session (o : loc) : PM W unit :=
  fun s => _ ← sessions s !! o; Some (tt, s).

Definition pf_count (o : loc) (f : counters -> counters) : PM W unit :=
  use_session o;;
  pmod (fun s => s <| sessions ::= alter f o |> <| pf_counters ::= upd d_shared f |>).

Definition diag_count_relay_open (o : loc) : PM W unit := pf_count o (upd d_relay_opens incr64).
Definition diag_count_relay_close (o : loc) : PM W unit := pf_count o (upd d_relay_closes incr64).
End heap.

(** ** Connections *)

Section conns.
Context {W : Type} `{!Uv W, !UvNet W}.
Notation PM := (PM W).

Definition relay_maybe_free (c : loc) : PM unit :=
  x ← get_conn c;
  if c_inbound_closed x && c_outbound_closed x then
    (match c_relay x with
     | Some r => set_relay r (upd r_conn (fun _ => None))
     | None => mret tt
     end);;
    free_conn c
  else mret tt.

(** For the handles of a connection; the other handles have callbacks of
    their own. *)
Definition relay_close_cb (h : handle_ref) : PM unit :=
  match h with
  | HR_inbound c => set_conn c (upd c_inbound_closed (fun _ => true));; relay_maybe_free c
  | HR_outbound c => set_conn c (upd c_outbound_closed (fun _ => true));; relay_maybe_free c
  | _ => wrong
  end.

Definition relay_close (c : loc) : PM unit :=
  x ← get_conn c;
  if c_closing x then mret tt
  else
    set_conn c (upd c_closing (fun _ => true));;
    (if negb (c_inbound_closed x) then pf_uv_close (HR_inbound c) else mret tt);;
    (if negb (c_outbound_closed x) then pf_uv_close (HR_outbound c) else mret tt).

Definition relay_write_cb (req : relay_write_req) (status : Z) : PM unit :=
  let c := w_conn req in
  let len := zlen (w_buf req) in
  x ← get_conn c;
  (if w_direction req =? 0 then
     if len <=? c_pending_to_outbound x
     then set_conn c (upd c_pending_to_outbound (fun p => size_t (p - len))) else mret tt
   else
     if len <=? c_pending_to_inbound x
     then set_conn c (upd c_pending_to_inbound (fun p => size_t (p - len))) else mret tt);;
  if status <? 0 then relay_close c else mret tt.

(** [*pending] for a direction, and its update. *)
Definition pending (direction : Z) (x : relay_conn) : Z :=
  if direction =? 0 then c_pending_to_outbound x else c_pending_to_inbound x.
Definition set_pending (direction : Z) (f : Z -> Z) (x : relay_conn) : relay_conn :=
  if direction =? 0 then x <| c_pending_to_outbound ::= f |> else x <| c_pending_to_inbound ::= f |>.
Definition dst (direction : Z) (c : loc) : handle_ref :=
  if direction =? 0 then HR_outbound c else HR_inbound c.

(** [uv_write] needs an open handle. *)
Definition pf_uv_write (h : handle_ref) (req : relay_write_req) : PM Z :=
  v ← get_handle h;
  match v with
  | H_open =>
      rc ← plift (uv_write (w_buf req));
      (if rc =? 0 then pmod (fun s => s <| writes ::= fun l => l ++ [req] |>
                                      <| forwarded ::= fun l => l ++ [req] |>) else mret tt);;
      mret rc
  | _ => wrong
  end.

Definition relay_forward (c : loc) (direction : Z) (data : bytes) : PM unit :=
  x ← get_conn c;
  if c_closing x || (zlen data =? 0) then mret tt
  else if PORTFWD_MAX_PENDING_BYTES <? size_t (pending direction x + zlen data) then relay_close c
  else
    ok ← plift (c_malloc 1);
    if negb ok then relay_close c
    else
      ok ← plift (c_malloc (zlen data));
      if negb ok then relay_close c
      else
        set_conn c (set_pending direction (fun p => size_t (p + zlen data)));;
        rc ← pf_uv_write (dst direction c) (RelayWriteReq c direction data);
        if negb (rc =? 0) then
          set_conn c (set_pending direction (fun p => size_t (p - zlen data)));;
          relay_close c
        else mret tt.

(** [inbound]: whether the stream is the connection's [inbound]. *)
Definition relay_read_cb (c : loc) (inbound : bool) (nread : Z) (base : bytes) : PM unit :=
  if 0 <? nread then relay_forward c (if inbound then 0 else 1) (take (Z.to_nat nread) base)
  else if nread <? 0 then relay_close c
  else mret tt.

Definition relay_connect_cb (c : loc) (status : Z) : PM unit :=
  if status <? 0 then relay_close c
  else
    set_conn c (upd c_outbound_connected (fun _ => true));;
    _ ← plift uv_read_start;
    _ ← plift uv_read_start;
    mret tt.

(** The second client of a relay is accepted and closed. *)
Definition reject_client (owner : loc) : PM unit :=
  ok ← plift (c_malloc 1);
  if negb ok then mret tt
  else
    l ← fresh_loc;
    set_handle (HR_reject l) H_none;;
    use_session owner;;
    rc ← plift uv_tcp_init;
    if negb (rc =? 0) then free_reject l
    else
      set_handle (HR_reject l) H_open;;
      rc ← plift uv_accept;
      if negb (rc =? 0) then free_reject l else pf_uv_close (HR_reject l).

Definition relay_accept_cb (r : loc) (status : Z) : PM unit :=
  x ← get_relay r;
  if (status <? 0) || r_closing x then mret tt
  else if bool_decide (r_conn x <> None) then reject_client (r_owner x)
  else
    ok ← plift (c_malloc 1);
    if negb ok then mret tt
    else
      c ← fresh_loc;
      pmod (fun s => s <| conns ::= <[c := conn_zero <| c_relay := Some r |>]> |>);;
      use_session (r_owner x);;
      rc ← plift uv_tcp_init;
      if negb (rc =? 0) then free_conn c
      else
        set_conn c (upd c_inbound (fun _ => H_open));;
        rc ← plift uv_tcp_init;
        if negb (rc =? 0) then free_conn c
        else
          set_conn c (fun y => y <| c_outbound := H_open |> <| c_inbound_connected := true |>);;
          rc ← plift uv_accept;
          if negb (rc =? 0) then
            pf_uv_close (HR_inbound c);; pf_uv_close (HR_outbound c)
          else if negb (uv_ip4_addr (default [] (r_target_host x)) (r_target_port x) =? 0) then
            relay_close c
          else
            set_relay r (upd r_conn (fun _ => Some c));;
            rc ← plift (uv_tcp_connect (default [] (r_target_host x)) (r_target_port x));
            if negb (rc =? 0) then relay_close c
            else pmod (fun s => s <| connects ::= fun l => l ++ [c] |>).

(** The close callback of listeners and of rejected clients, whose [data] is
    [NULL]. *)
Definition relay_listener_closed_cb (h : handle_ref) : PM unit :=
  match h with
  | HR_reject l => free_reject l
  | HR_listener r => free_relay r
  | _ => wrong
  end.
End conns.

(** ** The list of relays *)

Section list.
Context {W : Type} `{!Uv W, !UvNet W}.
Notation PM := (PM W).

(** A [struct portfwd_relay **]: the head of the engine's list or the [next]
    field of a relay. *)
Inductive link :=
| L_head
| L_next (r : loc).

Definition read_link (it : link) : PM (option loc) :=
  match it with
  | L_head => pget e_relays
  | L_next r => x ← get_relay r; mret (r_next x)
  end.

Definition write_link (it : link) (p : option loc) : PM unit :=
  match it with
  | L_head => pmod (fun s => s <| e_relays := p |>)
  | L_next r => set_relay r (upd r_next (fun _ => p))
  end.

(** The loops over the list are bounded by the number of relays; a list that
    is longer is circular, and the outcome is [None]. *)
Fixpoint relay_remove_loop (fuel : nat) (it : link) (relay : loc) : PM unit :=
  match fuel with
  | O => wrong
  | S fuel' =>
      p ← read_link it;
      match p with
      | None => mret tt
      | Some q =>
          if decide (q = relay) then
            x ← get_relay relay;
            write_link it (r_next x)
          else relay_remove_loop fuel' (L_next q) relay
      end
  end.

Definition list_fuel (s : PS W) : nat := S (size (relays s)).

Definition relay_remove (relay : loc) : PM unit :=
  fuel ← pget list_fuel;
  relay_remove_loop fuel L_head relay.

Definition relay_destroy (r : loc) : PM unit :=
  x ← get_relay r;
  if r_closing x then mret tt
  else
    set_relay r (upd r_closing (fun _ => true));;
    (match r_conn x with
     | Some c => relay_close c;; set_relay r (upd r_conn (fun _ => None))
     | None => mret tt
     end);;
    relay_remove r;;
    pf_uv_close (HR_listener r).

Definition portfwd_engine_init : PM unit :=
  pmod (fun s => s <| e_relays := None |> <| e_next_relay_id := 1 |>).

(** The loop of [portfwd_engine_close] and [portfwd_close_session]: destroy
    the relays that [want] selects. *)
Fixpoint close_loop (want : portfwd_relay -> bool) (fuel : nat) (relay : option loc) : PM unit :=
  match relay with
  | None => mret tt
  | Some r =>
      match fuel with
      | O => wrong
      | S fuel' =>
          x ← get_relay r;
          (if want x then relay_destroy r else mret tt);;
          close_loop want fuel' (r_next x)
      end
  end.

Definition portfwd_engine_close : PM unit :=
  fuel ← pget list_fuel; head ← pget e_relays;
  close_loop (fun _ => true) fuel head.

Definition portfwd_close_session (session : loc) : PM unit :=
  fuel ← pget list_fuel; head ← pget e_relays;
  close_loop (fun x => bool_decide (r_owner x = session)) fuel head.

(** The result code, and on success the id and the port of the relay.  The
    callers pass both hosts. *)
Definition portfwd_open (session : loc) (listen_host : bytes) (listen_port : Z)
    (target_host : bytes) (target_port : Z) : PM (Z * option (Z * Z)) :=
  ok ← plift (c_malloc 1);
  if negb ok then mret (UV_ENOMEM, None)
  else
    r ← fresh_loc;
    id ← pget e_next_relay_id;
    pmod (fun s => s <| e_next_relay_id ::= fun i => u32 (i + 1) |>);;
    ok1 ← plift (c_malloc (zlen listen_host + 1));
    ok2 ← plift (c_malloc (zlen target_host + 1));
    pmod (fun s => s <| relays ::= <[r := relay_zero
      <| r_owner := session |> <| r_relay_id := id |>
      <| r_listen_port := listen_port |> <| r_target_port := target_port |>
      <| r_listen_host := if ok1 : bool then Some listen_host else None |>
      <| r_target_host := if ok2 : bool then Some target_host else None |>]> |>);;
    if negb ok1 || negb ok2 then free_relay r;; mret (UV_ENOMEM, None)
    else
      use_session session;;
      rc ← plift uv_tcp_init;
      if negb (rc =? 0) then free_relay r;; mret (UV_EIO, None)
      else
        set_handle (HR_listener r) H_open;;
        let fail code :=
          set_relay r (upd r_closing (fun _ => true));;
          pf_uv_close (HR_listener r);;
          mret (code, None) in
        if negb (uv_ip4_addr listen_host listen_port =? 0) then fail UV_EINVAL
        else
          rc ← plift (uv_tcp_bind listen_host listen_port);
          if negb (rc =? 0) then fail UV_EADDRINUSE
          else
            rc ← plift (uv_listen 8);
            if negb (rc =? 0) then fail UV_EIO
            else
              head ← pget e_relays;
              set_relay r (upd r_next (fun _ => head));;
              pmod (fun s => s <| e_relays := Some r |>);;
              diag_count_relay_open session;;
              name ← plift uv_tcp_getsockname;
              let '(rc, port) := name : Z * Z in
              (if rc =? 0 then set_relay r (upd r_listen_port (fun _ => u16 port)) else mret tt);;
              x ← get_relay r;
              mret (0, Some (r_relay_id x, r_listen_port x)).

Fixpoint portfwd_close_loop (fuel : nat) (relay : option loc) (relay_id : Z) : PM Z :=
  match relay with
  | None => mret UV_ENOENT
  | Some r =>
      match fuel with
      | O => wrong
      | S fuel' =>
          x ← get_relay r;
          if r_relay_id x =? relay_id then
            diag_count_relay_close (r_owner x);;
            relay_destroy r;;
            mret 0
          else portfwd_close_loop fuel' (r_next x) relay_id
      end
  end.

Definition portfwd_close (relay_id : Z) : PM Z :=
  fuel ← pget list_fuel; head ← pget e_relays;
  portfwd_close_loop fuel head relay_id.

(** The row of a relay. *)
Definition row_of (x : portfwd_relay) : relay_row :=
  RelayRow (r_relay_id x) (r_listen_host x) (r_listen_port x) (r_target_host x) (r_target_port x)
    (bool_decide (r_conn x <> None)).

Fixpoint push_list_loop (fuel : nat) (relay : option loc) (session : option loc) : PM (list relay_row) :=
  match relay with
  | None => mret []
  | Some r =>
      match fuel with
      | O => wrong
      | S fuel' =>
          x ← get_relay r;
          rows ← push_list_loop fuel' (r_next x) session;
          mret (if bool_decide (session = None \/ session = Some (r_owner x)) then row_of x :: rows else rows)
      end
  end.

Definition portfwd_push_list (session : option loc) : PM (list relay_row) :=
  fuel ← pget list_fuel; head ← pget e_relays;
  push_list_loop fuel head session.
End list.
