(* ===== verification/Relays.v ===== *)
(** * The life of relays and connections

    The callbacks of [portfwd.c] in any order the event loop may choose.  The
    invariant of the heap: the engine's list holds exactly the relays that
    are not closing, every pointer of a live object leads to a live object
    (but for that of a closing connection to its relay), libuv's pending callbacks belong to live handles, and the pending counts
    are exact. *)

From Stdlib Require Import ZArith Lia Bool.
From Stdlib Require Import Strings.Byte Strings.String.
From stdpp Require Import base list numbers option gmap relations.
From S2P Require Import Prelude CLib Frame State Uv Session Portfwd.

(** ** Events *)

Inductive pf_event (W : Type) :=
| E_session_new (o : loc)
| E_session_gone (o : loc)
| E_open (o : loc) (listen_host : bytes) (listen_port : Z) (target_host : bytes) (target_port : Z)
| E_close (relay_id : Z)
| E_accept (r : loc) (status : Z)
| E_connect (i : nat) (status : Z)
| E_read (c : loc) (inbound : bool) (nread : Z) (base : bytes)
| E_written (i : nat) (status : Z)
| E_closed (i : nat)
| E_world (f : W -> W).
Arguments E_session_new {W} _.
Arguments E_session_gone {W} _.
Arguments E_open {W} _ _ _ _ _.
Arguments E_close {W} _.
Arguments E_accept {W} _ _.
Arguments E_connect {W} _ _.
Arguments E_read {W} _ _ _ _.
Arguments E_written {W} _ _.
Arguments E_closed {W} _.
Arguments E_world {W} _.

Section events.
Context {W : Type} `{!Uv W, !UvNet W}.
Implicit Types s : PS W.

(** libuv delivers the close callback of a handle: the handle is no longer
    its own, and the callback of the program runs. *)
Definition deliver_close (h : handle_ref) : PM W unit :=
  set_handle h H_none;;
  match h with
  | HR_inbound _ | HR_outbound _ => relay_close_cb h
  | HR_listener _ | HR_reject _ => relay_listener_closed_cb h
  end.

Definition pf_step (e : pf_event W) : PM W unit :=
  match e with
  | E_session_new o => pmod (fun s => s <| sessions ::= <[o := counters_zero]> |>)
  | E_session_gone o => portfwd_close_session o;; pmod (fun s => s <| sessions ::= delete o |>)
  | E_open o lh lp th tp => _ ← portfwd_open o lh lp th tp; mret tt
  | E_close id => _ ← portfwd_close id; mret tt
  | E_accept r status => relay_accept_cb r status
  | E_connect i status =>
      l ← pget connects;
      match l !! i with
      | Some c => pmod (fun s => s <| connects ::= delete i |>);; relay_connect_cb c status
      | None => wrong
      end
  | E_read c inbound nread base =>
      relay_read_cb c inbound nread base;;
      pmod (fun s => s <| received ::= fun l =>
        l ++ [RelayWriteReq c (if inbound then 0 else 1) (take (Z.to_nat nread) base)] |>)
  | E_written i status =>
      l ← pget writes;
      match l !! i with
      | Some w => pmod (fun s => s <| writes ::= delete i |>);; relay_write_cb w status
      | None => wrong
      end
  | E_closed i =>
      l ← pget closing;
      match l !! i with
      | Some h => pmod (fun s => s <| closing ::= delete i |>);; deliver_close h
      | None => wrong
      end
  | E_world f => pmod (fun s => s <| pf_world ::= f |>)
  end.

(** When libuv may deliver the events: connections come to open listeners,
    data to open sockets that are connected, results for pending requests,
    and the close callback of a socket after the callbacks of its requests;
    close callbacks of different handles come in any order. *)
Definition enabled (e : pf_event W) s : Prop :=
  match e with
  | E_session_new o => sessions s !! o = None
  | E_session_gone o => is_Some (sessions s !! o)
  | E_open o _ _ _ _ => is_Some (sessions s !! o)
  | E_close _ => True
  | E_accept r _ => exists x, relays s !! r = Some x /\ r_listener x = H_open
  | E_connect i _ => (i < length (connects s))%nat
  | E_read c inbound nread base =>
      exists y, conns s !! c = Some y /\ (if inbound then c_inbound y else c_outbound y) = H_open /\
        c_outbound_connected y = true /\ nread <= zlen base /\ nread < 2 ^ 63
  | E_written i _ => (i < length (writes s))%nat
  | E_closed i =>
      exists h, closing s !! i = Some h /\
        (forall w, w ∈ writes s -> dst (w_direction w) (w_conn w) <> h) /\
        (forall c, h = HR_outbound c -> c ∉ connects s)
  | E_world _ => True
  end.

(** *** The two events the component does not survive *)

(** The connection whose other socket is already closed, for the close
    callback of its last one. *)
Definition last_side (h : handle_ref) s : option relay_conn :=
  match h with
  | HR_inbound c => y ← conns s !! c; if c_outbound_closed y then Some y else None
  | HR_outbound c => y ← conns s !! c; if c_inbound_closed y then Some y else None
  | _ => None
  end.

(** The relay it points to has been freed. *)
Definition dangling (y : relay_conn) s : bool :=
  match c_relay y with Some r => bool_decide (relays s !! r = None) | None => false end.

(** The first socket of a new connection can be initialised, the second
    cannot. *)
Definition half_made (w : W) : bool :=
  let '(ok, w1) := c_malloc 1 w in
  let '(rc, w2) := uv_tcp_init w1 in
  ok && (rc =? 0) && negb ((uv_tcp_init w2).1 =? 0).

Definition goes_wrong (e : pf_event W) s : bool :=
  match e with
  | E_closed i =>
      match closing s !! i ≫= fun h => last_side h s with
      | Some y => dangling y s
      | None => false
      end
  | E_accept r status =>
      match relays s !! r with
      | Some x => (0 <=? status) && bool_decide (r_conn x = None) && half_made (pf_world s)
      | None => false
      end
  | _ => false
  end.

Definition pf_init (w : W) : PS W :=
  mkPS ∅ ∅ ∅ 0 None 1 ∅ (DiagCounters counters_zero 0) [] [] [] [] [] w.

Definition pf_next s s' : Prop := exists e, enabled e s /\ pf_step e s = Some (tt, s').

Definition pf_reachable s : Prop := exists w, rtc pf_next (pf_init w) s.
End events.

(** What libuv documents of [uv_accept]: in a connection callback "it is
    guaranteed that this function will complete successfully the first time";
    the relays call it nowhere else, and once per callback. *)
Class NetLaws (W : Type) `{!Uv W} := {
  law_accept (w : W) : (uv_accept w).1 = 0
}.

(** ** Running computations *)

#[local] Arguments upd {R F} proj {_} _ _ /.

Definition pwp {W A} (m : PM W A) (Q : A -> PS W -> Prop) (s : PS W) : Prop :=
  match m s with Some (a, s') => Q a s' | None => False end.

Section pwp_rules.
Context {W : Type} `{!Uv W}.
Implicit Types s : PS W.

Lemma pwp_bind {A B} (m : PM W A) (f : A -> PM W B) Q s :
  pwp m (fun a => pwp (f a) Q) s -> pwp (m ≫= f) Q s.
Proof. unfold pwp, mbind, PM_bind. by destruct (m s) as [[]|]. Qed.

Lemma pwp_ret {A} (a : A) Q s : Q a s -> pwp (mret a : PM W A) Q s.
Proof. done. Qed.

Lemma pwp_mono {A} (m : PM W A) (P Q : A -> PS W -> Prop) s :
  pwp m P s -> (forall a s', P a s' -> Q a s') -> pwp m Q s.
Proof. unfold pwp. destruct (m s) as [[]|]; auto. Qed.

Lemma pwp_run {A} (m : PM W A) (Q : A -> PS W -> Prop) s :
  pwp m Q s <-> exists a s', m s = Some (a, s') /\ Q a s'.
Proof.
  unfold pwp. destruct (m s) as [[a s']|]; [|naive_solver].
  split; [eauto|]. intros (?&?&[= -> ->]&?). done.
Qed.

Lemma pwp_get {A} (f : PS W -> A) Q s : Q (f s) s -> pwp (pget f) Q s.
Proof. done. Qed.

Lemma pwp_mod f (Q : unit -> PS W -> Prop) s : Q tt (f s) -> pwp (pmod f) Q s.
Proof. done. Qed.

Lemma pwp_lift {A} (f : W -> A * W) (Q : A -> PS W -> Prop) s :
  (forall w, (f (pf_world s)).2 = w -> Q (f (pf_world s)).1 (s <| pf_world := w |>)) -> pwp (plift f) Q s.
Proof. unfold pwp, plift. destruct (f (pf_world s)) as [a w]. cbn. auto. Qed.

Lemma pwp_get_relay r x (Q : portfwd_relay -> PS W -> Prop) s :
  relays s !! r = Some x -> Q x s -> pwp (get_relay r) Q s.
Proof. unfold pwp, get_relay. by intros ->. Qed.

Lemma pwp_get_conn c y (Q : relay_conn -> PS W -> Prop) s :
  conns s !! c = Some y -> Q y s -> pwp (get_conn c) Q s.
Proof. unfold pwp, get_conn. by intros ->. Qed.

Lemma pwp_set_relay r f x (Q : unit -> PS W -> Prop) s :
  relays s !! r = Some x -> Q tt (s <| relays ::= <[r := f x]> |>) -> pwp (set_relay r f) Q s.
Proof. intros E H. unfold set_relay. apply pwp_bind. by eapply pwp_get_relay. Qed.

Lemma pwp_set_conn c f y (Q : unit -> PS W -> Prop) s :
  conns s !! c = Some y -> Q tt (s <| conns ::= <[c := f y]> |>) -> pwp (set_conn c f) Q s.
Proof. intros E H. unfold set_conn. apply pwp_bind. by eapply pwp_get_conn. Qed.

Lemma pwp_use_session o (Q : unit -> PS W -> Prop) s :
  is_Some (sessions s !! o) -> Q tt s -> pwp (use_session o) Q s.
Proof. unfold pwp, use_session. by intros [x ->]. Qed.

Lemma pwp_fresh (Q : loc -> PS W -> Prop) s :
  Q (brk s) (s <| brk ::= S |>) -> pwp fresh_loc Q s.
Proof. done. Qed.
End pwp_rules.

(** ** The invariant *)

(** The engine's list, from a pointer: the addresses of its relays. *)
Fixpoint chain (rs : gmap loc portfwd_relay) (p : option loc) (l : list loc) : Prop :=
  match l with
  | [] => p = None
  | r :: l' => p = Some r /\ exists x, rs !! r = Some x /\ chain rs (r_next x) l'
  end.

(** The bytes of the requests of a connection in a direction. *)
Definition is_for (c : loc) (d : Z) (w : relay_write_req) : bool :=
  bool_decide (w_conn w = c) && Bool.eqb (w_direction w =? 0) (d =? 0).

Definition bytes_for (c : loc) (d : Z) (ws : list relay_write_req) : bytes :=
  concat (map w_buf (List.filter (is_for c d) ws)).
#[local] Arguments bytes_for : simpl never.

(** A socket of a connection: open; closing once the connection is closing,
    and given back when its callback has run. *)
Definition side_ok (cl closed : bool) (h : handle) : Prop :=
  if cl then h = (if closed then H_none else H_closing true) else closed = false /\ h = H_open.

Record conn_ok (rs : gmap loc portfwd_relay) (ws : list relay_write_req) (c : loc) (y : relay_conn) :
    Prop := ConnOk {
  co_in : side_ok (c_closing y) (c_inbound_closed y) (c_inbound y);
  co_out : side_ok (c_closing y) (c_outbound_closed y) (c_outbound y);
  co_alive : c_inbound_closed y && c_outbound_closed y = false;
  co_relay : exists r, c_relay y = Some r /\
    (c_closing y = false -> exists x, rs !! r = Some x /\ r_conn x = Some c);
  co_pending : forall d, pending d y = zlen (bytes_for c d ws) /\ pending d y <= PORTFWD_MAX_PENDING_BYTES
}.

Record relay_ok (os : gmap loc counters) (cs : gmap loc relay_conn) (r : loc) (x : portfwd_relay) :
    Prop := RelayOk {
  ro_listener : r_listener x = if r_closing x then H_closing true else H_open;
  ro_owner : r_closing x = false -> is_Some (os !! r_owner x);
  ro_conn : forall c, r_conn x = Some c ->
    r_closing x = false /\ exists y, cs !! c = Some y /\ c_relay y = Some r
}.

(** The connection a request or a handle belongs to still has the socket. *)
Definition side_there (cs : gmap loc relay_conn) (c : loc) (outbound : bool) : Prop :=
  exists y, cs !! c = Some y /\ (if outbound then c_outbound_closed y else c_inbound_closed y) = false.

Definition handle_of (rs : gmap loc portfwd_relay) (cs : gmap loc relay_conn) (js : gmap loc handle)
    (h : handle_ref) : option handle :=
  match h with
  | HR_inbound c => c_inbound <$> cs !! c
  | HR_outbound c => c_outbound <$> cs !! c
  | HR_listener r => r_listener <$> rs !! r
  | HR_reject l => js !! l
  end.

Section invariant.
Context {W : Type} `{!Uv W, !UvNet W}.
Implicit Types s : PS W.

Definition target_ok (x : portfwd_relay) : Prop :=
  uv_ip4_addr (W := W) (default [] (r_target_host x)) (r_target_port x) = 0.

(** A relay that can reach its target serves at most one connection. *)
Definition one_conn (rs : gmap loc portfwd_relay) (cs : gmap loc relay_conn) : Prop :=
  forall c y r x, cs !! c = Some y -> c_relay y = Some r -> rs !! r = Some x ->
    r_closing x = false -> target_ok x -> r_conn x = Some c.

(** The relay of a connection that is closing may be gone; of the others it
    points back. *)
Record pf_inv s : Prop := PfInv {
  i_list : exists l, chain (relays s) (e_relays s) l /\ NoDup l /\
    forall r, r ∈ l <-> exists x, relays s !! r = Some x /\ r_closing x = false;
  i_relay : map_Forall (relay_ok (sessions s) (conns s)) (relays s);
  i_conn : map_Forall (conn_ok (relays s) (writes s)) (conns s);
  i_one : one_conn (relays s) (conns s);
  i_target : forall r x, relays s !! r = Some x -> r_conn x <> None -> target_ok x;
  i_ptr : forall c y r, conns s !! c = Some y -> c_relay y = Some r -> (r < brk s)%nat;
  i_reject : map_Forall (fun _ h => h = H_closing true) (rejects s);
  i_nodup : NoDup (closing s);
  i_closing : forall h, h ∈ closing s <->
    handle_of (relays s) (conns s) (rejects s) h = Some (H_closing true);
  i_writes : forall w, w ∈ writes s -> side_there (conns s) (w_conn w) (w_direction w =? 0);
  i_connects : forall c, c ∈ connects s -> side_there (conns s) c true;
  i_fresh : forall n, (brk s <= n)%nat -> relays s !! n = None /\ conns s !! n = None /\ rejects s !! n = None;
  i_log_fresh : forall w, w ∈ received s ++ forwarded s -> (w_conn w < brk s)%nat;
  i_log : forall c d, bytes_for c d (forwarded s) `prefix_of` bytes_for c d (received s);
  i_log_open : forall c y, conns s !! c = Some y -> c_closing y = false ->
    forall d, bytes_for c d (forwarded s) = bytes_for c d (received s)
}.

Lemma pf_inv_init w : pf_inv (pf_init w).
Proof.
  split; cbn; try done; try (by intros ? ?%not_elem_of_nil); try constructor.
  - exists []. repeat split; try done; [constructor | by intros ?%not_elem_of_nil|].
    by intros (x & Hx & _).
  - by intros ?%not_elem_of_nil.
  - by destruct h.
Qed.

Lemma pf_inv_world s w : pf_inv s -> pf_inv (s <| pf_world := w |>).
Proof. by intros []. Qed.

(** *** Changing one connection *)

Lemma inv_update_conn s s' c y y' :
  pf_inv s -> conns s !! c = Some y -> c_relay y' = c_relay y ->
  relays s' = relays s -> e_relays s' = e_relays s -> sessions s' = sessions s ->
  rejects s' = rejects s -> brk s' = brk s -> conns s' = <[c := y']> (conns s) ->
  conn_ok (relays s) (writes s') c y' ->
  NoDup (closing s') ->
  (forall h, h ∈ closing s' <->
    handle_of (relays s) (<[c := y']> (conns s)) (rejects s) h = Some (H_closing true)) ->
  (forall c', c' <> c -> forall d, bytes_for c' d (writes s') = bytes_for c' d (writes s)) ->
  (forall w, w ∈ writes s' -> (w_conn w <> c -> w ∈ writes s) /\
    (w_conn w = c -> (if w_direction w =? 0 then c_outbound_closed y' else c_inbound_closed y') = false)) ->
  (forall k, k ∈ connects s' -> (k <> c -> k ∈ connects s) /\ (k = c -> c_outbound_closed y' = false)) ->
  (forall w, w ∈ received s' ++ forwarded s' -> w_conn w <> c -> w ∈ received s ++ forwarded s) ->
  (forall c' d, c' <> c -> bytes_for c' d (forwarded s') = bytes_for c' d (forwarded s) /\
    bytes_for c' d (received s') = bytes_for c' d (received s)) ->
  (forall d, bytes_for c d (forwarded s') `prefix_of` bytes_for c d (received s')) ->
  (c_closing y' = false -> forall d, bytes_for c d (forwarded s') = bytes_for c d (received s')) ->
  pf_inv s'.
Proof.
  intros I Hc Hr E1 E2 E3 E4 E5 E6 Hok Hnd Hcl Hws Hw Hk Hlf Hlog Hpre Hop. destruct I.
  split; rewrite ?E1, ?E2, ?E3, ?E4, ?E5, ?E6; try done.
  - intros r x Hx. destruct (i_relay0 r x Hx) as [? ? Hrc]. split; [done..|].
    intros c' Hc'. destruct (Hrc c' Hc') as (? & z & Hz & ?). split; [done|].
    destruct (decide (c' = c)) as [->|]; [|exists z; by rewrite lookup_insert_ne].
    exists y'. rewrite lookup_insert_eq. split; [done|congruence].
  - intros c' z Hz. destruct (decide (c' = c)) as [->|Hne].
    { rewrite lookup_insert_eq in Hz. by simplify_eq. }
    rewrite lookup_insert_ne in Hz by done.
    destruct (i_conn0 c' z Hz) as [? ? ? ? Hp]. split; try done. intros d. by rewrite Hws.
  - intros c' z r x Hz. destruct (decide (c' = c)) as [->|].
    + rewrite lookup_insert_eq in Hz. simplify_eq. rewrite Hr. by apply i_one0.
    + rewrite lookup_insert_ne in Hz by done. by apply i_one0.
  - intros c' z r Hz. destruct (decide (c' = c)) as [->|].
    + rewrite lookup_insert_eq in Hz. simplify_eq. rewrite Hr. by apply (i_ptr0 c).
    + rewrite lookup_insert_ne in Hz by done. by apply (i_ptr0 c').
  - intros w Hin. unfold side_there. destruct (decide (w_conn w = c)) as [e|].
    + exists y'. rewrite e, lookup_insert_eq. split; [done|]. by apply (Hw w Hin).
    + rewrite lookup_insert_ne by done. apply i_writes0. by apply (Hw w Hin).
  - intros k Hin. unfold side_there. destruct (decide (k = c)) as [->|].
    + exists y'. rewrite lookup_insert_eq. split; [done|]. by apply (Hk c Hin).
    + rewrite lookup_insert_ne by done. apply i_connects0. by apply (Hk k Hin).
  - intros n Hn. destruct (i_fresh0 n Hn) as (? & Hn' & ?). split; [done|]. split; [|done].
    rewrite lookup_insert_ne; [done|]. congruence.
  - intros w Hin. destruct (decide (w_conn w = c)) as [->|]; [|by apply i_log_fresh0; auto].
    destruct (decide (brk s <= c)%nat) as [Hge|]; [|lia]. destruct (i_fresh0 c Hge) as (_ & ? & _). congruence.
  - intros c' d. destruct (decide (c' = c)) as [->|]; [done|].
    destruct (Hlog c' d) as [-> ->]; auto.
  - intros c' z Hz Hzc d. destruct (decide (c' = c)) as [->|].
    + rewrite lookup_insert_eq in Hz. simplify_eq. auto.
    + rewrite lookup_insert_ne in Hz by done. destruct (Hlog c' d) as [-> ->]; eauto.
Qed.

(** The pending callbacks after some handles were closed. *)
Lemma closing_add (f f' : handle_ref -> option handle) cl hs :
  NoDup cl -> (forall h, h ∈ cl <-> f h = Some (H_closing true)) ->
  NoDup hs -> (forall h, h ∈ hs -> f h <> Some (H_closing true)) ->
  (forall h, h ∈ hs -> f' h = Some (H_closing true)) -> (forall h, h ∉ hs -> f' h = f h) ->
  NoDup (cl ++ hs) /\ forall h, h ∈ cl ++ hs <-> f' h = Some (H_closing true).
Proof.
  intros Hn Hf Hs H1 H2 H3. split.
  - apply NoDup_app. split; [done|]. split; [|done]. intros h Hh%Hf Hh'. by apply (H1 h).
  - intros h. rewrite elem_of_app, Hf. destruct (decide (h ∈ hs)); [naive_solver|]. rewrite H3 by done. tauto.
Qed.

(** The pending callbacks after one was delivered. *)
Lemma closing_del (f f' : handle_ref -> option handle) cl i h0 :
  NoDup cl -> (forall h, h ∈ cl <-> f h = Some (H_closing true)) ->
  cl !! i = Some h0 -> f' h0 <> Some (H_closing true) -> (forall h, h <> h0 -> f' h = f h) ->
  NoDup (delete i cl) /\ forall h, h ∈ delete i cl <-> f' h = Some (H_closing true).
Proof.
  intros Hn Hf Hi H0 H1. pose proof (delete_Permutation _ _ _ Hi) as P.
  generalize dependent (delete i cl). intros dl P.
  rewrite P in Hn. apply NoDup_cons in Hn as [Hnin Hn]. split; [done|].
  intros h. destruct (decide (h = h0)) as [->|]; [tauto|]. rewrite H1, <- Hf by done.
  rewrite P, elem_of_cons. tauto.
Qed.

(** *** Closing a connection *)

Definition close_sides (y : relay_conn) : relay_conn :=
  y <| c_closing := true |> <| c_inbound := H_closing true |> <| c_outbound := H_closing true |>.

Definition closed_state (c : loc) (y : relay_conn) s : PS W :=
  s <| conns ::= <[c := close_sides y]> |>
    <| closing ::= fun l => l ++ [HR_inbound c; HR_outbound c] |>.

Lemma relay_close_pwp c y (Q : unit -> PS W -> Prop) s :
  conns s !! c = Some y ->
  side_ok (c_closing y) (c_inbound_closed y) (c_inbound y) ->
  side_ok (c_closing y) (c_outbound_closed y) (c_outbound y) ->
  Q tt (if c_closing y then s else closed_state c y s) -> pwp (relay_close c) Q s.
Proof.
  intros Hc Hi Ho HQ. unfold relay_close. apply pwp_bind. eapply pwp_get_conn; [done|].
  unfold side_ok in *. destruct (c_closing y) eqn:Ecl; [done|].
  destruct Hi as [Ei1 Ei2], Ho as [Eo1 Eo2]. rewrite Ei1, Eo1.
  unfold pwp, pf_uv_close, get_handle, set_handle, set_conn, get_conn, pmod, mbind, PM_bind, mret, PM_ret,
    option_bind. cbn. rewrite Hc. cbn. rewrite lookup_insert_eq. cbn. rewrite Ei2. cbn.
  rewrite lookup_insert_eq. cbn. rewrite lookup_insert_eq. cbn. rewrite Eo2. cbn. rewrite lookup_insert_eq. cbn.
  unfold closed_state, close_sides in HQ. destruct s as [r0 c0 j0 b0 e0 n0 o0 g0 l0 w0 k0 rc0 fw0 wd0]. cbn in *.
  rewrite !insert_insert_eq, <- app_assoc. exact HQ.
Qed.

Lemma inv_closed_state s c y :
  pf_inv s -> conns s !! c = Some y -> c_closing y = false -> pf_inv (closed_state c y s).
Proof.
  intros I Hc Ecl. pose proof (i_conn s I c y Hc) as [Hi Ho Ha Hr Hp]. rewrite Ecl in Hi, Ho.
  destruct Hi as [Ei1 Ei2], Ho as [Eo1 Eo2].
  destruct (closing_add (handle_of (relays s) (conns s) (rejects s))
    (handle_of (relays s) (<[c := close_sides y]> (conns s)) (rejects s))
    (closing s) [HR_inbound c; HR_outbound c]) as [Hn Hf].
  - apply I.
  - apply I.
  - by apply NoDup_cons; split; [rewrite list_elem_of_singleton|apply NoDup_singleton].
  - intros h. rewrite elem_of_cons, list_elem_of_singleton. intros [->| ->]; cbn; rewrite Hc; cbn; congruence.
  - intros h. rewrite elem_of_cons, list_elem_of_singleton. intros [->| ->]; cbn; by rewrite lookup_insert_eq.
  - intros h. rewrite elem_of_cons, list_elem_of_singleton. intros Hh.
    destruct h; cbn; try done; rewrite lookup_insert_ne; naive_solver.
  - refine (inv_update_conn s (closed_state c y s) c y (close_sides y) I Hc eq_refl eq_refl eq_refl eq_refl eq_refl eq_refl eq_refl
      _ Hn Hf _ _ _ _ _ _ _); cbn.
    + destruct Hr as (r & Hr & _). split; cbn; rewrite ?Ei1, ?Eo1; try done. by exists r.
    + done.
    + intros w Hw. split; [done|]. intros <-. by destruct (w_direction w =? 0).
    + done.
    + done.
    + done.
    + intros d. apply I.
    + done.
Qed.

Lemma relay_close_inv s c :
  pf_inv s -> is_Some (conns s !! c) -> pwp (relay_close c) (fun _ s' => pf_inv s') s.
Proof.
  intros I [y Hc]. pose proof (i_conn s I c y Hc) as [Hi Ho _ _ _]. eapply relay_close_pwp; [done..|].
  destruct (c_closing y) eqn:E; [done|]. by apply inv_closed_state.
Qed.

(** *** Requests *)

Lemma bytes_for_app c d l k : bytes_for c d (l ++ k) = bytes_for c d l ++ bytes_for c d k.
Proof. unfold bytes_for. by rewrite List.filter_app, map_app, concat_app. Qed.

Lemma bytes_for_one c d w : bytes_for c d [w] = if is_for c d w then w_buf w else [].
Proof. unfold bytes_for. cbn. destruct (is_for c d w); cbn; [apply app_nil_r|done]. Qed.

Lemma zlen_bytes_for_delete c d ws i w :
  ws !! i = Some w ->
  zlen (bytes_for c d ws) = zlen (bytes_for c d (delete i ws)) + (if is_for c d w then zlen (w_buf w) else 0).
Proof.
  intros Hi. rewrite <- (take_drop_middle _ _ _ Hi) at 1. rewrite delete_take_drop.
  change (w :: drop (S i) ws) with ([w] ++ drop (S i) ws). rewrite !bytes_for_app, bytes_for_one, !zlen_app.
  destruct (is_for c d w); rewrite ?zlen_nil; lia.
Qed.

Lemma is_for_other c c' d w : w_conn w = c -> c' <> c -> is_for c' d w = false.
Proof. intros <- Hne. unfold is_for. rewrite bool_decide_false; [done|congruence]. Qed.

Lemma bytes_for_delete_other c d ws i w :
  ws !! i = Some w -> is_for c d w = false -> bytes_for c d (delete i ws) = bytes_for c d ws.
Proof.
  intros Hi Hf. rewrite <- (take_drop_middle _ _ _ Hi) at 2. rewrite delete_take_drop.
  change (w :: drop (S i) ws) with ([w] ++ drop (S i) ws). rewrite !bytes_for_app, bytes_for_one, Hf. done.
Qed.

(** Only the pending counts of a connection change. *)
Lemma handle_of_pending rs cs js c y d f h :
  cs !! c = Some y -> handle_of rs (<[c := set_pending d f y]> cs) js h = handle_of rs cs js h.
Proof.
  intros Hc. unfold set_pending. destruct h as [c'|c'| |]; cbn; try done;
    (destruct (decide (c' = c)) as [->|]; [|by rewrite lookup_insert_ne]);
    rewrite lookup_insert_eq, Hc; by destruct (d =? 0).
Qed.

Lemma conn_ok_pending rs ws ws' c y d f :
  conn_ok rs ws c y ->
  (forall e, Bool.eqb (e =? 0) (d =? 0) = false -> zlen (bytes_for c e ws') = zlen (bytes_for c e ws)) ->
  f (pending d y) = zlen (bytes_for c d ws') -> zlen (bytes_for c d ws') <= PORTFWD_MAX_PENDING_BYTES ->
  conn_ok rs ws' c (set_pending d f y).
Proof.
  intros [Hi Ho Ha Hr Hp] He Hd Hm.
  assert (forall e, Bool.eqb (e =? 0) (d =? 0) = true -> bytes_for c e ws' = bytes_for c d ws') as Hsame.
  { intros e Heq. apply eqb_prop in Heq. unfold bytes_for, is_for. by rewrite Heq. }
  split; try (unfold set_pending; by destruct (d =? 0)).
  intros e. specialize (Hp e). specialize (He e). specialize (Hsame e).
  unfold set_pending, pending in *. destruct (d =? 0), (e =? 0); cbn in *; rewrite ?Hsame, ?He by done; lia.
Qed.

Lemma relay_write_cb_inv s i w status :
  pf_inv s -> writes s !! i = Some w ->
  pwp (relay_write_cb w status) (fun _ s' => pf_inv s') (s <| writes ::= delete i |>).
Proof.
  intros I Hi. assert (w ∈ writes s) as Hin by by eapply list_elem_of_lookup_2.
  destruct (i_writes s I w Hin) as (y & Hc & Hcl). pose proof (i_conn s I _ y Hc) as Hok.
  set (c := w_conn w) in *. set (d := w_direction w) in *. set (len := zlen (w_buf w)).
  pose proof (zlen_bytes_for_delete c d _ _ _ Hi) as Hz. fold len in Hz.
  assert (is_for c d w = true) as Hfor.
  { unfold is_for. fold c d. by rewrite bool_decide_true, eqb_reflx. }
  rewrite Hfor in Hz. destruct (co_pending _ _ _ _ Hok d) as [Hp Hm].
  pose proof (zlen_nonneg (bytes_for c d (delete i (writes s)))). pose proof (zlen_nonneg (w_buf w)).
  set (y' := set_pending d (fun p => size_t (p - len)) y).
  set (s' := s <| writes ::= delete i |> <| conns ::= <[c := y']> |>).
  assert (pf_inv s') as I'.
  { refine (inv_update_conn s s' c y y' I Hc _ eq_refl eq_refl eq_refl eq_refl eq_refl eq_refl
      _ _ _ _ _ _ _ _ _ _); cbn.
    - unfold y', set_pending. by destruct (d =? 0).
    - eapply conn_ok_pending; [done| | |lia].
      + intros e Heq. f_equal. apply (bytes_for_delete_other _ _ _ _ w); [done|].
        unfold is_for. fold c d. revert Heq. by destruct (d =? 0), (e =? 0); cbn; rewrite ?andb_false_r.
      + rewrite size_t_small; [lia|]. unfold PORTFWD_MAX_PENDING_BYTES in Hm. lia.
    - apply I.
    - intros h. rewrite (i_closing s I). unfold y'. by rewrite handle_of_pending.
    - intros c' Hne e. apply (bytes_for_delete_other _ _ _ _ w); [done|]. by apply (is_for_other c).
    - intros w' Hw'. apply list_elem_of_delete_inv in Hw'. split; [done|]. intros e.
      destruct (i_writes s I w' Hw') as (z & Hz' & Hzc). rewrite e in Hz'. simplify_eq.
      unfold y', set_pending. destruct (d =? 0), (w_direction w' =? 0); done.
    - intros k Hk. split; [done|]. intros ->. destruct (i_connects s I c Hk) as (z & Hz' & Hzc). simplify_eq.
      unfold y', set_pending. by destruct (d =? 0).
    - done.
    - done.
    - apply I.
    - intros Hncl. apply (i_log_open s I c y Hc). revert Hncl. unfold y', set_pending. by destruct (d =? 0). }
  unfold relay_write_cb. fold c d len. apply pwp_bind. eapply pwp_get_conn; [exact Hc|].
  apply pwp_bind. unfold pending in Hp.
  apply (pwp_mono _ (fun _ st => st = s')).
  - unfold s', y', set_pending. destruct (d =? 0) eqn:Ed;
      (destruct (len <=? _) eqn:El; b2p; [|rewrite Hp in El; lia]); by eapply pwp_set_conn.
  - intros _ ? ->. destruct (status <? 0); [|done]. apply relay_close_inv; [done|].
    unfold s'. cbn. by rewrite lookup_insert_eq.
Qed.

(** *** Data *)

Lemma side_there_self s c y :
  pf_inv s -> conns s !! c = Some y ->
  (forall w, w ∈ writes s -> (w_conn w <> c -> w ∈ writes s) /\
    (w_conn w = c -> (if w_direction w =? 0 then c_outbound_closed y else c_inbound_closed y) = false)) /\
  (forall k, k ∈ connects s -> (k <> c -> k ∈ connects s) /\ (k = c -> c_outbound_closed y = false)).
Proof.
  intros I Hc. split.
  - intros w Hw. split; [done|]. intros e. destruct (i_writes s I w Hw) as (z & Hz & ?).
    rewrite e in Hz. by simplify_eq.
  - intros k Hk. split; [done|]. intros ->. destruct (i_connects s I c Hk) as (z & Hz & ?). by simplify_eq.
Qed.

Lemma elem_of_log_snoc (l k : list relay_write_req) (w w' : relay_write_req) :
  w_conn w' <> w_conn w -> w' ∈ (l ++ [w]) ++ k -> w' ∈ l ++ k.
Proof. intros Hne. rewrite !elem_of_app, list_elem_of_singleton. intros [[?| ->]|?]; [tauto|done|tauto]. Qed.

(** What was read and not forwarded, at the end of a connection. *)
Lemma inv_received s c y d data :
  pf_inv s -> conns s !! c = Some y -> c_closing y = true \/ data = [] ->
  pf_inv (s <| received ::= fun l => l ++ [RelayWriteReq c d data] |>).
Proof.
  intros I Hc Hd. destruct (side_there_self s c y I Hc) as [Hw Hk].
  set (s' := s <| received ::= _ |>).
  refine (inv_update_conn s s' c y y I Hc eq_refl eq_refl eq_refl eq_refl eq_refl eq_refl
    _ _ _ _ _ Hw Hk _ _ _ _); subst s'; cbn.
  - by rewrite insert_id.
  - by apply I.
  - apply I.
  - intros h. rewrite insert_id by done. apply I.
  - done.
  - intros w Hin Hne. by apply (elem_of_log_snoc _ _ (RelayWriteReq c d data)).
  - intros c' e Hne.
    rewrite bytes_for_app, bytes_for_one, (is_for_other c), app_nil_r by done. done.
  - intros e. rewrite bytes_for_app. etransitivity; [apply I|]. by apply prefix_app_r.
  - intros Ecl e. destruct Hd as [?|Hd]; [congruence|].
    rewrite (i_log_open s I c y Hc Ecl), bytes_for_app, bytes_for_one, Hd.
    destruct (is_for _ _ _); by rewrite app_nil_r.
Qed.

Lemma bytes_for_self c d e data :
  bytes_for c e [RelayWriteReq c d data] = if Bool.eqb (d =? 0) (e =? 0) then data else [].
Proof. rewrite bytes_for_one. unfold is_for. cbn. by rewrite bool_decide_true. Qed.

(** Data that was handed on. *)
Lemma inv_forwarded s c y d data :
  pf_inv s -> conns s !! c = Some y -> c_closing y = false ->
  pending d y + zlen data <= PORTFWD_MAX_PENDING_BYTES ->
  pf_inv (s <| conns ::= <[c := set_pending d (fun p => size_t (p + zlen data)) y]> |>
            <| writes ::= fun l => l ++ [RelayWriteReq c d data] |>
            <| forwarded ::= fun l => l ++ [RelayWriteReq c d data] |>
            <| received ::= fun l => l ++ [RelayWriteReq c d data] |>).
Proof.
  intros I Hc Ecl Hle. set (w := RelayWriteReq c d data). set (y' := set_pending d _ y).
  destruct (side_there_self s c y I Hc) as [Hw Hk]. pose proof (i_conn s I c y Hc) as Hok.
  assert (c_relay y' = c_relay y /\ c_closing y' = c_closing y /\
    c_inbound_closed y' = c_inbound_closed y /\ c_outbound_closed y' = c_outbound_closed y) as (E1 & E2 & E3 & E4).
  { unfold y', set_pending. by destruct (d =? 0). }
  match goal with |- pf_inv ?x => set (s' := x) end.
  refine (inv_update_conn s s' c y y' I Hc E1 eq_refl eq_refl eq_refl eq_refl
    eq_refl eq_refl _ _ _ _ _ _ _ _ _ _); subst s'; cbn.
  - destruct (co_pending _ _ _ _ Hok d) as [Hp _]. pose proof (zlen_nonneg data). rewrite Hp in Hle.
    pose proof (zlen_nonneg (bytes_for c d (writes s))).
    apply (conn_ok_pending _ (writes s)); [done| | |].
    + intros e He. rewrite bytes_for_app. unfold w. rewrite bytes_for_self.
      revert He. by destruct (d =? 0), (e =? 0); cbn; rewrite ?app_nil_r.
    + rewrite bytes_for_app. unfold w. rewrite bytes_for_self, eqb_reflx, zlen_app, Hp, size_t_small; [done|].
      unfold PORTFWD_MAX_PENDING_BYTES in Hle. lia.
    + rewrite bytes_for_app. unfold w. rewrite bytes_for_self, eqb_reflx, zlen_app. lia.
  - apply I.
  - intros h. rewrite (i_closing s I). unfold y'. by rewrite handle_of_pending.
  - intros c' Hne e. rewrite bytes_for_app, bytes_for_one, (is_for_other c), app_nil_r by done. done.
  - intros w'. rewrite elem_of_app, list_elem_of_singleton, E3, E4. intros [Hin| ->]; [by apply Hw|].
    split; [done|]. intros _. cbn. pose proof (co_in _ _ _ _ Hok) as Hi. pose proof (co_out _ _ _ _ Hok) as Ho.
    rewrite Ecl in Hi, Ho. by destruct (d =? 0); [apply Ho|apply Hi].
  - rewrite E4. apply Hk.
  - intros w' Hin Hne. rewrite app_assoc in Hin. apply elem_of_app in Hin as [Hin|Hin%list_elem_of_singleton].
    + by apply (elem_of_log_snoc _ _ w).
    + by subst.
  - intros c' e Hne. rewrite !bytes_for_app, !bytes_for_one, !(is_for_other c), !app_nil_r by done. done.
  - intros e. rewrite !bytes_for_app, (i_log_open s I c y Hc Ecl). done.
  - intros _ e. rewrite !bytes_for_app, (i_log_open s I c y Hc Ecl). done.
Qed.

Lemma set_pending_undo d n y :
  0 <= n -> 0 <= pending d y <= PORTFWD_MAX_PENDING_BYTES -> n <= PORTFWD_MAX_PENDING_BYTES ->
  set_pending d (fun p => size_t (p - n)) (set_pending d (fun p => size_t (p + n)) y) = y.
Proof.
  intros Hn Hp Hm. unfold set_pending, pending, PORTFWD_MAX_PENDING_BYTES in *.
  destruct y; cbn in *. destruct (d =? 0); cbn in *; f_equal;
    rewrite (size_t_small (_ + n)), size_t_small by lia; lia.
Qed.

Definition with_received (w : relay_write_req) s : PS W := s <| received ::= fun l => l ++ [w] |>.

Lemma close_received s c y d data :
  pf_inv s -> conns s !! c = Some y -> c_closing y = false ->
  pwp (relay_close c) (fun _ s' => pf_inv (with_received (RelayWriteReq c d data) s')) s.
Proof.
  intros I Hc Ecl. pose proof (i_conn s I c y Hc) as [Hi Ho _ _ _].
  eapply relay_close_pwp; [exact Hc|exact Hi|exact Ho|]. rewrite Ecl.
  apply (inv_received (closed_state c y s) c (close_sides y)).
  - by apply inv_closed_state.
  - cbn. by rewrite lookup_insert_eq.
  - by left.
Qed.

Lemma relay_forward_inv s c y d data :
  pf_inv s -> conns s !! c = Some y -> c_closing y = false -> 0 < zlen data < 2 ^ 63 ->
  pwp (relay_forward c d data) (fun _ s' => pf_inv (with_received (RelayWriteReq c d data) s')) s.
Proof.
  intros I Hc Ecl Hd. pose proof (i_conn s I c y Hc) as [Hi Ho _ _ Hp]. rewrite Ecl in Hi, Ho.
  destruct (Hp d) as [Hpe Hpm]. pose proof (zlen_nonneg (bytes_for c d (writes s))).
  unfold relay_forward. apply pwp_bind. eapply pwp_get_conn; [done|]. rewrite Ecl. cbn [orb].
  destruct (zlen data =? 0) eqn:E0; b2p; [lia|].
  rewrite size_t_small by (unfold PORTFWD_MAX_PENDING_BYTES in Hpm; lia).
  destruct (PORTFWD_MAX_PENDING_BYTES <? _) eqn:E2; b2p.
  { by apply (close_received s c y). }
  assert (forall w, pwp (relay_close c)
    (fun _ s' => pf_inv (with_received (RelayWriteReq c d data) s')) (s <| pf_world := w |>)) as Hclose.
  { intros w. apply (close_received _ c y); [by apply pf_inv_world|done..]. }
  apply pwp_bind, pwp_lift. intros w1 _. destruct (negb _); [apply Hclose|].
  apply pwp_bind, pwp_lift. intros w2 _. destruct (negb _); [apply Hclose|].
  apply pwp_bind. eapply pwp_set_conn; [exact Hc|].
  set (y' := set_pending d _ y). unfold pf_uv_write. do 2 apply pwp_bind.
  apply (pwp_mono _ (fun h st => h = H_open /\ st = s <| pf_world := w2 |> <| conns ::= <[c := y']> |>)).
  { unfold get_handle, dst, y', set_pending. destruct (d =? 0); apply pwp_bind;
      (eapply pwp_get_conn; [cbn; by rewrite lookup_insert_eq|]); apply pwp_ret; cbn; split; try done;
      [apply Ho|apply Hi]. }
  intros ? ? [-> ->]. apply pwp_bind, pwp_lift. intros w3 _. cbn [w_buf].
  destruct (uv_write data _).1 as [|n|n] eqn:Erc; cbn [Z.eqb negb].
  - apply pwp_bind, pwp_mod, pwp_ret, pwp_ret.
    exact (inv_forwarded (s <| pf_world := w3 |>) c y d data (pf_inv_world _ _ I) Hc Ecl E2).
  - apply pwp_bind, pwp_ret, pwp_ret. cbn. apply pwp_bind.
    eapply pwp_set_conn; [cbn; by rewrite lookup_insert_eq|]. cbn. unfold y'.
    rewrite insert_insert_eq, set_pending_undo, insert_id by (done || lia). apply Hclose.
  - apply pwp_bind, pwp_ret, pwp_ret. cbn. apply pwp_bind.
    eapply pwp_set_conn; [cbn; by rewrite lookup_insert_eq|]. cbn. unfold y'.
    rewrite insert_insert_eq, set_pending_undo, insert_id by (done || lia). apply Hclose.
Qed.

Lemma relay_read_inv s c inbound nread base :
  pf_inv s -> enabled (E_read c inbound nread base) s ->
  pwp (pf_step (E_read c inbound nread base)) (fun _ s' => pf_inv s') s.
Proof.
  intros I (y & Hc & Hopen & _ & Hlen & Hmax). cbn. apply pwp_bind.
  set (d := if inbound then 0 else 1). set (data := take (Z.to_nat nread) base).
  pose proof (i_conn s I c y Hc) as [Hi Ho _ _ _].
  assert (c_closing y = false) as Ecl.
  { unfold side_ok in *. destruct (c_closing y); [|done]. rewrite Hi, Ho in Hopen.
    by destruct inbound, (c_inbound_closed y), (c_outbound_closed y). }
  unfold relay_read_cb. destruct (0 <? nread) eqn:E1; b2p.
  - eapply (relay_forward_inv s c y d data); [done..|]. unfold data. rewrite zlen_take. lia.
  - destruct (nread <? 0) eqn:E2; b2p.
    + by apply (close_received s c y).
    + apply pwp_ret, pwp_mod, (inv_received s c y); [done..|right]. unfold data.
      by replace nread with 0 by lia.
Qed.

(** *** Connecting *)

Lemma relay_connect_inv s i status :
  pf_inv s -> enabled (E_connect i status) s -> pwp (pf_step (E_connect i status)) (fun _ s' => pf_inv s') s.
Proof.
  intros I [c Hi]%lookup_lt_is_Some_2. cbn. apply pwp_bind, pwp_get. rewrite Hi. apply pwp_bind, pwp_mod.
  assert (forall w, pf_inv (s <| connects ::= delete i |> <| pf_world := w |>)) as I'.
  { intros w. destruct I. split; try done. intros k Hk%list_elem_of_delete_inv. by apply i_connects0. }
  destruct (i_connects s I c (list_elem_of_lookup_2 _ _ _ Hi)) as (y & Hc & Hcl).
  unfold relay_connect_cb. destruct (status <? 0).
  { apply relay_close_inv; [apply (I' (pf_world s))|eauto]. }
  apply pwp_bind. eapply pwp_set_conn; [exact Hc|].
  do 2 (apply pwp_bind, pwp_lift; intros ? _). apply pwp_ret. cbn.
  set (y' := y <| c_outbound_connected := true |>).
  match goal with |- pf_inv (mkPS _ _ _ _ _ _ _ _ _ _ _ _ _ ?w) => specialize (I' w) end.
  match type of I' with pf_inv ?t => set (s1 := t) in * end.
  destruct (side_there_self s1 c y I' Hc) as [Hw Hk].
  match goal with |- pf_inv ?t => set (s2 := t) end.
  refine (inv_update_conn s1 s2 c y y' I' Hc eq_refl eq_refl eq_refl eq_refl eq_refl eq_refl eq_refl
    _ _ _ _ Hw Hk _ _ _ _); subst s1 s2; cbn.
  - by destruct (i_conn _ I' c y Hc).
  - apply I'.
  - intros h. rewrite (i_closing _ I'). cbn. destruct h as [c'|c'| |]; cbn; try done;
      (destruct (decide (c' = c)) as [->|]; [rewrite lookup_insert_eq, Hc; done|by rewrite lookup_insert_ne]).
  - done.
  - done.
  - done.
  - apply I'.
  - apply (i_log_open _ I' c y Hc).
Qed.

(** *** The end of a connection *)

Definition side (out : bool) (c : loc) : handle_ref := if out then HR_outbound c else HR_inbound c.
Definition side_closed (out : bool) (y : relay_conn) : bool :=
  if out then c_outbound_closed y else c_inbound_closed y.
Definition give_back (out : bool) (y : relay_conn) : relay_conn :=
  if out then y <| c_outbound := H_none |> <| c_outbound_closed := true |>
  else y <| c_inbound := H_none |> <| c_inbound_closed := true |>.

Lemma deliver_close_first out c y (Q : unit -> PS W -> Prop) s :
  conns s !! c = Some y -> side_closed (negb out) y = false ->
  Q tt (s <| conns ::= <[c := give_back out y]> |>) -> pwp (deliver_close (side out c)) Q s.
Proof.
  intros Hc E HQ. unfold deliver_close, side, side_closed, give_back in *.
  unfold pwp, set_handle, relay_close_cb, relay_maybe_free, set_conn, get_conn, pmod, mbind, PM_bind, mret, PM_ret,
    option_bind.
  destruct out; cbn in *; rewrite Hc; cbn; rewrite !lookup_insert_eq; cbn; rewrite !lookup_insert_eq; cbn;
    rewrite ?andb_true_r, !insert_insert_eq;
    [destruct (c_inbound_closed y)|destruct (c_outbound_closed y)]; [done|exact HQ|done|exact HQ].
Qed.

Lemma deliver_close_last out c y r x (Q : unit -> PS W -> Prop) s :
  conns s !! c = Some y -> c_relay y = Some r -> relays s !! r = Some x ->
  side_ok (c_closing y) (c_inbound_closed y) (c_inbound y) ->
  side_ok (c_closing y) (c_outbound_closed y) (c_outbound y) -> side_closed (negb out) y = true ->
  Q tt (s <| relays ::= <[r := x <| r_conn := None |>]> |> <| conns ::= delete c |>) ->
  pwp (deliver_close (side out c)) Q s.
Proof.
  intros Hc Hr Hx Hi Ho E HQ. unfold deliver_close, side, side_closed, give_back in *.
  unfold pwp, set_handle, relay_close_cb, relay_maybe_free, free_conn, set_conn, get_conn, set_relay, get_relay,
    pmod, mbind, PM_bind, mret, PM_ret, option_bind.
  destruct out; cbn in *; rewrite Hc; cbn; rewrite !lookup_insert_eq; cbn; rewrite !lookup_insert_eq; cbn;
    rewrite ?andb_true_r, !insert_insert_eq;
    [destruct (c_inbound_closed y); [|done]|destruct (c_outbound_closed y); [|done]]; rewrite Hr; cbn; rewrite Hx; cbn;
    rewrite lookup_insert_eq; cbn.
  - destruct (c_closing y); [|by destruct Hi]. cbn in Hi. rewrite Hi. cbn. by rewrite delete_insert_eq.
  - destruct (c_closing y); [|by destruct Ho]. cbn in Ho. rewrite Ho. cbn. by rewrite delete_insert_eq.
Qed.

Lemma chain_insert rs r x x' p l :
  rs !! r = Some x -> r_next x' = r_next x -> chain rs p l -> chain (<[r := x']> rs) p l.
Proof.
  intros Hr He. revert p. induction l as [|q l IH]; intros p; cbn; [done|].
  intros (-> & z & Hz & Hch). split; [done|]. destruct (decide (q = r)) as [->|].
  - exists x'. rewrite lookup_insert_eq. split; [done|]. simplify_eq. rewrite He. by apply IH.
  - exists z. rewrite lookup_insert_ne by done. split; [done|]. by apply IH.
Qed.

(** The later of the two close callbacks frees the connection. *)
Lemma inv_free_conn s i out c y r x :
  pf_inv s -> closing s !! i = Some (side out c) -> conns s !! c = Some y -> c_relay y = Some r ->
  relays s !! r = Some x -> side_closed (negb out) y = true ->
  (forall w, w ∈ writes s -> dst (w_direction w) (w_conn w) <> side out c) ->
  (out = true -> c ∉ connects s) ->
  pf_inv (s <| closing ::= delete i |> <| relays ::= <[r := x <| r_conn := None |>]> |> <| conns ::= delete c |>).
Proof.
  intros I Hi Hc Hr Hx Hoc Hnw Hnk.
  assert (forall w, w ∈ writes s -> w_conn w <> c) as Hw.
  { intros w Hin <-. destruct (i_writes s I w Hin) as (z & Hz & Hzc). simplify_eq.
    specialize (Hnw w Hin). unfold dst, side, side_closed in *. destruct (w_direction w =? 0), out; cbn in *; congruence. }
  assert (c ∉ connects s) as Hk.
  { intros Hin. destruct (i_connects s I c Hin) as (z & Hz & Hzc). simplify_eq.
    destruct out; [by apply Hnk|]. unfold side_closed in Hoc. cbn in Hoc. congruence. }
  set (x' := x <| r_conn := None |>).
  set (f' := handle_of (<[r := x']> (relays s)) (delete c (conns s)) (rejects s)).
  assert (forall h, h <> side out c -> f' h = Some (H_closing true) <->
    handle_of (relays s) (conns s) (rejects s) h = Some (H_closing true)) as Hf'.
  { pose proof (i_conn s I c y Hc) as [Hci Hco _ _ _]. unfold side_ok, side_closed in *.
    intros h Hne. unfold f'. destruct h as [c'|c'|r'|]; cbn; try done.
    - destruct (decide (c' = c)) as [->|]; [|by rewrite lookup_delete_ne].
      rewrite lookup_delete_eq, Hc. cbn. destruct out; [|done]. cbn in Hoc. rewrite Hoc in Hci.
      destruct (c_closing y); [|by destruct Hci]. rewrite Hci. naive_solver.
    - destruct (decide (c' = c)) as [->|]; [|by rewrite lookup_delete_ne].
      rewrite lookup_delete_eq, Hc. cbn. destruct out; [done|]. cbn in Hoc. rewrite Hoc in Hco.
      destruct (c_closing y); [|by destruct Hco]. rewrite Hco. naive_solver.
    - destruct (decide (r' = r)) as [->|]; [|by rewrite lookup_insert_ne]. by rewrite lookup_insert_eq, Hx. }
  assert (f' (side out c) = None) as Hf0.
  { unfold f', side. destruct out; cbn; by rewrite lookup_delete_eq. }
  destruct I. split; cbn; try done; fold x'.
  - destruct i_list0 as (l & Hch & Hnd & Hl). exists l. split; [by eapply chain_insert|]. split; [done|].
    intros q. rewrite Hl. destruct (decide (q = r)) as [->|]; [|by rewrite lookup_insert_ne].
    rewrite lookup_insert_eq. split; intros (z & Hz & Hzc); simplify_eq; eauto.
  - intros q z Hz. destruct (decide (q = r)) as [->|Hqr].
    + rewrite lookup_insert_eq in Hz. simplify_eq. by destruct (i_relay0 r x Hx).
    + rewrite lookup_insert_ne in Hz by done. destruct (i_relay0 q z Hz) as [? ? Hrc]. split; [done..|].
      intros c' Hc'. destruct (Hrc c' Hc') as (? & y0 & Hy0 & Hy0r). split; [done|]. exists y0. split; [|done].
      rewrite lookup_delete_ne; [done|]. intros <-. congruence.
  - intros c' z [Hne Hz]%lookup_delete_Some. destruct (i_conn0 c' z Hz) as [? ? ? (q & Hq & Hq') ?]. split; try done.
    exists q. split; [done|]. intros (x0 & Hx0 & Hrc)%Hq'. exists x0. split; [|done].
    rewrite lookup_insert_ne; [done|]. intros <-. simplify_eq.
    destruct (ro_conn _ _ _ _ (i_relay0 r x Hx) c' Hrc) as [Hzc _].
    pose proof (i_one0 c y r x Hc Hr Hx Hzc (i_target0 r x Hx ltac:(congruence))). congruence.
  - intros c' z q z' [Hne Hz]%lookup_delete_Some Hq Hz' Hzc Ht. destruct (decide (q = r)) as [->|].
    + rewrite lookup_insert_eq in Hz'. simplify_eq. cbn in *.
      pose proof (i_one0 c' z r x Hz Hq Hx Hzc Ht). pose proof (i_one0 c y r x Hc Hr Hx Hzc Ht). congruence.
    + rewrite lookup_insert_ne in Hz' by done. by eapply i_one0.
  - intros q z Hz Hzc. destruct (decide (q = r)) as [->|].
    + rewrite lookup_insert_eq in Hz. by simplify_eq.
    + rewrite lookup_insert_ne in Hz by done. by apply (i_target0 q).
  - intros c' z q [_ Hz]%lookup_delete_Some. by apply (i_ptr0 c').
  - pose proof (delete_Permutation _ _ _ Hi) as P. rewrite P in i_nodup0. by apply NoDup_cons in i_nodup0 as [_ ?].
  - intros h. fold f'. destruct (closing_del (handle_of (relays s) (conns s) (rejects s))
      (fun h => if decide (h = side out c) then None else handle_of (relays s) (conns s) (rejects s) h)
      (closing s) i (side out c)) as [_ ->]; try done.
    + by rewrite decide_True.
    + intros h' Hh'. by rewrite decide_False.
    + case_decide as Hd; [subst; by rewrite Hf0|]. by rewrite Hf'.
  - intros w Hin. destruct (i_writes0 w Hin) as (z & ? & ?). exists z. rewrite lookup_delete_ne; [done|].
    intros Heq. by apply (Hw w Hin).
  - intros k Hin. destruct (i_connects0 k Hin) as (z & ? & ?). exists z. rewrite lookup_delete_ne; [done|]. congruence.
  - intros n Hn. destruct (i_fresh0 n Hn) as (? & ? & ?). split; [|split]; try done.
    + rewrite lookup_insert_ne; [done|congruence].
    + rewrite lookup_delete_None. by right.
  - intros c' z [Hne Hz]%lookup_delete_Some. by eapply i_log_open0.
Qed.

(** The earlier one leaves a connection with one socket. *)
Lemma inv_give_back s i out c y :
  pf_inv s -> closing s !! i = Some (side out c) -> conns s !! c = Some y ->
  side_closed (negb out) y = false ->
  (forall w, w ∈ writes s -> dst (w_direction w) (w_conn w) <> side out c) ->
  (out = true -> c ∉ connects s) ->
  pf_inv (s <| closing ::= delete i |> <| conns ::= <[c := give_back out y]> |>).
Proof.
  intros I Hi Hc Hoc Hnw Hnk. pose proof (i_conn s I c y Hc) as [Hci Hco Ha Hr Hp].
  assert (handle_of (relays s) (conns s) (rejects s) (side out c) = Some (H_closing true)) as Hcl.
  { apply (i_closing s I). by eapply list_elem_of_lookup_2. }
  assert (c_closing y = true) as Ecl.
  { destruct (c_closing y) eqn:E; [done|]. exfalso. destruct Hci as [_ Hci], Hco as [_ Hco].
    unfold side in Hcl. destruct out; cbn in Hcl; rewrite Hc in Hcl; cbn in Hcl; congruence. }
  set (y' := give_back out y).
  destruct (closing_del (handle_of (relays s) (conns s) (rejects s))
    (handle_of (relays s) (<[c := y']> (conns s)) (rejects s)) (closing s) i (side out c)) as [Hnd Hiff].
  - apply I.
  - apply I.
  - done.
  - unfold side, y', give_back. destruct out; cbn; rewrite lookup_insert_eq; done.
  - intros h Hne. destruct h as [c'|c'| |]; cbn; try done;
      (destruct (decide (c' = c)) as [->|]; [|by rewrite lookup_insert_ne]);
      rewrite lookup_insert_eq, Hc; unfold y', give_back; by destruct out.
  - match goal with |- pf_inv ?t => set (s' := t) end.
    refine (inv_update_conn s s' c y y' I Hc _ eq_refl eq_refl eq_refl eq_refl eq_refl eq_refl _ Hnd Hiff
      _ _ _ _ _ _ _); subst s'; cbn.
    + unfold y', give_back. by destruct out.
    + destruct Hr as (r & Hr & _). unfold y', give_back, side_closed, side_ok in *. destruct out; cbn in *; rewrite Ecl in *.
      * split; cbn; rewrite ?Ecl, ?andb_true_r; try done; first [by rewrite Ecl|by exists r].
      * split; cbn; rewrite ?Ecl; try done; first [by rewrite Ecl|by exists r].
    + done.
    + intros w Hin. split; [done|]. intros <-. destruct (i_writes s I w Hin) as (z & Hz & Hzc). simplify_eq.
      specialize (Hnw w Hin). unfold y', give_back, dst, side in *.
      destruct (w_direction w =? 0), out; cbn in *; congruence.
    + intros k Hin. split; [done|]. intros ->. destruct (i_connects s I c Hin) as (z & Hz & Hzc). simplify_eq.
      unfold y', give_back. destruct out; [by destruct Hnk|done].
    + done.
    + done.
    + apply I.
    + intros Hf. unfold y', give_back in Hf. destruct out; cbn in Hf; congruence.
Qed.

(** The listener is given back and the relay freed. *)
Lemma inv_free_relay s i r x :
  pf_inv s -> closing s !! i = Some (HR_listener r) -> relays s !! r = Some x ->
  pf_inv (s <| closing ::= delete i |> <| relays ::= delete r |>).
Proof.
  intros I Hi Hx. pose proof (i_relay s I r x Hx) as [Hl _ Hrc].
  assert (r_closing x = true) as Ecl.
  { assert (HR_listener r ∈ closing s) as Hin%(i_closing s I) by by eapply list_elem_of_lookup_2.
    cbn in Hin. rewrite Hx in Hin. cbn in Hin. destruct (r_closing x); [done|congruence]. }
  destruct I. split; cbn; try done.
  - destruct i_list0 as (l & Hch & Hnd & Hl'). exists l. split; [|split; [done|]].
    + assert (r ∉ l) as Hnin by (rewrite Hl'; intros (z & Hz & Hzc); congruence).
      clear Hnd Hl'. revert Hch Hnin. generalize (e_relays s). induction l as [|q l IH]; intros p; cbn; [done|].
      intros (-> & z & Hz & Hch) [Hne Hnin]%not_elem_of_cons. split; [done|]. exists z.
      rewrite lookup_delete_ne by done. split; [done|]. by apply IH.
    + intros q. rewrite Hl'. destruct (decide (q = r)) as [->|]; [|by rewrite lookup_delete_ne].
      rewrite lookup_delete_eq, Hx. split; intros (z & Hz & Hzc); congruence.
  - intros q z [_ Hz]%lookup_delete_Some. by apply i_relay0.
  - intros c y Hc. destruct (i_conn0 c y Hc) as [? ? ? (q & Hq & Hq') ?]. split; try done. exists q.
    split; [done|]. intros (z & Hz & Hzc)%Hq'. exists z. rewrite lookup_delete_ne; [done|]. intros <-. simplify_eq.
    destruct (Hrc c Hzc). congruence.
  - intros c y q z Hc Hq [_ Hz]%lookup_delete_Some. by eapply i_one0.
  - intros q z [_ Hz]%lookup_delete_Some. by apply (i_target0 q).
  - pose proof (delete_Permutation _ _ _ Hi) as P. rewrite P in i_nodup0. by apply NoDup_cons in i_nodup0 as [_ ?].
  - edestruct closing_del as [_ Hd]; [exact i_nodup0|exact i_closing0|exact Hi| |intros h Hne|exact Hd]; cbn.
    + by rewrite lookup_delete_eq.
    + destruct h as [| |q|]; cbn; try done. rewrite lookup_delete_ne; [done|]. congruence.
  - intros n Hn. destruct (i_fresh0 n Hn) as (? & ? & ?). split; [|done]. rewrite lookup_delete_None. by right.
Qed.

Lemma inv_free_reject s i l :
  pf_inv s -> closing s !! i = Some (HR_reject l) ->
  pf_inv (s <| closing ::= delete i |> <| rejects ::= delete l |>).
Proof.
  intros I Hi. destruct I. split; cbn; try done.
  - intros q z [_ Hz]%lookup_delete_Some. by eapply i_reject0.
  - pose proof (delete_Permutation _ _ _ Hi) as P. rewrite P in i_nodup0. by apply NoDup_cons in i_nodup0 as [_ ?].
  - edestruct closing_del as [_ Hd]; [exact i_nodup0|exact i_closing0|exact Hi| |intros h Hne|exact Hd]; cbn.
    + by rewrite lookup_delete_eq.
    + destruct h as [| | |q]; cbn; try done. rewrite lookup_delete_ne; [done|]. congruence.
  - intros n Hn. destruct (i_fresh0 n Hn) as (? & ? & ?). repeat split; try done.
    rewrite lookup_delete_None. by right.
Qed.

Lemma pf_step_closed s i h :
  closing s !! i = Some h -> pf_step (E_closed i) s = deliver_close h (s <| closing ::= delete i |>).
Proof. intros Hi. cbn. unfold pget, pmod, mbind, PM_bind. cbn. by rewrite Hi. Qed.

(** A listener: the relay is freed. *)
Lemma deliver_close_listener r x s :
  relays s !! r = Some x -> deliver_close (HR_listener r) s = Some (tt, s <| relays ::= delete r |>).
Proof.
  intros Hx. unfold deliver_close, set_handle, relay_listener_closed_cb, free_relay, set_relay, get_relay, pmod, mbind,
    PM_bind, option_bind. cbn. rewrite Hx. cbn. rewrite lookup_insert_eq. cbn. by rewrite delete_insert_eq.
Qed.

(** The last socket of a connection whose relay is gone. *)
Lemma deliver_close_stale out c y r s :
  conns s !! c = Some y -> side_closed (negb out) y = true -> c_relay y = Some r -> relays s !! r = None ->
  deliver_close (side out c) s = None.
Proof.
  intros Hc Hoc Hr Hx. unfold deliver_close, side, side_closed in *.
  unfold set_handle, relay_close_cb, relay_maybe_free, free_conn, set_conn, get_conn, set_relay, get_relay,
    pmod, mbind, PM_bind, mret, PM_ret, option_bind.
  destruct out; cbn in *; rewrite Hc; cbn; rewrite !lookup_insert_eq; cbn; rewrite !lookup_insert_eq; cbn;
    rewrite ?andb_true_r, Hoc, Hr; cbn; by rewrite Hx.
Qed.

Lemma last_side_side out c s :
  last_side (side out c) s = y ← conns s !! c; if side_closed (negb out) y then Some y else None.
Proof. by destruct out. Qed.

Lemma deliver_close_inv s i :
  pf_inv s -> enabled (E_closed i) s ->
  if goes_wrong (E_closed i) s then pf_step (E_closed i) s = None
  else pwp (pf_step (E_closed i)) (fun _ s' => pf_inv s') s.
Proof.
  intros I (h & Hi & Hw & Hk). cbn [goes_wrong]. rewrite Hi. cbn [mbind option_bind].
  assert (forall Q, pwp (deliver_close h) Q (s <| closing ::= delete i |>) -> pwp (pf_step (E_closed i)) Q s) as Hrun.
  { intros Q HQ. unfold pwp. by rewrite (pf_step_closed _ _ _ Hi). }
  assert (handle_of (relays s) (conns s) (rejects s) h = Some (H_closing true)) as Hh.
  { apply (i_closing s I). by eapply list_elem_of_lookup_2. }
  assert (forall out c, h = side out c ->
    if (match last_side h s with Some y => dangling y s | None => false end)
    then pf_step (E_closed i) s = None else pwp (pf_step (E_closed i)) (fun _ s' => pf_inv s') s) as Hside.
  { intros out c ->. assert (exists y, conns s !! c = Some y) as [y Hc].
    { unfold side in Hh. destruct out; cbn in Hh; destruct (conns s !! c) as [y|]; [eauto|done|eauto|done]. }
    pose proof (i_conn s I c y Hc) as [Hci Hco _ (r & Hr & _) _].
    assert (out = true -> c ∉ connects s) as Hk' by (intros ->; by apply Hk).
    rewrite last_side_side, Hc. cbn [mbind option_bind].
    destruct (side_closed (negb out) y) eqn:E; [|by apply Hrun, (deliver_close_first out c y), inv_give_back].
    unfold dangling. rewrite Hr. destruct (relays s !! r) as [x|] eqn:Hx.
    - rewrite bool_decide_false by done. apply Hrun. eapply deliver_close_last; [exact Hc|exact Hr|exact Hx|done..|].
      by eapply inv_free_conn.
    - rewrite bool_decide_true, (pf_step_closed _ _ _ Hi) by done. by apply (deliver_close_stale out c y r). }
  destruct h as [c|c|r|l]; [by apply (Hside false c)|by apply (Hside true c)| |]; cbn in Hh; cbn [last_side]; apply Hrun.
  - destruct (relays s !! r) as [x|] eqn:Hx; [|done].
    unfold pwp. rewrite (deliver_close_listener r x) by done. exact (inv_free_relay s i r x I Hi Hx).
  - pose proof (inv_free_reject s i l I Hi) as HQ.
    unfold pwp, deliver_close, set_handle, relay_listener_closed_cb, free_reject, get_handle, pmod, mbind, PM_bind,
      option_bind. cbn. rewrite lookup_insert_eq. cbn. by rewrite delete_insert_eq.
Qed.

(** *** Accepting *)

Lemma bytes_for_none c d ws : (forall w, w ∈ ws -> w_conn w <> c) -> bytes_for c d ws = [].
Proof.
  induction ws as [|w ws IH]; intros H; [done|]. change (w :: ws) with ([w] ++ ws).
  rewrite bytes_for_app, bytes_for_one, IH, (is_for_other (w_conn w)); try done.
  - intros ->. by apply (H w); [left|].
  - intros w' Hw'. apply H. by right.
Qed.

Lemma inv_reject s :
  pf_inv s ->
  pf_inv (s <| brk ::= S |> <| rejects ::= <[brk s := H_closing true]> |>
            <| closing ::= fun l => l ++ [HR_reject (brk s)] |>).
Proof.
  intros I. destruct (i_fresh s I (brk s)) as (_ & _ & Hf); [done|].
  edestruct (closing_add (handle_of (relays s) (conns s) (rejects s))
    (handle_of (relays s) (conns s) (<[brk s := H_closing true]> (rejects s))) (closing s) [HR_reject (brk s)])
    as [Hn Hiff].
  - apply I.
  - apply I.
  - apply NoDup_singleton.
  - intros h ->%list_elem_of_singleton. cbn. congruence.
  - intros h ->%list_elem_of_singleton. cbn. by rewrite lookup_insert_eq.
  - intros h Hh. rewrite list_elem_of_singleton in Hh. destruct h; cbn; try done. rewrite lookup_insert_ne; congruence.
  - destruct I. split; cbn; try done.
    + intros c y r Hc Hr. specialize (i_ptr0 c y r Hc Hr). lia.
    + by apply map_Forall_insert_2.
    + intros n Hn'. destruct (i_fresh0 n) as (? & ? & ?); [lia|]. repeat split; try done.
      rewrite lookup_insert_ne; [done|lia].
    + intros w Hw. specialize (i_log_fresh0 w Hw). lia.
Qed.

(** An address was used and its object freed at once. *)
Lemma inv_brk s n : pf_inv s -> pf_inv (s <| brk ::= S |> <| e_next_relay_id := n |>).
Proof.
  intros []. split; try done; cbn.
  - intros c y r Hc Hr. specialize (i_ptr0 c y r Hc Hr). lia.
  - intros m Hm. apply i_fresh0. lia.
  - intros w Hw. specialize (i_log_fresh0 w Hw). lia.
Qed.

Lemma inv_brk_world s w : pf_inv s -> pf_inv (s <| brk ::= S |> <| pf_world := w |>).
Proof. intros I. exact (pf_inv_world _ w (inv_brk s (e_next_relay_id s) I)). Qed.

Lemma reject_client_inv s o `{!NetLaws W} :
  pf_inv s -> is_Some (sessions s !! o) -> pwp (reject_client o) (fun _ s' => pf_inv s') s.
Proof.
  intros I Ho. destruct (i_fresh s I (brk s)) as (_ & _ & Hf); [done|].
  unfold reject_client. apply pwp_bind, pwp_lift. intros w1 _.
  destruct (negb _); [by apply pwp_ret, pf_inv_world|].
  apply pwp_bind, pwp_fresh. cbn. apply pwp_bind, pwp_mod. apply pwp_bind, pwp_use_session; [done|]. cbn.
  apply pwp_bind, pwp_lift. intros w2 _. destruct (negb _).
  { unfold pwp, free_reject, get_handle, pmod, mbind, PM_bind, option_bind. cbn.
    rewrite lookup_insert_eq. cbn. rewrite delete_insert_id by done. exact (inv_brk_world s w2 I). }
  apply pwp_bind, pwp_mod. cbn. apply pwp_bind, pwp_lift. intros w3 _. rewrite law_accept. cbn.
  unfold pwp, pf_uv_close, get_handle, set_handle, pmod, mbind, PM_bind, option_bind. cbn.
  rewrite lookup_insert_eq. cbn. rewrite !insert_insert_eq.
  exact (inv_reject (s <| pf_world := w3 |>) (pf_inv_world _ _ I)).
Qed.

Definition new_conn (r : loc) : relay_conn :=
  conn_zero <| c_relay := Some r |> <| c_inbound := H_open |> <| c_outbound := H_open |>
    <| c_inbound_connected := true |>.

Lemma fresh_not_requested s w : pf_inv s -> w ∈ writes s -> w_conn w <> brk s.
Proof.
  intros I Hw E. destruct (i_writes s I w Hw) as (y & Hy & _). rewrite E in Hy.
  destruct (i_fresh s I (brk s)) as (_ & Hf & _); [done|]. congruence.
Qed.

(** How a connection comes in: linked and open; or, when the target address
    is no good, already closing. *)
Definition comes_in s (r : loc) (x x' : portfwd_relay) (y' : relay_conn) (extra : list handle_ref) : Prop :=
  x' = x <| r_conn := Some (brk s) |> /\ target_ok x /\ y' = new_conn r /\ extra = [] \/
  x' = x /\ ~ target_ok x /\ y' = close_sides (new_conn r) /\ extra = [HR_inbound (brk s); HR_outbound (brk s)].

Lemma comes_in_closing s r x x' y' extra :
  pf_inv s -> relays s !! r = Some x -> comes_in s r x x' y' extra ->
  NoDup (closing s ++ extra) /\
  forall h, h ∈ closing s ++ extra <->
    handle_of (<[r := x']> (relays s)) (<[brk s := y']> (conns s)) (rejects s) h = Some (H_closing true).
Proof.
  intros I Hx Hin. destruct (i_fresh s I (brk s)) as (_ & Hf & _); [done|].
  assert (forall h, h <> HR_inbound (brk s) -> h <> HR_outbound (brk s) ->
    handle_of (<[r := x']> (relays s)) (<[brk s := y']> (conns s)) (rejects s) h =
    handle_of (relays s) (conns s) (rejects s) h) as Hne.
  { intros [c'|c'|q|] H1 H2; cbn; try done; [rewrite lookup_insert_ne; [done|congruence]..|].
    destruct (decide (q = r)) as [->|]; [|by rewrite lookup_insert_ne]. rewrite lookup_insert_eq, Hx.
    by destruct Hin as [(-> & _)|(-> & _)]. }
  destruct Hin as [(_ & _ & -> & ->)|(_ & _ & -> & ->)].
  - rewrite app_nil_r. split; [apply I|]. intros h. rewrite (i_closing s I).
    destruct (decide (h = HR_inbound (brk s))) as [->|]; [cbn; by rewrite lookup_insert_eq, Hf|].
    destruct (decide (h = HR_outbound (brk s))) as [->|]; [cbn; by rewrite lookup_insert_eq, Hf|]. by rewrite Hne.
  - apply (closing_add (handle_of (relays s) (conns s) (rejects s))).
    + apply I.
    + apply I.
    + by apply NoDup_cons; split; [rewrite list_elem_of_singleton|apply NoDup_singleton].
    + intros h. rewrite elem_of_cons, list_elem_of_singleton. intros [->| ->]; cbn; by rewrite Hf.
    + intros h. rewrite elem_of_cons, list_elem_of_singleton. intros [->| ->]; cbn; by rewrite lookup_insert_eq.
    + intros h Hh. rewrite elem_of_cons, list_elem_of_singleton in Hh. apply Hne; tauto.
Qed.

Lemma comes_in_conn s r x x' y' extra rs' :
  pf_inv s -> rs' !! r = Some x' -> comes_in s r x x' y' extra ->
  conn_ok rs' (writes s) (brk s) y' /\ c_relay y' = Some r.
Proof.
  intros I Hx' Hin. assert (forall d, bytes_for (brk s) d (writes s) = []) as Hb.
  { intros d. apply bytes_for_none. intros w Hw. by apply fresh_not_requested. }
  destruct Hin as [(-> & _ & -> & _)|(-> & _ & -> & _)]; (split; [|done]); split; cbn; try done;
    try (intros d; rewrite Hb; unfold pending; cbn; by destruct (d =? 0)); exists r; (split; [done|]); [eauto|done].
Qed.

Lemma inv_new_conn s r x x' y' extra :
  pf_inv s -> relays s !! r = Some x -> r_closing x = false -> r_conn x = None -> comes_in s r x x' y' extra ->
  pf_inv (s <| brk ::= S |> <| conns ::= <[brk s := y']> |> <| relays ::= <[r := x']> |>
            <| closing ::= fun l => l ++ extra |>).
Proof.
  intros I Hx Hcl Hn Hx'. destruct (i_fresh s I (brk s)) as (Hf1 & Hf2 & Hf3); [done|].
  pose proof (fresh_not_requested s) as Hnw.
  destruct (comes_in_closing s r x x' y' extra I Hx Hx') as [Hnd' Hcl'].
  destruct (comes_in_conn s r x x' y' extra (<[r := x']> (relays s)) I (lookup_insert_eq _ _ _) Hx') as [Hok Hrel].
  assert (r_next x' = r_next x /\ r_closing x' = r_closing x /\ r_listener x' = r_listener x /\
    r_owner x' = r_owner x /\ (target_ok x' <-> target_ok x)) as (E1 & E2 & E3 & E4 & E5).
  { by destruct Hx' as [(-> & _)|(-> & _)]. }
  assert (forall w, w ∈ received s ++ forwarded s -> w_conn w <> brk s) as Hlog.
  { intros w Hw E. pose proof (i_log_fresh s I w Hw). lia. }
  pose proof I as I0. destruct I. split; cbn; try done.
  - destruct i_list0 as (l & Hch & Hnd & Hl). exists l. split; [by eapply chain_insert|]. split; [done|].
    intros q. rewrite Hl. destruct (decide (q = r)) as [->|]; [|by rewrite lookup_insert_ne].
    rewrite lookup_insert_eq. split; intros (z & Hz & Hzc); simplify_eq; eexists; split; try done; congruence.
  - intros q z Hz. destruct (decide (q = r)) as [->|].
    + rewrite lookup_insert_eq in Hz. simplify_eq. destruct (i_relay0 r x Hx) as [Hl Ho Hrc]. split.
      * by rewrite E2, E3.
      * by rewrite E2, E4.
      * intros c' Hc'. rewrite E2. split; [done|]. destruct Hx' as [(-> & _)|(-> & _)]; [|congruence].
        cbn in Hc'. simplify_eq. exists y'. by rewrite lookup_insert_eq.
    + rewrite lookup_insert_ne in Hz by done. destruct (i_relay0 q z Hz) as [Hl Ho Hrc]. split; [done..|].
      intros c' Hc'. destruct (Hrc c' Hc') as (? & y & Hy & ?). split; [done|]. exists y.
      rewrite lookup_insert_ne; [done|]. intros <-. congruence.
  - intros c' z Hz. destruct (decide (c' = brk s)) as [->|].
    + rewrite lookup_insert_eq in Hz. by simplify_eq.
    + rewrite lookup_insert_ne in Hz by done. destruct (i_conn0 c' z Hz) as [? ? ? (q & Hq1 & Hq2) ?].
      split; try done. exists q. split; [done|]. intros (x0 & Hx0 & Hrc)%Hq2. exists x0.
      rewrite lookup_insert_ne; [done|]. intros <-. congruence.
  - intros c' z q z' Hz Hq Hz' Hzc Ht. destruct (decide (q = r)) as [->|].
    + rewrite lookup_insert_eq in Hz'. simplify_eq. apply E5 in Ht.
      destruct (decide (c' = brk s)) as [->|].
      * by destruct Hx' as [(-> & _)|(_ & ? & _)].
      * rewrite lookup_insert_ne in Hz by done. pose proof (i_one0 c' z r x Hz Hq Hx Hcl Ht). congruence.
    + rewrite lookup_insert_ne in Hz' by done. destruct (decide (c' = brk s)) as [->|].
      * rewrite lookup_insert_eq in Hz. simplify_eq.
      * rewrite lookup_insert_ne in Hz by done. by eapply i_one0.
  - intros q z Hz Hzc. destruct (decide (q = r)) as [->|].
    + rewrite lookup_insert_eq in Hz. simplify_eq. apply E5. destruct Hx' as [(_ & ? & _)|(-> & _)]; [done|congruence].
    + rewrite lookup_insert_ne in Hz by done. by apply (i_target0 q).
  - intros c' z q Hz Hq. destruct (decide (c' = brk s)) as [->|].
    + rewrite lookup_insert_eq in Hz. injection Hz as <-. assert (q = r) as -> by congruence.
      destruct (decide (brk s <= r)%nat) as [Hge|]; [|lia]. destruct (i_fresh0 r Hge). congruence.
    + rewrite lookup_insert_ne in Hz by done. specialize (i_ptr0 c' z q Hz Hq). lia.
  - intros w Hw. destruct (i_writes0 w Hw) as (y & Hy & ?). exists y. rewrite lookup_insert_ne; [done|].
    intros E. by apply (Hnw w I0 Hw).
  - intros k Hk. destruct (i_connects0 k Hk) as (y & Hy & ?). exists y. rewrite lookup_insert_ne; [done|].
    intros <-. congruence.
  - intros n Hn'. destruct (i_fresh0 n) as (? & ? & ?); [lia|]. split; [|split]; try done.
    + rewrite lookup_insert_ne; [done|]. congruence.
    + rewrite lookup_insert_ne; [done|lia].
  - intros w Hw. specialize (i_log_fresh0 w Hw). lia.
  - intros c' z Hz Hzc d. destruct (decide (c' = brk s)) as [->|].
    + rewrite !bytes_for_none; try done; intros w Hw; apply Hlog, elem_of_app; auto.
    + rewrite lookup_insert_ne in Hz by done. by eapply i_log_open0.
Qed.

Lemma inv_connecting s c :
  pf_inv s -> side_there (conns s) c true -> pf_inv (s <| connects ::= fun l => l ++ [c] |>).
Proof.
  intros I Hc. destruct I. split; try done. cbn. intros k. rewrite elem_of_app, list_elem_of_singleton.
  intros [?| ->]; auto.
Qed.

Lemma half_made_eq (w : W) :
  let w1 := (c_malloc 1 w).2 in let w2 := (uv_tcp_init w1).2 in
  half_made w = (c_malloc 1 w).1 && ((uv_tcp_init w1).1 =? 0) && negb ((uv_tcp_init w2).1 =? 0).
Proof. unfold half_made. destruct (c_malloc 1 w) as [ok w1]. cbn. by destruct (uv_tcp_init w1). Qed.

(** From the two sockets of a new connection on. *)
Definition accept_tail (r c : loc) (x : portfwd_relay) : PM W unit :=
  rc ← plift uv_accept;
  if negb (rc =? 0) then
    pf_uv_close (HR_inbound c);; pf_uv_close (HR_outbound c)
  else if negb (uv_ip4_addr (W := W) (default [] (r_target_host x)) (r_target_port x) =? 0) then
    relay_close c
  else
    set_relay r (upd r_conn (fun _ => Some c));;
    rc ← plift (uv_tcp_connect (default [] (r_target_host x)) (r_target_port x));
    if negb (rc =? 0) then relay_close c
    else pmod (fun s => s <| connects ::= fun l => l ++ [c] |>).

Lemma accept_tail_inv s r x w `{!NetLaws W} :
  pf_inv s -> relays s !! r = Some x -> r_closing x = false -> r_conn x = None ->
  pwp (accept_tail r (brk s) x) (fun _ s' => pf_inv s')
    (s <| brk ::= S |> <| conns ::= <[brk s := new_conn r]> |> <| pf_world := w |>).
Proof.
  intros I Hx Ecl Hn. unfold accept_tail. apply pwp_bind, pwp_lift. intros w4 _. rewrite law_accept. cbn [negb Z.eqb].
  set (s4 := s <| pf_world := w4 |>).
  assert (pf_inv s4) as I4 by by apply pf_inv_world.
  destruct (_ =? 0) eqn:E4; b2p; cbn [negb].
  - assert (comes_in s4 r x (x <| r_conn := Some (brk s4) |>) (new_conn r) []) as Hin by by left.
    pose proof (inv_new_conn s4 r x _ _ _ I4 Hx Ecl Hn Hin) as I5. cbn in I5. rewrite app_nil_r in I5.
    apply pwp_bind. eapply pwp_set_relay; [exact Hx|]. apply pwp_bind, pwp_lift. intros w5 _. cbn.
    match type of I5 with pf_inv ?t => set (s5 := t) in I5 end.
    assert (conns s5 !! brk s = Some (new_conn r)) as Hc by (cbn; by rewrite lookup_insert_eq).
    destruct (negb _).
    + refine (relay_close_inv (s5 <| pf_world := w5 |>) (brk s) (pf_inv_world _ _ I5) _). exists (new_conn r). exact Hc.
    + refine (inv_connecting (s5 <| pf_world := w5 |>) (brk s) (pf_inv_world _ _ I5) _).
      exists (new_conn r). split; [exact Hc|done].
  - assert (comes_in s4 r x x (close_sides (new_conn r)) [HR_inbound (brk s); HR_outbound (brk s)]) as Hin by by right.
    pose proof (inv_new_conn s4 r x _ _ _ I4 Hx Ecl Hn Hin) as I5. cbn in I5. rewrite insert_id in I5 by done.
    eapply relay_close_pwp; [cbn; by rewrite lookup_insert_eq|done|done|]. cbn.
    unfold closed_state. cbn. rewrite insert_insert_eq. exact I5.
Qed.

(** The callback up to there, by its outcome. *)
Lemma accept_head s r x status (P : option (unit * PS W) -> Prop) :
  let w1 := (c_malloc 1 (pf_world s)).2 in let w2 := (uv_tcp_init w1).2 in
  pf_inv s -> relays s !! r = Some x -> r_closing x = false ->
  (status < 0 -> P (Some (tt, s))) ->
  (0 <= status -> r_conn x <> None -> P (reject_client (r_owner x) s)) ->
  (0 <= status -> r_conn x = None -> (c_malloc 1 (pf_world s)).1 = false -> P (Some (tt, s <| pf_world := w1 |>))) ->
  (0 <= status -> r_conn x = None -> (c_malloc 1 (pf_world s)).1 = true -> (uv_tcp_init w1).1 <> 0 ->
    P (Some (tt, s <| brk ::= S |> <| pf_world := w2 |>))) ->
  (0 <= status -> r_conn x = None -> (c_malloc 1 (pf_world s)).1 = true -> (uv_tcp_init w1).1 = 0 ->
    (uv_tcp_init w2).1 <> 0 -> P None) ->
  (0 <= status -> r_conn x = None -> (uv_tcp_init w2).1 = 0 -> P (accept_tail r (brk s) x
    (s <| brk ::= S |> <| conns ::= <[brk s := new_conn r]> |> <| pf_world := (uv_tcp_init w2).2 |>))) ->
  P (relay_accept_cb r status s).
Proof.
  intros w1 w2 I Hx Ecl H1 H2 H3 H4 H5 H6. destruct (ro_owner _ _ _ _ (i_relay s I r x Hx) Ecl) as [o Ho].
  destruct (i_fresh s I (brk s)) as (_ & Hf & _); [done|]. unfold relay_accept_cb, use_session.
  unfold free_conn, set_conn, get_relay, get_conn, mbind, PM_bind, option_bind, plift, pmod, fresh_loc, mret, PM_ret.
  cbn. rewrite Hx, Ecl, orb_false_r. destruct (status <? 0) eqn:E1; b2p; [by apply H1|].
  case_bool_decide as E2; [by apply H2|].
  unfold w1, w2 in *. destruct (c_malloc 1 (pf_world s)) as [ok v1]. cbn in *. destruct ok; [|by apply H3]. cbn.
  rewrite Ho. cbn. destruct (uv_tcp_init v1) as [rc v2]. cbn in *. destruct (rc =? 0) eqn:E3; cbn.
  2: { unfold mbind, PM_bind, option_bind. cbn. rewrite lookup_insert_eq. cbn. rewrite delete_insert_id by done.
       apply H4; try done. by b2p. }
  b2p. unfold mbind, PM_bind, option_bind. cbn. rewrite lookup_insert_eq. cbn. destruct (uv_tcp_init v2) as [rc2 v3]. cbn in *. destruct (rc2 =? 0) eqn:E4; cbn.
  2: { rewrite lookup_insert_eq. cbn. b2p. by apply H5. }
  rewrite lookup_insert_eq. cbn. rewrite !insert_insert_eq. b2p. by apply H6.
Qed.

Lemma relay_accept_inv s r status `{!NetLaws W} :
  pf_inv s -> enabled (E_accept r status) s ->
  if goes_wrong (E_accept r status) s then relay_accept_cb r status s = None
  else pwp (relay_accept_cb r status) (fun _ s' => pf_inv s') s.
Proof.
  intros I (x & Hx & Hopen). pose proof (i_relay s I r x Hx) as [Hl Ho _].
  assert (r_closing x = false) as Ecl by (destruct (r_closing x); [congruence|done]).
  cbn [goes_wrong]. rewrite Hx, half_made_eq. unfold pwp.
  pattern (relay_accept_cb r status s). apply (accept_head s r x status); try done; cbn beta.
  - intros Hs. destruct (0 <=? status) eqn:E; b2p; [lia|exact I].
  - intros _ Hn. rewrite (bool_decide_false _ Hn), andb_false_r. by apply reject_client_inv; auto.
  - intros _ _ ->. rewrite andb_false_r. by apply pf_inv_world.
  - intros _ _ _ Hrc. destruct (_ =? 0) eqn:E; b2p; [done|]. rewrite !andb_false_r. by apply inv_brk_world.
  - intros Hs Hn Hok Hrc Hrc2. rewrite Hok, Hrc, (bool_decide_true _ Hn). destruct (0 <=? status) eqn:E; b2p; [|lia].
    apply Z.eqb_neq in Hrc2. by rewrite Hrc2.
  - intros _ Hn ->. rewrite !andb_false_r. by apply (accept_tail_inv s r x).
Qed.
End invariant.
