(* ===== verification/RelayList.v ===== *)
(** * The list of relays

    Unlinking, destroying, closing and opening relays on the engine's linked
    list, each with its effect on the list and the invariant of the heap; and
    what holds of the relays in every reachable state. *)

From Stdlib Require Import ZArith Lia Bool.
From Stdlib Require Import Strings.Byte Strings.String.
From stdpp Require Import base list numbers option gmap relations.
From S2P Require Import Prelude CLib Frame State Uv Tables Session Portfwd Relays.

#[local] Arguments upd {R F} proj {_} _ _ /.
#[local] Arguments bytes_for : simpl never.

Section relay_list.
Context {W : Type} `{!Uv W, !UvNet W}.
Implicit Types s : PS W.

(** ** The list *)

Definition listed s (l : list loc) : Prop := chain (relays s) (e_relays s) l.

Lemma chain_frame rs rs' p l : (forall q, q ∈ l -> rs' !! q = rs !! q) -> chain rs p l -> chain rs' p l.
Proof.
  revert p. induction l as [|q l IH]; intros p Heq; cbn; [done|]. intros (-> & x & Hx & Hch). split; [done|].
  exists x. split; [rewrite Heq; [done|by left]|]. apply IH; [|done]. intros q' Hq'. apply Heq. by right.
Qed.

Lemma chain_fun rs p l l' : chain rs p l -> chain rs p l' -> l = l'.
Proof.
  revert p l'. induction l as [|q l IH]; intros p [|q' l']; cbn; naive_solver.
Qed.

Lemma chain_app rs p l1 r l2 :
  chain rs p (l1 ++ r :: l2) -> exists x, rs !! r = Some x /\ chain rs (r_next x) l2.
Proof.
  revert p. induction l1 as [|q l1 IH]; intros p; cbn.
  - intros (_ & x & Hx & Hch). eauto.
  - intros (_ & x & Hx & Hch). by eapply IH.
Qed.

Lemma chain_length rs p l : chain rs p l -> NoDup l -> (length l <= size rs)%nat.
Proof.
  intros Hch Hnd. rewrite <- (size_list_to_set (C := gset loc) l Hnd), <- (size_dom (D := gset loc) rs).
  apply subseteq_size. intros q Hq%elem_of_list_to_set. apply elem_of_dom.
  clear Hnd. revert p Hch Hq. induction l as [|r l IH]; intros p; cbn; [by intros _ ?%not_elem_of_nil|].
  intros (_ & x & Hx & Hch) [->|Hq]%elem_of_cons; [eauto|]. by eapply IH.
Qed.

(** Equal up to the link. *)
Definition next_eq (o o' : option portfwd_relay) : Prop :=
  match o, o' with
  | Some x, Some x' => x' = x <| r_next := r_next x' |>
  | None, None => True
  | _, _ => False
  end.

Lemma next_eq_refl o : next_eq o o.
Proof. by destruct o as [[]|]. Qed.

Definition reads (it : link) s : option (option loc) :=
  match it with L_head => Some (e_relays s) | L_next q => r_next <$> relays s !! q end.

(** What unlinking [r] from the list [l] that starts at [it] does. *)
Record unlinked (it : link) (r : loc) (l : list loc) s s' : Prop := Unlinked {
  un_chain : exists p, reads it s' = Some p /\ chain (relays s') p (filter (.≠ r) l);
  un_head : it <> L_head -> e_relays s' = e_relays s;
  un_frame : forall q, q ∉ l -> it <> L_next q -> relays s' !! q = relays s !! q;
  un_after : forall l1 l2 q, l = l1 ++ r :: l2 -> q ∈ r :: l2 -> relays s' !! q = relays s !! q;
  un_next : forall q, next_eq (relays s !! q) (relays s' !! q);
  un_rest : s' = s <| relays := relays s' |> <| e_relays := e_relays s' |>
}.

Lemma filter_ne_id (r : loc) (l : list loc) : r ∉ l -> filter (.≠ r) l = l.
Proof.
  induction l as [|q l IH]; [done|]. intros [Hne Hnin]%not_elem_of_cons.
  rewrite filter_cons_True by done. by rewrite IH.
Qed.

Lemma write_link_unlinked it r x l s :
  relays s !! r = Some x -> is_Some (reads it s) -> NoDup (r :: l) ->
  (forall q, it = L_next q -> q ∉ r :: l) -> chain (relays s) (r_next x) l ->
  pwp (write_link it (r_next x)) (fun _ s' => unlinked it r (r :: l) s s') s.
Proof.
  intros Hx Hit [Hnin Hnd]%NoDup_cons Hfr Hch.
  assert (filter (.≠ r) (r :: l) = l) as Hfil.
  { rewrite filter_cons_False by (intros Hf; by apply Hf). by apply filter_ne_id. }
  destruct it as [|q0].
  - apply pwp_mod. split; try done; [|by intros; apply next_eq_refl].
    exists (r_next x). by rewrite Hfil.
  - destruct (relays s !! q0) as [z|] eqn:Hz; [|by destruct Hit as [? Hit]; cbn in Hit; rewrite Hz in Hit].
    unfold write_link. eapply pwp_set_relay; [done|]. specialize (Hfr q0 eq_refl). split.
    + exists (r_next x). cbn [reads relays upd]. rewrite Hfil. split; [cbn; by rewrite lookup_insert_eq|].
      eapply chain_frame; [|done]. intros q Hq. rewrite lookup_insert_ne; [done|]. intros <-. apply Hfr. by right.
    + done.
    + intros q _ Hne. cbn. rewrite lookup_insert_ne; [done|]. congruence.
    + intros l1 l2 q Heq Hq. cbn. rewrite lookup_insert_ne; [done|]. intros <-. apply Hfr.
      destruct l1 as [|q1 l1]; cbn in Heq; simplify_eq; [done|].
      rewrite elem_of_cons, elem_of_app. by right; right.
    + intros q. cbn. destruct (decide (q = q0)) as [->|]; [|rewrite lookup_insert_ne by done; apply next_eq_refl].
      rewrite lookup_insert_eq, Hz. done.
    + by destruct s.
Qed.

Lemma remove_loop_unlinked r fuel it l p s :
  reads it s = Some p -> chain (relays s) p l -> NoDup l -> (forall q, it = L_next q -> q ∉ l) ->
  (length l < fuel)%nat ->
  pwp (relay_remove_loop fuel it r) (fun _ s' => unlinked it r l s s') s.
Proof.
  revert it l p. induction fuel as [|fuel IH]; intros it l p Hit Hch Hnd Hfr Hlen; [lia|].
  cbn [relay_remove_loop]. apply pwp_bind.
  apply (pwp_mono _ (fun v st => v = p /\ st = s)).
  { destruct it as [|q]; cbn in *; [by simplify_eq|].
    destruct (relays s !! q) as [z|] eqn:Hz; [|done]. apply pwp_bind. by eapply pwp_get_relay; [done|]; cbn in *; simplify_eq. }
  intros ? ? [-> ->]. destruct l as [|q l]; cbn in Hch.
  - subst p. apply pwp_ret. split; try done; [by exists None|by intros; apply next_eq_refl|by destruct s].
  - destruct Hch as (-> & x & Hx & Hch). case_decide as Hd.
    + subst q. apply pwp_bind. eapply pwp_get_relay; [done|]. by apply write_link_unlinked.
    + apply NoDup_cons in Hnd as [Hnin Hnd]. cbn in Hlen.
      eapply pwp_mono; [apply (IH (L_next q) l (r_next x)); [cbn; by rewrite Hx|done|done|by intros ? [= <-]|lia]|].
      intros _ s' [(p' & Hp' & Hch') Hh Hf Ha Hn Hr].
      assert (forall q', it = L_next q' -> relays s' !! q' = relays s !! q') as Hit'.
      { intros q' ->. specialize (Hfr q' eq_refl). apply not_elem_of_cons in Hfr as [? ?].
        apply Hf; [done|]. congruence. }
      split; try done.
      * exists (Some q). split.
        -- destruct it as [|q']; cbn in *; [by rewrite Hh|by rewrite Hit'].
        -- rewrite filter_cons_True by done. split; [done|]. cbn in Hp'.
           destruct (relays s' !! q) as [x'|]; [|done]. cbn in Hp'. simplify_eq. by eexists.
      * intros _. by apply Hh.
      * intros q' [Hne Hnin']%not_elem_of_cons Hne'. apply Hf; [done|]. congruence.
      * intros l1 l2 q' Heq Hq'. destruct l1 as [|q1 l1]; cbn in Heq; simplify_eq. by eapply Ha.
Qed.

(** ** Destroying a relay *)

Lemma inv_listed s : pf_inv s -> exists l, listed s l /\ NoDup l /\
  forall r, r ∈ l <-> exists x, relays s !! r = Some x /\ r_closing x = false.
Proof. by intros []. Qed.

Lemma inv_unlisted s s' r x x' l :
  pf_inv s -> listed s l -> relays s !! r = Some x -> r_closing x = false ->
  (forall c y, conns s !! c = Some y -> c_relay y = Some r -> c_closing y = true) ->
  conns s' = conns s -> rejects s' = rejects s -> brk s' = brk s -> sessions s' = sessions s ->
  writes s' = writes s -> connects s' = connects s -> received s' = received s -> forwarded s' = forwarded s ->
  closing s' = closing s ++ [HR_listener r] ->
  relays s' !! r = Some x' -> r_closing x' = true -> r_conn x' = None -> r_listener x' = H_closing true ->
  (forall q, q <> r -> next_eq (relays s !! q) (relays s' !! q)) -> listed s' (filter (.≠ r) l) ->
  pf_inv s'.
Proof.
  intros I Hl Hx Hcl Hcc E1 E2 E3 E4 E5 E6 E7 E8 E9 Hx' Hcl' Hn' Hh' Hnext Hl'.
  assert (forall q z', q <> r -> relays s' !! q = Some z' ->
    exists z, relays s !! q = Some z /\ z' = z <| r_next := r_next z' |>) as Hold.
  { intros q z' Hne Hz'. specialize (Hnext q Hne). rewrite Hz' in Hnext. destruct (relays s !! q); [eauto|done]. }
  assert (forall q, is_Some (relays s !! q) <-> is_Some (relays s' !! q)) as Hdom.
  { intros q. destruct (decide (q = r)) as [->|Hne]; [by rewrite Hx, Hx'|]. specialize (Hnext q Hne).
    destruct (relays s !! q), (relays s' !! q); done. }
  destruct (closing_add (handle_of (relays s) (conns s) (rejects s)) (handle_of (relays s') (conns s) (rejects s))
    (closing s) [HR_listener r]) as [Hnd Hiff].
  - apply I.
  - apply I.
  - apply NoDup_singleton.
  - intros h ->%list_elem_of_singleton. cbn. rewrite Hx. cbn.
    rewrite (ro_listener _ _ _ _ (i_relay s I r x Hx)), Hcl. done.
  - intros h ->%list_elem_of_singleton. cbn. rewrite Hx'. cbn. by rewrite Hh'.
  - intros h Hh. rewrite list_elem_of_singleton in Hh. destruct h as [| |q|]; cbn; try done.
    assert (q <> r) as Hne by congruence. specialize (Hnext q Hne).
    destruct (relays s !! q), (relays s' !! q); try done. cbn in *. by rewrite Hnext.
  - destruct I. split; rewrite ?E1, ?E2, ?E3, ?E4, ?E5, ?E6, ?E7, ?E8, ?E9; try done.
    + destruct i_list as (l0 & Hch & Hnd0 & Hm). rewrite (chain_fun _ _ _ _ Hl Hch) in *.
      exists (filter (.≠ r) l0). split; [done|]. split; [by apply NoDup_filter|].
      intros q. rewrite list_elem_of_filter, Hm. split.
      * intros (Hne & z & Hz & Hzc). specialize (Hnext q Hne). rewrite Hz in Hnext.
        destruct (relays s' !! q) as [z'|]; [|done]. exists z'. split; [done|]. by rewrite Hnext.
      * intros (z' & Hz' & Hzc'). assert (q <> r) as Hne by congruence. split; [done|].
        destruct (Hold q z' Hne Hz') as (z & Hz & Heq). exists z. split; [done|]. by rewrite Heq in Hzc'.
    + intros q z' Hz'. destruct (decide (q = r)) as [->|Hne].
      * simplify_eq. split; [by rewrite Hcl'|congruence|congruence].
      * destruct (Hold q z' Hne Hz') as (z & Hz & ->). by destruct (i_relay q z Hz).
    + intros c y Hc. destruct (i_conn c y Hc) as [? ? ? (q & Hq & Hq') ?]. split; try done.
      exists q. split; [done|]. intros Hncl. destruct (Hq' Hncl) as (z & Hz & Hzr).
      assert (q <> r) as Hne by (intros ->; specialize (Hcc c y Hc Hq); congruence).
      specialize (Hnext q Hne). rewrite Hz in Hnext. destruct (relays s' !! q) as [z'|]; [|done].
      exists z'. split; [done|]. by rewrite Hnext.
    + intros c y q z' Hc Hq Hz' Hzc Ht. assert (q <> r) as Hne by congruence.
      destruct (Hold q z' Hne Hz') as (z & Hz & Heq). rewrite Heq in Hzc, Ht |- *. by eapply (i_one c y q z).
    + intros q z' Hz' Hzc. assert (q <> r) as Hne by congruence.
      destruct (Hold q z' Hne Hz') as (z & Hz & Heq). rewrite Heq in Hzc |- *. by apply (i_target q z Hz).
    + intros n Hn. destruct (i_fresh n Hn) as (Hf & ? & ?). split; [|done].
      apply eq_None_not_Some. rewrite <- Hdom, Hf. by intros [].
Qed.

(** The connection of the relay is closed first. *)
Definition close_conn (o : option loc) s : PS W :=
  match o with
  | Some c =>
      match conns s !! c with
      | Some y => if c_closing y then s else closed_state c y s
      | None => s
      end
  | None => s
  end.

(** What [relay_destroy r] does to a listed relay. *)
Record destroyed (r : loc) s s' : Prop := Destroyed {
  de_inv : pf_inv s';
  de_list : forall l, listed s l -> listed s' (filter (.≠ r) l);
  de_closing : exists x', relays s' !! r = Some x' /\ r_closing x' = true /\ r_conn x' = None;
  de_pending : HR_listener r ∈ closing s';
  de_other : forall q, q <> r -> next_eq (relays s !! q) (relays s' !! q);
  de_after : forall l1 l2 q, listed s (l1 ++ r :: l2) -> q ∈ l2 -> relays s' !! q = relays s !! q;
  de_conn : forall x c, relays s !! r = Some x -> r_conn x = Some c ->
    exists y', conns s' !! c = Some y' /\ c_closing y' = true;
  de_conns : forall c, (forall x, relays s !! r = Some x -> r_conn x <> Some c) -> conns s' !! c = conns s !! c;
  de_closed : forall x, relays s !! r = Some x ->
    conns s' = conns (close_conn (r_conn x) s) /\
    closing s' = closing (close_conn (r_conn x) s) ++ [HR_listener r];
  de_requests : writes s' = writes s /\ connects s' = connects s;
  de_sessions : sessions s' = sessions s;
  de_counters : pf_counters s' = pf_counters s
}.

Lemma close_conn_inv o s : pf_inv s -> pf_inv (close_conn o s).
Proof.
  intros I. unfold close_conn. destruct o as [c|]; [|done]. destruct (conns s !! c) as [y|] eqn:Hc; [|done].
  destruct (c_closing y) eqn:E; [done|]. by apply inv_closed_state.
Qed.

Lemma close_conn_conns o s :
  (forall c, o = Some c -> is_Some (conns s !! c) ->
    exists y', conns (close_conn o s) !! c = Some y' /\ c_closing y' = true) /\
  (forall c, o <> Some c -> conns (close_conn o s) !! c = conns s !! c).
Proof.
  unfold close_conn. destruct o as [c|]; [|done]. split.
  - intros c' [= <-] [y Hy]. rewrite Hy. destruct (c_closing y) eqn:E; [eauto|]. cbn.
    rewrite lookup_insert_eq. eexists. split; [done|]. done.
  - intros c' Hne. destruct (conns s !! c) as [y|]; [|done]. destruct (c_closing y); [done|]. cbn.
    rewrite lookup_insert_ne; [done|]. congruence.
Qed.

Lemma close_conn_rest o s :
  close_conn o s = s <| conns := conns (close_conn o s) |> <| closing := closing (close_conn o s) |>.
Proof.
  unfold close_conn. destruct s. cbn. destruct o as [c|]; [|done]. destruct (_ !! c) as [y|]; [|done].
  by destruct (c_closing y).
Qed.

(** Up to unlinking: the relay is marked, its connection closed. *)
Definition marked (x : portfwd_relay) : portfwd_relay := x <| r_closing := true |> <| r_conn := None |>.

Lemma destroy_mark r x (m : PM W unit) (Q : unit -> PS W -> Prop) s :
  pf_inv s -> relays s !! r = Some x ->
  pwp m Q (close_conn (r_conn x) s <| relays := <[r := marked x]> (relays s) |>) ->
  pwp (set_relay r (upd r_closing (fun _ => true));;
       (match r_conn x with
        | Some c => relay_close c;; set_relay r (upd r_conn (fun _ => None))
        | None => mret tt
        end);; m) Q s.
Proof.
  intros I Hx HQ. apply pwp_bind. eapply pwp_set_relay; [done|]. apply pwp_bind.
  destruct (r_conn x) as [c|] eqn:Ec.
  - destruct (ro_conn _ _ _ _ (i_relay s I r x Hx) c Ec) as (_ & y & Hy & _).
    pose proof (i_conn s I c y Hy) as [Hi Ho _ _ _].
    apply pwp_bind. eapply relay_close_pwp; [exact Hy|done|done|].
    cbn [close_conn] in HQ. rewrite Hy in HQ. destruct (c_closing y);
      (eapply pwp_set_relay; [cbn; by rewrite lookup_insert_eq|]); destruct s; cbn in *; by rewrite insert_insert_eq.
  - cbn [close_conn] in HQ. destruct s, x; cbn in *; subst; exact HQ.
Qed.

Lemma relay_destroy_pwp r x s :
  pf_inv s -> relays s !! r = Some x -> r_closing x = false ->
  pwp (relay_destroy r) (fun _ s' => destroyed r s s') s.
Proof.
  intros I Hx Hcl. unfold relay_destroy. apply pwp_bind. eapply pwp_get_relay; [done|]. rewrite Hcl.
  apply destroy_mark; [done..|]. set (sc := close_conn (r_conn x) s).
  pose proof (close_conn_inv (r_conn x) s I) as Ic. fold sc in Ic.
  pose proof (close_conn_rest (r_conn x) s) as Hrest. fold sc in Hrest.
  assert (relays sc = relays s /\ e_relays sc = e_relays s /\ sessions sc = sessions s /\
    pf_counters sc = pf_counters s) as (R1 & R2 & R3 & R4) by by rewrite Hrest.
  destruct (inv_listed s I) as (l & Hl & Hnd & Hm).
  set (s2 := sc <| relays := <[r := marked x]> (relays s) |>).
  assert (chain (relays s2) (e_relays s2) l) as Hl2.
  { cbn. rewrite R2. by apply (chain_insert _ _ x). }
  apply pwp_bind, pwp_bind, pwp_get.
  eapply pwp_mono; [apply (remove_loop_unlinked r _ L_head l (e_relays s2));
    [done|done|done|done|unfold list_fuel; pose proof (chain_length _ _ _ Hl2 Hnd); lia]|].
  intros _ s3 [(p & [= Hp] & Hch) _ _ Ha Hn Hr].
  assert (r ∈ l) as Hin by (apply Hm; eauto). apply list_elem_of_split in Hin as (l1 & l2 & Hspl).
  assert (relays s3 !! r = Some (marked x)) as Hr3.
  { rewrite (Ha l1 l2 r) by (done || by left). cbn. by rewrite lookup_insert_eq. }
  set (x' := marked x <| r_listener := H_closing true |>).
  assert (r_listener (marked x) = H_open) as Hopen.
  { cbn. rewrite (ro_listener _ _ _ _ (i_relay s I r x Hx)). by rewrite Hcl. }
  apply (pwp_mono _ (fun _ st => st = s3 <| relays ::= <[r := x']> |> <| closing ::= fun l => l ++ [HR_listener r] |>)).
  { unfold pwp, pf_uv_close, get_handle, set_handle, set_relay, get_relay, pmod, mbind, PM_bind, mret, PM_ret,
      option_bind. cbn. rewrite Hr3. cbn [mbind]. rewrite Hopen. cbn. by rewrite Hr3. }
  intros _ s4 ->.
  assert (forall q, q <> r -> next_eq (relays s !! q) (<[r := x']> (relays s3) !! q)) as Hother.
  { intros q Hne. rewrite lookup_insert_ne by done. specialize (Hn q). cbn in Hn. by rewrite lookup_insert_ne in Hn. }
  assert (chain (<[r := x']> (relays s3)) p (filter (.≠ r) l)) as Hch4.
  { eapply chain_frame; [|exact Hch]. intros q [Hne _]%list_elem_of_filter. by rewrite lookup_insert_ne. }
  destruct (close_conn_conns (r_conn x) s) as [Hcc Hco]. fold sc in Hcc, Hco.
  rewrite Hr. split; cbn.
  - match goal with |- pf_inv ?t => set (s4 := t) end.
    refine (inv_unlisted sc s4 r x x' l Ic _ _ Hcl _ eq_refl eq_refl eq_refl eq_refl eq_refl eq_refl eq_refl eq_refl
      eq_refl _ eq_refl eq_refl eq_refl _ _); subst s4; cbn; rewrite ?R1.
    + unfold listed. by rewrite R1, R2.
    + done.
    + intros c y Hy Hyr. destruct (c_closing y) eqn:E; [done|].
      destruct (co_relay _ _ _ _ (i_conn sc Ic c y Hy)) as (r' & Hr' & Hback). destruct (Hback E) as (x0 & Hx0 & Hx0c).
      rewrite R1 in Hx0. simplify_eq. destruct (Hcc c Hx0c) as (y' & Hy' & ?); [|congruence].
      destruct (ro_conn _ _ _ _ (i_relay s I r x Hx) c Hx0c) as (_ & y0 & Hy0 & _). eauto.
    + by rewrite lookup_insert_eq.
    + done.
    + unfold listed. cbn. by rewrite Hp.
  - intros l' Hl'. unfold listed. cbn. rewrite Hp. by rewrite (chain_fun _ _ _ _ Hl' Hl).
  - exists x'. by rewrite lookup_insert_eq.
  - rewrite elem_of_app, list_elem_of_singleton. by right.
  - done.
  - intros l1' l2' q Hl' Hq. pose proof (chain_fun _ _ _ _ Hl' Hl) as El.
    assert (q <> r) as Hne.
    { intros ->. rewrite <- El in Hnd. apply NoDup_app in Hnd as (_ & _ & [? _]%NoDup_cons). done. }
    rewrite lookup_insert_ne by done. rewrite (Ha l1' l2' q) by (done || by right). cbn. by rewrite lookup_insert_ne.
  - intros x0 c Hx0 Hc0. simplify_eq. apply Hcc; [done|].
    destruct (ro_conn _ _ _ _ (i_relay s I r x Hx) c Hc0) as (_ & y & Hy & _). eauto.
  - intros c Hc. apply Hco. by apply Hc.
  - intros x0 Hx0. by simplify_eq.
  - by rewrite Hrest.
  - done.
  - done.
Qed.

(** ** Destroying the relays of a kind *)

Section close_loop.
Variable want : portfwd_relay -> bool.
Hypothesis want_next : forall x n, want (x <| r_next := n |>) = want x.

(** The relays that stay. *)
Definition stays (rs : gmap loc portfwd_relay) (q : loc) : bool :=
  match rs !! q with Some x => negb (want x) | None => true end.

Lemma stays_next_eq rs rs' q : next_eq (rs !! q) (rs' !! q) -> stays rs' q = stays rs q.
Proof.
  unfold stays, next_eq. destruct (rs !! q) as [x|], (rs' !! q) as [x'|]; try done.
  intros H. by rewrite H, want_next.
Qed.

Record swept (l2 : list loc) (l1 : list loc) s s' : Prop := Swept {
  sw_inv : pf_inv s';
  sw_list : listed s' (l1 ++ List.filter (stays (relays s)) l2);
  sw_stay : forall q, stays (relays s) q = true \/ q ∉ l2 -> next_eq (relays s !! q) (relays s' !! q);
  sw_gone : forall q, q ∈ l2 -> stays (relays s) q = false ->
    exists x', relays s' !! q = Some x' /\ r_closing x' = true;
  sw_conns : forall c y, conns s !! c = Some y ->
    (forall r, c_relay y = Some r -> stays (relays s) r = true) -> conns s' !! c = Some y;
  sw_sessions : sessions s' = sessions s;
  sw_counters : pf_counters s' = pf_counters s
}.

Lemma next_eq_trans o1 o2 o3 : next_eq o1 o2 -> next_eq o2 o3 -> next_eq o1 o3.
Proof.
  destruct o1 as [[]|], o2 as [[]|], o3 as [[]|]; cbn; try done. intros [= -> -> -> -> -> -> -> -> ->].
  by intros [= -> -> -> -> -> -> -> -> ->].
Qed.

Lemma swept_destroyed r l1 l2 s s1 s' :
  pf_inv s -> stays (relays s) r = false -> is_Some (relays s !! r) -> r ∉ l2 ->
  destroyed r s s1 -> swept l2 l1 s1 s' -> swept (r :: l2) l1 s s'.
Proof.
  intros I Hst [x Hx] Hnin D [Hi Hl Hs Hg Hc Hse Hcn].
  assert (forall q, q <> r -> stays (relays s1) q = stays (relays s) q) as Hsame.
  { intros q Hne. apply stays_next_eq. by apply D. }
  split.
  - done.
  - cbn. rewrite Hst. replace (List.filter (stays (relays s)) l2) with (List.filter (stays (relays s1)) l2); [done|].
    clear Hl Hs Hg. revert Hnin. induction l2 as [|q l2 IH]; [done|]. intros [Hne Hnin]%not_elem_of_cons. cbn.
    rewrite Hsame by done. by rewrite IH.
  - intros q Hq. assert (q <> r) as Hne.
    { intros ->. destruct Hq as [Hq|Hq]; [congruence|]. apply Hq. by left. }
    eapply next_eq_trans; [by apply D|]. apply Hs. rewrite Hsame by done.
    destruct Hq as [?|Hq]; [by left|right]. intros ?. apply Hq. by right.
  - intros q [->|Hq]%elem_of_cons Hsq.
    + destruct (de_closing _ _ _ D) as (x1 & Hx1 & Hcl1 & _). specialize (Hs r (or_intror Hnin)).
      rewrite Hx1 in Hs. destruct (relays s' !! r) as [x'|]; [|done]. exists x'. split; [done|]. by rewrite Hs.
    + apply Hg; [done|]. rewrite Hsame; [done|]. intros ->. done.
  - intros c y Hy Hr. apply Hc.
    + rewrite (de_conns _ _ _ D); [done|]. intros x0 Hx0 Hc0. simplify_eq.
      destruct (ro_conn _ _ _ _ (i_relay s I r x Hx) c Hc0) as (_ & y0 & Hy0 & Hr0). simplify_eq.
      specialize (Hr r Hr0). congruence.
    + intros q Hq. specialize (Hr q Hq). rewrite Hsame; [done|]. intros ->. congruence.
  - rewrite Hse. apply D.
  - rewrite Hcn. apply D.
Qed.

Lemma close_loop_pwp l1 l2 fuel p s :
  pf_inv s -> listed s (l1 ++ l2) -> chain (relays s) p l2 -> (length l2 <= fuel)%nat ->
  pwp (close_loop want fuel p) (fun _ s' => swept l2 l1 s s') s.
Proof.
  revert l1 fuel p s. induction l2 as [|r l2 IH]; intros l1 fuel p s I Hl Hch Hf; cbn in Hch.
  - subst p. destruct fuel; cbn; (apply pwp_ret; split; try done; [intros; apply next_eq_refl|by intros q ?%not_elem_of_nil]).
  - destruct Hch as (-> & x & Hx & Hch). destruct fuel as [|fuel]; [cbn in Hf; lia|]. cbn in Hf.
    cbn [close_loop]. apply pwp_bind. eapply pwp_get_relay; [done|]. apply pwp_bind.
    destruct (inv_listed s I) as (l & Hl' & Hnd & Hm). rewrite (chain_fun _ _ _ _ Hl' Hl) in Hnd, Hm.
    pose proof Hnd as (_ & Hd & [Hnin _]%NoDup_cons)%NoDup_app.
    destruct (want x) eqn:Ew.
    + assert (r_closing x = false) as Hcl.
      { destruct (Hm r) as [(x0 & Hx0 & ?) _]; [rewrite elem_of_app; right; by left|]. by simplify_eq. }
      apply (pwp_mono _ (fun _ s1 => destroyed r s s1)); [by apply (relay_destroy_pwp r x)|]. intros _ s1 D.
      apply (pwp_mono _ (fun _ s' => swept l2 l1 s1 s')); [apply (IH l1)|].
      * apply D.
      * pose proof (de_list _ _ _ D _ Hl) as Hl1. rewrite filter_app, filter_cons_False in Hl1 by (intros Hn; by apply Hn).
        rewrite !filter_ne_id in Hl1; [done|done|]. intros Hr. apply (Hd r Hr). by left.
      * eapply chain_frame; [|exact Hch]. intros q Hq. by apply (de_after _ _ _ D l1 l2).
      * lia.
      * intros _ s' Hsw. eapply swept_destroyed; try done. unfold stays. by rewrite Hx, Ew.
    + apply pwp_ret. eapply pwp_mono; [apply (IH (l1 ++ [r])); [done|by rewrite <- app_assoc|done|lia]|].
      assert (stays (relays s) r = true) as Hst by (unfold stays; by rewrite Hx, Ew).
      intros _ s' [Hi Hl2 Hs Hg Hc Hse Hcn]. split; try done.
      * cbn. rewrite Hst. by rewrite <- app_assoc in Hl2.
      * intros q Hq. apply Hs. destruct Hq as [?|Hq]; [by left|right]. intros ?. apply Hq. by right.
      * intros q [->|Hq]%elem_of_cons Hsq; [congruence|by apply Hg].
Qed.

Lemma close_all_pwp l s :
  pf_inv s -> listed s l ->
  pwp (fuel ← pget list_fuel; head ← pget e_relays; close_loop want fuel head) (fun _ s' => swept l [] s s') s.
Proof.
  intros I Hl. apply pwp_bind, pwp_get, pwp_bind, pwp_get. apply close_loop_pwp; [done..|].
  destruct (inv_listed s I) as (l' & Hl' & Hnd & _). rewrite (chain_fun _ _ _ _ Hl Hl').
  unfold list_fuel. pose proof (chain_length _ _ _ Hl' Hnd). lia.
Qed.
End close_loop.

(** ** Closing by number *)

Definition has_id (rs : gmap loc portfwd_relay) (id : Z) (q : loc) : bool :=
  match rs !! q with Some x => r_relay_id x =? id | None => false end.

(** [pf_count]: the counters of the owner and of the program. *)
Definition counted (o : loc) (f : counters -> counters) s : PS W :=
  s <| sessions ::= alter f o |> <| pf_counters ::= upd d_shared f |>.

Lemma inv_counted o f s : pf_inv s -> pf_inv (counted o f s).
Proof.
  intros []. split; try done. cbn. intros r x Hx. destruct (i_relay r x Hx) as [? Ho ?]. split; try done.
  intros Hcl. apply Ho in Hcl as [v Hv]. destruct (decide (r_owner x = o)) as [<-|].
  - rewrite lookup_alter_eq, Hv. cbn. eauto.
  - rewrite lookup_alter_ne by done. eauto.
Qed.

Lemma pf_count_pwp o f (Q : unit -> PS W -> Prop) s :
  is_Some (sessions s !! o) -> Q tt (counted o f s) -> pwp (pf_count o f) Q s.
Proof. intros Ho HQ. unfold pf_count. apply pwp_bind, pwp_use_session; [done|]. by apply pwp_mod. Qed.

Lemma portfwd_close_loop_pwp id l1 l2 fuel p s :
  pf_inv s -> listed s (l1 ++ l2) -> chain (relays s) p l2 -> (length l2 <= fuel)%nat ->
  pwp (portfwd_close_loop fuel p id) (fun rc s' =>
    match List.find (has_id (relays s) id) l2 with
    | Some r => rc = 0 /\ exists x, relays s !! r = Some x /\
        destroyed r (counted (r_owner x) (upd d_relay_closes incr64) s) s'
    | None => rc = UV_ENOENT (W := W) /\ s' = s
    end) s.
Proof.
  revert l1 fuel p. induction l2 as [|r l2 IH]; intros l1 fuel p I Hl Hch Hf; cbn in Hch.
  { subst p. by destruct fuel. }
  destruct Hch as (-> & x & Hx & Hch). destruct fuel as [|fuel]; [cbn in Hf; lia|]. cbn in Hf.
  cbn [portfwd_close_loop List.find]. apply pwp_bind. eapply pwp_get_relay; [done|].
  assert (has_id (relays s) id r = (r_relay_id x =? id)) as -> by (unfold has_id; by rewrite Hx).
  destruct (r_relay_id x =? id) eqn:E.
  - assert (r_closing x = false) as Hcl.
    { destruct (inv_listed s I) as (l & Hl' & _ & Hm). rewrite (chain_fun _ _ _ _ Hl' Hl) in Hm.
      destruct (Hm r) as [(x0 & Hx0 & ?) _]; [rewrite elem_of_app; right; by left|]. by simplify_eq. }
    apply pwp_bind, pf_count_pwp; [by apply (ro_owner _ _ _ _ (i_relay s I r x Hx))|]. apply pwp_bind.
    eapply pwp_mono; [apply (relay_destroy_pwp r x); [by apply inv_counted|done|done]|].
    intros [] s' D. apply pwp_ret. split; [done|]. eauto.
  - apply (IH (l1 ++ [r])); [done|by rewrite <- app_assoc|done|lia].
Qed.

Lemma portfwd_close_pwp id l s :
  pf_inv s -> listed s l ->
  pwp (portfwd_close id) (fun rc s' =>
    match List.find (has_id (relays s) id) l with
    | Some r => rc = 0 /\ exists x, relays s !! r = Some x /\
        destroyed r (counted (r_owner x) (upd d_relay_closes incr64) s) s'
    | None => rc = UV_ENOENT (W := W) /\ s' = s
    end) s.
Proof.
  intros I Hl. unfold portfwd_close. apply pwp_bind, pwp_get, pwp_bind, pwp_get.
  apply (portfwd_close_loop_pwp id []); [done..|].
  destruct (inv_listed s I) as (l' & Hl' & Hnd & _). rewrite (chain_fun _ _ _ _ Hl Hl').
  unfold list_fuel. pose proof (chain_length _ _ _ Hl' Hnd). lia.
Qed.

(** ** Opening *)

(** A new relay: closing and unlisted, or listed in front. *)
Definition enters s s' (x : portfwd_relay) : Prop :=
  r_closing x = true /\ r_listener x = H_closing true /\ e_relays s' = e_relays s /\
    closing s' = closing s ++ [HR_listener (brk s)] \/
  r_closing x = false /\ r_listener x = H_open /\ is_Some (sessions s !! r_owner x) /\
    r_next x = e_relays s /\ e_relays s' = Some (brk s) /\ closing s' = closing s.

Lemma enters_closing s s' x rs' :
  pf_inv s -> rs' = <[brk s := x]> (relays s) -> enters s s' x ->
  NoDup (closing s') /\
  forall h, h ∈ closing s' <-> handle_of rs' (conns s) (rejects s) h = Some (H_closing true).
Proof.
  intros I -> Hen. destruct (i_fresh s I (brk s)) as (Hf & _); [done|].
  assert (forall h, h <> HR_listener (brk s) ->
    handle_of (<[brk s := x]> (relays s)) (conns s) (rejects s) h = handle_of (relays s) (conns s) (rejects s) h) as Hne.
  { intros [| |q|] Hh; cbn; try done. rewrite lookup_insert_ne; [done|]. congruence. }
  destruct Hen as [(_ & Hh & _ & ->)|(_ & Hh & _ & _ & _ & ->)].
  - apply (closing_add (handle_of (relays s) (conns s) (rejects s))).
    + apply I.
    + apply I.
    + apply NoDup_singleton.
    + intros h ->%list_elem_of_singleton. cbn. by rewrite Hf.
    + intros h ->%list_elem_of_singleton. cbn. rewrite lookup_insert_eq. cbn. by rewrite Hh.
    + intros h Hh'. rewrite list_elem_of_singleton in Hh'. by apply Hne.
  - split; [apply I|]. intros h. rewrite (i_closing s I).
    destruct (decide (h = HR_listener (brk s))) as [->|]; [|by rewrite Hne].
    cbn. rewrite lookup_insert_eq, Hf. cbn. rewrite Hh. naive_solver.
Qed.

Lemma enters_list s s' x l rs' :
  pf_inv s -> listed s l -> rs' = <[brk s := x]> (relays s) -> enters s s' x ->
  chain rs' (e_relays s') (if r_closing x then l else brk s :: l).
Proof.
  intros I Hl -> Hen. destruct (i_fresh s I (brk s)) as (Hf & _); [done|].
  assert (chain (<[brk s := x]> (relays s)) (e_relays s) l) as Hl'.
  { destruct (inv_listed s I) as (l' & Hl' & _ & Hm). rewrite (chain_fun _ _ _ _ Hl' Hl) in Hm.
    eapply chain_frame; [|exact Hl]. intros q (z & Hz & _)%Hm. rewrite lookup_insert_ne; congruence. }
  destruct Hen as [(-> & _ & -> & _)|(-> & _ & _ & Hn & -> & _)]; [done|].
  split; [done|]. exists x. rewrite lookup_insert_eq. by rewrite Hn.
Qed.

Lemma inv_add_relay s s' x :
  pf_inv s -> r_conn x = None -> enters s s' x ->
  relays s' = <[brk s := x]> (relays s) -> brk s' = S (brk s) -> conns s' = conns s -> rejects s' = rejects s ->
  sessions s' = sessions s -> writes s' = writes s -> connects s' = connects s -> received s' = received s ->
  forwarded s' = forwarded s -> pf_inv s'.
Proof.
  intros I Hn Hen E1 E2 E3 E4 E5 E6 E7 E8 E9. destruct (i_fresh s I (brk s)) as (Hf & _); [done|].
  destruct (enters_closing s s' x _ I E1 Hen) as [Hnd Hcl].
  destruct (inv_listed s I) as (l & Hl & Hndl & Hm). pose proof (enters_list s s' x l _ I Hl E1 Hen) as Hl'.
  assert (r_closing x = false -> is_Some (sessions s !! r_owner x)) as Hown.
  { destruct Hen as [(? & _)|(_ & _ & ? & _)]; [congruence|done]. }
  assert (r_listener x = if r_closing x then H_closing true else H_open) as Hlis.
  { by destruct Hen as [(-> & ? & _)|(-> & ? & _)]. }
  destruct I. split; rewrite ?E3, ?E4, ?E5, ?E6, ?E7, ?E8, ?E9; try done.
  - eexists. split; [exact Hl'|]. assert (brk s ∉ l) as Hnin by (intros (z & Hz & _)%Hm; congruence).
    split; [destruct (r_closing x); [done|by apply NoDup_cons]|]. intros q. rewrite E1.
    destruct (decide (q = brk s)) as [->|].
    + rewrite lookup_insert_eq. destruct (r_closing x) eqn:Ec.
      * split; [done|]. intros (z & [= <-] & ?). congruence.
      * split; [eauto|]. intros _. by left.
    + rewrite lookup_insert_ne, <- Hm by done. destruct (r_closing x); [done|]. rewrite elem_of_cons. naive_solver.
  - intros q z. rewrite E1. intros Hz. destruct (decide (q = brk s)) as [->|].
    + rewrite lookup_insert_eq in Hz. simplify_eq. split; [done..|congruence].
    + rewrite lookup_insert_ne in Hz by done. by apply i_relay.
  - intros c y Hc. destruct (i_conn c y Hc) as [? ? ? (q & Hq & Hq') ?]. split; try done. exists q. split; [done|].
    intros (z & Hz & Hzc)%Hq'. exists z. rewrite E1, lookup_insert_ne; [done|]. congruence.
  - intros c y q z Hc Hq. rewrite E1. destruct (decide (q = brk s)) as [->|].
    + specialize (i_ptr c y _ Hc Hq). lia.
    + rewrite lookup_insert_ne by done. by eapply i_one.
  - intros q z. rewrite E1. intros Hz Hzc. destruct (decide (q = brk s)) as [->|].
    + rewrite lookup_insert_eq in Hz. congruence.
    + rewrite lookup_insert_ne in Hz by done. by apply (i_target q).
  - intros c y q Hc Hq. specialize (i_ptr c y q Hc Hq). rewrite E2. lia.
  - intros n Hn'. rewrite E2 in Hn'. destruct (i_fresh n) as (? & ? & ?); [lia|]. rewrite E1.
    rewrite lookup_insert_ne by lia. done.
  - intros w Hw. rewrite E2. specialize (i_log_fresh w Hw). lia.
Qed.

(** What [portfwd_open] promises. *)
Definition open_post (o : loc) (lh : bytes) (th : bytes) (tp : Z) s
    (res : Z * option (Z * Z)) s' : Prop :=
  pf_inv s' /\
  match res with
  | (rc, Some (id, port)) =>
      rc = 0 /\ id = e_next_relay_id s /\ (forall l, listed s l -> listed s' (brk s :: l)) /\
      exists x, relays s' !! brk s = Some x /\ r_relay_id x = id /\ r_listen_port x = port /\ r_owner x = o /\
        r_closing x = false /\ r_conn x = None /\ r_listen_host x = Some lh /\ r_target_host x = Some th /\
        r_target_port x = tp
  | (rc, None) =>
      rc ∈ [UV_ENOMEM (W := W); UV_EIO (W := W); UV_EINVAL (W := W); UV_EADDRINUSE (W := W)] /\
      forall l, listed s l -> listed s' l
  end.

(** The relay as [portfwd_open] fills it in. *)
Definition new_relay (o : loc) (id : Z) (lh : bytes) (lp : Z) (th : bytes) (tp : Z) : portfwd_relay :=
  relay_zero <| r_owner := o |> <| r_relay_id := id |> <| r_listen_port := lp |> <| r_target_port := tp |>
    <| r_listen_host := Some lh |> <| r_target_host := Some th |>.

(** The error returns after the listener is initialised. *)
Lemma open_fail code o id lh lp th tp s w :
  pf_inv s -> code ∈ [UV_ENOMEM (W := W); UV_EIO (W := W); UV_EINVAL (W := W); UV_EADDRINUSE (W := W)] ->
  pwp (set_relay (brk s) (upd r_closing (fun _ => true));;
       pf_uv_close (HR_listener (brk s));;
       mret (code, None)) (open_post o lh th tp s)
    (s <| brk ::= S |> <| e_next_relay_id ::= fun i => u32 (i + 1) |> <| pf_world := w |>
       <| relays ::= <[brk s := new_relay o id lh lp th tp <| r_listener := H_open |>]> |>).
Proof.
  intros I Hcode. set (x := new_relay o id lh lp th tp <| r_closing := true |> <| r_listener := H_closing true |>).
  set (s' := s <| brk ::= S |> <| e_next_relay_id ::= fun i => u32 (i + 1) |> <| pf_world := w |>
    <| relays ::= <[brk s := x]> |> <| closing ::= fun l => l ++ [HR_listener (brk s)] |>).
  assert (enters s s' x) as Hen by by left.
  apply (pwp_mono _ (fun r st => r = (code, None) /\ st = s')).
  - unfold pwp, pf_uv_close, get_handle, set_handle, set_relay, get_relay, pmod, mbind, PM_bind, mret, PM_ret,
      option_bind. cbn. rewrite !lookup_insert_eq. cbn. rewrite !lookup_insert_eq. cbn. rewrite !lookup_insert_eq. cbn.
    unfold s', x. by rewrite !insert_insert_eq.
  - intros ? ? [-> ->]. split; [by apply (inv_add_relay s s' x)|]. split; [done|].
    intros l Hl. exact (enters_list s s' x l _ I Hl eq_refl Hen).
Qed.

Lemma portfwd_open_pwp o lh lp th tp s :
  pf_inv s -> is_Some (sessions s !! o) ->
  pwp (portfwd_open o lh lp th tp) (open_post o lh th tp s) s.
Proof.
  intros I Ho. unfold portfwd_open.
  apply pwp_bind, pwp_lift. intros w1 _. destruct (negb _).
  { apply pwp_ret. split; [by apply pf_inv_world|]. split; [by left|done]. }
  apply pwp_bind, pwp_fresh. cbn. apply pwp_bind, pwp_get, pwp_bind, pwp_mod. cbn.
  apply pwp_bind, pwp_lift. intros w2 _. apply pwp_bind, pwp_lift. intros w3 _. apply pwp_bind, pwp_mod. cbn.
  destruct (i_fresh s I (brk s)) as (Hf & _); [done|].
  assert (forall code w, code ∈ [UV_ENOMEM (W := W); UV_EIO (W := W); UV_EINVAL (W := W); UV_EADDRINUSE (W := W)] ->
    forall x, r_listener x = H_none -> pwp (free_relay (brk s);; mret (code, None)) (open_post o lh th tp s)
    (s <| brk ::= S |> <| e_next_relay_id ::= fun i => u32 (i + 1) |> <| pf_world := w |>
       <| relays ::= <[brk s := x]> |>)) as Hfree.
  { intros code w Hcode x Hx. unfold pwp, free_relay, get_relay, pmod, mbind, PM_bind, option_bind. cbn.
    rewrite lookup_insert_eq. cbn. rewrite Hx. cbn. rewrite delete_insert_id by done.
    split; [|done]. refine (pf_inv_world _ w (inv_brk s _ I)). }
  destruct (c_malloc (zlen lh + 1) _).1; cbn [negb orb]; [|by apply Hfree; [left|]].
  destruct (c_malloc (zlen th + 1) _).1; cbn [negb orb]; [|by apply Hfree; [left|]].
  apply pwp_bind, pwp_use_session; [done|]. apply pwp_bind, pwp_lift. intros w4 _.
  destruct (negb _); [by apply Hfree; [right; left|]|].
  apply pwp_bind. eapply pwp_set_relay; [cbn; by rewrite lookup_insert_eq|]. cbn. rewrite insert_insert_eq.
  pose proof (open_fail UV_EINVAL o (e_next_relay_id s) lh lp th tp s) as Hinval.
  pose proof (open_fail UV_EADDRINUSE o (e_next_relay_id s) lh lp th tp s) as Huse.
  pose proof (open_fail UV_EIO o (e_next_relay_id s) lh lp th tp s) as Hio.
  destruct (negb _); [apply Hinval; [done|do 2 right; by left]|].
  apply pwp_bind, pwp_lift. intros w5 _. destruct (negb _); [apply Huse; [done|do 3 right; by left]|].
  apply pwp_bind, pwp_lift. intros w6 _. destruct (negb _); [apply Hio; [done|right; by left]|].
  apply pwp_bind, pwp_get. cbn. apply pwp_bind. eapply pwp_set_relay; [cbn; by rewrite lookup_insert_eq|]. cbn.
  rewrite insert_insert_eq. apply pwp_bind, pwp_mod. cbn. apply pwp_bind, pf_count_pwp; [done|]. cbn.
  apply pwp_bind, pwp_lift. intros w7 _. destruct (uv_tcp_getsockname _).1 as [rc port]. cbn.
  apply pwp_bind.
  set (x := new_relay o (e_next_relay_id s) lh lp th tp <| r_listener := H_open |> <| r_next := e_relays s |>
    <| r_listen_port := if rc =? 0 then u16 port else lp |>).
  set (s1 := s <| brk ::= S |> <| e_next_relay_id ::= fun i => u32 (i + 1) |> <| pf_world := w7 |>
    <| relays ::= <[brk s := x]> |> <| e_relays := Some (brk s) |>).
  apply (pwp_mono _ (fun _ st => st = counted o (upd d_relay_opens incr64) s1)).
  { unfold s1, x. destruct (rc =? 0); [|done]. eapply pwp_set_relay; [cbn; by rewrite lookup_insert_eq|].
    cbn. by rewrite insert_insert_eq. }
  intros _ ? ->. apply pwp_bind. eapply pwp_get_relay; [cbn; by rewrite lookup_insert_eq|]. apply pwp_ret.
  assert (enters s s1 x) as Hen by by right.
  split; [by apply inv_counted, (inv_add_relay s s1 x)|]. split; [done|]. split; [done|]. split.
  - intros l Hl. exact (enters_list s s1 x l _ I Hl eq_refl Hen).
  - exists x. cbn. by rewrite lookup_insert_eq.
Qed.

(** ** Listing *)

Definition shown (o : option loc) (x : portfwd_relay) : bool :=
  bool_decide (o = None \/ o = Some (r_owner x)).

Definition rows_of (rs : gmap loc portfwd_relay) (o : option loc) (l : list loc) : list relay_row :=
  map row_of (List.filter (shown o) (omap (rs !!.) l)).

Lemma push_list_loop_pwp o l fuel p s :
  chain (relays s) p l -> (length l <= fuel)%nat ->
  pwp (push_list_loop fuel p o) (fun rows s' => rows = rows_of (relays s) o l /\ s' = s) s.
Proof.
  revert fuel p. induction l as [|r l IH]; intros fuel p Hch Hf; cbn in Hch.
  { subst p. by destruct fuel. }
  destruct Hch as (-> & x & Hx & Hch). destruct fuel as [|fuel]; [cbn in Hf; lia|]. cbn in Hf.
  cbn [push_list_loop]. apply pwp_bind. eapply pwp_get_relay; [done|]. apply pwp_bind.
  eapply pwp_mono; [apply IH; [done|lia]|]. intros rows s' [-> ->]. apply pwp_ret. split; [|done].
  change (bool_decide _) with (shown o x). unfold rows_of. cbn. rewrite Hx. cbn. by destruct (shown o x).
Qed.

(** ** Every event *)

Lemma inv_new_session s o : pf_inv s -> pf_inv (s <| sessions ::= <[o := counters_zero]> |>).
Proof.
  intros []. split; try done. cbn. intros r x Hx. destruct (i_relay r x Hx) as [? Ho ?]. split; try done.
  intros Hcl. destruct (decide (r_owner x = o)) as [->|]; [by rewrite lookup_insert_eq|].
  rewrite lookup_insert_ne by done. by apply Ho.
Qed.

(** A session may go once it owns no listed relay. *)
Lemma inv_del_session s o :
  pf_inv s -> (forall r x, relays s !! r = Some x -> r_closing x = false -> r_owner x <> o) ->
  pf_inv (s <| sessions ::= delete o |>).
Proof.
  intros [] Hno. split; try done. cbn. intros r x Hx. destruct (i_relay r x Hx) as [? Ho ?]. split; try done.
  intros Hcl. rewrite lookup_delete_ne; [by apply Ho|]. intros ->. by eapply Hno.
Qed.

Lemma swept_owner s s' o l :
  listed s l -> swept (fun x => bool_decide (r_owner x = o)) l [] s s' ->
  forall r x, relays s' !! r = Some x -> r_closing x = false -> r_owner x <> o.
Proof.
  intros Hl [Hi Hl' Hst _ _ _ _] r x Hx Hcl.
  destruct (inv_listed s' Hi) as (l0 & Hl0 & _ & Hm). rewrite (chain_fun _ _ _ _ Hl0 Hl') in Hm.
  destruct (Hm r) as [_ Hin]. specialize (Hin (ex_intro _ x (conj Hx Hcl))). cbn in Hin.
  rewrite list_elem_of_In, filter_In in Hin. destruct Hin as [_ Hs].
  specialize (Hst r (or_introl Hs)). rewrite Hx in Hst. unfold stays in Hs.
  destruct (relays s !! r) as [x0|]; [|done]. cbn in Hst. rewrite Hst. cbn.
  apply negb_true_iff, bool_decide_eq_false in Hs. done.
Qed.

Lemma pf_step_exact s e `{!NetLaws W} :
  pf_inv s -> enabled e s ->
  if goes_wrong e s then pf_step e s = None else pwp (pf_step e) (fun _ s' => pf_inv s') s.
Proof.
  intros I Hen. destruct e as [o|o|o lh lp th tp|id|r st|i st|c inb n b|i st|i|f].
  - apply pwp_mod. by apply inv_new_session.
  - destruct (inv_listed s I) as (l & Hl & _ & _). cbn. apply pwp_bind. unfold portfwd_close_session.
    eapply pwp_mono;
      [by apply (close_all_pwp (fun x => bool_decide (r_owner x = o)) (fun x n => eq_refl) l)|].
    intros [] s' Hsw. apply pwp_mod, inv_del_session; [apply Hsw|]. by apply (swept_owner s s' o l).
  - cbn. apply pwp_bind. eapply pwp_mono; [by apply portfwd_open_pwp|]. intros res s' [I' _]. by apply pwp_ret.
  - cbn. destruct (inv_listed s I) as (l & Hl & _ & _). apply pwp_bind.
    eapply pwp_mono; [by apply (portfwd_close_pwp id l)|]. intros rc s' Hp. apply pwp_ret.
    destruct (List.find _ l) as [r|]; [|by destruct Hp as [_ ->]]. destruct Hp as (_ & x & _ & D). apply D.
  - by apply relay_accept_inv.
  - by apply relay_connect_inv.
  - by apply relay_read_inv.
  - cbn in *. apply lookup_lt_is_Some_2 in Hen as [w Hw]. apply pwp_bind, pwp_get. rewrite Hw.
    apply pwp_bind, pwp_mod. by apply relay_write_cb_inv.
  - by apply deliver_close_inv.
  - apply pwp_mod. by apply pf_inv_world.
Qed.

(** A step that was taken keeps the invariant. *)
Lemma pf_step_inv s e a s' `{!NetLaws W} :
  pf_inv s -> enabled e s -> pf_step e s = Some (a, s') -> pf_inv s'.
Proof.
  intros I Hen Hst. pose proof (pf_step_exact s e I Hen) as H. unfold pwp in H. rewrite Hst in H.
  by destruct (goes_wrong e s).
Qed.

Lemma reachable_pf_inv s `{!NetLaws W} : pf_reachable s -> pf_inv s.
Proof.
  intros [w Hr]. refine (rtc_ind_r pf_inv _ (pf_inv_init w) _ s Hr).
  intros s1 s2 _ (e & Hen & Hst) I. by eapply pf_step_inv.
Qed.
End relay_list.

(** ** The in-memory network *)

#[global] Instance sim_net : UvNet Sim.sim := {
  uv_ip4_addr _ _ := 0;
  uv_tcp_bind _ _ m := (0, m);
  uv_listen _ m := (0, m);
  uv_tcp_getsockname m := (0, 4000, m);
  uv_tcp_connect _ _ m := (0, m);
  UV_ENOMEM := -12;
  UV_EIO := -5;
  UV_EINVAL := -22;
  UV_EADDRINUSE := -98;
  UV_ENOENT := -2
}.

#[global] Instance sim_net_laws : NetLaws Sim.sim.
Proof. by split. Qed.

(** A run of events, [None] when one goes wrong. *)
Fixpoint pf_run {W} `{!Uv W, !UvNet W} (es : list (pf_event W)) (s : PS W) : option (PS W) :=
  match es with
  | [] => Some s
  | e :: es' => match pf_step e s with Some (_, s') => pf_run es' s' | None => None end
  end.

(** A session opens a relay, a client connects, the relay reaches its target,
    five bytes come in, and the session ends. *)
Definition demo_events : list (pf_event Sim.sim) :=
  [E_session_new 7; E_open 7 (lit "0.0.0.0") 0 (lit "127.0.0.1") 80; E_accept 0 0; E_connect 0 0;
   E_read 1 true 5 (lit "hello"); E_session_gone 7].

Definition demo (n : nat) : PS Sim.sim :=
  default (pf_init Sim.empty) (pf_run (take n demo_events) (pf_init Sim.empty)).

Lemma reachable_step {W} `{!Uv W, !UvNet W} (s s' : PS W) e :
  pf_reachable s -> enabled e s -> pf_step e s = Some (tt, s') -> pf_reachable s'.
Proof. intros [w Hr] Hen Hst. exists w. eapply rtc_r; [done|]. by exists e. Qed.

(** Discharge a goal about a concrete state by evaluation. *)
Ltac by_vm := vm_compute; reflexivity.

Lemma demo_reachable n : (n <= 6)%nat -> pf_reachable (demo n).
Proof.
  assert (pf_reachable (demo 0)) as H0 by (exists Sim.empty; apply rtc_refl).
  assert (pf_reachable (demo 1)) as H1 by (apply (reachable_step (demo 0) (demo 1) (E_session_new 7)); [done|by_vm..]).
  assert (pf_reachable (demo 2)) as H2.
  { apply (reachable_step (demo 1) (demo 2) (E_open 7 (lit "0.0.0.0") 0 (lit "127.0.0.1") 80)); [done| |by_vm].
    exists counters_zero. by_vm. }
  assert (pf_reachable (demo 3)) as H3.
  { apply (reachable_step (demo 2) (demo 3) (E_accept 0 0)); [done| |by_vm].
    exists (default relay_zero (relays (demo 2) !! 0%nat)). split; by_vm. }
  assert (pf_reachable (demo 4)) as H4.
  { apply (reachable_step (demo 3) (demo 4) (E_connect 0 0)); [done| |by_vm]. apply Nat.ltb_lt. by_vm. }
  assert (pf_reachable (demo 5)) as H5.
  { apply (reachable_step (demo 4) (demo 5) (E_read 1 true 5 (lit "hello"))); [done| |by_vm].
    exists (default conn_zero (conns (demo 4) !! 1%nat)). split; [by_vm|]. split; [by_vm|]. split; [by_vm|].
    split; [apply Z.leb_le|apply Z.ltb_lt]; by_vm. }
  assert (pf_reachable (demo 6)) as H6.
  { apply (reachable_step (demo 5) (demo 6) (E_session_gone 7)); [done| |by_vm].
    exists (default counters_zero (sessions (demo 5) !! 7%nat)). by_vm. }
  intros Hn. do 6 (destruct n as [|n]; [done|]). destruct n; [done|lia].
Qed.

(** ** The callback that was queued last *)

Section last_queued.
Context {W : Type} `{!Uv W, !UvNet W}.
Implicit Types s t : PS W.

Lemma deliver_last t l h :
  closing t = l ++ [h] -> pf_step (E_closed (length l)) t = deliver_close h (t <| closing := l |>).
Proof.
  intros E. rewrite (pf_step_closed _ _ h) by (rewrite E; by apply list_lookup_middle).
  f_equal. destruct t. cbn in *. rewrite E, delete_middle. by rewrite app_nil_r.
Qed.

(** It may come if no request of its connection is pending. *)
Lemma last_enabled c r t l h :
  (forall w, w ∈ writes t -> w_conn w <> c) -> c ∉ connects t -> closing t = l ++ [h] ->
  h ∈ [HR_inbound c; HR_outbound c; HR_listener r] -> enabled (E_closed (length l)) t.
Proof.
  intros Hw Hk E Hh. exists h. rewrite !elem_of_cons, elem_of_nil in Hh.
  split; [rewrite E; by apply list_lookup_middle|]. split; [|by intros c' ->; destruct Hh as [?|[[= ->]|[?|[]]]]].
  intros w Hin <-. specialize (Hw w Hin). unfold dst in Hh.
  destruct (w_direction w =? 0); destruct Hh as [?|[?|[?|[]]]]; congruence.
Qed.

Lemma pwp_eq {A} (m : PM W A) a s s' : pwp m (fun b t => b = a /\ t = s') s -> m s = Some (a, s').
Proof. intros (b & t & -> & -> & ->)%pwp_run. done. Qed.
End last_queued.

(** ** Theorems *)

Section theorems.
Context {W : Type} `{!Uv W, !UvNet W, !NetLaws W}.
Implicit Types s : PS W.

(** C9: the events the relays survive, exactly.  In every state they can
    reach, an event libuv may deliver, in whatever order it closes handles, is
    handled without touching freed memory, closing a handle twice or freeing
    an open one, except for two: the close callback of the last socket of a
    connection whose relay was freed before it, and a new connection whose
    first socket can be initialised and whose second cannot. *)
Theorem relays_safe s e :
  pf_reachable s -> enabled e s ->
  if goes_wrong e s then pf_step e s = None
  else exists s', pf_step e s = Some (tt, s') /\ pf_reachable s'.
Proof.
  intros Hr Hen. pose proof (pf_step_exact s e (reachable_pf_inv s Hr) Hen) as H.
  destruct (goes_wrong e s); [done|]. apply pwp_run in H as ([] & s' & Hst & _).
  exists s'. split; [done|]. by eapply reachable_step.
Qed.

(** C35: the order of the close callbacks matters.  Destroying a relay with an
    open connection queues the close callbacks of the two sockets and then
    that of the listener; delivered in the opposite order, last in first out,
    the listener's frees the relay, and the last one of the connection
    reaches for the freed relay. *)
Theorem listener_first_uses_freed_relay s r x c y :
  pf_reachable s -> relays s !! r = Some x -> r_closing x = false -> r_conn x = Some c ->
  conns s !! c = Some y -> c_closing y = false ->
  (forall w, w ∈ writes s -> w_conn w <> c) -> c ∉ connects s ->
  let n := length (closing s) in
  exists s1 s2 s3,
    relay_destroy r s = Some (tt, s1) /\
    closing s1 = closing s ++ [HR_inbound c; HR_outbound c; HR_listener r] /\
    enabled (E_closed (n + 2)) s1 /\ pf_step (E_closed (n + 2)) s1 = Some (tt, s2) /\ relays s2 !! r = None /\
    enabled (E_closed (n + 1)) s2 /\ pf_step (E_closed (n + 1)) s2 = Some (tt, s3) /\
    enabled (E_closed n) s3 /\ pf_step (E_closed n) s3 = None.
Proof.
  intros Hr Hx Hcl Hc Hy Hycl Hw Hk n. pose proof (reachable_pf_inv s Hr) as I.
  destruct (co_relay _ _ _ _ (i_conn s I c y Hy)) as (r' & Hyr & Hback).
  destruct (Hback Hycl) as (x0 & Hx0 & Hx0c).
  assert (r' = r) as ->.
  { destruct (ro_conn _ _ _ _ (i_relay s I r x Hx) c Hc) as (_ & y1 & Hy1 & Hr1). congruence. }
  pose proof (i_conn s I c y Hy) as [Hi Ho _ _ _]. rewrite Hycl in Hi, Ho. destruct Hi as [Hi _], Ho as [Ho _].
  pose proof (relay_destroy_pwp r x s I Hx Hcl) as ([] & s1 & Hst & D)%pwp_run.
  destruct (de_closed _ _ _ D x Hx) as [E1 E2]. destruct (de_requests _ _ _ D) as [E3 E4].
  rewrite Hc in E1, E2. cbn in E1, E2. rewrite Hy, Hycl in E1, E2. cbn in E1, E2. rewrite <- app_assoc in E2. cbn in E2.
  destruct (de_closing _ _ _ D) as (x' & Hx' & _).
  set (l2 := closing s ++ [HR_inbound c; HR_outbound c]). set (l1 := closing s ++ [HR_inbound c]).
  set (s2 := s1 <| closing := l2 |> <| relays ::= delete r |>).
  set (s3 := s2 <| closing := l1 |> <| conns ::= <[c := give_back true (close_sides y)]> |>).
  assert (closing s1 = l2 ++ [HR_listener r]) as C1 by (unfold l2; by rewrite <- app_assoc).
  assert (closing s2 = l1 ++ [HR_outbound c]) as C2 by (unfold l1; cbn; unfold l2; by rewrite <- app_assoc).
  assert (closing s3 = closing s ++ [HR_inbound c]) as C3 by done.
  assert (forall (t : PS W) l h, writes t = writes s -> connects t = connects s -> closing t = l ++ [h] ->
    h ∈ [HR_inbound c; HR_outbound c; HR_listener r] -> enabled (E_closed (length l)) t) as Hen.
  { intros t l h F1 F2 F3 Hh. apply (last_enabled c r t l h); [by rewrite F1|by rewrite F2|done|done]. }
  exists s1, s2, s3. split; [exact Hst|]. split; [exact E2|].
  replace (n + 2)%nat with (length l2) by (unfold l2; rewrite length_app; done).
  replace (n + 1)%nat with (length l1) by (unfold l1; rewrite length_app; done).
  split; [apply (Hen s1 l2 _ E3 E4 C1); do 2 right; by left|].
  split; [rewrite (deliver_last _ _ _ C1); by apply (deliver_close_listener r x')|].
  split; [cbn; by rewrite lookup_delete_eq|].
  split; [apply (Hen s2 l1 _ E3 E4 C2); right; by left|].
  assert (conns s2 !! c = Some (close_sides y)) as Hy2 by (cbn; by rewrite E1, lookup_insert_eq).
  split; [|split; [apply (Hen s3 (closing s) _ E3 E4 C3); by left|]].
  - rewrite (deliver_last _ _ _ C2). apply pwp_eq. by apply (deliver_close_first true c (close_sides y)).
  - unfold n. rewrite (deliver_last _ _ _ C3). apply (deliver_close_stale false c (give_back true (close_sides y)) r).
    + cbn. by rewrite lookup_insert_eq.
    + done.
    + done.
    + cbn. by rewrite lookup_delete_eq.
Qed.

(** C11: in every reachable state the engine's linked list holds exactly the
    relays that are not closing, each once and with a live owner; the pending
    count of each direction of a connection is exactly the bytes of its
    unfinished writes and at most 256 KiB; and a relay whose target address
    is valid has at most one connection. *)
Theorem relay_bookkeeping s :
  pf_reachable s ->
  (exists l, listed s l /\ NoDup l /\
    forall r, r ∈ l <-> exists x, relays s !! r = Some x /\ r_closing x = false) /\
  (forall r x, relays s !! r = Some x -> r_closing x = false -> is_Some (sessions s !! r_owner x)) /\
  (forall c y d, conns s !! c = Some y ->
    pending d y = zlen (bytes_for c d (writes s)) /\ pending d y <= PORTFWD_MAX_PENDING_BYTES) /\
  (forall r x c1 y1 c2 y2, relays s !! r = Some x -> r_closing x = false ->
    uv_ip4_addr (W := W) (default [] (r_target_host x)) (r_target_port x) = 0 ->
    conns s !! c1 = Some y1 -> c_relay y1 = Some r -> conns s !! c2 = Some y2 -> c_relay y2 = Some r -> c1 = c2).
Proof.
  intros Hr. pose proof (reachable_pf_inv s Hr) as I. split; [by apply inv_listed|]. split; [|split].
  - intros r x Hx. apply (ro_owner _ _ _ _ (i_relay s I r x Hx)).
  - intros c y d Hy. apply (co_pending _ _ _ _ (i_conn s I c y Hy)).
  - intros r x c1 y1 c2 y2 Hx Hcl Ht H1 Hr1 H2 Hr2.
    pose proof (i_one s I c1 y1 r x H1 Hr1 Hx Hcl Ht). pose proof (i_one s I c2 y2 r x H2 Hr2 Hx Hcl Ht). congruence.
Qed.

(** C10: a relay is transparent: in each direction, what it has written is a
    prefix of what it has read, and all of it as long as the connection is
    not closing. *)
Theorem relay_transparent s c d :
  pf_reachable s ->
  bytes_for c d (forwarded s) `prefix_of` bytes_for c d (received s) /\
  (forall y, conns s !! c = Some y -> c_closing y = false ->
    bytes_for c d (forwarded s) = bytes_for c d (received s)).
Proof.
  intros Hr. pose proof (reachable_pf_inv s Hr) as I. split; [apply I|]. intros y Hy Hcl. by apply (i_log_open s I c y).
Qed.

(** C25: nothing leaks: once no close callback is pending, every relay and
    connection on the heap is open, no rejected client is left, and if also
    no session is left the heap is empty. *)
Theorem relays_no_leak s :
  pf_reachable s -> closing s = [] ->
  (forall r x, relays s !! r = Some x -> r_closing x = false) /\
  (forall c y, conns s !! c = Some y -> c_closing y = false) /\
  rejects s = ∅ /\ (sessions s = ∅ -> relays s = ∅ /\ conns s = ∅).
Proof.
  intros Hr Hno. pose proof (reachable_pf_inv s Hr) as I.
  assert (forall h, handle_of (relays s) (conns s) (rejects s) h <> Some (H_closing true)) as Hh.
  { intros h Hf%(i_closing s I). rewrite Hno in Hf. by apply not_elem_of_nil in Hf. }
  assert (forall r x, relays s !! r = Some x -> r_closing x = false) as Hrel.
  { intros r x Hx. destruct (r_closing x) eqn:E; [|done]. destruct (Hh (HR_listener r)). cbn. rewrite Hx. cbn.
    by rewrite (ro_listener _ _ _ _ (i_relay s I r x Hx)), E. }
  assert (forall c y, conns s !! c = Some y -> c_closing y = false) as Hcon.
  { intros c y Hy. pose proof (i_conn s I c y Hy) as [Hi Ho Ha _ _]. destruct (c_closing y); [|done].
    pose proof (Hh (HR_inbound c)) as H1. pose proof (Hh (HR_outbound c)) as H2. cbn in H1, H2. rewrite Hy in H1, H2.
    cbn in Hi, Ho, H1, H2. rewrite Hi in H1. rewrite Ho in H2. by destruct (c_inbound_closed y), (c_outbound_closed y). }
  split; [done|]. split; [done|]. split.
  - apply map_empty. intros l. destruct (rejects s !! l) as [h|] eqn:E; [|done].
    destruct (Hh (HR_reject l)). cbn. rewrite E. f_equal. by apply (i_reject s I l).
  - intros Hs. assert (relays s = ∅) as He.
    { apply map_empty. intros r. destruct (relays s !! r) as [x|] eqn:E; [|done].
      destruct (ro_owner _ _ _ _ (i_relay s I r x E) (Hrel r x E)) as [v Hv]. by rewrite Hs in Hv. }
    split; [done|]. apply map_empty. intros c. destruct (conns s !! c) as [y|] eqn:E; [|done].
    destruct (co_relay _ _ _ _ (i_conn s I c y E)) as (r & _ & Hback).
    destruct (Hback (Hcon c y E)) as (z & Hz & _). by rewrite He in Hz.
Qed.

(** Closing the relays of a session: the list keeps exactly the others in
    their order; the session's are closing; the relays of other sessions
    change at most their link and their connections not at all. *)
Theorem session_relays_closed s o l :
  pf_reachable s -> listed s l ->
  exists s', portfwd_close_session o s = Some (tt, s') /\
    listed s' (List.filter (stays (fun x => bool_decide (r_owner x = o)) (relays s)) l) /\
    (forall r x, relays s !! r = Some x -> r ∈ l -> r_owner x = o ->
      exists x', relays s' !! r = Some x' /\ r_closing x' = true /\ HR_listener r ∈ closing s') /\
    (forall r x, relays s !! r = Some x -> r_owner x <> o ->
      exists n, relays s' !! r = Some (x <| r_next := n |>)) /\
    (forall c y, conns s !! c = Some y ->
      (forall r x, c_relay y = Some r -> relays s !! r = Some x -> r_owner x <> o) -> conns s' !! c = Some y).
Proof.
  intros Hr Hl. pose proof (reachable_pf_inv s Hr) as I.
  set (want x := bool_decide (r_owner x = o)).
  pose proof (close_all_pwp want (fun x n => eq_refl) l s I Hl) as ([] & s' & Hst & [Hi Hl' Hs Hg Hc _ _])%pwp_run.
  exists s'. split; [exact Hst|]. split; [exact Hl'|]. split; [|split].
  - intros r x Hx Hin Ho. destruct (Hg r Hin) as (x' & Hx' & Hcl).
    { unfold stays, want. rewrite Hx. by rewrite bool_decide_true. }
    exists x'. split; [done|]. split; [done|]. apply (i_closing s' Hi). cbn. rewrite Hx'. cbn.
    by rewrite (ro_listener _ _ _ _ (i_relay s' Hi r x' Hx')), Hcl.
  - intros r x Hx Ho. assert (next_eq (relays s !! r) (relays s' !! r)) as Hn.
    { apply Hs. left. unfold stays, want. rewrite Hx. by rewrite bool_decide_false. }
    rewrite Hx in Hn. destruct (relays s' !! r) as [x'|]; [|done]. exists (r_next x'). by f_equal.
  - intros c y Hy Ho. apply Hc; [done|]. intros r Hr'. unfold stays, want.
    destruct (relays s !! r) as [x|] eqn:E; [|done]. rewrite bool_decide_false; [done|]. by eapply Ho.
Qed.
(** Closing a relay by its number destroys the first listed relay with
    that number, counts it for its owner, closes its connection and leaves
    the other relays and connections alone; without such a relay nothing
    changes and the result is [UV_ENOENT]. *)
Theorem relay_close_by_id s id l :
  pf_reachable s -> listed s l ->
  exists rc s', portfwd_close id s = Some (rc, s') /\
    match List.find (has_id (relays s) id) l with
    | Some r => rc = 0 /\ exists x, relays s !! r = Some x /\
        destroyed r (counted (r_owner x) (upd d_relay_closes incr64) s) s'
    | None => rc = UV_ENOENT (W := W) /\ s' = s
    end.
Proof. intros Hr Hl. apply pwp_run, portfwd_close_pwp; [by apply reachable_pf_inv|done]. Qed.

(** Opening a relay either puts a new relay with the next number, the
    requested hosts and the listening port in front of the list, or fails
    with one of four codes and leaves the list as it was. *)
Theorem relay_open_spec s o lh lp th tp :
  pf_reachable s -> is_Some (sessions s !! o) ->
  exists res s', portfwd_open o lh lp th tp s = Some (res, s') /\ open_post o lh th tp s res s'.
Proof. intros Hr Ho. apply pwp_run, portfwd_open_pwp; [by apply reachable_pf_inv|done]. Qed.

Lemma push_list_rows s o l :
  pf_reachable s -> listed s l -> portfwd_push_list o s = Some (rows_of (relays s) o l, s).
Proof.
  intros Hr Hl. destruct (inv_listed s (reachable_pf_inv s Hr)) as (l' & Hl' & Hnd & _).
  assert (length l <= list_fuel s)%nat as Hf.
  { rewrite (chain_fun _ _ _ _ Hl Hl'). unfold list_fuel. pose proof (chain_length _ _ _ Hl' Hnd). lia. }
  pose proof (push_list_loop_pwp o l _ _ s Hl Hf) as (rows & s' & Hst & -> & ->)%pwp_run. exact Hst.
Qed.
End theorems.

(** ** Witnesses *)

Lemma relays_safe_witness :
  enabled (E_session_gone 7) (demo 5) /\
  exists s', pf_step (E_session_gone 7) (demo 5) = Some (tt, s') /\ pf_reachable s'.
Proof.
  assert (enabled (E_session_gone 7) (demo 5)) as H.
  { exists (default counters_zero (sessions (demo 5) !! 7%nat)). by_vm. }
  split; [exact H|].
  refine (relays_safe (demo 5) (E_session_gone 7) _ H). apply demo_reachable. repeat constructor.
Defined.

Lemma listener_first_uses_freed_relay_witness :
  exists s1, relay_destroy 0 (demo 4) = Some (tt, s1) /\ closing s1 = [HR_inbound 1; HR_outbound 1; HR_listener 0] /\
  exists s3, pf_step (E_closed 0) s3 = None.
Proof.
  destruct (listener_first_uses_freed_relay (demo 4) 0 (default relay_zero (relays (demo 4) !! 0%nat)) 1
    (default conn_zero (conns (demo 4) !! 1%nat))) as (s1 & s2 & s3 & H1 & H2 & _ & _ & _ & _ & _ & _ & H3).
  - apply demo_reachable. repeat constructor.
  - by_vm.
  - by_vm.
  - by_vm.
  - by_vm.
  - by_vm.
  - intros w Hw. vm_compute in Hw. by apply not_elem_of_nil in Hw.
  - intros Hk. vm_compute in Hk. by apply not_elem_of_nil in Hk.
  - exists s1. split; [exact H1|]. split; [exact H2|]. exists s3. exact H3.
Defined.

Lemma relay_bookkeeping_witness :
  exists y, conns (demo 5) !! 1%nat = Some y /\ pending 0 y = 5 /\
    pending 0 y = zlen (bytes_for 1 0 (writes (demo 5))).
Proof.
  exists (default conn_zero (conns (demo 5) !! 1%nat)). split; [by_vm|]. split; [by_vm|].
  apply (relay_bookkeeping (demo 5)); [apply demo_reachable; repeat constructor|by_vm].
Defined.

Lemma relay_transparent_witness :
  bytes_for 1 0 (received (demo 5)) = lit "hello" /\
  bytes_for 1 0 (forwarded (demo 5)) = bytes_for 1 0 (received (demo 5)).
Proof.
  split; [by_vm|].
  apply (relay_transparent (demo 5) 1 0) with (default conn_zero (conns (demo 5) !! 1%nat));
    [apply demo_reachable; repeat constructor|by_vm|by_vm].
Defined.

Lemma relays_no_leak_witness :
  closing (demo 5) = [] /\ forall r x, relays (demo 5) !! r = Some x -> r_closing x = false.
Proof.
  split; [by_vm|]. apply relays_no_leak; [apply demo_reachable; repeat constructor|by_vm].
Defined.

Lemma demo_listed : listed (demo 5) [0%nat].
Proof. split; [by_vm|]. exists (default relay_zero (relays (demo 5) !! 0%nat)). split; by_vm. Qed.

Lemma session_relays_closed_witness :
  listed (demo 5) [0%nat] /\ exists s', portfwd_close_session 7 (demo 5) = Some (tt, s').
Proof.
  split; [apply demo_listed|].
  destruct (session_relays_closed (demo 5) 7 [0%nat]) as (s' & H & _);
    [apply demo_reachable; repeat constructor|apply demo_listed|]. exists s'. exact H.
Defined.

Lemma relay_close_by_id_witness :
  List.find (has_id (relays (demo 5)) 1) [0%nat] = Some 0%nat /\
  exists rc s', portfwd_close 1 (demo 5) = Some (rc, s').
Proof.
  split; [by_vm|]. destruct (relay_close_by_id (demo 5) 1 [0%nat]) as (rc & s' & H & _);
    [apply demo_reachable; repeat constructor|apply demo_listed|]. exists rc, s'. exact H.
Defined.

Lemma relay_open_spec_witness :
  is_Some (sessions (demo 5) !! 7%nat) /\
  exists res s', portfwd_open 7 (lit "0.0.0.0") 0 (lit "127.0.0.1") 81 (demo 5) = Some (res, s').
Proof.
  assert (is_Some (sessions (demo 5) !! 7%nat)) as H.
  { exists (default counters_zero (sessions (demo 5) !! 7%nat)). by_vm. }
  split; [exact H|].
  destruct (relay_open_spec (demo 5) 7 (lit "0.0.0.0") 0 (lit "127.0.0.1") 81) as (res & s' & H' & _);
    [apply demo_reachable; repeat constructor|exact H|]. exists res, s'. exact H'.
Defined.
