(* ===== verification/Lifecycle.v ===== *)
(** * The end of life of a session ([maybe_free_session] of [src/session.c])

    A session object is freed by the close callback of its last handle: it
    counts its references in [close_refs], one for the timer, one for the
    socket once it is closing, three for a process.  The session works in a
    world that contains the relays ([PS]), whose component it calls when it is
    freed. *)

From Stdlib Require Import ZArith Lia Bool.
From Stdlib Require Import Strings.Byte Strings.String.
From stdpp Require Import base list numbers option gmap relations.
From S2P Require Import Prelude CLib Frame Kv State Uv Tables Session Transfer Upload Proc.
From S2P Require Import ProcLife Heartbeat Lua Protocol Handlers Stream Server System Balance.
From S2P Require Import Portfwd Relays RelayList.

(** ** The world of a session: the relays and what is outside the program *)

Section layer.
Context {W : Type} `{!Uv W}.

Definition on_world {A} (f : W -> A * W) (s : PS W) : A * PS W :=
  match f (pf_world s) with (a, w) => (a, s <| pf_world := w |>) end.

#[global] Instance ps_uv : Uv (PS W) := {
  uv_hrtime := on_world uv_hrtime;
  c_malloc n := on_world (c_malloc n);
  uv_write b := on_world (uv_write b);
  uv_tcp_init := on_world uv_tcp_init;
  uv_accept := on_world uv_accept;
  uv_read_start := on_world uv_read_start;
  uv_timer_init := on_world uv_timer_init;
  uv_timer_start a b := on_world (uv_timer_start a b);
  uv_fs_open p f := on_world (uv_fs_open p f);
  uv_fs_write fd d o := on_world (uv_fs_write fd d o);
  uv_fs_read fd n o := on_world (uv_fs_read fd n o);
  uv_fs_fstat fd := on_world (uv_fs_fstat fd);
  uv_fs_close fd := on_world (uv_fs_close fd);
  uv_fs_unlink p := on_world (uv_fs_unlink p);
  uv_fs_rename p q := on_world (uv_fs_rename p q);
  uv_fs_scandir p := on_world (uv_fs_scandir p);
  uv_pipe_init := on_world uv_pipe_init;
  uv_spawn f a := on_world (uv_spawn f a);
  uv_process_kill := on_world uv_process_kill;
  uv_strerror := uv_strerror (W := W)
}.
End layer.

(** A script that acts on the world outside. *)
Fixpoint on_relays {W} (s : script W) : script (PS W) :=
  match s with
  | S_return => S_return
  | S_raise => S_raise
  | S_diverge => S_diverge
  | S_call c k => S_call c (fun v => on_relays (k v))
  | S_io f k => S_io (upd pf_world f) (fun p => on_relays (k (pf_world p)))
  end.

(** ** Operations *)

(** The handles of a session. *)
Inductive sess_handle :=
| SH_tcp
| SH_timer
| SH_process
| SH_stdout
| SH_stderr.

#[global] Instance sess_handle_eq_dec : EqDecision sess_handle.
Proof. solve_decision. Defined.

Definition the_handle (h : sess_handle) (s : session) : handle :=
  match h with
  | SH_tcp => s_tcp s
  | SH_timer => s_heartbeat_timer s
  | SH_process => p_process (s_proc s)
  | SH_stdout => p_stdout_pipe (s_proc s)
  | SH_stderr => p_stderr_pipe (s_proc s)
  end.

Definition set_sess_handle (h : sess_handle) (v : handle) : session -> session :=
  match h with
  | SH_tcp => upd s_tcp (fun _ => v)
  | SH_timer => upd s_heartbeat_timer (fun _ => v)
  | SH_process => upd proc_process (fun _ => v)
  | SH_stdout => upd proc_stdout_pipe (fun _ => v)
  | SH_stderr => upd proc_stderr_pipe (fun _ => v)
  end.

Definition all_handles : list sess_handle := [SH_tcp; SH_timer; SH_process; SH_stdout; SH_stderr].

Section lifecycle.
Context {W : Type} `{!Uv W, !UvNet W}.
Notation M := (M (St (PS W))).

(** The address of the session. *)
Variable self : loc.

(** The relays with the counters of the session and the global ones, which
    they share with the session. *)
Definition with_shared (sh : shared) (p : PS W) : PS W :=
  p <| sessions ::= <[self := sh_ctr sh]> |> <| pf_counters := sh_global sh |>.

Definition shared_of (p : PS W) : shared := Shared (default counters_zero (sessions p !! self)) (pf_counters p).

(** A call of the relay component. *)
Definition via {A} (m : PM W A) (sh : shared) (p : PS W) : option (A * shared * PS W) :=
  match m (with_shared sh p) with
  | Some (a, p') => Some (a, shared_of p', p')
  | None => None
  end.

(** The interface the bindings use, implemented by the relays. *)
#[local] Instance ps_ports : Ports (PS W) := {
  ports_open lh lp th tp := via (portfwd_open self lh lp th tp);
  ports_close id := via (portfwd_close id);
  ports_list := via (portfwd_push_list (Some self))
}.

Definition run_pf {A} (m : PM W A) : M unit := _ ← call_ports (via m); mret tt.

(** [free(session)]: libuv must own none of its handles any more. *)
Definition free_session : M unit :=
  s ← get_sess id;
  (if forallb (fun h => bool_decide (the_handle h s = H_none)) all_handles then mret tt
   else report HZ_free_in_use);;
  modify (fun st => st <| world ::= upd sessions (delete self) |>).

(** Whether the session was freed. *)
Definition maybe_free_session : M bool :=
  mod_sess (upd s_close_refs Z.pred);;
  refs ← get_sess s_close_refs;
  if 0 <? refs then mret false
  else
    transfer_abort s_upload;;
    transfer_abort s_download;;
    proc_abort;;
    run_pf (portfwd_close_session self);;
    free_session;;
    mret true.

Definition session_release_ref : M bool := maybe_free_session.

(** [on_close_done] and [on_proc_handle_closed], the close callbacks: the
    [data] of the handle is the session. *)
Definition on_close_done : M bool := maybe_free_session.
Definition on_proc_handle_closed : M bool := session_release_ref.

(** libuv finishes closing a handle: it gives the handle back and calls the
    close callback, if there is one. *)
Definition finish_close (h : sess_handle) : M bool :=
  v ← get_sess (the_handle h);
  mod_sess (set_sess_handle h H_none);;
  match v with
  | H_closing true =>
      match h with
      | SH_tcp | SH_timer => on_close_done
      | _ => on_proc_handle_closed
      end
  | _ => mret false
  end.
End lifecycle.

(** ** The life of a session *)

Section life.
Context {W : Type} `{!Uv W, !UvNet W}.
Variable self : loc.
Variable ulong_max : Z.

(** What the scripts do with a request. *)
Variable scripts : Z -> bytes -> W -> option (script W).

Definition ps_lua : Lua (PS W) := {|
  dispatch_request req_id payload p := on_relays <$> scripts req_id payload (pf_world p);
  lua_ports := ps_ports self
|}.
#[local] Existing Instance ps_lua.
Implicit Types st : St (PS W).

(** libuv may finish closing a handle that is closing; the socket after the
    callbacks of its write requests. *)
Definition closable (h : sess_handle) st : Prop :=
  (exists cb, the_handle h (sess st) = H_closing cb) /\ (h = SH_tcp -> inflight st = []).

Inductive life :=
| Alive (st : St (PS W))
| Freed (st : St (PS W)).

(** The result of [finish_close]. *)
Definition after_close (r : bool * St (PS W)) : life := if r.1 then Freed r.2 else Alive r.2.

Inductive life_step : life -> life -> Prop :=
| ls_callback st st' : callback ulong_max st st' -> life_step (Alive st) (Alive st')
| ls_relays st e :
    e <> E_session_new self -> e <> E_session_gone self ->
    enabled e (with_shared self (Shared (s_ctr (sess st)) (g_counters st)) (world st)) ->
    life_step (Alive st) (Alive (run_pf self (pf_step e) st).2)
| ls_closed st h : closable h st -> life_step (Alive st) (after_close (finish_close self h st)).

(** ** Lemmas *)

Context `{!NetLaws W}.

Lemma inv_insert_session (p : PS W) o c : pf_inv p -> pf_inv (p <| sessions ::= <[o := c]> |>).
Proof.
  intros []. split; try done. cbn. intros r x Hx. destruct (i_relay r x Hx) as [? Ho ?]. split; try done.
  intros Hcl. destruct (decide (r_owner x = o)) as [->|]; [by rewrite lookup_insert_eq|].
  rewrite lookup_insert_ne by done. by apply Ho.
Qed.

Lemma inv_with_shared sh (p : PS W) : pf_inv p -> pf_inv (with_shared self sh p).
Proof.
  intros I%(inv_insert_session p self (sh_ctr sh)). unfold with_shared. destruct I. by split.
Qed.

(** The counters do not matter. *)
Lemma inv_shared_any sh sh' (p : PS W) : pf_inv (with_shared self sh p) -> pf_inv (with_shared self sh' p).
Proof.
  intros I%(inv_with_shared sh'). unfold with_shared in *. destruct I. split; try done.
  cbn in *. by rewrite insert_insert_eq in i_relay.
Qed.

Definition sh0 : shared := Shared counters_zero (DiagCounters counters_zero 0).

(** The relays are well-formed, with this session among the live ones. *)
Definition relays_inv (p : PS W) : Prop := pf_inv (with_shared self sh0 p).

Lemma via_inv {A} (m : PM W A) sh p a sh' p' :
  (forall q, pf_inv q -> is_Some (sessions q !! self) -> pwp m (fun _ q' => pf_inv q') q) ->
  relays_inv p -> via self m sh p = Some (a, sh', p') -> relays_inv p'.
Proof.
  intros Hm I. unfold via. pose proof (Hm (with_shared self sh p)) as H. unfold pwp in H.
  destruct (m (with_shared self sh p)) as [[b q]|]; [|done]. intros [= <- <- <-].
  apply inv_with_shared, H; [by eapply inv_shared_any|]. cbn. by rewrite lookup_insert_eq.
Qed.

Lemma relays_inv_world p w : relays_inv p -> relays_inv (p <| pf_world := w |>).
Proof. apply (pf_inv_world (with_shared self sh0 p) w). Qed.

Lemma on_world_inv {A} (f : W -> A * W) p : relays_inv p -> relays_inv (on_world f p).2.
Proof. intros I. unfold on_world. destruct (f (pf_world p)) as [a w]. by apply relays_inv_world. Qed.

Lemma ports_inv A (f : shared -> PS W -> option (A * shared * PS W)) : ports_call A f ->
  forall sh p a sh' p', relays_inv p -> f sh p = Some (a, sh', p') -> relays_inv p'.
Proof.
  intros H sh p a sh' p' I. destruct H as [lh lp th tp|id|]; (eapply via_inv; [|done]); intros q Hq Ho.
  - eapply pwp_mono; [by apply portfwd_open_pwp|]. by intros res q' [I' _].
  - destruct (inv_listed q Hq) as (l & Hl & _ & _).
    eapply pwp_mono; [by apply (portfwd_close_pwp id l)|]. intros rc q' Hp.
    destruct (List.find _ l) as [r|]; [|by destruct Hp as [_ ->]]. destruct Hp as (_ & x & _ & D). apply D.
  - destruct (inv_listed q Hq) as (l & Hl & Hnd & _).
    unfold portfwd_push_list. apply pwp_bind, pwp_get, pwp_bind, pwp_get.
    eapply pwp_mono; [apply (push_list_loop_pwp (Some self) l); [exact Hl|]|by intros rows q' [_ ->]].
    unfold list_fuel. pose proof (chain_length _ _ _ Hl Hnd). lia.
Qed.

Lemma on_relays_keeps (s : script W) : script_keeps relays_inv (on_relays s).
Proof.
  induction s as [| | |c k IH|f k IH]; cbn [on_relays]; constructor; try done.
  intros p. apply relays_inv_world.
Qed.

Lemma uv_inv A (f : PS W -> A * PS W) : uv_call A f -> forall p, relays_inv p -> relays_inv (f p).2.
Proof. intros Hf p. destruct Hf; apply on_world_inv. Qed.

Lemma scripts_inv req_id payload p s :
  dispatch_request (Lua := ps_lua) req_id payload p = Some s -> script_keeps relays_inv s.
Proof. intros (s0 & _ & ->)%fmap_Some. apply on_relays_keeps. Qed.

#[local] Instance ps_world_inv : WorldInv (PS W) := {
  world_inv := relays_inv;
  world_inv_uv := uv_inv;
  world_inv_ports := ports_inv;
  world_inv_script := scripts_inv
}.

(** *** Giving a handle back *)

Lemma cnt_range v : 0 <= cnt v <= 1.
Proof. destruct v as [| |[]]; cbn; lia. Qed.

Lemma cnt_tcp_range v : 0 <= cnt_tcp v <= 1.
Proof. destruct v as [| |[]]; cbn; lia. Qed.

(** A handle libuv still calls back for. *)
Definition waits (v : handle) : Prop := v = H_open \/ v = H_closing true.

Lemma cnt_0 v : cnt v = 0 <-> ~ waits v.
Proof. unfold waits. destruct v as [| |[]]; cbn; naive_solver. Qed.

Lemma give_back_off j h cb s :
  the_handle h s = H_closing cb -> life_off j s -> life_off (j - Z.b2z cb) (set_sess_handle h H_none s).
Proof.
  intros E [Hr Ho Hc Ha Hb]. split.
  - revert Hr. unfold held. destruct h; cbn in *; rewrite E; destruct cb; cbn; lia.
  - intros Hcl. destruct h; cbn in *; try (by apply Ho); destruct (Ho Hcl) as (? & ? & ?); congruence.
  - intros Hcl. destruct h; cbn in *; destruct (Hc Hcl) as (? & ? & ?); done.
  - intros Hact. destruct h; cbn in *; try (by apply Ha). rewrite (Ha Hact) in E. done.
  - destruct Hb as (? & ? & ?). by destruct h.
Qed.

(** The closing handle is the last one exactly when it is the only one
    counted. *)
Lemma last_held h s :
  life_inv s -> the_handle h s = H_closing true ->
  held s <= 1 <-> forall h', h' <> h -> ~ waits (the_handle h' s).
Proof.
  intros [_ Ho Hc Ha _] E. unfold held.
  pose proof (cnt_tcp_range (s_tcp s)). pose proof (cnt_range (s_heartbeat_timer s)).
  pose proof (cnt_range (p_process (s_proc s))). pose proof (cnt_range (p_stdout_pipe (s_proc s))).
  pose proof (cnt_range (p_stderr_pipe (s_proc s))).
  split.
  - intros Hle. assert (Ecl : s_closed s = true).
    { destruct (s_closed s); [done|]. destruct (Ho eq_refl) as (Et & Eh & _). rewrite Et, Eh in *.
      destruct h; cbn in *; rewrite ?E in *; cbn in *; congruence || lia. }
    assert (Et : cnt (s_tcp s) = cnt_tcp (s_tcp s)).
    { destruct (Hc Ecl) as (Ht & _). by destruct (s_tcp s) as [| |[]]. }
    intros h' Hne. apply cnt_0. pose proof (cnt_range (the_handle h' s)).
    destruct h, h'; cbn in *; rewrite E in *; cbn in *; try done; lia.
  - intros H'. assert (Hz : forall h', h' <> h -> cnt (the_handle h' s) = 0) by (intros; by apply cnt_0, H').
    assert (Hct : cnt_tcp (s_tcp s) <= cnt (s_tcp s)) by (destruct (s_tcp s) as [| |[]]; cbn; lia).
    pose proof (Hz SH_tcp). pose proof (Hz SH_timer). pose proof (Hz SH_process). pose proof (Hz SH_stdout).
    pose proof (Hz SH_stderr). destruct h; cbn in *; rewrite E in *; cbn in *;
    repeat match goal with H : _ <> _ -> _ |- _ => specialize (H ltac:(done)) || clear H end; lia.
Qed.

(** *** The close callbacks *)

Lemma finish_close_eval h cb st :
  the_handle h (sess st) = H_closing cb ->
  finish_close self h st =
  (if cb then maybe_free_session self else mret false) (st <| sess ::= set_sess_handle h H_none |>).
Proof. intros E. unfold finish_close. run_eval. rewrite E. by destruct cb, h. Qed.

Lemma abort_world_inv t p : relays_inv p -> relays_inv (abort_world t p).
Proof.
  intros I. unfold abort_world. destruct (0 <=? t_file t); case_match; try apply on_world_inv; try done.
  by apply on_world_inv.
Qed.

(** The relays of the session are closed without an error. *)
Lemma close_session_inv sh p :
  relays_inv p ->
  pwp (portfwd_close_session self) (fun _ q =>
    pf_inv q /\ forall r x, relays q !! r = Some x -> r_closing x = false -> r_owner x <> self) (with_shared self sh p).
Proof.
  intros I%(inv_shared_any _ sh). destruct (inv_listed _ I) as (l & Hl & _ & _).
  eapply pwp_mono; [by apply (close_all_pwp (fun x => bool_decide (r_owner x = self)) (fun x n => eq_refl) l)|].
  intros [] q Hsw. split; [apply Hsw|]. by apply (swept_owner _ q self l Hl).
Qed.

Lemma all_back s :
  forallb (fun h => bool_decide (the_handle h s = H_none)) all_handles = true <-> forall h, the_handle h s = H_none.
Proof.
  rewrite forallb_forall. split.
  - intros H h. specialize (H h ltac:(by destruct h; cbn; auto 10)). by apply bool_decide_eq_true in H.
  - intros H h _. by apply bool_decide_eq_true.
Qed.

(** What is left when the session has been freed. *)
Record freed_from st st' : Prop := FreedFrom {
  ff_handles : forall h, the_handle h (sess st') = the_handle h (sess st);
  ff_upload : s_upload (sess st') = transfer_init;
  ff_download : s_download (sess st') = transfer_init;
  ff_proc : p_active (s_proc (sess st')) = false;
  ff_relays : forall r x, relays (world st') !! r = Some x -> r_closing x = false -> r_owner x <> self;
  ff_session : sessions (world st') !! self = None;
  ff_inv : pf_inv (world st');
  ff_hazards : hazards st' =
    (if forallb (fun h => bool_decide (the_handle h (sess st) = H_none)) all_handles then []
     else [HZ_free_in_use]) ++ hazards st
}.

Lemma maybe_free_last st :
  s_close_refs (sess st) <= 1 -> p_active (s_proc (sess st)) = false -> relays_inv (world st) ->
  wp (maybe_free_session self) (fun freed st' => freed = true /\ freed_from st st') st.
Proof.
  intros Hr Ha I. unfold maybe_free_session, proc_abort, mod_proc. do 4 wp_step. cbn.
  destruct (0 <? Z.pred _) eqn:E; b2p; [lia|].
  apply wp_bind, wp_abort_upload, wp_bind, wp_abort_download. apply wp_bind. do 2 wp_step. cbn. rewrite Ha.
  wp_step. cbn. apply wp_bind. unfold run_pf. apply wp_bind. unfold wp at 1, call_ports, via. cbn.
  set (p := abort_world _ (abort_world _ _)). set (sh := Shared _ _).
  assert (Ip : relays_inv p) by (unfold p; by do 2 apply abort_world_inv).
  pose proof (close_session_inv sh p Ip) as (u & q & Hq & Hi & Ho)%pwp_run. rewrite Hq. cbn.
  apply wp_ret. unfold free_session. do 2 wp_step. wp_step. cbn.
  set (b := _ && _). apply wp_bind.
  destruct b eqn:Eb; [apply wp_ret|apply wp_modify]; apply wp_modify, wp_ret; (split; [done|]); split; try done; cbn.
  all: try (by intros []). all: try (by rewrite lookup_delete_eq). all: try (by apply inv_del_session).
  all: fold b; by rewrite Eb.
Qed.

Lemma maybe_free_not_last st :
  1 < s_close_refs (sess st) -> maybe_free_session self st = (false, st <| sess ::= upd s_close_refs Z.pred |>).
Proof.
  intros Hr. unfold maybe_free_session. run_eval. destruct (0 <? Z.pred _) eqn:E; b2p; [done|lia].
Qed.

Lemma maybe_free_result st : (maybe_free_session self st).1 = (s_close_refs (sess st) <=? 1).
Proof.
  destruct (s_close_refs (sess st) <=? 1) eqn:E; b2p; [|by rewrite maybe_free_not_last].
  unfold maybe_free_session. rewrite !bind_run. cbn [fst snd mod_sess modify get_sess gets].
  match goal with |- context [0 <? ?x] => change x with (Z.pred (s_close_refs (sess st))) end.
  destruct (0 <? _) eqn:Ep; b2p; [lia|]. by rewrite !bind_run.
Qed.

(** *** The invariant *)

(** Whatever happened, the relays are well-formed; and if no rule of libuv was
    broken, the references are counted exactly. *)
Record alive_inv (z : list hazard) st : Prop := AliveInv {
  al_world : relays_inv (world st);
  al_hazards : z `suffix_of` hazards st;
  al_life : hazards st = z -> life_inv (sess st)
}.

Lemma balanced_alive z st st' : balanced st st' -> alive_inv z st -> alive_inv z st'.
Proof.
  intros (Hw & Hh & Hl) [I1 I2 I3]. split; [by apply Hw|by transitivity (hazards st)|].
  intros E. assert (hazards st = z) as Ez.
  { apply (anti_symm suffix); [|done]. by rewrite <- E. }
  apply (Hl ltac:(congruence) 0). by apply I3.
Qed.

Lemma relays_alive z st e :
  enabled e (with_shared self (Shared (s_ctr (sess st)) (g_counters st)) (world st)) ->
  alive_inv z st -> alive_inv z (run_pf self (pf_step e) st).2.
Proof.
  intros He [I1 I2 I3]. unfold run_pf. rewrite bind_run. unfold call_ports, via. set (p := with_shared _ _ _) in *.
  destruct (pf_step e p) as [[u q]|] eqn:E; cbn.
  - split; [|done|].
    + apply inv_with_shared. by apply (pf_step_inv p e u q (inv_shared_any _ _ _ I1) He).
    + cbn. intros Ez. by apply (life_off_part 0 (sess st)), I3.
  - split; [done|by apply suffix_cons_r|]. cbn. intros Ez. rewrite <- Ez in I2. by apply suffix_cons_not in I2.
Qed.

Lemma finish_close_alive z st h :
  closable h st -> alive_inv z st -> (finish_close self h st).1 = false -> alive_inv z (finish_close self h st).2.
Proof.
  intros [[cb E] _] [I1 I2 I3]. rewrite (finish_close_eval h cb st E).
  set (st1 := st <| sess ::= _ |>). destruct cb; cbn.
  - destruct (Z.le_gt_cases (s_close_refs (sess st1)) 1) as [Hr|Hr].
    { rewrite maybe_free_result. by apply Z.leb_le in Hr as ->. }
    rewrite maybe_free_not_last by lia. cbn. intros _. split; [done..|]. cbn. intros Ez.
    pose proof (give_back_off 0 h true (sess st) E (I3 Ez)) as [Hr' Ho Hc Ha Hb].
    split; [|done..]. revert Hr'. unfold held. cbn. lia.
  - intros _. split; [done..|]. cbn. intros Ez. exact (give_back_off 0 h false (sess st) E (I3 Ez)).
Qed.

Lemma life_alive z st l : rtc life_step (Alive st) l -> alive_inv z st ->
  forall st', l = Alive st' -> alive_inv z st'.
Proof.
  intros Hr I. enough (match l with Alive st' => alive_inv z st' | Freed _ => True end) as H by (by intros st' ->).
  refine (rtc_ind_r (fun l => match l with Alive st' => alive_inv z st' | Freed _ => True end) (Alive st) I _ l Hr).
  intros l1 l2 _ Hs I1. destruct Hs as [st1 st2 Hc|st1 e _ _ He|st1 h Hc].
  - apply (balanced_alive z st1); [|done]. by apply (callback_balanced ulong_max).
  - by apply relays_alive.
  - pose proof (finish_close_alive z st1 h Hc I1) as H. unfold after_close.
    destruct (finish_close self h st1) as [[] st2]; cbn in *; [done|by apply H].
Qed.

(** The relays stay as they are while a connection is accepted. *)
Definition world_kept st st' : Prop := relays_inv (world st) -> relays_inv (world st').

#[local] Instance world_kept_preorder : PreOrder world_kept.
Proof. split; unfold world_kept; repeat intro; auto. Qed.

Lemma lift_world_kept {A} (f : PS W -> A * PS W) : uv_call A f -> keeps world_kept (lift f).
Proof.
  intros Hf st. pose proof (uv_inv A f Hf (world st)) as Hw. unfold lift. by destruct (f (world st)) as [a p].
Qed.

Lemma accept_world status : keeps world_kept (on_new_connection (W := PS W) status).
Proof.
  unfold on_new_connection, session_init, session_start_timers, session_close, session_add_ref,
    diag_count_session_disconnect, diag_count, uv_opened, uv_close, util_now_ms, report, mod_sess.
  repeat lazymatch goal with
  | |- keeps _ (lift _) => apply lift_world_kept; constructor
  | |- keeps _ (modify _) => intros st; by intros ?
  | |- keeps _ (match _ with _ => _ end) => case_match
  | |- keeps _ (if ?b then _ else _) => destruct b
  | |- keeps _ (mret _) => refine (keeps_ret _ _)
  | |- keeps _ (gets _) => refine (keeps_gets _ _)
  | |- keeps _ (get_sess _) => refine (keeps_gets _ _)
  | |- keeps _ (_ ≫= _) => refine (keeps_bind _ _ _ _ _); [|intros ?]
  end.
Qed.

(** A session in the middle of its life: accepted while the relays were in a
    reachable state, then any steps, without a rule of libuv broken. *)
Record living status st0 st : Prop := Living {
  lg_relays : pf_reachable (world st0);
  lg_steps : exists st1, on_new_connection status st0 = (true, st1) /\ rtc life_step (Alive st1) (Alive st);
  lg_hazards : hazards st = hazards st0
}.

Lemma living_inv status st0 st : living status st0 st -> alive_inv (hazards st0) st /\ life_inv (sess st).
Proof.
  intros [Hr (st1 & E & Hs) Hz].
  assert (alive_inv (hazards st0) st1) as I1.
  { pose proof (accept_balanced status st0) as Hb. eapply wp_run in Hb; [|exact E].
    pose proof (accept_ok status st0) as Ha. eapply wp_run in Ha; [|exact E].
    destruct (Ha eq_refl) as (_ & _ & Hh). split.
    - pose proof (accept_world status st0) as Hw. rewrite E in Hw. apply Hw.
      by apply inv_with_shared, reachable_pf_inv.
    - destruct Hh as [->|(_ & -> & _)]; [done|by apply suffix_cons_r].
    - by apply Hb. }
  pose proof (life_alive _ st1 _ Hs I1 st eq_refl) as I. split; [done|]. by apply (al_life _ _ I).
Qed.

Lemma freed_iff_last st h :
  alive_inv (hazards st) st -> closable h st ->
  (finish_close self h st).1 = true <->
  the_handle h (sess st) = H_closing true /\ forall h', h' <> h -> ~ waits (the_handle h' (sess st)).
Proof.
  intros [_ _ Hl] [[cb E] _]. specialize (Hl eq_refl). rewrite (finish_close_eval h cb st E).
  destruct cb; [|split; [done|by rewrite E; intros [[=] _]]].
  rewrite maybe_free_result, Z.leb_le. pose proof (last_held h (sess st) Hl E) as <-. rewrite E.
  change (s_close_refs _) with (s_close_refs (set_sess_handle h H_none (sess st))).
  replace (s_close_refs (set_sess_handle h H_none (sess st))) with (s_close_refs (sess st)) by (by destruct h).
  rewrite <- (li_refs _ _ Hl). split; [intros; split; [done|lia]|intros [_ H]; lia].
Qed.

Lemma freed_clean st h st' :
  alive_inv (hazards st) st -> closable h st -> finish_close self h st = (true, st') ->
  freed_from (st <| sess ::= set_sess_handle h H_none |>) st'.
Proof.
  intros I Hc E. pose proof (freed_iff_last st h I Hc) as [(Eh & Hl) _]; [by rewrite E|].
  rewrite (finish_close_eval h true st Eh) in E. set (st1 := st <| sess ::= _ |>) in *.
  pose proof (maybe_free_result st1) as Hr. rewrite E in Hr. cbn in Hr. symmetry in Hr. apply Z.leb_le in Hr.
  assert (Ha : p_active (s_proc (sess st1)) = false).
  { destruct I as [_ _ [_ _ _ Hp _]]; [done|]. destruct (p_active (s_proc (sess st1))) eqn:Ea; [|done].
    destruct h; cbn in *; try (destruct (Hl SH_process); [done|left; by apply Hp]).
    rewrite (Hp Ea) in Eh. done. }
  pose proof (maybe_free_last st1 Hr Ha (al_world _ _ I)) as Hf. eapply wp_run in Hf; [|exact E]. apply Hf.
Qed.

(** *** Delivering all close callbacks *)

(** The callbacks for [hs] in order; the state in which the session is freed
    if that is at the last of them, and only then. *)
Fixpoint deliver (hs : list sess_handle) st : option (St (PS W)) :=
  match hs with
  | [] => None
  | h :: hs' =>
      let '(freed, st') := finish_close self h st in
      if freed then match hs' with [] => Some st' | _ => None end else deliver hs' st'
  end.

Lemma handle_set h h' s :
  the_handle h' (set_sess_handle h H_none s) = if decide (h' = h) then H_none else the_handle h' s.
Proof. by destruct h, h'. Qed.

Lemma handle_pred h s : the_handle h (upd s_close_refs Z.pred s) = the_handle h s.
Proof. by destruct h. Qed.

Lemma deliver_frees hs st :
  alive_inv (hazards st) st -> inflight st = [] -> (forall h, the_handle h (sess st) <> H_open) -> NoDup hs ->
  hs <> [] -> (forall h, h ∈ hs <-> the_handle h (sess st) = H_closing true) ->
  exists st1 h st', deliver hs st = Some st' /\ alive_inv (hazards st) st1 /\ hazards st1 = hazards st /\
    closable h st1 /\ finish_close self h st1 = (true, st') /\
    (forall h', the_handle h' (sess st) = H_closing false -> the_handle h' (sess st1) = H_closing false).
Proof.
  revert st. induction hs as [|h hs IH]; intros st I Hq Hno Hnd Hne Hin; [done|].
  apply NoDup_cons in Hnd as [Hnew Hnd].
  assert (Eh : the_handle h (sess st) = H_closing true) by (apply Hin; left).
  assert (Hc : closable h st) by (split; [by eexists|done]).
  pose proof (freed_iff_last st h I Hc) as Hf. cbn [deliver].
  destruct (finish_close self h st) as [freed st2] eqn:E. cbn in Hf. destruct hs as [|h2 hs'].
  - assert (freed = true) as ->.
    { apply Hf. split; [done|]. intros h' Hne' [Hw|Hw]; [by apply (Hno h')|].
      apply Hin in Hw. by apply list_elem_of_singleton in Hw. }
    by exists st, h, st2.
  - destruct freed.
    { destruct Hf as [Hf _]. destruct (Hf eq_refl) as [_ Hl]. destruct (Hl h2).
      - intros ->. by apply Hnew; left.
      - right. apply Hin. right. left. }
    pose proof (finish_close_alive (hazards st) st h Hc I) as I2. rewrite E in I2. specialize (I2 eq_refl).
    rewrite (finish_close_eval h true st Eh) in E.
    pose proof (maybe_free_result (st <| sess ::= set_sess_handle h H_none |>)) as Hr. rewrite E in Hr.
    symmetry in Hr. apply Z.leb_gt in Hr. rewrite maybe_free_not_last in E by done. injection E as E.
    assert (Ez : hazards st2 = hazards st) by (by rewrite <- E).
    assert (Et : forall h', the_handle h' (sess st2) = if decide (h' = h) then H_none else the_handle h' (sess st)).
    { intros h'. rewrite <- E. cbn. by rewrite handle_pred, handle_set. }
    rewrite <- Ez in I2 |- *.
    destruct (IH _ I2) as (st1 & h1 & st' & D1 & D2 & D3 & D4 & D5 & D6); [by rewrite <- E| |done|done| |].
    + intros h'. rewrite Et. by case_decide.
    + intros h'. rewrite Et. case_decide as Ed.
      * subst h'. split; [done|intros [=]].
      * rewrite <- Hin. split; [intros H; by right|]. by intros [H|H]%elem_of_cons.
    + exists st1, h1, st'. repeat (split; [done|]). intros h' Hh'. apply D6. rewrite Et.
      case_decide; [congruence|done].
Qed.

(** ** Theorems *)

(** C12: A session object lives exactly as long as libuv needs it.  In every
    state of its life without a rule of libuv broken, a close callback frees
    the session exactly when it is the last one: no other handle of the
    session is open or has a callback to come. *)
Theorem session_freed_by_last status st0 st h :
  living status st0 st -> closable h st ->
  (finish_close self h st).1 = true <->
  the_handle h (sess st) = H_closing true /\ forall h', h' <> h -> ~ waits (the_handle h' (sess st)).
Proof.
  intros Hl Hc. apply freed_iff_last; [|done]. destruct (living_inv _ _ _ Hl) as [I _].
  by rewrite (lg_hazards _ _ _ Hl).
Qed.

(** C14: What is left of a freed session: its transfers are aborted, no process
    is active (so [proc_abort] never kills one), no listed relay belongs to
    it, its address is not in use any more, and its handles are given back;
    only pipes that were closed without a callback, after a failed spawn, can
    still be closing inside the freed object. *)
Theorem freed_session_is_clean status st0 st h st' :
  living status st0 st -> closable h st -> finish_close self h st = (true, st') ->
  s_upload (sess st') = transfer_init /\ s_download (sess st') = transfer_init /\
  p_active (s_proc (sess st)) = false /\
  (forall r x, relays (world st') !! r = Some x -> r_closing x = false -> r_owner x <> self) /\
  sessions (world st') !! self = None /\
  ((forall h', the_handle h' (sess st') = H_none) /\ hazards st' = hazards st \/
   (p_stdout_pipe (s_proc (sess st)) = H_closing false \/ p_stderr_pipe (s_proc (sess st)) = H_closing false) /\
   hazards st' = HZ_free_in_use :: hazards st).
Proof.
  intros Hl Hc E. destruct (living_inv _ _ _ Hl) as [I Hi]. rewrite <- (lg_hazards _ _ _ Hl) in I.
  pose proof (freed_clean st h st' I Hc E) as [F1 F2 F3 F4 F5 F6 F7 F8].
  pose proof (freed_iff_last st h I Hc) as [(Eh & Hlast) _]; [by rewrite E|].
  assert (Hz : forall h', h' <> h -> the_handle h' (sess st) = H_none \/ the_handle h' (sess st) = H_closing false).
  { intros h' Hne. specialize (Hlast h' Hne). unfold waits in Hlast.
    destruct (the_handle h' (sess st)) as [| |[]]; [by left|by destruct Hlast; left|by destruct Hlast; right|by right]. }
  do 2 (split; [done|]). split.
  { destruct (p_active (s_proc (sess st))) eqn:Ea; [|done]. pose proof (li_proc _ _ Hi Ea) as Hp.
    destruct (decide (h = SH_process)) as [->|Hne]; [cbn in Eh; congruence|].
    destruct (Hz SH_process) as [Hx|Hx]; [congruence|cbn in Hx; congruence..]. }
  do 2 (split; [done|]). assert (Hall : forall h', the_handle h' (sess st') =
    if decide (h' = h) then H_none else the_handle h' (sess st)) by (intros h'; rewrite F1; apply handle_set).
  revert F8. cbn [sess]. set (b := forallb _ all_handles). destruct b eqn:Eb; intros F8; cbn in F8.
  - left. split; [|done]. intros h'. rewrite F1. unfold b in Eb. rewrite all_back in Eb. apply Eb.
  - right. split; [|done]. destruct (decide (p_stdout_pipe (s_proc (sess st)) = H_closing false)) as [|Hn1]; [by left|].
    destruct (decide (p_stderr_pipe (s_proc (sess st)) = H_closing false)) as [|Hn2]; [by right|].
    destruct (li_called _ _ Hi) as (C1 & C2 & C3).
    enough (b = true) by congruence. apply all_back. intros h'. cbn. rewrite handle_set. case_decide as Ed; [done|].
    destruct (Hz h' Ed) as [|Hx]; [done|]. by destruct h'.
Qed.

(** C13: A closed session is freed: once libuv is closing all its handles and
    the writes are done, delivering the pending close callbacks, in whatever
    order, frees the session, at the last of them. *)
Theorem closed_session_is_freed status st0 st hs :
  living status st0 st -> inflight st = [] -> (forall h, the_handle h (sess st) <> H_open) ->
  NoDup hs -> hs <> [] -> (forall h, h ∈ hs <-> the_handle h (sess st) = H_closing true) ->
  exists st', deliver hs st = Some st' /\ sessions (world st') !! self = None.
Proof.
  intros Hl Hq Hno Hnd Hne Hin. destruct (living_inv _ _ _ Hl) as [I _]. rewrite <- (lg_hazards _ _ _ Hl) in I.
  destruct (deliver_frees hs st I Hq Hno Hnd Hne Hin) as (st1 & h & st' & Hd & I1 & Ez & Hc & Hf & _).
  exists st'. split; [done|]. rewrite <- Ez in I1. apply (ff_session _ _ (freed_clean st1 h st' I1 Hc Hf)).
Qed.

(** C38: Where the count of references falls short: a pipe that was closed
    without a callback, as a spawn that fails closes the pipes it has
    initialised, holds no reference.  If libuv has not given it back when the
    close callbacks of the other handles are delivered, in whatever order, the
    last of them frees the session with the pipe inside it. *)
Theorem failed_spawn_frees_too_early status st0 st hs :
  living status st0 st -> inflight st = [] -> (forall h, the_handle h (sess st) <> H_open) ->
  NoDup hs -> hs <> [] -> (forall h, h ∈ hs <-> the_handle h (sess st) = H_closing true) ->
  p_stdout_pipe (s_proc (sess st)) = H_closing false \/ p_stderr_pipe (s_proc (sess st)) = H_closing false ->
  exists st', deliver hs st = Some st' /\ sessions (world st') !! self = None /\
    hazards st' = HZ_free_in_use :: hazards st.
Proof.
  intros Hl Hq Hno Hnd Hne Hin Hp. destruct (living_inv _ _ _ Hl) as [I _]. rewrite <- (lg_hazards _ _ _ Hl) in I.
  destruct (deliver_frees hs st I Hq Hno Hnd Hne Hin) as (st1 & h & st' & Hd & I1 & Ez & Hc & Hf & Hk).
  exists st'. split; [done|]. rewrite <- Ez in I1. pose proof (freed_clean st1 h st' I1 Hc Hf) as F.
  split; [apply F|]. rewrite (ff_hazards _ _ F), <- Ez.
  assert (exists h', the_handle h' (sess st1) = H_closing false /\ h' <> h) as (h' & Eh' & Hne').
  { pose proof (freed_iff_last st1 h I1 Hc) as [[Eh _] _]; [by rewrite Hf|].
    destruct Hp as [Hp|Hp]; [exists SH_stdout|exists SH_stderr]; (split; [by apply Hk|]); intros <-;
      [rewrite (Hk SH_stdout Hp) in Eh|rewrite (Hk SH_stderr Hp) in Eh]; done. }
  destruct (forallb _ all_handles) eqn:Ea; [|done]. apply all_back with (h := h') in Ea.
  cbn in Ea. rewrite handle_set, decide_False in Ea by done. congruence.
Qed.

(** C37: The process of a client that has gone keeps running: as long as it is
    active no close callback frees the session, and [proc_abort], which would
    kill it, is only reached when it has ended. *)
Theorem running_process_keeps_session status st0 st h :
  living status st0 st -> p_active (s_proc (sess st)) = true -> closable h st ->
  (finish_close self h st).1 = false.
Proof.
  intros Hl Ha Hc. destruct (living_inv _ _ _ Hl) as [I Hi]. rewrite <- (lg_hazards _ _ _ Hl) in I.
  pose proof (li_proc _ _ Hi Ha) as Hp. destruct (finish_close self h st).1 eqn:E; [|done].
  apply (freed_iff_last st h I Hc) in E as [Eh Hlast]. destruct (decide (h = SH_process)) as [->|Hne].
  - cbn in Eh. congruence.
  - destruct (Hlast SH_process); [done|by left].
Qed.
End life.

(** ** Examples *)

(** An agent with no relays; a client connects. *)
Definition no_scripts : Z -> bytes -> Sim.sim -> option (script Sim.sim) := fun _ _ _ => None.
Notation ex_lua := (ps_lua 7 no_scripts).
Definition agent (m : Sim.sim) : St (PS Sim.sim) :=
  mkSt accepted_session (DiagCounters counters_zero 0) 1 [] [] [] (pf_init m).
Definition connected (m : Sim.sim) : St (PS Sim.sim) := (on_new_connection 0 (agent m)).2.

(** What arrives from the client; [-4095] is [UV_EOF]. *)
Definition ex_read (nread : Z) (data : bytes) (st : St (PS Sim.sim)) : St (PS Sim.sim) :=
  (Server.read_cb (Lua0 := ex_lua) (2 ^ 64 - 1) nread data st).2.

Definition ex_step := life_step 7 (2 ^ 64 - 1) no_scripts.
Definition ex_living (m : Sim.sim) := living 7 (2 ^ 64 - 1) no_scripts 0 (agent m).

Lemma ex_living_intro m st :
  (on_new_connection 0 (agent m)).1 = true -> rtc ex_step (Alive (connected m)) (Alive st) -> hazards st = [] ->
  ex_living m st.
Proof.
  intros Ha Hs Hz. split; [by exists m| |done]. exists (connected m). split; [|done].
  unfold connected. rewrite <- Ha. by destruct (on_new_connection 0 (agent m)).
Qed.

(** The client disconnects at once. *)
Definition gone : St (PS Sim.sim) := ex_read (-4095) [] (connected Sim.empty).

Lemma gone_steps : rtc ex_step (Alive (connected Sim.empty)) (Alive gone).
Proof.
  apply rtc_once, ls_callback.
  refine (step_read (2 ^ 64 - 1) (connected Sim.empty) (-4095) [] _ _ _); [by_vm|lia|vm_compute; discriminate].
Qed.

Lemma gone_living : ex_living Sim.empty gone.
Proof. apply ex_living_intro; [by_vm|apply gone_steps|by_vm]. Qed.

Lemma ex_close_step x (st : St (PS Sim.sim)) h :
  rtc ex_step x (Alive st) -> closable h st -> (finish_close 7 h st).1 = false ->
  rtc ex_step x (Alive (finish_close 7 h st).2).
Proof.
  intros Hs Hc Ef. eapply rtc_r; [exact Hs|]. pose proof (ls_closed 7 (2 ^ 64 - 1) no_scripts st h Hc) as H.
  unfold after_close in H. rewrite Ef in H. exact H.
Qed.

Lemma gone_closable h cb : the_handle h (sess gone) = H_closing cb -> closable h gone.
Proof. intros E. split; [by eexists|]. intros _. by_vm. Qed.

Lemma session_freed_by_last_witness :
  (finish_close 7 SH_timer gone).1 = true <->
  the_handle SH_timer (sess gone) = H_closing true /\
  forall h', h' <> SH_timer -> ~ waits (the_handle h' (sess gone)).
Proof.
  refine (session_freed_by_last 7 (2 ^ 64 - 1) no_scripts 0 (agent Sim.empty) gone SH_timer gone_living _).
  apply (gone_closable _ true). by_vm.
Defined.

(** After the timer, the socket. *)
Definition last_one : St (PS Sim.sim) := (finish_close 7 SH_timer gone).2.

Lemma last_one_living : ex_living Sim.empty last_one.
Proof.
  apply ex_living_intro; [by_vm| |by_vm].
  refine (ex_close_step _ gone SH_timer gone_steps _ _); [|by_vm]. apply (gone_closable _ true). by_vm.
Qed.

Lemma last_one_closable : closable SH_tcp last_one.
Proof. split; [exists true; by_vm|]. intros _. by_vm. Qed.

Lemma freed_session_is_clean_witness :
  exists st', finish_close 7 SH_tcp last_one = (true, st') /\ sessions (world st') !! 7%nat = None.
Proof.
  destruct (finish_close 7 SH_tcp last_one) as [freed st'] eqn:E.
  assert (Hf : freed = true) by (change freed with (freed, st').1; rewrite <- E; by_vm).
  rewrite Hf in E. exists st'. split; [by rewrite Hf|].
  destruct (freed_session_is_clean 7 (2 ^ 64 - 1) no_scripts 0 (agent Sim.empty) last_one SH_tcp st'
    last_one_living last_one_closable E) as (_ & _ & _ & _ & H & _).
  exact H.
Defined.

Lemma closed_session_is_freed_witness :
  exists st', deliver 7 [SH_tcp; SH_timer] gone = Some st' /\ sessions (world st') !! 7%nat = None.
Proof.
  refine (closed_session_is_freed 7 (2 ^ 64 - 1) no_scripts 0 (agent Sim.empty) gone [SH_tcp; SH_timer] gone_living _ _ _ _ _).
  - by_vm.
  - intros []; vm_compute; discriminate.
  - apply NoDup_cons_2; [|apply NoDup_singleton]. intros H%list_elem_of_singleton. discriminate.
  - discriminate.
  - intros h. rewrite elem_of_cons, list_elem_of_singleton.
    destruct h; (split; [intros [H|H]; try discriminate; by_vm|intros H; vm_compute in H; try discriminate; auto]).
Defined.

(** The client starts a process and disconnects. *)
Definition spawn_bytes : bytes :=
  header_bytes (FrameHeader FRAME_PROC_SPAWN 0 1 6) ++ lit "path=x".

Definition ex_gone (m : Sim.sim) : St (PS Sim.sim) :=
  ex_read (-4095) [] ((on_write_done 0 (ex_read (zlen spawn_bytes) spawn_bytes (connected m))).2).

Lemma ex_gone_living m :
  (on_new_connection 0 (agent m)).1 = true -> s_closed (sess (connected m)) = false ->
  let st1 := ex_read (zlen spawn_bytes) spawn_bytes (connected m) in
  s_closed (sess (on_write_done 0 st1).2) = false -> (0 < length (inflight st1))%nat -> hazards (ex_gone m) = [] ->
  ex_living m (ex_gone m).
Proof.
  intros Ha Hc st1 Hc1 Hq Hz. apply ex_living_intro; [done| |done].
  apply (rtc_l _ _ (Alive st1)).
  { apply ls_callback. refine (step_read (2 ^ 64 - 1) (connected m) (zlen spawn_bytes) spawn_bytes Hc _ _); [done|vm_compute; discriminate]. }
  apply (rtc_l _ _ (Alive (on_write_done 0 st1).2)).
  { apply ls_callback. apply (step_written (2 ^ 64 - 1) st1 0). by apply lookup_lt_is_Some_2. }
  apply rtc_once, ls_callback.
  refine (step_read (2 ^ 64 - 1) (on_write_done 0 st1).2 (-4095) [] Hc1 _ _); [lia|vm_compute; discriminate].
Qed.

Lemma running_process_keeps_session_witness : (finish_close 7 SH_tcp (ex_gone Sim.empty)).1 = false.
Proof.
  refine (running_process_keeps_session 7 (2 ^ 64 - 1) no_scripts 0 (agent Sim.empty) (ex_gone Sim.empty) SH_tcp _ _ _).
  - apply ex_gone_living; [by_vm|by_vm|by_vm|apply Nat.ltb_lt; by_vm|by_vm].
  - by_vm.
  - split; [exists true; by_vm|intros _; by_vm].
Defined.

(** A spawn that fails; the client disconnects. *)
Definition no_program : Sim.sim := Sim.empty <| Sim.m_spawn_rc := -2 |>.

Lemma failed_spawn_frees_too_early_witness :
  exists st', deliver 7 [SH_tcp; SH_timer] (ex_gone no_program) = Some st' /\
    hazards st' = HZ_free_in_use :: hazards (ex_gone no_program).
Proof.
  destruct (failed_spawn_frees_too_early 7 (2 ^ 64 - 1) no_scripts 0 (agent no_program) (ex_gone no_program)
    [SH_tcp; SH_timer]) as (st' & H1 & _ & H2).
  - apply ex_gone_living; [by_vm|by_vm|by_vm|apply Nat.ltb_lt; by_vm|by_vm].
  - by_vm.
  - intros []; vm_compute; discriminate.
  - apply NoDup_cons_2; [|apply NoDup_singleton]. intros H%list_elem_of_singleton. discriminate.
  - discriminate.
  - intros h. rewrite elem_of_cons, list_elem_of_singleton.
    destruct h; (split; [intros [H|H]; try discriminate; by_vm|intros H; vm_compute in H; try discriminate; auto]).
  - left. by_vm.
  - exists st'. split; [exact H1|exact H2].
Defined.
