(* ===== verification/Startup.v ===== *)
(** * Start and end of the agent ([src/main.c], [server_run] of [src/server.c],
    [src/lua_engine.c], [bindings_register] of [src/bindings.c])

    The order in which the parts are set up, and that they are taken down on
    every path.  The event loop itself, [uv_run], is the subject of the other
    files: here it delivers a sequence of events to the relays. *)

From Stdlib Require Import ZArith Lia Bool.
From Stdlib Require Import Strings.Byte Strings.String.
From stdpp Require Import base list numbers option gmap relations.
From S2P Require Import Prelude CLib Frame Kv State Uv Tables Session Transfer Upload Proc.
From S2P Require Import ProcLife Heartbeat Lua Protocol Handlers Stream Server System Balance.
From S2P Require Import Portfwd Relays RelayList.

(** ** The interpreter and the loop *)

Class Boot (W : Type) := {
  (** Whether [luaL_newstate] returns a state, and [luaL_dofile] [LUA_OK]. *)
  luaL_newstate : W -> bool * W;
  luaL_dofile : bytes -> W -> bool * W;
  lua_close : W -> W;
  (** The result of the loop and the events it delivers to the relays until it
      returns. *)
  uv_run : PS W -> Z * list (pf_event W)
}.

(** What the program holds: the log ([diag_init] without [diag_shutdown]), the
    interpreter ([engine->L]), the listening socket, and the relays; whether
    the relay component went wrong. *)
Record BootSt (W : Type) := MkBoot {
  bt_diag : bool;
  bt_L : bool;
  bt_bindings : list string;
  bt_listener : bool;
  bt_wrong : bool;
  bt_relays : PS W
}.
Arguments MkBoot {W} _ _ _ _ _ _.
Arguments bt_diag {W} _.
Arguments bt_L {W} _.
Arguments bt_bindings {W} _.
Arguments bt_listener {W} _.
Arguments bt_wrong {W} _.
Arguments bt_relays {W} _.

#[global] Instance BootSt_eta W : Eta (BootSt W) := fun b =>
  MkBoot (bt_diag b) (bt_L b) (bt_bindings b) (bt_listener b) (bt_wrong b) (bt_relays b).

(** The fields of the table [agent]. *)
Definition agent_bindings : list string :=
  ["log"; "now_ms"; "reply"; "error"; "fs_list"; "port_open"; "port_close"; "port_list"; "debug_sessions";
   "debug_transfers"; "debug_procs"; "debug_stats"; "proc_spawn"]%string.

(** The field a call of a binding goes through. *)
Definition binding_name (c : lua_call) : string :=
  match c with
  | L_log _ _ => "log"
  | L_now_ms => "now_ms"
  | L_reply _ _ _ => "reply"
  | L_error _ _ _ => "error"
  | L_fs_list _ => "fs_list"
  | L_port_open _ _ _ _ => "port_open"
  | L_port_close _ => "port_close"
  | L_port_list => "port_list"
  | L_debug_sessions => "debug_sessions"
  | L_debug_transfers => "debug_transfers"
  | L_debug_procs => "debug_procs"
  | L_debug_stats => "debug_stats"
  | L_proc_spawn _ _ _ _ => "proc_spawn"
  end.

(** [atoi]: [None] when the value is not an [int] and C leaves the result
    open. *)
Definition atoi (s : bytes) : option Z :=
  let '(neg, s2) := scan_sign (skip_space s) in
  let v := (scan_digits 0 s2).1 in
  let v := if neg : bool then - v else v in
  if (- 2 ^ 31 <=? v) && (v <? 2 ^ 31) then Some v else None.

Section startup.
Context {W : Type} `{!Uv W, !UvNet W, !Boot W}.
Notation M := (M (BootSt W)).

(** Calls of the outside world and of the relays. *)
Definition boot_call {A} (f : W -> A * W) : M A :=
  fun b => match f (pf_world (bt_relays b)) with
           | (a, w) => (a, b <| bt_relays ::= upd pf_world (fun _ => w) |>)
           end.

Definition boot_pf {A} (m : PM W A) : M unit :=
  fun b => match m (bt_relays b) with
           | Some (_, p) => (tt, b <| bt_relays := p |>)
           | None => (tt, b <| bt_wrong := true |>)
           end.

(** The loop: [bt_wrong] once an event goes wrong. *)
Definition run_loop : M Z :=
  fun b =>
    let '(rc, es) := uv_run (bt_relays b) in
    match pf_run es (bt_relays b) with
    | Some p => (rc, b <| bt_relays := p |>)
    | None => (rc, b <| bt_wrong := true |>)
    end.

Definition bindings_register : M unit := modify (upd bt_bindings (fun _ => agent_bindings)).

Definition lua_engine_close : M unit :=
  boot_pf portfwd_engine_close;;
  open ← gets bt_L;
  if open : bool then
    modify (fun b => b <| bt_relays ::= upd pf_world lua_close |> <| bt_L := false |>)
  else mret tt.

Definition lua_engine_init : M Z :=
  modify (fun b => b <| bt_L := false |>);;
  boot_pf portfwd_engine_init;;
  ok ← boot_call luaL_newstate;
  if negb ok then mret (-1)
  else
    modify (fun b => b <| bt_L := true |>);;
    bindings_register;;
    ok ← boot_call (luaL_dofile (lit "lua/bootstrap.lua"));
    if negb ok then lua_engine_close;; mret (-1)
    else mret 0.

Definition diag_up : M unit := modify (fun b => b <| bt_diag := true |>).
Definition diag_down : M unit := modify (fun b => b <| bt_diag := false |>).

(** The way out after a step of the set-up has failed. *)
Definition server_fail : M Z := lua_engine_close;; diag_down;; mret (-1).

Definition server_run (bind_host : bytes) (port : Z) : M Z :=
  diag_up;;
  rc ← lua_engine_init;
  if negb (rc =? 0) then mret (-1)
  else
    rc ← boot_call uv_tcp_init;
    if negb (rc =? 0) then server_fail
    else
      if negb (uv_ip4_addr (W := W) bind_host port =? 0) then server_fail
      else
        rc ← boot_call (uv_tcp_bind bind_host port);
        if negb (rc =? 0) then server_fail
        else
          rc ← boot_call (uv_listen 16);
          if negb (rc =? 0) then server_fail
          else
            modify (fun b => b <| bt_listener := true |>);;
            rc ← run_loop;
            lua_engine_close;;
            diag_down;;
            mret rc.

(** The exit status; [args] without the name of the program.  [None]: the
    argument has no defined value. *)
Definition main (args : list bytes) : M (option Z) :=
  match args with
  | [] => rc ← server_run (lit "0.0.0.0") 7000; mret (Some (if rc =? 0 then 0 else 1))
  | a :: _ =>
      match atoi a with
      | None => mret None
      | Some port =>
          if port <=? 0 then mret (Some 1)
          else rc ← server_run (lit "0.0.0.0") port; mret (Some (if rc =? 0 then 0 else 1))
      end
  end.
End startup.

(** Every binding a script can call is in the table, each name once. *)
Lemma bindings_complete c : binding_name c ∈ agent_bindings.
Proof. destruct c; cbn; repeat (apply elem_of_cons; first [left; reflexivity|right]). Qed.

Lemma bindings_distinct : NoDup agent_bindings.
Proof. apply (bool_decide_eq_true_1 (NoDup agent_bindings)). reflexivity. Qed.

(** ** Events of the loop *)

Section loop.
Context {W : Type} `{!Uv W, !UvNet W}.


End loop.

(** ** Lemmas *)

Section lemmas.
Context {W : Type} `{!Uv W, !UvNet W, !NetLaws W, !Boot W}.
Implicit Types b : BootSt W.












End lemmas.

(** ** Theorems *)


(** A loop in which a session opens a relay, which is still there at the end. *)
#[global] Instance sim_boot : Boot Sim.sim := {
  luaL_newstate w := (true, w);
  luaL_dofile _ w := (true, w);
  lua_close w := w;
  uv_run p := (0, [E_session_new 7; E_open 7 (lit "0.0.0.0") 0 (lit "127.0.0.1") 80])
}.

