(* ===== verification/Shell.v ===== *)
(** * The serial shell ([hello.c])

    A program of its own: a command line over a serial port.  The transport
    is the list of the results of [ReadFile] on the input and the bytes
    written to the output; [Win32 W] is the interface of the system calls it
    makes for commands, over a type [W] of states of the system. *)

From Stdlib Require Import ZArith Lia Bool.
From Stdlib Require Import Strings.Byte Strings.String.
From stdpp Require Import base list numbers option gmap.
From S2P Require Import Prelude CLib.

(** ** The system *)

Class Win32 (W : Type) := {
  (** Whether the call succeeds. *)
  create_pipe : W -> bool * W;
  open_nul : W -> bool * W;
  create_process : bytes -> W -> bool * W;
  create_thread : W -> bool * W;
  get_last_error : W -> Z * W;
  (** [WaitForSingleObject(pi.hProcess, 10000)]: [true] is [WAIT_TIMEOUT]. *)
  wait_process : W -> bool * W;
  (** [WaitForSingleObject(hDrain, 3000)]: whether the thread has ended. *)
  wait_drain : W -> bool * W;
  terminate_process : W -> W;
  (** What the drain thread reads from the pipe until [ReadFile] fails or
      returns no bytes, and how many of its writes come before what the other
      thread writes. *)
  pipe_reads : W -> list bytes * W;
  drain_before : W -> nat * W;
  set_current_directory : bytes -> W -> bool * W;
  (** [GetCurrentDirectoryA(sizeof(cwd), cwd)]: [None] when it returns 0. *)
  get_current_directory : W -> option bytes * W;
  set_environment_variable : bytes -> bytes -> W -> W;
  (** [CreateFileA] of [COM2]. *)
  open_com2 : W -> bool * W;
  (** [SetCommState] with the baud rate, the byte size and stop bits and
      parity as in the [DCB], then [SetCommTimeouts]. *)
  set_comm : Z -> Z -> Z -> Z -> (Z * Z * Z) -> W -> W
}.

(** ** State *)

Definition INVALID_HANDLE_VALUE : Z := -1.

(** The standard handles; handles the program opens have larger numbers. *)
Definition STD_INPUT : Z := 0.
Definition STD_OUTPUT : Z := 1.

(** What must not happen: using or closing a handle that is not open, closing
    one that a thread still reads, passing a string without its NUL. *)
Inductive shell_hazard :=
| SZ_bad_handle (h : Z)
| SZ_handle_in_use
| SZ_unterminated.

(** [sh_in]: the results of [ReadFile] on the input to come, [None] for a
    call that fails or returns no byte; [sh_open]: the handles the program has
    opened and not closed. *)
Record SS (W : Type) := MkSS {
  sh_in : list (option Byte.byte);
  sh_out : bytes;
  sh_debug : list bytes;
  sh_hIn : Z;
  sh_hOut : Z;
  sh_open : list Z;
  sh_next : Z;
  sh_hazards : list shell_hazard;
  sh_world : W
}.
Arguments MkSS {W} _ _ _ _ _ _ _ _ _.
Arguments sh_in {W} _.
Arguments sh_out {W} _.
Arguments sh_debug {W} _.
Arguments sh_hIn {W} _.
Arguments sh_hOut {W} _.
Arguments sh_open {W} _.
Arguments sh_next {W} _.
Arguments sh_hazards {W} _.
Arguments sh_world {W} _.

#[global] Instance SS_eta W : Eta (SS W) := fun s =>
  MkSS (sh_in s) (sh_out s) (sh_debug s) (sh_hIn s) (sh_hOut s) (sh_open s) (sh_next s) (sh_hazards s) (sh_world s).

Definition CRLF : bytes := [CR; LF].
Definition BS : Byte.byte := Byte.x08.
Definition DEL : Byte.byte := Byte.x7f.

(** [_stricmp] and [_strnicmp] on C strings, in the C locale. *)
Definition lower (c : Byte.byte) : Byte.byte :=
  if (65 <=? b2z c) && (b2z c <=? 90) then z2b (b2z c + 32) else c.
Definition stricmp_eq (a b : bytes) : bool := bytes_eqb (map lower a) (map lower b).
Definition strnicmp_eq (a b : bytes) (n : nat) : bool := bytes_eqb (map lower (take n a)) (map lower (take n b)).

(** [_snprintf(dst, size, ...)]: the string left in [dst], [None] when there
    is no room for its NUL. *)
Definition snprintf_ms (size : Z) (text : bytes) : option bytes :=
  if zlen text <? size then Some text else None.

(** The inner loop of [pipe_output] from position [i], with [start]: the
    calls of [WriteFile] it makes. *)
Fixpoint pipe_loop (n : nat) (buf : bytes) (i start : nat) : list bytes :=
  match n with
  | O => if Nat.ltb start (length buf) then [drop start buf] else []
  | S n' =>
      match buf !! i with
      | Some c =>
          if Byte.eqb c LF then
            (if Nat.ltb start i then [take (i - start) (drop start buf)] else [])
            ++ CRLF :: pipe_loop n' buf (S i) (S i)
          else pipe_loop n' buf (S i) start
      | None => pipe_loop n' buf (S i) start
      end
  end.

(** The writes of [pipe_output] for what it reads. *)
Definition pipe_output (reads : list bytes) : list bytes :=
  concat (map (fun buf => pipe_loop (length buf) buf 0 0) reads).

Section shell.
Context {W : Type} `{!Win32 W}.
Notation M := (M (SS W)).

Definition sys {A} (f : W -> A * W) : M A :=
  fun s => match f (sh_world s) with (a, w) => (a, s <| sh_world := w |>) end.
Definition sys_ (f : W -> W) : M unit := modify (upd sh_world f).
Definition sh_report (z : shell_hazard) : M unit := modify (upd sh_hazards (cons z)).

(** A handle from the system, and [CloseHandle]: of a handle that is open,
    the program's own or a standard one. *)
Definition new_handle : M Z :=
  h ← gets sh_next;
  modify (fun s => s <| sh_open ::= cons h |> <| sh_next ::= Z.succ |>);;
  mret h.

Definition close_handle (h : Z) : M unit :=
  opened ← gets sh_open;
  if bool_decide (h ∈ opened) then modify (upd sh_open (List.filter (fun x => negb (x =? h))))
  else if (h =? STD_INPUT) || (h =? STD_OUTPUT) then mret tt
  else sh_report (SZ_bad_handle h).

(** ** Transport *)

Definition tx_writebuf (buf : bytes) : M unit := modify (upd sh_out (fun o => o ++ buf)).
Definition tx_write (s : bytes) : M unit := tx_writebuf (cstr s).

Definition waiting_msg : bytes := lit "serial-shell: waiting for input" ++ [LF].

(** The loop of [tx_read1] on the reads to come: the byte, if one arrives, the
    reads left, and the debug output. *)
Fixpoint read1_loop (input : list (option Byte.byte)) (ticks : Z) :
    option Byte.byte * list (option Byte.byte) * list bytes :=
  match input with
  | [] => (None, [], [])
  | Some c :: input' => (Some c, input', [])
  | None :: input' =>
      let ticks := u32 (ticks + 1) in
      let '(r, rest, dbg) := read1_loop input' ticks in
      (r, rest, (if ticks mod 5 =? 0 then [waiting_msg] else []) ++ dbg)
  end.

(** [None]: no byte arrives and the call does not return. *)
Definition tx_read1 : M (option Byte.byte) :=
  fun s => match read1_loop (sh_in s) 0 with
           | (r, rest, dbg) => (r, s <| sh_in := rest |> <| sh_debug ::= fun d => d ++ dbg |>)
           end.

(** ** The loop *)

Inductive read_end :=
| RE_line (buf : bytes)
| RE_blocked
| RE_fuel.

Fixpoint readline_loop (fuel : nat) (max : nat) (buf : bytes) : M read_end :=
  match fuel with
  | O => mret RE_fuel
  | S fuel' =>
      if negb (Nat.ltb (length buf) (max - 1)) then mret (RE_line buf)
      else
        r ← tx_read1;
        match r with
        | None => mret RE_blocked
        | Some c =>
            if Byte.eqb c CR || Byte.eqb c LF then
              (if Nat.ltb 0 (length buf) then tx_write CRLF else mret tt);;
              mret (RE_line buf)
            else if Byte.eqb c BS || Byte.eqb c DEL then
              if Nat.ltb 0 (length buf) then
                tx_write [BS; Byte.x20; BS];;
                readline_loop fuel' max (take (length buf - 1) buf)
              else readline_loop fuel' max buf
            else
              tx_writebuf [c];;
              readline_loop fuel' max (buf ++ [c])
        end
  end.

(** Every iteration but the last takes a byte of the input. *)
Definition repl_readline (max : nat) : M read_end :=
  n ← gets (fun s => length (sh_in s));
  readline_loop (S (S n)) max [].

Definition exec_error (err : Z) (line : bytes) : bytes :=
  lit "exec failed (" ++ dec (u32 err) ++ lit "): " ++ line ++ CRLF.

Definition timeout_msg : bytes := CRLF ++ lit "[timeout - killed]" ++ CRLF.

(** [err] after [_snprintf]: passing it on is only defined with its NUL. *)
Definition tx_write_err (text : bytes) : M unit :=
  match snprintf_ms 256 text with
  | Some err => tx_write err
  | None => sh_report SZ_unterminated
  end.

(** The two threads write: those of the drain thread in order, those of the
    main thread after [k] of them. *)
Definition interleave (k : nat) (drain : list bytes) (main : bytes) : bytes :=
  concat (take k drain) ++ main ++ concat (drop k drain).

Definition run_cmd (line : bytes) : M unit :=
  ok ← sys create_pipe;
  if negb ok then tx_write (lit "CreatePipe failed" ++ CRLF)
  else
    hRd ← new_handle;
    hWr ← new_handle;
    nul ← sys open_nul;
    hNul ← (if nul : bool then new_handle else mret INVALID_HANDLE_VALUE);
    ok1 ← sys (create_process (default [] (snprintf_ms 600 line)));
    ok ← (if ok1 : bool then mret true
          else sys (create_process (default [] (snprintf_ms 600 (lit "cmd.exe /c " ++ line)))));
    if negb ok then
      err ← sys get_last_error;
      tx_write_err (exec_error err line);;
      close_handle hWr;;
      close_handle hNul;;
      close_handle hRd
    else
      hProcess ← new_handle;
      hThread ← new_handle;
      close_handle hWr;;
      close_handle hNul;;
      thread ← sys create_thread;
      hDrain ← (if thread : bool then new_handle else mret 0);
      reads ← (if thread : bool then sys pipe_reads else mret []);
      k ← sys drain_before;
      timeout ← sys wait_process;
      tx_writebuf (interleave k (pipe_output reads) (if timeout : bool then timeout_msg else []));;
      (if timeout : bool then sys_ terminate_process else mret tt);;
      drained ← (if thread : bool then
                   ended ← sys wait_drain;
                   close_handle hDrain;;
                   mret ended
                 else mret true);
      close_handle hProcess;;
      close_handle hThread;;
      (if drained : bool then mret tt else sh_report SZ_handle_in_use);;
      close_handle hRd.

(** Whether the line was handled. *)
Definition handle_builtin (line : bytes) : M bool :=
  if strnicmp_eq line (lit "echo ") 5 then
    tx_write (drop 5 line);; tx_write CRLF;; mret true
  else if stricmp_eq line (lit "echo") then
    tx_write CRLF;; mret true
  else if strnicmp_eq line (lit "cd ") 3 then
    ok ← sys (set_current_directory (drop 3 line));
    (if negb ok then
       err ← sys get_last_error;
       tx_write_err (lit "cd failed (" ++ dec (u32 err) ++ lit ")" ++ CRLF)
     else mret tt);;
    mret true
  else if stricmp_eq line (lit "cd") || stricmp_eq line (lit "pwd") then
    cwd ← sys get_current_directory;
    (match cwd with
     | Some d => tx_write d;; tx_write CRLF
     | None => mret tt
     end);;
    mret true
  else if strnicmp_eq line (lit "set ") 4 then
    (match strchr (drop 4 line) Byte.x3d with
     | Some i => sys_ (set_environment_variable (take i (drop 4 line)) (drop (S i) (drop 4 line)))
     | None => mret tt
     end);;
    mret true
  else mret false.

Definition banner : bytes := CRLF ++ lit "=== ReactOS Serial Shell ===" ++ CRLF.

Inductive loop_result :=
| LR_exited
| LR_blocked
| LR_fuel.

Fixpoint repl_iter (fuel : nat) : M loop_result :=
  match fuel with
  | O => mret LR_fuel
  | S fuel' =>
      tx_write (lit "$ ");;
      r ← repl_readline 512;
      match r with
      | RE_fuel => mret LR_fuel
      | RE_blocked => mret LR_blocked
      | RE_line buf =>
          if Nat.eqb (length buf) 0 then repl_iter fuel'
          else
            let line := cstr buf in
            if stricmp_eq line (lit "exit") || stricmp_eq line (lit "quit") then mret LR_exited
            else
              handled ← handle_builtin line;
              (if handled : bool then mret tt else run_cmd line);;
              repl_iter fuel'
      end
  end.

Definition repl_loop : M loop_result :=
  tx_write banner;;
  n ← gets (fun s => length (sh_in s));
  r ← repl_iter (S n);
  match r with
  | LR_exited => tx_write (lit "Bye!" ++ CRLF);; mret LR_exited
  | _ => mret r
  end.

(** ** Set-up *)

Definition CBR_115200 : Z := 115200.

Definition init_com2 : M bool :=
  ok ← sys open_com2;
  if negb ok then mret false
  else
    h ← new_handle;
    sys_ (set_comm CBR_115200 8 0 0 (100, 0, 500));;
    modify (fun s => s <| sh_hIn := h |> <| sh_hOut := h |>);;
    mret true.

Definition init_stdio : M unit := modify (fun s => s <| sh_hIn := STD_INPUT |> <| sh_hOut := STD_OUTPUT |>).

Definition output_debug (m : bytes) : M unit := modify (upd sh_debug (fun d => d ++ [m])).

(** [argv] without the name of the program; [None] when the shell does not
    return. *)
Definition main (args : list bytes) : M (option Z) :=
  (if bool_decide (head args = Some (lit "--stdio")) then init_stdio
   else
     ok ← init_com2;
     if negb ok then
       output_debug (lit "serial-shell: Failed to open COM2, using stdio" ++ [LF]);;
       init_stdio
     else output_debug (lit "serial-shell: ready on COM2" ++ [LF]));;
  r ← repl_loop;
  match r with
  | LR_exited =>
      s ← gets (fun s => (sh_hIn s, sh_hOut s));
      (if (s.1 =? s.2) && negb (s.1 =? INVALID_HANDLE_VALUE) then close_handle s.1 else mret tt);;
      mret (Some 0)
  | _ => mret None
  end.
End shell.

(** ** Output of commands *)

(** What a terminal needs: every LF as CR LF. *)
Definition crlf (b : bytes) : bytes := concat (map (fun c => if Byte.eqb c LF then CRLF else [c]) b).

Lemma crlf_app a b : crlf (a ++ b) = crlf a ++ crlf b.
Proof. unfold crlf. by rewrite map_app, concat_app. Qed.

Lemma segment_snoc (buf : bytes) start i c :
  (start <= i)%nat -> buf !! i = Some c ->
  take (S i - start) (drop start buf) = take (i - start) (drop start buf) ++ [c].
Proof.
  intros Hs Hc. replace (S i - start)%nat with (S (i - start)) by lia. apply take_S_r.
  rewrite lookup_drop. by replace (start + (i - start))%nat with i by lia.
Qed.

Lemma pipe_loop_spec n buf i start :
  (i + n = length buf)%nat -> (start <= i)%nat ->
  concat (pipe_loop n buf i start) = take (i - start) (drop start buf) ++ crlf (drop i buf).
Proof.
  revert i start. induction n as [|n IH]; intros i start Hl Hs; cbn [pipe_loop].
  - rewrite (drop_ge buf i) by lia. change (crlf []) with (@nil Byte.byte). rewrite app_nil_r.
    destruct (Nat.ltb start (length buf)) eqn:E.
    + cbn. rewrite app_nil_r. symmetry. apply take_ge. rewrite length_drop. lia.
    + apply Nat.ltb_ge in E. rewrite drop_ge by lia. by rewrite take_nil.
  - destruct (lookup_lt_is_Some_2 buf i) as [c Hc]; [lia|]. rewrite Hc, (drop_S buf c i Hc).
    change (crlf (c :: drop (S i) buf)) with ((if Byte.eqb c LF then CRLF else [c]) ++ crlf (drop (S i) buf)).
    destruct (Byte.eqb c LF) eqn:E.
    + rewrite concat_app. cbn [concat]. rewrite IH by lia. rewrite Nat.sub_diag. cbn [firstn app].
      destruct (Nat.ltb start i) eqn:Eh; [cbn; by rewrite app_nil_r|]. apply Nat.ltb_ge in Eh.
      by replace (i - start)%nat with 0%nat by lia.
    + rewrite IH by lia. rewrite (segment_snoc buf start i c) by done. by rewrite <- app_assoc.
Qed.

Lemma pipe_output_concat reads : concat (pipe_output reads) = crlf (concat reads).
Proof.
  induction reads as [|b reads IH]; [done|]. unfold pipe_output in *. cbn [map concat].
  rewrite concat_app, crlf_app, IH. f_equal. rewrite pipe_loop_spec by lia. done.
Qed.

(** ** Reading a line *)

Definition is_end (c : Byte.byte) : bool := Byte.eqb c CR || Byte.eqb c LF.
Definition is_back (c : Byte.byte) : bool := Byte.eqb c BS || Byte.eqb c DEL.

(** A key at the end of the line. *)
Definition edit (line : bytes) (c : Byte.byte) : bytes :=
  if is_back c then take (length line - 1) line else line ++ [c].

Definition typed (cs : bytes) : bytes := foldl edit [] cs.

(** A terminal: what it shows of the current line, as cells and a cursor. *)
Record term := Term { t_cells : bytes; t_cursor : nat }.

Definition show (t : term) (c : Byte.byte) : term :=
  if Byte.eqb c BS then Term (t_cells t) (t_cursor t - 1)
  else Term (take (t_cursor t) (t_cells t) ++ [c] ++ drop (S (t_cursor t)) (t_cells t)) (S (t_cursor t)).

Definition shows (t : term) (out : bytes) : term := foldl show t out.

(** The terminal shows the line, with the cursor behind it. *)
Definition term_at (line : bytes) (t : term) : Prop :=
  t_cursor t = length line /\ (length line <= length (t_cells t))%nat /\ take (length line) (t_cells t) = line.

Lemma show_char line t c : Byte.eqb c BS = false -> term_at line t -> term_at (line ++ [c]) (show t c).
Proof.
  intros Hc (H1 & H2 & H3). unfold show. rewrite Hc. split; cbn; [rewrite length_app; cbn; lia|].
  rewrite H1, H3. split; [rewrite !length_app; cbn; lia|].
  rewrite (cons_middle c line (drop _ _)), app_assoc. apply take_app_length.
Qed.

Lemma show_back line t :
  line <> [] -> term_at line t -> term_at (take (length line - 1) line) (shows t [BS; Byte.x20; BS]).
Proof.
  intros Hne (H1 & H2 & H3). assert (0 < length line)%nat by (destruct line; [done|cbn; lia]).
  unfold shows. cbn [foldl]. unfold show. cbn.
  assert (Hl : length (take (t_cursor t - 1) (t_cells t)) = (length line - 1)%nat) by (rewrite length_take; lia).
  assert (E : length (take (length line - 1) line) = (length line - 1)%nat) by (rewrite length_take; lia).
  split; cbn; [rewrite E; lia|]. split; [rewrite E, length_app, Hl; lia|].
  rewrite E, take_app_le, take_ge by lia. rewrite H1.
  apply (f_equal (take (length line - 1))) in H3. rewrite take_take, Nat.min_l in H3 by lia. exact H3.
Qed.

Section reading.
Context {W : Type} `{!Win32 W}.
Implicit Types s : SS W.

Lemma read1_shorter input ticks r rest dbg :
  read1_loop input ticks = (r, rest, dbg) ->
  match r with
  | Some c => (S (length rest) <= length input)%nat /\ exists n, input = replicate n None ++ Some c :: rest
  | None => rest = [] /\ exists n, input = replicate n None
  end.
Proof.
  revert ticks r rest dbg. induction input as [|o input IH]; intros ticks r rest dbg.
  { cbn. intros [= <- <- <-]. split; [done|]. by exists 0%nat. }
  destruct o as [c|]; cbn [read1_loop].
  { intros [= <- <- <-]. split; [cbn; lia|]. by exists 0%nat. }
  destruct (read1_loop input (u32 (ticks + 1))) as [[r1 rest1] dbg1] eqn:E. intros [= <- <- <-].
  apply IH in E. destruct r1 as [c|]; destruct E as (H1 & n & ->).
  - split; [cbn in *; lia|]. by exists (S n).
  - split; [done|]. by exists (S n).
Qed.

(** What reading a line leaves alone. *)
Record same_shell s s' : Prop := SameShell {
  sm_world : sh_world s' = sh_world s;
  sm_open : sh_open s' = sh_open s;
  sm_next : sh_next s' = sh_next s;
  sm_hz : sh_hazards s' = sh_hazards s;
  sm_in : sh_hIn s' = sh_hIn s;
  sm_out : sh_hOut s' = sh_hOut s
}.

#[local] Instance same_shell_preorder : PreOrder same_shell.
Proof. split; [by split|]. intros a b c [] []. split; congruence. Qed.

(** The line is what the keys [cs] make of it; it ends with an end-of-line key
    or when the buffer is full; the terminal shows it. *)
Record line_done (max : nat) (line : bytes) s (buf : bytes) s' : Prop := LineDone {
  ld_used : exists used cs fin, sh_in s = used ++ sh_in s' /\ omap id used = cs ++ fin /\
    Forall (fun c => is_end c = false) cs /\ buf = foldl edit line cs /\
    ((fin = [] /\ length buf = (max - 1)%nat) \/
     (exists c, fin = [c] /\ is_end c = true /\ (length buf < max - 1)%nat));
  ld_echo : forall t, term_at line t -> exists echo,
    sh_out s' = sh_out s ++ echo ++ (if decide (length buf = 0 \/ length buf = max - 1)%nat then [] else CRLF) /\
    term_at buf (shows t echo)
}.

(** The loop does not run away and blocks only when no byte is to come. *)
Definition line_read (max : nat) (line : bytes) s (r : read_end) s' : Prop :=
  same_shell s s' /\
  match r with
  | RE_fuel => False
  | RE_blocked => sh_in s' = []
  | RE_line buf => line_done max line s buf s'
  end.

(** One key, then the rest of the line. *)
Lemma line_read_key max line line1 c used s s1 r s' echo :
  same_shell s s1 -> sh_in s = used ++ sh_in s1 -> omap id used = [c] -> is_end c = false -> line1 = edit line c ->
  sh_out s1 = sh_out s ++ echo -> (forall t, term_at line t -> term_at line1 (shows t echo)) ->
  line_read max line1 s1 r s' -> line_read max line s r s'.
Proof.
  intros Hs Hi Hu Hc -> Ho Ht [Hs' Hr]. split; [by transitivity s1|].
  destruct r as [buf| |]; [|done..]. destruct Hr as [(used' & cs & fin & H1 & H2 & H3 & H4 & H5) He]. split.
  - exists (used ++ used'), (c :: cs), fin. split; [by rewrite Hi, H1, app_assoc|].
    split; [by rewrite omap_app, Hu, H2|]. split; [by constructor|]. done.
  - intros t Hterm. destruct (He _ (Ht t Hterm)) as (e & E1 & E2). exists (echo ++ e).
    split; [by rewrite E1, Ho, <- !app_assoc|]. unfold shows in *. by rewrite foldl_app.
Qed.

Lemma omap_none n (c : Byte.byte) : omap id (replicate n None ++ [Some c]) = [c].
Proof. induction n as [|n IH]; [done|exact IH]. Qed.

Lemma readline_loop_spec max fuel line s :
  (length line <= max - 1)%nat -> (length (sh_in s) < fuel)%nat ->
  wp (readline_loop fuel max line) (fun r s' => line_read max line s r s') s.
Proof.
  revert line s. induction fuel as [|fuel IH]; intros line s Hl Hf; [lia|]. cbn [readline_loop].
  destruct (Nat.ltb (length line) (max - 1)) eqn:El; cbn [negb].
  2: { apply Nat.ltb_ge in El. apply wp_ret. split; [done|]. split.
       - exists [], [], []. repeat (split; [done|]). left. split; [done|lia].
       - intros t Ht. exists []. split; [|done]. rewrite decide_True by (right; lia). by rewrite app_nil_r. }
  apply Nat.ltb_lt in El. apply wp_bind. unfold wp at 1, tx_read1.
  destruct (read1_loop (sh_in s) 0) as [[r rest] dbg] eqn:E. apply read1_shorter in E. cbn [fst snd].
  set (s1 := s <| sh_in := rest |> <| sh_debug ::= _ |>).
  assert (Hs1 : same_shell s s1) by (by split). assert (Ho1 : sh_out s1 = sh_out s) by done.
  assert (Hi1 : sh_in s1 = rest) by done. clearbody s1.
  destruct r as [c|].
  2: { apply wp_ret. split; [done|]. rewrite Hi1. apply E. }
  destruct E as (Hlen & n & Hin).
  assert (Hused : sh_in s = (replicate n None ++ [Some c]) ++ sh_in s1) by (by rewrite Hi1, <- app_assoc).
  pose proof (omap_none n c) as Homap. fold (is_end c) (is_back c).
  destruct (is_end c) eqn:Ee.
  - (* the end of the line *)
    assert (Hd : forall s2 tail, same_shell s s2 -> sh_in s2 = sh_in s1 -> sh_out s2 = sh_out s ++ tail ->
      tail = (if decide (length line = 0 \/ length line = max - 1)%nat then [] else CRLF) ->
      line_read max line s (RE_line line) s2).
    { intros s2 tail H2 Hi2 Ho2 ->. split; [done|]. split.
      - exists (replicate n None ++ [Some c]), [], [c]. rewrite Hi2. repeat (split; [done|]). right. by exists c.
      - intros t Ht. by exists []. }
    destruct (Nat.ltb 0 (length line)) eqn:E0; apply wp_bind.
    + apply Nat.ltb_lt in E0. apply wp_modify, wp_ret. eapply Hd; cbn; [|done|by rewrite Ho1|by rewrite decide_False by lia].
      etransitivity; [exact Hs1|by split].
    + apply Nat.ltb_ge in E0. apply wp_ret, wp_ret. eapply Hd; [done|done|by rewrite Ho1, app_nil_r|].
      by rewrite decide_True by lia.
  - destruct (is_back c) eqn:Eb.
    + destruct (Nat.ltb 0 (length line)) eqn:E0.
      * apply Nat.ltb_lt in E0. apply wp_bind, wp_modify. set (s2 := upd sh_out _ s1).
        eapply wp_mono; [apply IH; [rewrite length_take; lia|change (sh_in s2) with (sh_in s1); rewrite Hi1; lia]|].
        intros r s' Hr. refine (line_read_key max line _ c _ s s2 r s' [BS; Byte.x20; BS] _ Hused Homap Ee _ _ _ Hr).
        -- etransitivity; [exact Hs1|by split].
        -- unfold edit. by rewrite Eb.
        -- cbn. by rewrite Ho1.
        -- intros t. apply show_back. intros ->. cbn in E0. lia.
      * apply Nat.ltb_ge in E0. eapply wp_mono; [apply IH; [done|rewrite Hi1; lia]|].
        assert (line = []) as -> by (destruct line; [done|cbn in E0; lia]).
        intros r s' Hr. refine (line_read_key max [] _ c _ s s1 r s' [] Hs1 Hused Homap Ee _ _ _ Hr).
        -- unfold edit. by rewrite Eb.
        -- by rewrite Ho1, app_nil_r.
        -- done.
    + apply wp_bind, wp_modify. set (s2 := upd sh_out _ s1).
      eapply wp_mono; [apply IH; [rewrite length_app; cbn; lia|change (sh_in s2) with (sh_in s1); rewrite Hi1; lia]|].
      intros r s' Hr. refine (line_read_key max line _ c _ s s2 r s' [c] _ Hused Homap Ee _ _ _ Hr).
      -- etransitivity; [exact Hs1|by split].
      -- unfold edit. by rewrite Eb.
      -- cbn. by rewrite Ho1.
      -- intros t. apply show_char. unfold is_back in Eb. by apply orb_false_iff in Eb as [-> _].
Qed.
End reading.

(** ** Handles *)

Section handles.
Context {W : Type} `{!Win32 W}.
Implicit Types s : SS W.

(** The handles the program has open are distinct numbers of its own. *)
Record handles_ok s : Prop := HandlesOk {
  hk_nodup : NoDup (sh_open s);
  hk_range : Forall (fun h => 2 <= h < sh_next s) (sh_open s);
  hk_next : 2 <= sh_next s
}.

(** The only causes of a hazard: [NUL] that cannot be opened, whose handle,
    which is then [INVALID_HANDLE_VALUE], is closed all the same; a drain thread that has not ended after its three
    seconds, whose pipe is closed under it; a command that cannot be started,
    whose message is too long. *)
Definition explained (z : shell_hazard) : Prop :=
  match z with
  | SZ_bad_handle h => h = INVALID_HANDLE_VALUE /\ exists w : W, (open_nul w).1 = false
  | SZ_handle_in_use => exists w : W, (wait_drain w).1 = false
  | SZ_unterminated => exists c (w : W), (create_process c w).1 = false
  end.

(** [s] has the handles [l] more than [s0]; the hazards reported in between
    are explained. *)
Record holds (l : list Z) s0 s : Prop := Holds {
  hl_open : sh_open s = l ++ sh_open s0;
  hl_ok : handles_ok s;
  hl_hazards : exists zs, sh_hazards s = zs ++ sh_hazards s0 /\ Forall explained zs;
  hl_in : sh_in s = sh_in s0;
  hl_tx : sh_hIn s = sh_hIn s0 /\ sh_hOut s = sh_hOut s0
}.

Lemma holds_refl s : handles_ok s -> holds [] s s.
Proof. intros H. split; try done. exists []. split; [done|]. apply Forall_nil_2. Qed.

(** A step that is not about handles. *)
Definition handles_same s s' : Prop :=
  sh_open s' = sh_open s /\ sh_next s' = sh_next s /\ sh_hazards s' = sh_hazards s /\ sh_in s' = sh_in s /\
  sh_hIn s' = sh_hIn s /\ sh_hOut s' = sh_hOut s.

Lemma holds_same l s0 s s' : handles_same s s' -> holds l s0 s -> holds l s0 s'.
Proof.
  intros (H1 & H2 & H3 & H4 & H5 & H6) [Ho [K1 K2 K3] Hz Hi Ht]. split.
  - by rewrite H1.
  - split; rewrite ?H1, ?H2; done.
  - by rewrite H3.
  - by rewrite H4.
  - by rewrite H5, H6.
Qed.

Lemma wp_new_handle l s0 s (Q : Z -> SS W -> Prop) :
  holds l s0 s -> (forall h s', h <> INVALID_HANDLE_VALUE -> holds (h :: l) s0 s' -> Q h s') -> wp new_handle Q s.
Proof.
  intros [Ho [K1 K2 K3] Hz Hi Ht] HQ. unfold new_handle. apply wp_bind, wp_gets, wp_bind, wp_modify, wp_ret.
  apply HQ; [unfold INVALID_HANDLE_VALUE; lia|]. split; cbn; [by rewrite Ho| |done|done|done].
  split; cbn; [| |lia].
  - apply NoDup_cons_2; [|done]. intros Hin. rewrite Forall_forall in K2. apply K2 in Hin. lia.
  - constructor; [lia|]. eapply Forall_impl; [exact K2|]. cbn. lia.
Qed.

Lemma filter_absent h (l : list Z) : h ∉ l -> List.filter (fun x => negb (x =? h)) l = l.
Proof.
  induction l as [|x l IH]; intros H; [done|]. apply not_elem_of_cons in H as [H1 H2]. cbn.
  destruct (x =? h) eqn:E; b2p; [congruence|]. cbn. by rewrite IH.
Qed.

Lemma wp_close_handle l1 h l2 s0 s (Q : unit -> SS W -> Prop) :
  holds (l1 ++ h :: l2) s0 s -> (forall s', holds (l1 ++ l2) s0 s' -> Q tt s') -> wp (close_handle h) Q s.
Proof.
  intros [Ho [K1 K2 K3] Hz Hi Ht] HQ. unfold close_handle. apply wp_bind, wp_gets.
  rewrite Ho, <- app_assoc in *. cbn [app] in *.
  rewrite bool_decide_true by (apply elem_of_app; right; left). apply wp_modify, HQ.
  apply NoDup_app in K1 as (N1 & N2 & N3). apply NoDup_cons in N3 as [N3 N4].
  assert (Ef : List.filter (fun x => negb (x =? h)) (l1 ++ h :: l2 ++ sh_open s0) = l1 ++ l2 ++ sh_open s0).
  { rewrite List.filter_app. cbn. rewrite Z.eqb_refl. cbn. rewrite !filter_absent; [done|done|].
    intros Hin. apply (N2 h Hin). left. }
  split; cbn; [by rewrite Ho, Ef, app_assoc| |done|done|done]. split; cbn; rewrite ?Ho, ?Ef; [| |done].
  - apply NoDup_app. split; [done|]. split; [|done]. intros x Hx Hx'. apply (N2 x Hx). by right.
  - apply Forall_app in K2 as [F1 F2]. apply Forall_app. split; [done|]. by apply Forall_cons in F2 as [_ F2].
Qed.

Lemma wp_sys {A} (f : W -> A * W) l s0 s (Q : A -> SS W -> Prop) :
  holds l s0 s -> (forall a s', (exists w, (f w).1 = a) -> holds l s0 s' -> Q a s') -> wp (sys f) Q s.
Proof.
  intros H HQ. unfold wp, sys. destruct (f (sh_world s)) as [a w] eqn:E. apply HQ.
  - exists (sh_world s). by rewrite E.
  - eapply holds_same; [|exact H]. by repeat split.
Qed.

Lemma wp_quiet (f : SS W -> SS W) l s0 s (Q : unit -> SS W -> Prop) :
  holds l s0 s -> (forall x, handles_same x (f x)) -> (forall s', holds l s0 s' -> Q tt s') -> wp (modify f) Q s.
Proof. intros H Hf HQ. apply wp_modify, HQ. eapply holds_same; [apply Hf|exact H]. Qed.

Lemma wp_report_hz z l s0 s (Q : unit -> SS W -> Prop) :
  holds l s0 s -> explained z -> (forall s', holds l s0 s' -> Q tt s') -> wp (sh_report z) Q s.
Proof.
  intros [Ho [K1 K2 K3] (zs & Hz & Hn) Hi Ht] Hne HQ. apply wp_modify, HQ. split; [done| | |done|done].
  - by split.
  - exists (z :: zs). cbn. rewrite Hz. split; [done|]. by apply Forall_cons_2.
Qed.

Lemma wp_close_invalid s0 l s (Q : unit -> SS W -> Prop) :
  holds l s0 s -> explained (SZ_bad_handle INVALID_HANDLE_VALUE) -> (forall s', holds l s0 s' -> Q tt s') ->
  wp (close_handle INVALID_HANDLE_VALUE) Q s.
Proof.
  intros H Hz HQ. unfold close_handle. apply wp_bind, wp_gets. rewrite bool_decide_false; [by apply (wp_report_hz _ l s0)|].
  intros Hin. destruct H as [_ [_ K2 _] _ _ _]. rewrite Forall_forall in K2. apply K2 in Hin.
  unfold INVALID_HANDLE_VALUE in Hin. lia.
Qed.

Lemma wp_err text l s0 s (Q : unit -> SS W -> Prop) :
  holds l s0 s -> (snprintf_ms 256 text = None -> explained SZ_unterminated) ->
  (forall s', holds l s0 s' -> Q tt s') -> wp (tx_write_err text) Q s.
Proof.
  intros H Hz HQ. unfold tx_write_err. destruct (snprintf_ms 256 text).
  - by apply (wp_quiet _ l s0); [|intros x; repeat split|].
  - by apply (wp_report_hz _ l s0); auto.
Qed.

(** The message of a failed [cd] fits. *)
Lemma cd_error_fits err : snprintf_ms 256 (lit "cd failed (" ++ dec (u32 err) ++ lit ")" ++ CRLF) <> None.
Proof.
  unfold snprintf_ms. rewrite !zlen_app. pose proof (dec_length (u32 err)).
  change (zlen (lit "cd failed (")) with 11. change (zlen (lit ")")) with 1. change (zlen CRLF) with 2.
  destruct (_ <? _) eqn:E; b2p; [done|lia].
Qed.
End handles.

(** A cause of a hazard among the outcomes of the system calls. *)
Ltac explain :=
  cbn [explained];
  lazymatch goal with
  | |- _ /\ _ => split; [reflexivity|explain]
  | |- _ => first [assumption | eexists; eassumption]
  end.

(** Run a command that opens and closes handles. *)
Ltac shell_step :=
  lazymatch goal with
  | H : holds ?l ?s0 ?s |- wp (_ ≫= _) _ ?s => apply wp_bind
  | H : holds ?l ?s0 ?s |- wp (mret _) _ ?s => apply wp_ret
  | H : holds ?l ?s0 ?s |- wp (sys _) _ ?s => apply (wp_sys _ l s0 s _ H); clear H; intros ? ? ? H
  | H : holds ?l ?s0 ?s |- wp new_handle _ ?s => apply (wp_new_handle l s0 s _ H); clear H; intros ? ? ? H
  | H : holds ?l ?s0 ?s |- wp (sys_ _) _ ?s =>
      apply (wp_quiet _ l s0 s _ H); [by intros ?; repeat split|]; clear H; intros ? H
  | H : holds ?l ?s0 ?s |- wp (tx_write _) _ ?s =>
      apply (wp_quiet _ l s0 s _ H); [by intros ?; repeat split|]; clear H; intros ? H
  | H : holds ?l ?s0 ?s |- wp (tx_writebuf _) _ ?s =>
      apply (wp_quiet _ l s0 s _ H); [by intros ?; repeat split|]; clear H; intros ? H
  | H : holds ?l ?s0 ?s |- wp (tx_write_err _) _ ?s => apply (wp_err _ l s0 s _ H); [first [intros _; explain | by intros ?%cd_error_fits]|]; clear H; intros ? H
  | H : holds ?l ?s0 ?s |- wp (sh_report _) _ ?s => apply (wp_report_hz _ l s0 s _ H); [explain|]; clear H; intros ? H
  | H : holds ?l ?s0 ?s |- wp (close_handle INVALID_HANDLE_VALUE) _ ?s =>
      apply (wp_close_invalid s0 l s _ H); [explain|]; clear H; intros ? H
  | H : holds (?h :: ?l) ?s0 ?s |- wp (close_handle ?h) _ ?s =>
      apply (wp_close_handle [] h l s0 s _ H); clear H; intros ? H; cbn [app] in H
  | H : holds (?a :: ?h :: ?l) ?s0 ?s |- wp (close_handle ?h) _ ?s =>
      apply (wp_close_handle [a] h l s0 s _ H); clear H; intros ? H; cbn [app] in H
  | H : holds (?a :: ?b :: ?h :: ?l) ?s0 ?s |- wp (close_handle ?h) _ ?s =>
      apply (wp_close_handle [a; b] h l s0 s _ H); clear H; intros ? H; cbn [app] in H
  | H : holds (?a :: ?b :: ?c :: ?h :: ?l) ?s0 ?s |- wp (close_handle ?h) _ ?s =>
      apply (wp_close_handle [a; b; c] h l s0 s _ H); clear H; intros ? H; cbn [app] in H
  | |- wp (if negb ?b then _ else _) _ _ => destruct b; cbn [negb]
  | |- wp (if ?b then _ else _) _ _ => destruct b
  | |- wp (match ?o with Some _ => _ | None => _ end) _ _ => destruct o
  end.

Section shell_safe.
Context {W : Type} `{!Win32 W}.
Implicit Types s : SS W.

Lemma run_cmd_holds line s : handles_ok s -> wp (run_cmd line) (fun _ s' => holds [] s s') s.
Proof. intros H%holds_refl. unfold run_cmd. repeat shell_step; done. Qed.

Lemma handle_builtin_holds line s : handles_ok s -> wp (handle_builtin line) (fun _ s' => holds [] s s') s.
Proof. intros H%holds_refl. unfold handle_builtin. repeat shell_step; done. Qed.

(** What a run of the shell keeps: the handles, and no handle misused. *)
Record tidy s s' : Prop := Tidy {
  td_open : sh_open s' = sh_open s;
  td_ok : handles_ok s';
  td_hazards : exists zs, sh_hazards s' = zs ++ sh_hazards s /\ Forall explained zs;
  td_tx : sh_hIn s' = sh_hIn s /\ sh_hOut s' = sh_hOut s
}.

Lemma tidy_trans a b c : tidy a b -> tidy b c -> tidy a c.
Proof.
  intros [A1 A2 (za & A3 & A4) [A5 A6]] [B1 B2 (zb & B3 & B4) [B5 B6]]. split; [congruence|done| |split; congruence].
  exists (zb ++ za). rewrite B3, A3, app_assoc. split; [done|]. by apply Forall_app.
Qed.

Lemma holds_tidy s s' : holds [] s s' -> tidy s s'.
Proof. intros [H1 H2 H3 _ H4]. by split. Qed.

Lemma same_tidy s s' : handles_ok s -> same_shell s s' -> tidy s s'.
Proof.
  intros [K1 K2 K3] [H1 H2 H3 H4 H5 H6]. split; [done| | |done].
  - by split; rewrite ?H2, ?H3.
  - exists []. split; [done|]. apply Forall_nil_2.
Qed.

(** A line takes at least one read. *)
Lemma line_done_shorter max s buf s' :
  (1 < max)%nat -> line_done max [] s buf s' -> (length (sh_in s') < length (sh_in s))%nat.
Proof.
  intros Hm [(used & cs & fin & H1 & H2 & _ & H3 & H4) _]. rewrite H1, length_app.
  destruct used as [|o used]; [|cbn; lia]. cbn in H2. symmetry in H2. apply app_eq_nil in H2 as [-> ->].
  cbn in H3. rewrite H3 in H4. cbn in H4. destruct H4 as [[_ H4]|(c & [=] & _)]. lia.
Qed.

Lemma readline_spec max s :
  (1 <= max)%nat -> wp (repl_readline max) (fun r s' => line_read max [] s r s') s.
Proof.
  intros Hm. unfold repl_readline. apply wp_bind, wp_gets. apply readline_loop_spec; cbn; lia.
Qed.

Definition iter_post s (r : loop_result) s' : Prop :=
  tidy s s' /\ match r with LR_exited => True | LR_blocked => sh_in s' = [] | LR_fuel => False end.

Lemma repl_iter_spec fuel s :
  handles_ok s -> (length (sh_in s) < fuel)%nat -> wp (repl_iter fuel) (iter_post s) s.
Proof.
  revert s. induction fuel as [|fuel IH]; intros s Hok Hf; [lia|]. cbn [repl_iter].
  apply wp_bind, wp_modify. set (s0 := upd sh_out _ s).
  assert (T0 : tidy s s0) by (apply same_tidy; [done|by split]).
  assert (Hi0 : sh_in s0 = sh_in s) by done. clearbody s0.
  apply wp_bind. eapply wp_mono; [apply readline_spec; lia|]. intros r s1 [Hs Hr].
  assert (T1 : tidy s s1) by (eapply tidy_trans; [exact T0|by apply same_tidy, Hs; apply T0]).
  destruct r as [buf| |]; [|by apply wp_ret|done].
  pose proof (line_done_shorter 512 s0 buf s1 ltac:(lia) Hr) as Hlt. rewrite Hi0 in Hlt.
  assert (Hgo : forall s2, tidy s1 s2 -> sh_in s2 = sh_in s1 -> wp (repl_iter fuel) (iter_post s) s2).
  { intros s2 T2 Hi2. eapply wp_mono; [apply IH; [apply T2|rewrite Hi2; lia]|].
    intros r s3 [T3 H3]. split; [|done]. by eapply tidy_trans; [exact T1|eapply tidy_trans]. }
  assert (Trefl : tidy s1 s1) by (apply same_tidy; [apply T1|by split]).
  destruct (Nat.eqb (length buf) 0); [by apply Hgo|]. destruct (_ || _); [by apply wp_ret|].
  apply wp_bind. eapply wp_mono; [apply handle_builtin_holds, T1|]. intros handled s2 H2.
  destruct handled; apply wp_bind.
  - apply wp_ret, Hgo; [by apply holds_tidy|apply H2].
  - eapply wp_mono; [apply run_cmd_holds, H2|]. intros ? s3 H3. apply Hgo.
    + eapply tidy_trans; [apply holds_tidy, H2|by apply holds_tidy].
    + rewrite (hl_in _ _ _ H3). apply H2.
Qed.

Lemma repl_loop_spec s : handles_ok s -> wp repl_loop (iter_post s) s.
Proof.
  intros Hok. unfold repl_loop. apply wp_bind, wp_modify. set (s0 := upd sh_out _ s).
  assert (T0 : tidy s s0) by (apply same_tidy; [done|by split]). clearbody s0.
  apply wp_bind, wp_gets, wp_bind. eapply wp_mono; [apply repl_iter_spec; [apply T0|lia]|].
  intros r s1 [T1 H1]. assert (T : tidy s s1) by (by eapply tidy_trans).
  destruct r; [|by apply wp_ret|done]. apply wp_bind, wp_modify, wp_ret. split; [|done].
  eapply tidy_trans; [exact T|]. apply same_tidy; [apply T|by split].
Qed.

(** The transport after the set-up: the port the program has opened, or the
    standard handles. *)
Definition set_up s s1 : Prop :=
  handles_ok s1 /\ sh_hazards s1 = sh_hazards s /\
  ((sh_open s1 = sh_open s /\ sh_hIn s1 <> sh_hOut s1) \/
   (sh_hIn s1 = sh_hOut s1 /\ sh_hIn s1 <> INVALID_HANDLE_VALUE /\ sh_open s1 = sh_hIn s1 :: sh_open s)).

Lemma main_init s args :
  handles_ok s ->
  wp (if bool_decide (head args = Some (lit "--stdio")) then init_stdio
      else
        ok ← init_com2;
        if negb ok then
          output_debug (lit "serial-shell: Failed to open COM2, using stdio" ++ [LF]);;
          init_stdio
        else output_debug (lit "serial-shell: ready on COM2" ++ [LF])) (fun _ s1 => set_up s s1) s.
Proof.
  intros Hok. pose proof Hok as [K1 K2 K3]. case_bool_decide.
  { apply wp_modify. split; [by split|]. split; [done|]. by left. }
  apply wp_bind. unfold init_com2. apply wp_bind. unfold wp at 1, sys. destruct (open_com2 (sh_world s)) as [ok w].
  cbn [fst snd]. destruct ok; cbn [negb].
  - unfold new_handle. do 2 apply wp_bind. apply wp_gets. apply wp_bind, wp_modify, wp_ret.
    apply wp_bind, wp_modify, wp_bind, wp_modify, wp_ret. apply wp_modify. split; [split; cbn; [| |lia]|].
    + apply NoDup_cons_2; [|done]. intros Hin. rewrite Forall_forall in K2. apply K2 in Hin. lia.
    + constructor; [lia|]. eapply Forall_impl; [exact K2|]. cbn. lia.
    + split; [done|]. right. cbn. split; [done|]. split; [unfold INVALID_HANDLE_VALUE; lia|done].
  - apply wp_ret. apply wp_bind, wp_modify, wp_modify. split; [by split|]. split; [done|]. by left.
Qed.

(** The end of [main]: a port the program opened is closed. *)
Lemma main_end s s1 s2 :
  set_up s s1 -> tidy s1 s2 ->
  wp (x ← gets (fun s => (sh_hIn s, sh_hOut s));
      (if (x.1 =? x.2) && negb (x.1 =? INVALID_HANDLE_VALUE) then close_handle x.1 else mret tt);;
      mret (Some 0))
    (fun r s' => r = Some 0 /\ sh_open s' = sh_open s /\
      exists zs, sh_hazards s' = zs ++ sh_hazards s /\ Forall explained zs) s2.
Proof.
  intros (Hok & Hz & Hcase) [T1 T2 (zs & T3 & T4) [T5 T6]]. rewrite Hz in T3. apply wp_bind, wp_gets, wp_bind. cbn [fst snd].
  rewrite T5, T6. destruct Hcase as [[Ho Hne]|(He & Hne & Ho)].
  - destruct (sh_hIn s1 =? sh_hOut s1) eqn:E; b2p; [done|]. cbn [andb]. apply wp_ret, wp_ret.
    split; [done|]. split; [congruence|]. by exists zs.
  - rewrite <- He, Z.eqb_refl. destruct (sh_hIn s1 =? INVALID_HANDLE_VALUE) eqn:E; b2p; [done|]. cbn [andb negb].
    apply (wp_close_handle [] (sh_hIn s1) [] (s2 <| sh_open := sh_open s |>) s2).
    + split; [by cbn; rewrite T1, Ho|done| |done|done]. exists []. split; [done|]. apply Forall_nil_2.
    + intros s' [Ho' _ (zs' & Hz' & Hn') _ _]. apply wp_ret. split; [done|]. split; [done|]. cbn in Hz'.
      exists (zs' ++ zs). rewrite Hz', T3, app_assoc. split; [done|]. by apply Forall_app.
Qed.
End shell_safe.

(** ** Theorems *)

(** C36: The output of a command arrives as the terminal needs it: however the
    pipe cuts it into reads, [pipe_output] writes it with every LF replaced by
    CR LF and nothing else changed. *)
Theorem pipe_output_is_crlf reads : concat (pipe_output reads) = crlf (concat reads).
Proof. apply pipe_output_concat. Qed.

(** C16: Reading a line: [repl_readline] takes keys up to an end-of-line key or
    until its buffer is full, returns what they edit (a backspace or DEL takes
    the last character away), within the buffer, and a terminal that receives
    its echo shows exactly that line; it waits for ever only when no byte is
    to come. *)
Theorem readline_edits `{!Win32 W} max (s : SS W) :
  (1 <= max)%nat ->
  let '(r, s') := repl_readline max s in
  match r with
  | RE_fuel => False
  | RE_blocked => sh_in s' = []
  | RE_line buf =>
      (length buf <= max - 1)%nat /\
      (exists used cs fin, sh_in s = used ++ sh_in s' /\ omap id used = cs ++ fin /\
        Forall (fun c => is_end c = false) cs /\ buf = typed cs /\
        ((fin = [] /\ length buf = (max - 1)%nat) \/
         (exists c, fin = [c] /\ is_end c = true /\ (length buf < max - 1)%nat))) /\
      (exists echo tail, sh_out s' = sh_out s ++ echo ++ tail /\ (tail = [] \/ tail = CRLF) /\
        term_at buf (shows (Term [] 0) echo))
  end.
Proof.
  intros Hm. pose proof (readline_spec max s Hm) as H. unfold wp in H.
  destruct (repl_readline max s) as [r s']. destruct H as [_ H]. destruct r as [buf| |]; [|done|done].
  destruct H as [Hu He]. split; [|split; [exact Hu|]].
  - destruct Hu as (used & cs & fin & _ & _ & _ & _ & Hc). destruct Hc as [[_ Hc]|(c & _ & _ & Hc)]; cbn in Hc; lia.
  - destruct (He (Term [] 0)) as (echo & E1 & E2); [by split|]. eexists echo, _. split; [exact E1|].
    split; [|done]. case_decide; auto.
Qed.

(** C15: The shell comes to an end and cleans up: [main] either returns 0, with
    every handle it opened closed again, or is waiting for input that does not
    come; and whatever is typed and however the system calls fail, each
    misuse has one of three causes: no handle is closed that is not open, but
    for [INVALID_HANDLE_VALUE] after [NUL] could not be opened; a pipe is
    closed while a thread may read it only when the thread has not ended in
    time; and a string without its NUL is passed on only for a command that
    could not be started. *)
Theorem shell_tidy `{!Win32 W} args (s : SS W) :
  handles_ok s ->
  let '(r, s') := main args s in
  match r with
  | Some rc => rc = 0 /\ sh_open s' = sh_open s
  | None => sh_in s' = []
  end /\
  exists zs, sh_hazards s' = zs ++ sh_hazards s /\ Forall explained zs.
Proof.
  intros Hok. assert (H : wp (main args) (fun r s' =>
    match r with Some rc => rc = 0 /\ sh_open s' = sh_open s | None => sh_in s' = [] end /\
    exists zs, sh_hazards s' = zs ++ sh_hazards s /\ Forall explained zs) s).
  { unfold main. apply wp_bind. eapply wp_mono; [by apply main_init|]. intros ? s1 Hs1. apply wp_bind.
    eapply wp_mono; [apply repl_loop_spec, Hs1|]. intros r s2 [T H]. destruct r; [| |done].
    - eapply wp_mono; [by apply (main_end s s1 s2)|]. intros r s3 (-> & Ho & Hz). by split.
    - apply wp_ret. split; [done|]. destruct T as [_ _ (zs & T3 & T4) _]. destruct Hs1 as (_ & Hz & _).
      exists zs. by rewrite T3, Hz. }
  unfold wp in H. by destruct (main args s).
Qed.

(** A command that cannot be started, with a long line. *)
Lemma exec_error_long `{!Win32 W} err line (s : SS W) :
  256 <= 19 + zlen line ->
  (tx_write_err (exec_error err line) s).2 = s <| sh_hazards ::= cons SZ_unterminated |>.
Proof.
  intros Hl. unfold tx_write_err, snprintf_ms, exec_error. rewrite !zlen_app. pose proof (dec_positive (u32 err)).
  change (zlen (lit "exec failed (")) with 13. change (zlen (lit "): ")) with 3. change (zlen CRLF) with 2.
  destruct (_ <? 256) eqn:E; b2p; [lia|done].
Qed.

Lemma close_keeps_hazards `{!Win32 W} h (s : SS W) : sh_hazards s `suffix_of` sh_hazards (close_handle h s).2.
Proof.
  unfold close_handle. rewrite bind_run. cbn [gets fst snd]. destruct (bool_decide _); [done|].
  destruct (_ || _); [done|]. by apply suffix_cons_r.
Qed.

(** C40: The error message of a command that cannot be started overruns its
    buffer: [_snprintf] leaves no NUL when the message has 256 bytes or more,
    which lines the shell accepts (up to 511 bytes) can make it, and
    the message is then passed on as a string. *)
Theorem exec_error_unterminated `{!Win32 W} line (s : SS W) :
  (forall c w, (create_process (W := W) c w).1 = false) -> (forall w, (create_pipe (W := W) w).1 = true) ->
  237 <= zlen line ->
  SZ_unterminated ∈ sh_hazards (run_cmd line s).2.
Proof.
  intros Hp Hc Hl. enough (wp (run_cmd line) (fun _ s' => SZ_unterminated ∈ sh_hazards s') s) as H by exact H.
  assert (Hsys : forall A (f : W -> A * W) (Q : A -> SS W -> Prop) x,
    (forall w, Q (f (sh_world x)).1 (x <| sh_world := w |>)) -> wp (sys f) Q x).
  { intros A f Q x H. unfold wp, sys. specialize (H (f (sh_world x)).2). by destruct (f (sh_world x)). }
  unfold run_cmd. apply wp_bind, Hsys. intros w1. rewrite Hc. cbn [negb]. apply wp_bind. unfold wp at 1. apply wp_bind.
  unfold wp at 1. apply wp_bind, Hsys. intros w2. apply wp_bind. unfold wp at 1. apply wp_bind, Hsys. intros w3.
  apply wp_bind. rewrite Hp. apply Hsys. intros w4. rewrite Hp. cbn [negb]. apply wp_bind, Hsys. intros w5.
  apply wp_bind. unfold wp at 1. rewrite exec_error_long by lia. set (x := _ <| sh_hazards ::= _ |>).
  assert (Hx : SZ_unterminated ∈ sh_hazards x) by left. clearbody x.
  assert (Hcl : forall h (y : SS W), SZ_unterminated ∈ sh_hazards y -> SZ_unterminated ∈ sh_hazards (close_handle h y).2).
  { intros h y Hy. destruct (close_keeps_hazards h y) as [zs ->]. apply elem_of_app. by right. }
  apply wp_bind. unfold wp at 1. apply wp_bind. unfold wp at 1. by apply Hcl, Hcl, Hcl.
Qed.

(** ** Examples *)

(** A system whose only command is [run], with the working directory. *)
#[global] Instance win_sim : Win32 bytes := {
  create_pipe w := (true, w);
  open_nul w := (true, w);
  create_process c w := (bytes_eqb c (lit "run"), w);
  create_thread w := (true, w);
  get_last_error w := (2, w);
  wait_process w := (false, w);
  wait_drain w := (true, w);
  terminate_process w := w;
  pipe_reads w := ([lit "a" ++ [LF] ++ lit "b"; [LF]], w);
  drain_before w := (0%nat, w);
  set_current_directory d w := (true, d);
  get_current_directory w := (Some w, w);
  set_environment_variable _ _ w := w;
  open_com2 w := (true, w);
  set_comm _ _ _ _ _ w := w
}.

#[global] Instance no_commands : Win32 unit := {
  create_pipe w := (true, w);
  open_nul w := (true, w);
  create_process c w := (false, w);
  create_thread w := (true, w);
  get_last_error w := (2, w);
  wait_process w := (false, w);
  wait_drain w := (true, w);
  terminate_process w := w;
  pipe_reads w := ([], w);
  drain_before w := (0%nat, w);
  set_current_directory d w := (true, w);
  get_current_directory w := (None, w);
  set_environment_variable _ _ w := w;
  open_com2 w := (false, w);
  set_comm _ _ _ _ _ w := w
}.

Definition shell_start {W} (w : W) (input : bytes) : SS W := MkSS (map Some input) [] [] (-1) (-1) [] 2 [] w.

Lemma shell_start_ok {W} (w : W) input : handles_ok (shell_start w input).
Proof. split; cbn; [constructor|constructor|lia]. Qed.

(** A mistyped [ruq], corrected, then [exit]. *)
Definition session_input : bytes := lit "ruq" ++ [BS] ++ lit "n" ++ [CR] ++ lit "exit" ++ [CR].

Lemma readline_edits_witness :
  exists s', repl_readline 512 (shell_start (lit "C:") session_input) = (RE_line (lit "run"), s') /\
    exists echo tail, sh_out s' = echo ++ tail /\ (tail = [] \/ tail = CRLF) /\ term_at (lit "run") (shows (Term [] 0) echo).
Proof.
  pose proof (readline_edits 512 (shell_start (lit "C:") session_input) ltac:(lia)) as H.
  destruct (repl_readline 512 (shell_start (lit "C:") session_input)) as [r s'] eqn:E.
  assert (Er : r = RE_line (lit "run")) by (change r with (r, s').1; rewrite <- E; vm_compute; reflexivity).
  rewrite Er in H |- *. exists s'. split; [reflexivity|]. destruct H as (_ & _ & H). exact H.
Defined.

Lemma shell_tidy_witness :
  (main [] (shell_start (lit "C:") session_input)).1 = Some 0 /\
  sh_open (main [] (shell_start (lit "C:") session_input)).2 = [].
Proof.
  pose proof (shell_tidy [] (shell_start (lit "C:") session_input) (shell_start_ok _ _)) as H.
  destruct (main [] (shell_start (lit "C:") session_input)) as [r s'] eqn:E.
  assert (Er : r = Some 0) by (change r with (r, s').1; rewrite <- E; vm_compute; reflexivity).
  rewrite Er in H |- *. split; [reflexivity|]. exact (proj2 (proj1 H)).
Defined.

Lemma exec_error_unterminated_witness :
  SZ_unterminated ∈ sh_hazards (run_cmd (replicate 237 Byte.x78) (shell_start tt [])).2.
Proof.
  refine (exec_error_unterminated (replicate 237 Byte.x78) (shell_start tt []) _ _ _); [done|done|vm_compute; discriminate].
Defined.
